(* ===== verification/_CoqProject ===== *)
-Q . S2P
Prelude.v
Bytes.v
Cdr.v
Message.v
Codegen.v
Names.v
MsgText.v
Qos.v
RawSerdata.v
SerdataOps.v
DdsConfig.v
Dds.v
MockDds.v
Pubsub.v
Service.v
Params.v
ParamRpc.v
ParamThreads.v
Executor.v
ExecutorRun.v
ExecutorCancel.v
ExecutorWake.v
SpinDelivery.v
Json.v
Graph.v
GraphRun.v
NodeCtor.v
GraphCtor.v
Ffi.v
FfiFacts.v
FfiThreads.v
FfiSafety.v
GraphExecutor.v
GraphExecutorFacts.v
NodeRegistry.v
GraphTeardown.v
GraphHandles.v
Examples.v
AbcGraph.v
AbcLaunch.v
ExampleMains.v
EndToEnd.v
DebugRaw.v
