(* ===== verification/Prelude.v ===== *)
(** A verification development for rcllite, a small ROS 2 client library on
    CycloneDDS (src/src/rcllite, src/src/ffi, src/tools), and its example
    programs (src/examples).

    ** The program

    A node owns a DDS participant and a list of waitable entities.  Publishers
    and subscriptions exchange CDR-encoded messages through an opaque serdata
    that rcllite plugs into CycloneDDS; services and clients are two such
    channels plus a header with the client's identity and a sequence number.  An
    executor attaches the conditions of all entities to a waitset and dispatches
    those that trigger.  Parameters are a store with six services; the graph
    monitor is a passive observer with its own thread; the graph executor launches
    a whole topology from a document; the FFI exposes all of this as integer
    handles.

    ** The files

    - Prelude: outcomes of C++ code ([Ok], [Throw], [Undefined]), the state and
      exception monad [stM], machine integers, [star], list slices, tactics.
    - Bytes: byte strings, the [std::string] members the code calls,
      little-endian integers, [std::to_string], the order of strings.
    - Cdr (cdr.hpp): [CdrWriter] and [CdrReader], the latter with every bounds
      check at [size_t] width and every read outside its buffer [Undefined].
    - Message (msg_traits.hpp): the interface [Message] with its laws; sequences.
    - Codegen (tools/msg_codegen.py): the serialize and deserialize members the
      generator emits, as functions of the schema; discharges [MessageLaws].
    - MsgText (tools/msg_codegen.py, bazel/rules/msg.bzl): from the text of .msg and
      .srv files to schemas; the names of headers and types.
    - Names (names.cpp), Qos (qos.hpp and [make_dds_qos]).
    - RawSerdata (dds/raw_serdata.cpp): fragments, blobs, padding; SerdataOps: the
      tables of operations, the interface [DdsiRefc] to the counts of CycloneDDS,
      slices lent to the network.
    - DdsConfig (dds/entities.cpp, [InitDds_] of the FFI): environment variables,
      the [Context] singleton and its race with [configure], the configuration.
    - Dds (dds/entities.hpp and .cpp): the interfaces [DdsReader], [DdsWriter]
      and [DdsFactory] with their laws; write, take and the life of entities.
    - MockDds (tests/mock/mock_ddsc.cc): instances of those interfaces.
    - Pubsub (publisher.hpp, subscription.hpp), Service (service.hpp).
    - Params (parameter.cpp, parameter.hpp, node_params.hpp); ParamRpc: the six
      services over the wire, as one server that refines a map; ParamThreads: the
      locked sections of the handlers interleaved with other threads.
    - Executor (executor.cpp and the entity list of node.cpp): the interface
      [DdsWaitset], attachments and reconciliation; ExecutorRun: rounds, spin,
      cancellation, concurrent additions, and the waitset of the test double;
      ExecutorCancel: [spin] and [cancel] on several threads, the free [spin];
      ExecutorWake: entities that come while the executor waits; SpinDelivery: the
      interface [DdsReaders] to the readers behind the conditions, from publisher
      through the executor to the callback.
    - Json (json_writer.hpp): escaping, a reference parser and its round trip.
    - Graph (graph.cpp): discovery state, poll thread, snapshot; GraphRun: the
      thread at work and the witnesses.
    - NodeCtor (node.cpp, node_impl.hpp, the constructor in parameter.cpp);
      GraphCtor (graph.cpp): construction and destruction of the graph monitor.
    - Ffi (ffi/rcllite_ffi.cpp): the registry of nodes and their endpoints, one
      definition per exported function and per section of it that other threads
      can overtake, the objects on their heaps, and the process as a step
      relation; FfiFacts: its invariant and the calls under the registry lock;
      FfiThreads: the other calls, step by step; FfiSafety: what they guarantee,
      and a process for the witnesses.
    - GraphExecutor (graph_executor.cpp): the interface [JsonDoc] to the JSON
      library, construction, publishing, status; GraphExecutorFacts: what a
      topology becomes, what is counted; GraphTeardown: the destructor, with the
      nodes, the executor and the publishing threads.
    - NodeRegistry (node_registry.hpp): the interface [FactoryRegistry] to the
      registry of vila, registration and the classes a topology names.
    - GraphHandles (ffi/rcllite_ffi.cpp from line 311): the graph monitor and the
      graph executors behind handles.
    - Examples (examples/talker.cpp, listener.cpp, service_server.cpp,
      service_client.cpp, parameters_demo.cpp); AbcGraph (examples/graph/
      abc_graph.cpp): the callbacks, the check and the running pipeline; AbcLaunch:
      its classes and its topology; ExampleMains: the mains on one CycloneDDS.
    - EndToEnd: compositions, from pub_publish to a Python callback and from a
      launched publisher to a launched subscription.
    - DebugRaw (tools/debug_raw.cpp): the dump of a raw topic.

    ** How the code is modelled

    Code that can fail is a function into [outcome]; code with state is in [stM],
    where an exception leaves the updates made before it in place.  Undefined
    behaviour is a value, [Undefined], and the safety theorems exclude it.
    CycloneDDS is never defined: it is the operations of the classes above, and a
    theorem assumes only their laws, which the test double of the repository
    satisfies.  Loops that are not structural take fuel; the theorems say how
    much is enough ([take]: a round per 16 samples; [wait_for]: a poll per 10 ms;
    [spin]: two rounds once the cancel guard is raised; a publisher's thread: the
    round in which its flag is cleared).  Threads are step relations closed by
    [star], or an operation whose reads see different states.  Shared pointers are
    addresses in a heap from which an object is removed when the last reference
    the model counts is gone.

    ** What is shown

    - Bytes: every generated message type round-trips; decoding arbitrary bytes
      stays inside the buffer and gives a value of the type; definition files are
      read as they were written; a lent slice stays
      readable until it is given back; fragments are reassembled in bounds; a blob
      arrives as it was sent, padded; the bulk path writes what the loop writes.
    - Names and configuration: distinct ROS names never share a DDS topic;
      relative names expand to valid ones; QoS and configuration reach CycloneDDS
      unchanged.
    - Data path: take drains its reader; dispatch survives malformed samples and
      throwing callbacks; what is published reaches the callback, each once and
      in order; a call returns exactly the response of the server, a reply
      completes one request of its own client, a failed call leaves nothing.
    - Execution: no entity is lost whatever is added and removed between rounds;
      reconciliation keeps its books and is idempotent; a round handles every
      trigger once, and a message published to one of its subscriptions has
      reached the callback when the round ends; a cancel from any thread at any moment ends the spin; the
      executor does not sleep over an entity added by another thread.
    - Parameters, nodes and the graph: the store and its services on every
      branch, seen by remote clients as a map; under concurrency events go out in
      the order of the changes and every answer says what was changed, although
      atomic requests can mix; what nodes and endpoints create and take back; the snapshot is
      JSON that reads back as exactly the discovery state.
    - Bindings: handles are never reused and stay dead once destroyed; no step of
      a call or a spin uses a destroyed object, whatever is destroyed meanwhile,
      and nothing outlives its last reference; calls that nothing overtakes are
      the sequence of their steps; a destroyed subscription is silent; publishing
      checks its payload; what is published reaches the callback, padded, in order.
    - Launching: a topology becomes exactly the nodes and endpoints written in it,
      all driven by the executor; the counters are what CycloneDDS accepted, and
      those of the two ends agree.  A destroyed topology joins its threads while
      everything is alive and leaves nothing behind.  A class in a topology is the
      one registered under its name.
    - Examples: the talker stops after its count and the listener prints what it
      sent; the service client exits as its server answers; the parameters demo finds its parameters; the check of the pipeline
      accepts exactly consecutive inputs with their running sums, and in a run
      without loss it fails only on what was still on its way.
    - Where the code does not do this, the theorem says what it does: the races
      of configure, call, and reconciliation with another thread, more than 64
      triggers, malformed samples on the monitor's thread, constructors that
      throw half-way, raw pointers kept over an unlock in the graph
      tools.  These are the findings of the manifest.

    ** Not modelled

    Logging, the [vila] status, JSON and registry library, the TVM FFI call layer,
    the fixed text of generated headers, the construction of a node in
    [NodeCreate_] as more than one step, what classes of nodes destroy of their
    own when a topology ends, floating-point values other than as bit patterns, sleeping and
    clocks except as arguments, memory exhaustion, and the Python and Bazel code. *)
From stdpp Require Import base tactics list numbers.
From Stdlib Require Import ZArith Lia Sorting.Sorted.

#[global] Arguments Nat.div : simpl never.
#[global] Arguments Nat.modulo : simpl never.

(* ------------------------------------------------------------------ *)
(** * Outcomes of C++ code *)

(** The exception classes the sources raise: [rcl::Error] carrying one of the
    three [vila::ErrorCode]s used under src/ ([InvalidArguments],
    [InternalError], [WaitTimeout]), the [ValueError] of the FFI layer, an
    exception of the C++ library ([std::future_error], [std::out_of_range], ...),
    and an exception thrown by user code (a callback). *)
Inductive exn : Type :=
| InvalidArguments
| InternalError
| WaitTimeout
| ValueError
| StdException
| UserException.

#[global] Instance exn_eq_dec : EqDecision exn.
Proof. solve_decision. Defined.

(** The outcome of evaluating C++ code: a value, a thrown exception, or
    undefined behaviour (an out-of-bounds access, a trap representation, a use
    after free).  The last one is what the safety theorems exclude. *)
Inductive outcome (A : Type) : Type :=
| Ok (a : A)
| Throw (e : exn)
| Undefined.
Arguments Ok {A} _.
Arguments Throw {A} _.
Arguments Undefined {A}.

#[global] Instance outcome_ret : MRet outcome := fun A a => Ok a.
#[global] Instance outcome_bind : MBind outcome := fun A B f m =>
  match m with
  | Ok a => f a
  | Throw e => Throw e
  | Undefined => Undefined
  end.
#[global] Instance outcome_fmap : FMap outcome := fun A B f m =>
  match m with
  | Ok a => Ok (f a)
  | Throw e => Throw e
  | Undefined => Undefined
  end.

(** [try { m } catch (const std::exception &) { h }]. *)
Definition try_catch {A} (m : outcome A) (h : exn -> outcome A) : outcome A :=
  match m with Throw e => h e | _ => m end.

Definition is_Ok {A} (m : outcome A) : bool :=
  match m with Ok _ => true | _ => false end.

(** The outcome is defined: no undefined behaviour was reached. *)
Definition defined {A} (m : outcome A) : Prop := m <> Undefined.

Lemma bind_Ok_inv {A B} (f : A -> outcome B) (m : outcome A) (b : B) :
  mbind f m = Ok b -> exists a, m = Ok a /\ f a = Ok b.
Proof. destruct m; simpl; intros; simplify_eq; eauto. Qed.

Lemma defined_bind {A B} (f : A -> outcome B) (m : outcome A) :
  defined m -> (forall a, m = Ok a -> defined (f a)) -> defined (mbind f m).
Proof. unfold defined. destruct m; simpl; naive_solver. Qed.

Lemma defined_Ok {A} (a : A) : defined (Ok a).
Proof. done. Qed.

Lemma defined_Throw {A} (e : exn) : defined (@Throw A e).
Proof. done. Qed.

Create HintDb rcl discriminated.
#[export] Hint Resolve defined_Ok defined_Throw : rcl.

(** A notation scope for the outcome monad. *)
Declare Scope rcl_scope.
Delimit Scope rcl_scope with rcl.
Notation "'let*' x ':=' m 'in' k" := (mbind (fun x => k) m)
  (at level 10, x pattern, m at level 100, k at level 200) : rcl_scope.
Open Scope rcl_scope.

(* ------------------------------------------------------------------ *)
(** * Stateful code *)

(** Code that updates a state of type [S]: an exception leaves the updates made
    before it in place. *)
Definition stM (S A : Type) : Type := S -> outcome A * S.

#[global] Instance stM_ret {S} : MRet (stM S) := fun A a s => (Ok a, s).
#[global] Instance stM_bind {S} : MBind (stM S) := fun A B f m s =>
  match m s with
  | (Ok a, s) => f a s
  | (Throw e, s) => (Throw e, s)
  | (Undefined, s) => (Undefined, s)
  end.

Definition st_get {S} : stM S S := fun s => (Ok s, s).
Definition st_modify {S} (f : S -> S) : stM S unit := fun s => (Ok tt, f s).
Definition st_run {S A} (f : S -> A * S) : stM S A := fun s => let (a, s) := f s in (Ok a, s).
Definition st_throw {S A} (e : exn) : stM S A := fun s => (Throw e, s).

(** A computation on values, run inside stateful code. *)
Definition st_lift {S A} (m : outcome A) : stM S A := fun s => (m, s).

(** [try { m } catch (const std::exception &) { h }]. *)
Definition st_try {S A} (m : stM S A) (h : exn -> stM S A) : stM S A := fun s =>
  match m s with
  | (Throw e, s) => h e s
  | r => r
  end.

(** A loop over a list. *)
Fixpoint st_iter {S A} (f : A -> stM S unit) (l : list A) : stM S unit :=
  match l with
  | [] => mret tt
  | a :: l => mbind (fun _ => st_iter f l) (f a)
  end.

(** A loop that collects a result for each element. *)
Fixpoint st_map {S A B} (f : A -> stM S B) (l : list A) : stM S (list B) :=
  match l with
  | [] => mret []
  | a :: l => mbind (fun b => mbind (fun bs => mret (b :: bs)) (st_map f l)) (f a)
  end.

Lemma st_bind_Ok {S A B} (m : stM S A) (k : A -> stM S B) s a s' :
  m s = (Ok a, s') -> mbind k m s = k a s'.
Proof. intros H. unfold mbind, stM_bind. by rewrite H. Qed.

Lemma st_bind_Throw {S A B} (m : stM S A) (k : A -> stM S B) s e s' :
  m s = (Throw e, s') -> mbind k m s = (Throw e, s').
Proof. intros H. unfold mbind, stM_bind. by rewrite H. Qed.

Lemma st_bind_inv {S A B} (m : stM S A) (k : A -> stM S B) s o s' :
  mbind k m s = (o, s') ->
  (exists a s1, m s = (Ok a, s1) /\ k a s1 = (o, s')) \/
  (exists e, m s = (Throw e, s') /\ o = Throw e) \/ (m s = (Undefined, s') /\ o = Undefined).
Proof. unfold mbind, stM_bind. destruct (m s) as [[a|e|] s1]; intros; simplify_eq; eauto 6. Qed.

Lemma st_bind_inv_Ok {S A B} (m : stM S A) (k : A -> stM S B) s b s' :
  mbind k m s = (Ok b, s') -> exists a s1, m s = (Ok a, s1) /\ k a s1 = (Ok b, s').
Proof. intros [?|[(? & _ & ?)|[_ ?]]]%st_bind_inv; done. Qed.

Lemma st_iter_app {S A} (f : A -> stM S unit) l k s s' :
  st_iter f l s = (Ok tt, s') -> st_iter f (l ++ k) s = st_iter f k s'.
Proof.
  revert s. induction l as [|a l IH]; intros s H; simpl in *; [by injection H as ->|].
  unfold mbind, stM_bind in *. destruct (f a s) as [[[]|e|] s1]; try done. by apply IH.
Qed.

Lemma st_iter_prefix_Ok {S A} (f : A -> stM S unit) l k s o s1 s' :
  st_iter f l s = (o, s1) -> st_iter f (l ++ k) s = (Ok tt, s') -> o = Ok tt.
Proof.
  revert s. induction l as [|a l IH]; intros s E1 E; simpl in *; [by injection E1|].
  unfold mbind, stM_bind in *. destruct (f a s) as [[[]|e|] s2]; try done. by eapply IH.
Qed.

(** [m] reaches no undefined behaviour, whatever the state. *)
Definition st_defined {S A} (m : stM S A) : Prop := forall s, fst (m s) <> Undefined.

Section st_defined.
Context {S A B : Type}.

Lemma st_defined_ret (a : A) : st_defined (S := S) (mret a).
Proof. done. Qed.

Lemma st_defined_throw e : st_defined (S := S) (A := A) (st_throw e).
Proof. done. Qed.

Lemma st_defined_lift (m : outcome A) : defined m -> st_defined (S := S) (st_lift m).
Proof. intros Hm s. exact Hm. Qed.

Lemma st_defined_modify (f : S -> S) : st_defined (st_modify f).
Proof. done. Qed.

Lemma st_defined_get : st_defined (S := S) st_get.
Proof. done. Qed.

Lemma st_defined_bind (m : stM S A) (k : A -> stM S B) :
  st_defined m -> (forall a, st_defined (k a)) -> st_defined (mbind k m).
Proof.
  intros Hm Hk s. specialize (Hm s). unfold mbind, stM_bind.
  destruct (m s) as [[a|e|] s1]; simpl in *; [apply Hk|done|done].
Qed.

Lemma st_defined_try (m : stM S A) (h : exn -> stM S A) :
  st_defined m -> (forall e, st_defined (h e)) -> st_defined (st_try m h).
Proof.
  intros Hm Hh s. specialize (Hm s). unfold st_try.
  destruct (m s) as [[a|e|] s1]; simpl in *; [done|apply Hh|done].
Qed.

Lemma st_defined_if (c : bool) (m k : stM S A) : st_defined m -> st_defined k -> st_defined (if c then m else k).
Proof. by destruct c. Qed.
End st_defined.

Lemma st_defined_iter {S B} (f : B -> stM S unit) l : (forall b, st_defined (f b)) -> st_defined (st_iter f l).
Proof. intros Hf. induction l; simpl; [done|]. apply st_defined_bind; auto. Qed.

#[export] Hint Resolve st_defined_ret st_defined_throw st_defined_lift st_defined_modify st_defined_get
  st_defined_bind st_defined_try st_defined_if st_defined_iter : rcl.

(* ------------------------------------------------------------------ *)
(** * Machine integers *)

(** Values of the unsigned types [uintN_t], with their wrap-around, and the
    two's complement reading of the signed types [intN_t]. *)
Definition uwrap (bits : Z) (z : Z) : Z := z `mod` 2 ^ bits.
Definition swrap (bits : Z) (z : Z) : Z :=
  (z + 2 ^ (bits - 1)) `mod` 2 ^ bits - 2 ^ (bits - 1).

Definition u8 := uwrap 8.
Definition u32 := uwrap 32.
Definition u64 := uwrap 64.
Definition i32 := swrap 32.
Definition i64 := swrap 64.

Definition in_u (bits z : Z) : Prop := (0 <= z < 2 ^ bits)%Z.
Definition in_s (bits z : Z) : Prop := (- 2 ^ (bits - 1) <= z < 2 ^ (bits - 1))%Z.

#[global] Instance in_s_dec bits z : Decision (in_s bits z).
Proof. unfold in_s. apply _. Defined.

Lemma uwrap_small bits z : in_u bits z -> uwrap bits z = z.
Proof. intros. apply Z.mod_small. done. Qed.

Lemma uwrap_range bits z : (0 <= bits)%Z -> in_u bits (uwrap bits z).
Proof. intros. apply Z.mod_pos_bound. lia. Qed.

Lemma swrap_small bits z : (0 < bits)%Z -> in_s bits z -> swrap bits z = z.
Proof.
  intros Hb [Hl Hr]. unfold swrap.
  assert (2 ^ bits = 2 * 2 ^ (bits - 1))%Z
    by (rewrite <- Z.pow_succ_r by lia; f_equal; lia).
  rewrite Z.mod_small; lia.
Qed.

Lemma swrap_range bits z : (0 < bits)%Z -> in_s bits (swrap bits z).
Proof.
  intros Hb. unfold swrap, in_s.
  assert (2 ^ bits = 2 * 2 ^ (bits - 1))%Z
    by (rewrite <- Z.pow_succ_r by lia; f_equal; lia).
  pose proof (Z.mod_pos_bound (z + 2 ^ (bits - 1)) (2 ^ bits)). lia.
Qed.

Lemma swrap_uwrap bits z : (0 < bits)%Z -> swrap bits (uwrap bits z) = swrap bits z.
Proof.
  intros Hb. unfold swrap, uwrap. f_equal. apply Zplus_mod_idemp_l.
Qed.

#[export] Hint Resolve uwrap_range swrap_range : rcl.

(* ------------------------------------------------------------------ *)
(** * Transition systems *)

(** Reflexive transitive closure, used by the interleaving models. *)
Inductive star {S : Type} (R : S -> S -> Prop) : S -> S -> Prop :=
| star_refl s : star R s s
| star_step s1 s2 s3 : R s1 s2 -> star R s2 s3 -> star R s1 s3.
Arguments star_refl {S R} s.
Arguments star_step {S R} s1 s2 s3 _ _.

Lemma star_invariant {S} (R : S -> S -> Prop) (I : S -> Prop) :
  (forall s s', R s s' -> I s -> I s') ->
  forall s s', star R s s' -> I s -> I s'.
Proof. intros Hstep s s' H. induction H; eauto. Qed.

Lemma star_trans {S} (R : S -> S -> Prop) s1 s2 s3 :
  star R s1 s2 -> star R s2 s3 -> star R s1 s3.
Proof. induction 1; eauto using star. Qed.

#[export] Hint Constructors star : rcl.

(* ------------------------------------------------------------------ *)
(** * Lists *)

Section lists.
Context {A : Type}.
Implicit Types l k : list A.

(** [slice p n l] is the memory range [l+p, l+p+n), when it is in bounds. *)
Definition slice (p n : nat) (l : list A) : option (list A) :=
  if decide (p + n <= length l) then Some (take n (drop p l)) else None.

Lemma slice_app l k t : slice (length l) (length k) (l ++ k ++ t) = Some k.
Proof.
  unfold slice. rewrite decide_True by (rewrite !length_app; lia).
  by rewrite drop_app_length, take_app_length.
Qed.

Lemma slice_Some_length p n l k : slice p n l = Some k -> length k = n.
Proof.
  unfold slice. case_decide; intros; simplify_eq.
  rewrite length_take, length_drop. lia.
Qed.

Lemma slice_in_bounds p n l : p + n <= length l -> is_Some (slice p n l).
Proof. intros. unfold slice. rewrite decide_True by done. eauto. Qed.

Lemma slice_None p n l : slice p n l = None <-> length l < p + n.
Proof. unfold slice. case_decide; naive_solver lia. Qed.

Lemma drop_S_app l x k : drop (S (length l)) (l ++ x :: k) = k.
Proof. induction l; simpl; auto. Qed.

Lemma foldl_app_acc {B} (f : list A -> B -> list A) (g : B -> list A) :
  (forall acc b, f acc b = acc ++ g b) ->
  forall bs acc, foldl f acc bs = acc ++ concat (map g bs).
Proof.
  intros Hf bs. induction bs as [|b bs IH]; intros acc; simpl.
  - by rewrite app_nil_r.
  - by rewrite IH, Hf, <- app_assoc.
Qed.

Lemma elem_of_concat_map {B} (f : B -> list A) (bs : list B) b x : b ∈ bs -> x ∈ f b -> x ∈ concat (map f bs).
Proof.
  intros Hb Hx. induction bs as [|c bs IH]; [by apply not_elem_of_nil in Hb|]. simpl. apply elem_of_app.
  apply elem_of_cons in Hb as [->|Hb]; [by left|right; by apply IH].
Qed.

Lemma elem_of_concat_map_inv {B} (f : B -> list A) (bs : list B) x :
  x ∈ concat (map f bs) -> exists b, b ∈ bs /\ x ∈ f b.
Proof.
  induction bs as [|c bs IH]; simpl; [by intros []%not_elem_of_nil|]. intros [Hx|Hx]%elem_of_app.
  - exists c. split; [by left|done].
  - destruct (IH Hx) as (b & ? & ?). exists b. split; [by right|done].
Qed.
End lists.

(** A run whose result is known, with its final state left abstract. *)
Lemma pair_eq {A B} (p : A * B) a : fst p = a -> p = (a, snd p).
Proof. destruct p. simpl. by intros ->. Qed.

(** A growing sequence of handles. *)
Lemma StronglySorted_snoc l (h : Z) :
  StronglySorted Z.lt l -> Forall (fun x => x < h)%Z l -> StronglySorted Z.lt (l ++ [h]).
Proof.
  intros Hs. induction Hs as [|x l Hs IH Hx]; simpl; intros Hb; [by repeat constructor|].
  inversion Hb; subst. constructor; [by apply IH|]. apply Forall_app. split; [done|]. by constructor.
Qed.

(** [split_guards] splits on the innermost test of the goal or of a hypothesis
    and simplifies the equations it leaves. *)
Ltac split_guards :=
  repeat (case_match || case_decide || case_bool_decide); simplify_eq/=.

(** [inv_ok H] peels the binds off a hypothesis [m = Ok a]. *)
Ltac inv_ok H :=
  let a := fresh "a" in let H1 := fresh "Hm" in
  apply bind_Ok_inv in H as (a & H1 & H).

(** [decide_closed] proves a closed decidable goal by evaluation. *)
Ltac decide_closed :=
  match goal with |- ?P => apply (bool_decide_eq_true_1 P); vm_compute; reflexivity end.
