(* ===== verification/Bytes.v ===== *)
(** Bytes and the [std::string] / integer-representation facts used by every
    other file: a byte string is a [list byte] (std::string, std::vector<uint8_t>
    and the 16 octets of a GUID alike); string literals of the sources are
    written [lit "..."]. *)
From Stdlib Require Import String DecimalString DecimalZ.
From stdpp Require Import base tactics list numbers countable sorting sets list_numbers.
From Stdlib Require Import ZArith Lia Strings.Byte.
From S2P Require Import Prelude.
Export StringSyntax.

Abbreviation byte := Init.Byte.byte.
Abbreviation bytes := (list Init.Byte.byte).

#[global] Instance byte_eq_decision : EqDecision byte := Byte.byte_eq_dec.
#[global] Program Instance byte_countable : Countable byte :=
  inj_countable Byte.to_N Byte.of_N _.
Next Obligation. intros b. apply Byte.of_to_N. Qed.

(** A C++ string literal. *)
Definition lit (s : String.string) : bytes := String.list_byte_of_string s.

Arguments lit _%_string.

(** The value of a byte read as [uint8_t], and the byte of an integer. *)
Definition Z_of_byte (b : byte) : Z := Z.of_N (Byte.to_N b).
Definition byte_of_Z (z : Z) : byte :=
  match Byte.of_N (Z.to_N (u8 z)) with Some b => b | None => x00 end.

Lemma Z_of_byte_range b : in_u 8 (Z_of_byte b).
Proof.
  unfold in_u, Z_of_byte. pose proof (Byte.to_N_bounded b). lia.
Qed.

Lemma byte_of_Z_of_byte b : byte_of_Z (Z_of_byte b) = b.
Proof.
  unfold byte_of_Z, u8. rewrite uwrap_small by apply Z_of_byte_range.
  unfold Z_of_byte. rewrite N2Z.id. by rewrite Byte.of_to_N.
Qed.

Lemma Z_of_byte_of_Z z : Z_of_byte (byte_of_Z z) = u8 z.
Proof.
  unfold byte_of_Z, Z_of_byte.
  assert (Hr : in_u 8 (u8 z)) by (apply uwrap_range; lia). unfold in_u in Hr.
  destruct (Byte.of_N (Z.to_N (u8 z))) as [b|] eqn:E.
  - apply Byte.to_of_N in E. rewrite E. lia.
  - apply Byte.of_N_None_iff in E. lia.
Qed.

#[global] Instance Z_of_byte_inj : Inj (=) (=) Z_of_byte.
Proof. intros a b H. by rewrite <- (byte_of_Z_of_byte a), H, byte_of_Z_of_byte. Qed.

#[export] Hint Resolve Z_of_byte_range : rcl.

(* ------------------------------------------------------------------ *)
(** * Little-endian integers: the object representation [memcpy] copies *)

Fixpoint le_split (n : nat) (z : Z) : bytes :=
  match n with
  | O => []
  | S n => byte_of_Z z :: le_split n (z / 256)
  end.

Fixpoint le_combine (l : bytes) : Z :=
  match l with
  | [] => 0
  | b :: l => Z_of_byte b + 256 * le_combine l
  end.

Lemma length_le_split n z : length (le_split n z) = n.
Proof. revert z. induction n; intros; simpl; auto. Qed.

Lemma pow256 n : (2 ^ (8 * Z.of_nat (S n)) = 256 * 2 ^ (8 * Z.of_nat n))%Z.
Proof.
  replace (8 * Z.of_nat (S n))%Z with (8 + 8 * Z.of_nat n)%Z by lia.
  rewrite Z.pow_add_r by lia. lia.
Qed.

Lemma le_combine_split n z : le_combine (le_split n z) = uwrap (8 * Z.of_nat n) z.
Proof.
  revert z. induction n as [|n IH]; intros z.
  - unfold uwrap. simpl. by rewrite Z.mod_1_r.
  - cbn [le_split le_combine]. rewrite IH, Z_of_byte_of_Z.
    unfold u8, uwrap. rewrite pow256. change (2 ^ 8)%Z with 256%Z.
    rewrite (Z.rem_mul_r z) by lia. done.
Qed.

Lemma le_combine_range l : in_u (8 * Z.of_nat (length l)) (le_combine l).
Proof.
  unfold in_u. induction l as [|b l IH].
  - simpl. lia.
  - cbn [length le_combine]. rewrite pow256.
    pose proof (Z_of_byte_range b) as Hb. unfold in_u in Hb. lia.
Qed.

Lemma le_split_combine l : le_split (length l) (le_combine l) = l.
Proof.
  induction l as [|b l IH]; [done|]. cbn [length le_split le_combine].
  pose proof (Z_of_byte_range b) as Hb. unfold in_u in Hb.
  f_equal.
  - apply (inj Z_of_byte). rewrite Z_of_byte_of_Z. unfold u8, uwrap.
    rewrite Z.mul_comm, Z.mod_add by lia. apply Z.mod_small. lia.
  - rewrite Z.mul_comm, Z.div_add by lia. rewrite Z.div_small by lia.
    by rewrite Z.add_0_l.
Qed.


(* ------------------------------------------------------------------ *)
(** * The [std::string] members the sources call *)

(** [s.find(c, p)]: the first index at or after [p] that holds [c]. *)
Fixpoint find_char_aux (c : byte) (s : bytes) (i : nat) : option nat :=
  match s with
  | [] => None
  | d :: s => if decide (d = c) then Some i else find_char_aux c s (S i)
  end.
Definition find_char_from (c : byte) (p : nat) (s : bytes) : option nat :=
  find_char_aux c (drop p s) p.
Definition find_char (c : byte) (s : bytes) : option nat := find_char_from c 0 s.

(** [s.rfind(c)]: the last index that holds [c]. *)
Fixpoint rfind_char (c : byte) (s : bytes) : option nat :=
  match s with
  | [] => None
  | d :: s =>
      match rfind_char c s with
      | Some i => Some (S i)
      | None => if decide (d = c) then Some 0 else None
      end
  end.

(** [s.find(t)] for a string [t]. *)
Fixpoint find_sub (t s : bytes) : option nat :=
  if decide (take (length t) s = t) then Some 0
  else match s with
       | [] => None
       | _ :: s => S <$> find_sub t s
       end.

(** [s.rfind(t, 0) == 0]: [s] starts with [t]. *)
Definition starts_with (t s : bytes) : bool := bool_decide (take (length t) s = t).

(** [s.compare(s.size() - t.size(), t.size(), t) == 0], for [t] no longer than
    [s]: [s] ends with [t]. *)
Definition ends_with (t s : bytes) : bool :=
  bool_decide (drop (length s - length t) s = t).

(** [s.substr(p, n)]. *)
Definition substr (p n : nat) (s : bytes) : bytes := take n (drop p s).

Lemma find_char_aux_spec c s i :
  match find_char_aux c s i with
  | Some j => exists p q, s = p ++ (c :: q) /\ c ∉ p /\ j = i + length p
  | None => c ∉ s
  end.
Proof.
  revert i. induction s as [|d s IH]; intros i; simpl; [set_solver|].
  case_decide as Hd; subst.
  - exists [], s. simpl. split_and!; [done|set_solver|lia].
  - specialize (IH (S i)). destruct (find_char_aux c s (S i)).
    + destruct IH as (p & q & -> & Hp & ->). exists (d :: p), q.
      split_and!; [done|set_solver|simpl; lia].
    + set_solver.
Qed.

Lemma find_char_Some c s j :
  find_char c s = Some j -> exists q, s = take j s ++ (c :: q) /\ c ∉ take j s /\ j < length s.
Proof.
  unfold find_char, find_char_from. rewrite drop_0.
  pose proof (find_char_aux_spec c s 0) as H. intros E. rewrite E in H.
  destruct H as (p & q & -> & Hp & ->). exists q. simpl.
  rewrite take_app_length, length_app. simpl. split_and!; [done|done|lia].
Qed.

Lemma find_char_None c s : find_char c s = None <-> c ∉ s.
Proof.
  unfold find_char, find_char_from. rewrite drop_0.
  pose proof (find_char_aux_spec c s 0) as H.
  destruct (find_char_aux c s 0).
  - destruct H as (p & q & -> & _). split; [done|set_solver].
  - done.
Qed.

Lemma find_char_app c p q : c ∉ p -> find_char c (p ++ (c :: q)) = Some (length p).
Proof.
  intros Hp. pose proof (find_char_aux_spec c (p ++ (c :: q)) 0) as H.
  unfold find_char, find_char_from. rewrite drop_0.
  destruct (find_char_aux c (p ++ (c :: q)) 0).
  - destruct H as (p' & q' & Heq & Hp' & ->). f_equal. simpl.
    revert p' Heq Hp'. induction p as [|x p IH]; intros [|y p'] Heq Hp'; simplify_eq/=;
      [done|set_solver|set_solver|]. f_equal. apply IH; set_solver.
  - set_solver.
Qed.

Lemma find_char_from_spec c p s :
  match find_char_from c p s with
  | Some j => p <= j /\ s !! j = Some c /\ forall i, p <= i < j -> s !! i <> Some c
  | None => forall i, p <= i -> s !! i <> Some c
  end.
Proof.
  unfold find_char_from. pose proof (find_char_aux_spec c (drop p s) p) as H.
  assert (Hd : forall i, p <= i -> s !! i = drop p s !! (i - p)).
  { intros i Hi. rewrite lookup_drop. f_equal. lia. }
  destruct (find_char_aux c (drop p s) p) as [j|].
  - destruct H as (q & r & E & Hn & ->). split; [lia|]. split.
    + rewrite Hd, E by lia. rewrite lookup_app_r by lia.
      by replace (p + length q - p - length q) with 0 by lia.
    + intros i Hi Hc. rewrite Hd, E, lookup_app_l in Hc by lia.
      by apply list_elem_of_lookup_2 in Hc.
  - intros i Hi Hc. rewrite Hd in Hc by done. by apply list_elem_of_lookup_2 in Hc.
Qed.

Lemma rfind_char_None c s : rfind_char c s = None <-> c ∉ s.
Proof.
  induction s as [|d s IH]; simpl; [set_solver|].
  destruct (rfind_char c s); [|case_decide]; set_solver.
Qed.

Lemma rfind_char_app c p q : c ∉ q -> rfind_char c (p ++ (c :: q)) = Some (length p).
Proof.
  intros Hq. induction p as [|x p IH]; simpl.
  - apply rfind_char_None in Hq. rewrite Hq. by rewrite decide_True.
  - by rewrite IH.
Qed.

Lemma rfind_char_Some c s j :
  rfind_char c s = Some j -> exists p q, s = p ++ (c :: q) /\ c ∉ q /\ j = length p.
Proof.
  revert j. induction s as [|d s IH]; intros j; simpl; [done|].
  destruct (rfind_char c s) as [i|] eqn:E.
  - intros [= <-]. destruct (IH i eq_refl) as (p & q & -> & Hq & ->).
    exists (d :: p), q. done.
  - case_decide; intros; simplify_eq. exists [], s. split_and!; [done| |done].
    by apply rfind_char_None.
Qed.

Lemma find_sub_None_cons t d s :
  find_sub t (d :: s) = None -> take (length t) (d :: s) <> t /\ find_sub t s = None.
Proof.
  cbn [find_sub]. case_decide; [done|]. destruct (find_sub t s); naive_solver.
Qed.

(** [find] reports absence exactly when no occurrence exists. *)
Lemma find_sub_None t s : find_sub t s = None <-> ~ exists p q, s = p ++ t ++ q.
Proof.
  split.
  - intros E (p & q & ->). induction p as [|x p IH].
    + simpl in E. destruct (t ++ q) eqn:Et; cbn [find_sub] in E;
        case_decide as Hd; try done; apply Hd; rewrite <- Et; by rewrite take_app_length.
    + apply find_sub_None_cons in E as [_ E]. by apply IH.
  - intros Hn. induction s as [|d s IH]; cbn [find_sub].
    + case_decide as Hd; [|done]. exfalso. apply Hn. exists [], [].
      rewrite take_nil in Hd. by rewrite <- Hd.
    + case_decide as Hd.
      * exfalso. apply Hn. exists [], (drop (length t) (d :: s)).
        rewrite <- Hd at 1. simpl. by rewrite take_drop.
      * rewrite IH; [done|]. intros (p & q & ->). apply Hn. by exists (d :: p), q.
Qed.

Lemma find_sub_Some t s j :
  find_sub t s = Some j ->
  exists q, s = take j s ++ t ++ q /\ j = length (take j s).
Proof.
  revert j. induction s as [|d s IH]; intros j; cbn [find_sub]; case_decide as Hd.
  - intros [= <-]. exists []. rewrite take_nil in Hd. by rewrite <- Hd.
  - done.
  - intros [= <-]. exists (drop (length t) (d :: s)).
    rewrite <- Hd at 1. by rewrite take_drop.
  - destruct (find_sub t s) as [i|] eqn:E; [|done]. simpl. intros [= <-].
    destruct (IH i eq_refl) as (q & Hs & Hl). exists q. simpl. by rewrite <- Hs, <- Hl.
Qed.

Lemma starts_with_spec t s : starts_with t s = true <-> exists q, s = t ++ q.
Proof.
  unfold starts_with. rewrite bool_decide_eq_true. split.
  - intros H. exists (drop (length t) s). rewrite <- H at 1. by rewrite take_drop.
  - intros [q ->]. by rewrite take_app_length.
Qed.

Lemma ends_with_spec t s : ends_with t s = true <-> exists p, s = p ++ t.
Proof.
  unfold ends_with. rewrite bool_decide_eq_true. split.
  - intros H. exists (take (length s - length t) s). 
    transitivity (take (length s - length t) s ++ drop (length s - length t) s);
      [by rewrite take_drop|by rewrite H].
  - intros [p ->]. rewrite length_app, Nat.add_sub. by rewrite drop_app_length.
Qed.

(* ------------------------------------------------------------------ *)
(** * The order of [std::string] and of [memcmp]: lexicographic, unsigned *)

Fixpoint bytes_leb (s t : bytes) : bool :=
  match s, t with
  | [], _ => true
  | _ :: _, [] => false
  | a :: s, b :: t =>
      if decide (a = b) then bytes_leb s t else (Z_of_byte a <? Z_of_byte b)%Z
  end.
Definition bytes_le (s t : bytes) : Prop := bytes_leb s t = true.

#[global] Instance bytes_le_dec : RelDecision bytes_le.
Proof. intros s t. unfold bytes_le. apply _. Defined.

Lemma bytes_leb_cons a s b t :
  bytes_leb (a :: s) (b :: t) =
  if decide (a = b) then bytes_leb s t else (Z_of_byte a <? Z_of_byte b)%Z.
Proof. done. Qed.

#[global] Instance bytes_le_total : Total bytes_le.
Proof.
  intros s. induction s as [|a s IH]; intros [|b t]; unfold bytes_le; [by left..|by right|].
  rewrite !bytes_leb_cons. repeat case_decide; subst; try done; [apply IH|].
  assert (Z_of_byte a <> Z_of_byte b) by (intros ?%(inj Z_of_byte); done). lia.
Qed.

#[global] Instance bytes_le_trans : Transitive bytes_le.
Proof.
  intros s. induction s as [|a s IH]; intros [|b t] [|c u]; unfold bytes_le; try done.
  rewrite !bytes_leb_cons. repeat case_decide; subst; try done; try lia.
  apply IH.
Qed.

#[global] Instance bytes_le_refl : Reflexive bytes_le.
Proof. intros s. by destruct (total bytes_le s s). Qed.

#[global] Instance bytes_le_antisymm : AntiSymm (=) bytes_le.
Proof.
  intros s. induction s as [|a s IH]; intros [|b t]; unfold bytes_le; try done.
  rewrite !bytes_leb_cons. repeat case_decide; subst; try done; try lia.
  intros. f_equal. by apply IH.
Qed.

(* ------------------------------------------------------------------ *)
(** * [std::to_string] of an integer *)

Definition to_string (z : Z) : bytes :=
  lit (NilEmpty.string_of_int (Z.to_int z)).

Lemma lit_inj s t : lit s = lit t -> s = t.
Proof.
  unfold lit. intros H. rewrite <- (String.string_of_list_byte_of_string s), H.
  apply String.string_of_list_byte_of_string.
Qed.

(** Decimal printing loses nothing. *)
Lemma to_string_inj z1 z2 : to_string z1 = to_string z2 -> z1 = z2.
Proof.
  intros H%lit_inj.
  apply (f_equal NilEmpty.int_of_string) in H.
  rewrite !NilEmpty.isi in H. simplify_eq. by apply DecimalZ.to_int_inj.
Qed.

Example to_string_0 : to_string 0 = lit "0".
Proof. reflexivity. Qed.
Example to_string_neg : to_string (-65535) = lit "-65535".
Proof. reflexivity. Qed.
