(* ===== verification/Cdr.v ===== *)
(** The CDR writer and reader (src/src/rcllite/cdr.hpp).

    [Module CdrWriter] is class CdrWriter: its state is the buffer [buf_],
    encapsulation header included, and each member function maps the buffer to
    the new buffer.  [Module CdrReader] is class CdrReader: the state is the
    buffer and the position [pos_], and each member function is a state-passing
    function into [outcome]; a read past the buffer is a thrown error where the
    code checks it and [Undefined] where it would not.  [size_t] arithmetic is
    taken modulo 2^64, so the checks are the ones the compiled code makes.
    Scalars are copied with memcpy, so the layout is the little-endian host's.

    [reads] relates a reader to the writer output it decodes, whatever follows
    it in the buffer; [safe] says that a reader run on arbitrary bytes stays
    inside the buffer. *)
From stdpp Require Import base tactics list numbers.
From Stdlib Require Import ZArith Lia Strings.Byte.
From S2P Require Import Prelude Bytes.

(** A buffer that fits in memory: no std::vector reaches 2^63 bytes. *)
Definition in_memory (b : bytes) : Prop := (Z.of_nat (length b) < 2 ^ 63)%Z.

(* ------------------------------------------------------------------ *)
Module CdrWriter.

Definition init : bytes := [x00; x01; x00; x00].

Definition payload_offset (w : bytes) : Z := Z.of_nat (length w) - 4.

Definition align_to (n : Z) (w : bytes) : bytes :=
  let pad := ((n - (payload_offset w) `mod` n) `mod` n)%Z in
  w ++ replicate (Z.to_nat pad) x00.

Definition write_bytes (data : bytes) (w : bytes) : bytes := w ++ data.

Definition write_aligned (data : bytes) (alignment : Z) (w : bytes) : bytes :=
  write_bytes data (align_to alignment w).

Definition write_bool (v : bool) := write_aligned [if v then x01 else x00] 1.
Definition write_byte (v : Z) := write_aligned (le_split 1 v) 1.
Definition write_uint8 (v : Z) := write_aligned (le_split 1 v) 1.
Definition write_int8 (v : Z) := write_aligned (le_split 1 v) 1.
Definition write_char (v : Z) := write_aligned (le_split 1 v) 1.
Definition write_uint16 (v : Z) := write_aligned (le_split 2 v) 2.
Definition write_int16 (v : Z) := write_aligned (le_split 2 v) 2.
Definition write_uint32 (v : Z) := write_aligned (le_split 4 v) 4.
Definition write_int32 (v : Z) := write_aligned (le_split 4 v) 4.
Definition write_uint64 (v : Z) := write_aligned (le_split 8 v) 8.
Definition write_int64 (v : Z) := write_aligned (le_split 8 v) 8.
(** A float or double is its IEEE bit pattern: the code only copies it. *)
Definition write_float32 (v : Z) := write_aligned (le_split 4 v) 4.
Definition write_float64 (v : Z) := write_aligned (le_split 8 v) 8.

Definition write_string (s : bytes) (w : bytes) : bytes :=
  write_bytes (s ++ [x00]) (write_uint32 (u32 (Z.of_nat (length s) + 1)) w).

End CdrWriter.

(* ------------------------------------------------------------------ *)
Record CdrReader_state := mk_reader { buf_ : bytes; pos_ : Z }.

(** A member function of CdrReader: it returns a value and the new state, or
    throws. *)
Definition reader (A : Type) : Type := CdrReader_state -> outcome (A * CdrReader_state).

#[global] Instance reader_ret : MRet reader := fun A a st => Ok (a, st).
#[global] Instance reader_bind : MBind reader := fun A B f m st =>
  match m st with
  | Ok (a, st') => f a st'
  | Throw e => Throw e
  | Undefined => Undefined
  end.

(** [throw] inside a member function. *)
Definition throw {A} (e : exn) : reader A := fun _ => Throw e.
Definition undefined {A} : reader A := fun _ => Undefined.

Module CdrReader.

Definition size_ (st : CdrReader_state) : Z := Z.of_nat (length (buf_ st)).

Definition init (data : bytes) : outcome CdrReader_state :=
  if (Z.of_nat (length data) <? 4)%Z then Throw InvalidArguments
  else
    match data with
    | b0 :: b1 :: _ =>
        let id := uwrap 16 (Z.lor (Z.shiftl (Z_of_byte b0) 8) (Z_of_byte b1)) in
        if negb (id =? 1)%Z then Throw InvalidArguments
        else Ok (mk_reader data 4)
    | _ => Undefined
    end.

Definition remaining (st : CdrReader_state) : Z := u64 (size_ st - pos_ st).
Definition payload_offset (st : CdrReader_state) : Z := u64 (pos_ st - 4).

Definition align_to (n : Z) : reader unit := fun st =>
  let pad := ((n - (payload_offset st) `mod` n) `mod` n)%Z in
  if (u64 (pos_ st + pad) >? size_ st)%Z then Throw InvalidArguments
  else Ok (tt, mk_reader (buf_ st) (u64 (pos_ st + pad))).

Definition read_bytes (size : Z) : reader bytes := fun st =>
  if (u64 (pos_ st + size) >? size_ st)%Z then Throw InvalidArguments
  else
    match slice (Z.to_nat (pos_ st)) (Z.to_nat size) (buf_ st) with
    | Some out => Ok (out, mk_reader (buf_ st) (u64 (pos_ st + size)))
    | None => Undefined
    end.

(** [read_aligned<T>()] up to the reading of the object representation. *)
Definition read_aligned (sizeof_T : Z) : reader bytes :=
  let* _ := align_to sizeof_T in read_bytes sizeof_T.

(** A [bool] object holding a byte other than 0 and 1 is a trap
    representation: returning it is undefined behaviour. *)
Definition read_bool : reader bool :=
  let* v := read_aligned 1 in
  match v with
  | [x00] => mret false
  | [x01] => mret true
  | _ => undefined
  end.

Definition read_unsigned (n : Z) : reader Z :=
  let* v := read_aligned n in mret (le_combine v).
Definition read_signed (n : Z) : reader Z :=
  let* v := read_aligned n in mret (swrap (8 * n) (le_combine v)).

Definition read_byte : reader Z := read_unsigned 1.
Definition read_uint8 : reader Z := read_unsigned 1.
Definition read_int8 : reader Z := read_signed 1.
Definition read_char : reader Z := read_unsigned 1.
Definition read_uint16 : reader Z := read_unsigned 2.
Definition read_int16 : reader Z := read_signed 2.
Definition read_uint32 : reader Z := read_unsigned 4.
Definition read_int32 : reader Z := read_signed 4.
Definition read_float32 : reader Z := read_unsigned 4.
Definition read_uint64 : reader Z := read_unsigned 8.
Definition read_int64 : reader Z := read_signed 8.
Definition read_float64 : reader Z := read_unsigned 8.

(** The body of [read_string] after the length has been read. *)
Definition read_string_body (len : Z) : reader bytes := fun st =>
  if ((len =? 0) || (u64 (pos_ st + len) >? size_ st))%Z then Throw InvalidArguments
  else
    match slice (Z.to_nat (pos_ st)) (Z.to_nat (len - 1)) (buf_ st) with
    | Some s => Ok (s, mk_reader (buf_ st) (u64 (pos_ st + len)))
    | None => Undefined
    end.

Definition read_string : reader bytes :=
  let* len := read_uint32 in read_string_body len.

End CdrReader.

(* ------------------------------------------------------------------ *)
(** * Decoding what was written *)

(** [reads r w a w']: the writer took buffer [w] to [w'], and [r], started
    where [w] ended, returns [a] and stops where [w'] ends, whatever follows. *)
Definition reads {A} (r : reader A) (w : bytes) (a : A) (w' : bytes) : Prop :=
  (exists k, w' = w ++ k) /\
  forall tail, in_memory (w' ++ tail) ->
    r (mk_reader (w' ++ tail) (Z.of_nat (length w))) =
    Ok (a, mk_reader (w' ++ tail) (Z.of_nat (length w'))).

Lemma reads_ret {A} w (a : A) : reads (mret a) w a w.
Proof. split; [exists []; by rewrite app_nil_r|done]. Qed.

Lemma reads_bind {A B} (r : reader A) (k : A -> reader B) w a w1 b w2 :
  reads r w a w1 -> reads (k a) w1 b w2 -> reads (mbind k r) w b w2.
Proof.
  intros [[k1 ->] H1] [[k2 ->] H2]. split; [exists (k1 ++ k2); by rewrite app_assoc|].
  intros tail Hm. unfold mbind, reader_bind.
  rewrite <- (app_assoc (w ++ k1)) in *. rewrite H1 by done.
  specialize (H2 tail). rewrite <- (app_assoc (w ++ k1)) in H2. by rewrite H2.
Qed.

Lemma reads_prefix {A} (r : reader A) w a w' : reads r w a w' -> exists k, w' = w ++ k.
Proof. by intros [? _]. Qed.

Lemma reads_length {A} (r : reader A) w a w' : reads r w a w' -> length w <= length w'.
Proof. intros [[k ->] _]. rewrite length_app. lia. Qed.

Lemma in_memory_app b t : in_memory (b ++ t) -> in_memory b.
Proof. unfold in_memory. rewrite length_app. lia. Qed.

Lemma u64_small z : (0 <= z < 2 ^ 63)%Z -> u64 z = z.
Proof. intros. apply uwrap_small. unfold in_u. lia. Qed.

(** A writer buffer always holds the encapsulation header. *)
Definition has_header (w : bytes) : Prop := 4 <= length w.

Lemma has_header_app w k : has_header w -> has_header (w ++ k).
Proof. unfold has_header. rewrite length_app. lia. Qed.
#[export] Hint Resolve has_header_app : rcl.

Lemma has_header_reads {A} (r : reader A) w a w' :
  reads r w a w' -> has_header w -> has_header w'.
Proof. intros [[k ->] _]. apply has_header_app. Qed.

Lemma reads_align n w :
  (0 < n < 2 ^ 32)%Z -> has_header w ->
  reads (CdrReader.align_to n) w tt (CdrWriter.align_to n w).
Proof.
  intros Hn Hh. split; [by eexists|]. intros tail Hm.
  unfold CdrReader.align_to, CdrReader.payload_offset, CdrReader.size_; simpl.
  unfold CdrWriter.align_to, CdrWriter.payload_offset in *.
  unfold has_header, in_memory in *.
  set (pad := ((n - (Z.of_nat (length w) - 4) `mod` n) `mod` n)%Z) in *.
  assert (Hp : (0 <= pad < n)%Z) by (apply Z.mod_pos_bound; lia).
  rewrite !length_app, length_replicate in *.
  rewrite (u64_small (Z.of_nat (length w) - 4)) by lia. fold pad.
  rewrite !u64_small by lia.
  rewrite Z.gtb_ltb, (proj2 (Z.ltb_ge _ _)) by lia.
  do 3 f_equal. lia.
Qed.

Lemma reads_bytes data w n :
  n = Z.of_nat (length data) ->
  reads (CdrReader.read_bytes n) w data (CdrWriter.write_bytes data w).
Proof.
  intros ->. split; [by eexists|]. intros tail Hm.
  unfold CdrReader.read_bytes, CdrReader.size_, CdrWriter.write_bytes in *; simpl.
  pose proof Hm as Hm'. unfold in_memory in Hm'. rewrite !length_app in Hm'.
  rewrite u64_small by lia. rewrite !length_app, !Nat2Z.id.
  rewrite Z.gtb_ltb, (proj2 (Z.ltb_ge _ _)) by lia.
  rewrite <- app_assoc, slice_app. do 3 f_equal. lia.
Qed.

Lemma reads_aligned data n w :
  n = Z.of_nat (length data) -> (0 < n < 2 ^ 32)%Z -> has_header w ->
  reads (CdrReader.read_aligned n) w data (CdrWriter.write_aligned data n w).
Proof.
  intros Hn Hb Hh. eapply reads_bind; [by apply reads_align|by apply reads_bytes].
Qed.

Lemma reads_map {A B} (r : reader A) (f : A -> B) w a w' :
  reads r w a w' -> reads (let* x := r in mret (f x)) w (f a) w'.
Proof. intros. eapply reads_bind; [done|apply reads_ret]. Qed.

Lemma reads_unsigned (n : nat) v w :
  (0 < Z.of_nat n < 2 ^ 32)%Z -> in_u (8 * Z.of_nat n) v -> has_header w ->
  reads (CdrReader.read_unsigned (Z.of_nat n)) w v
        (CdrWriter.write_aligned (le_split n v) (Z.of_nat n) w).
Proof.
  intros Hn Hv Hh.
  replace v with (le_combine (le_split n v)) at 1
    by (rewrite le_combine_split; by apply uwrap_small).
  apply reads_map, reads_aligned; [by rewrite length_le_split|lia|done].
Qed.

Lemma reads_signed (n : nat) v w :
  (0 < Z.of_nat n < 2 ^ 32)%Z -> in_s (8 * Z.of_nat n) v -> has_header w ->
  reads (CdrReader.read_signed (Z.of_nat n)) w v
        (CdrWriter.write_aligned (le_split n v) (Z.of_nat n) w).
Proof.
  intros Hn Hv Hh.
  replace v with (swrap (8 * Z.of_nat n) (le_combine (le_split n v))) at 1.
  - apply (reads_map _ (fun b => swrap _ (le_combine b))), reads_aligned;
      [by rewrite length_le_split|lia|done].
  - rewrite le_combine_split, swrap_uwrap by lia. apply swrap_small; [lia|done].
Qed.

Lemma reads_bool v w :
  has_header w -> reads CdrReader.read_bool w v (CdrWriter.write_bool v w).
Proof.
  intros Hh. apply (reads_bind _ _ _ [if v then x01 else x00] (CdrWriter.write_bool v w)).
  - apply reads_aligned; done.
  - destruct v; apply reads_ret.
Qed.

Lemma reads_uint32 v w :
  in_u 32 v -> has_header w ->
  reads CdrReader.read_uint32 w v (CdrWriter.write_uint32 v w).
Proof. intros. by apply (reads_unsigned 4). Qed.

Lemma reads_uint64 v w :
  in_u 64 v -> has_header w ->
  reads CdrReader.read_uint64 w v (CdrWriter.write_uint64 v w).
Proof. intros. by apply (reads_unsigned 8). Qed.

Lemma reads_int64 v w :
  in_s 64 v -> has_header w ->
  reads CdrReader.read_int64 w v (CdrWriter.write_int64 v w).
Proof. intros. by apply (reads_signed 8). Qed.

(** A string whose length with the NUL fits the 32-bit prefix. *)
Definition string_fits (s : bytes) : Prop := (Z.of_nat (length s) + 1 < 2 ^ 32)%Z.

Lemma reads_string s w :
  string_fits s -> has_header w ->
  reads CdrReader.read_string w s (CdrWriter.write_string s w).
Proof.
  unfold string_fits. intros Hs Hh. unfold CdrReader.read_string, CdrWriter.write_string.
  remember (Z.of_nat (length s) + 1)%Z as len eqn:Hlen.
  assert (Hu : u32 len = len) by (apply uwrap_small; unfold in_u; lia). rewrite Hu.
  set (w1 := CdrWriter.write_uint32 len w).
  apply (reads_bind _ _ _ len w1); [apply reads_uint32; [unfold in_u; lia|done]|].
  split; [by eexists|]. intros tail Hm.
  unfold CdrReader.read_string_body, CdrReader.size_, CdrWriter.write_bytes in *; simpl.
  pose proof Hm as Hm'. unfold in_memory in Hm'. rewrite !length_app in Hm'. simpl in Hm'.
  rewrite u64_small by lia. rewrite !length_app. simpl.
  rewrite Z.gtb_ltb, (proj2 (Z.ltb_ge _ _)), (proj2 (Z.eqb_neq _ _)) by lia. simpl.
  replace (Z.to_nat (len - 1)) with (length s) by lia.
  rewrite Nat2Z.id, <- !app_assoc, slice_app. do 3 f_equal. lia.
Qed.

#[export] Hint Resolve reads_ret reads_bool reads_string reads_uint32
  reads_uint64 reads_int64 : rcl.

(* ------------------------------------------------------------------ *)
(** * Reading arbitrary bytes *)

Definition wf_reader (st : CdrReader_state) : Prop :=
  (4 <= pos_ st <= CdrReader.size_ st)%Z /\ in_memory (buf_ st).

(** From any well-formed state, [r] never leaves the buffer: it throws, or it
    returns a value satisfying [P] and advances inside the same buffer; when
    [trap] holds it may also be undefined. *)
Definition safe {A} (trap : Prop) (r : reader A) (P : A -> Prop) : Prop :=
  forall st, wf_reader st ->
    match r st with
    | Ok (a, st') =>
        P a /\ buf_ st' = buf_ st /\ (pos_ st <= pos_ st' <= CdrReader.size_ st)%Z
    | Throw _ => True
    | Undefined => trap
    end.

Lemma safe_wf {A} u (r : reader A) P st a st' :
  safe u r P -> wf_reader st -> r st = Ok (a, st') -> P a /\ wf_reader st'.
Proof.
  intros Hs Hw Hr. specialize (Hs st Hw). rewrite Hr in Hs.
  destruct Hs as (HP & Hb & Hp). destruct Hw as [Hp' Hm].
  split; [done|]. unfold wf_reader, CdrReader.size_ in *. rewrite Hb. split; [lia|done].
Qed.

Lemma safe_ret {A} u (a : A) (P : A -> Prop) : P a -> safe u (mret a) P.
Proof. intros HP st [Hp _]. simpl. split_and!; [done|done|lia|lia]. Qed.

Lemma safe_throw {A} u (e : exn) (P : A -> Prop) : safe u (throw e) P.
Proof. by intros st _. Qed.

Lemma safe_bind {A B} u (r : reader A) (k : A -> reader B) (P : A -> Prop) (Q : B -> Prop) :
  safe u r P -> (forall a, P a -> safe u (k a) Q) -> safe u (mbind k r) Q.
Proof.
  intros Hr Hk st Hw. pose proof (Hr st Hw) as H1. unfold mbind, reader_bind.
  destruct (r st) as [[a st1]|e|] eqn:E; [|done|done].
  destruct (safe_wf _ _ _ _ _ _ Hr Hw E) as [HP Hw1].
  destruct H1 as (_ & Hb & Hp). specialize (Hk a HP st1 Hw1).
  destruct (k a st1) as [[b st2]|e|]; [|done|done].
  destruct Hk as (HQ & Hb2 & Hp2). unfold CdrReader.size_ in *. rewrite Hb in *.
  split_and!; [done|by rewrite Hb2|lia|lia].
Qed.

Lemma safe_weaken {A} u (r : reader A) (P Q : A -> Prop) :
  safe u r P -> (forall a, P a -> Q a) -> safe u r Q.
Proof. intros Hr HPQ st Hw. specialize (Hr st Hw).
  destruct (r st) as [[a st']| |]; [|done..]. destruct Hr as [HP ?]. auto. Qed.

Lemma safe_align u n : (0 < n < 2 ^ 32)%Z -> safe u (CdrReader.align_to n) (fun _ => True).
Proof.
  intros Hn st [Hp Hm]. unfold CdrReader.align_to, CdrReader.payload_offset, CdrReader.size_ in *.
  unfold in_memory in Hm. rewrite (u64_small (pos_ st - 4)) by lia.
  set (pad := ((n - (pos_ st - 4) `mod` n) `mod` n)%Z).
  assert (0 <= pad < n)%Z by (apply Z.mod_pos_bound; lia).
  assert (Hu : u64 (pos_ st + pad) = (pos_ st + pad)%Z)
    by (apply uwrap_small; unfold in_u; lia). rewrite Hu.
  rewrite Z.gtb_ltb. destruct (Z.ltb_spec (Z.of_nat (length (buf_ st))) (pos_ st + pad));
    [done|]. simpl. split_and!; [done|done|lia|lia].
Qed.

Lemma safe_bytes u n :
  (0 <= n < 2 ^ 63)%Z -> safe u (CdrReader.read_bytes n) (fun b => length b = Z.to_nat n).
Proof.
  intros Hn st [Hp Hm]. unfold CdrReader.read_bytes, CdrReader.size_ in *.
  unfold in_memory in Hm.
  assert (Hu : u64 (pos_ st + n) = (pos_ st + n)%Z)
    by (apply uwrap_small; unfold in_u; lia). rewrite Hu.
  rewrite Z.gtb_ltb. destruct (Z.ltb_spec (Z.of_nat (length (buf_ st))) (pos_ st + n)); [done|].
  destruct (slice_in_bounds (Z.to_nat (pos_ st)) (Z.to_nat n) (buf_ st)) as [k Hk]; [lia|].
  rewrite Hk. simpl. split_and!; [by eapply slice_Some_length|done|lia|lia].
Qed.

Lemma safe_aligned u n :
  (0 < n < 2 ^ 32)%Z -> safe u (CdrReader.read_aligned n) (fun b => length b = Z.to_nat n).
Proof.
  intros. eapply safe_bind; [by apply safe_align|]. intros _ _. apply safe_bytes. lia.
Qed.

Lemma safe_unsigned u n :
  (0 < n < 2 ^ 32)%Z -> safe u (CdrReader.read_unsigned n) (in_u (8 * n)).
Proof.
  intros. eapply safe_bind; [by apply safe_aligned|]. intros b Hb.
  apply safe_ret. pose proof (le_combine_range b) as Hr. rewrite Hb, Z2Nat.id in Hr by lia.
  done.
Qed.

Lemma safe_signed u n :
  (0 < n < 2 ^ 32)%Z -> safe u (CdrReader.read_signed n) (in_s (8 * n)).
Proof.
  intros. eapply safe_bind; [by apply safe_aligned|]. intros b Hb.
  apply safe_ret, swrap_range. lia.
Qed.

Lemma safe_string_body u len :
  in_u 32 len ->
  safe u (CdrReader.read_string_body len) (fun s => string_fits s /\ Z.of_nat (length s) + 1 = len)%Z.
Proof.
  unfold in_u, string_fits. intros Hl st [Hp Hm].
  unfold CdrReader.read_string_body, CdrReader.size_ in *. unfold in_memory in Hm.
  assert (Hu : u64 (pos_ st + len) = (pos_ st + len)%Z)
    by (apply uwrap_small; unfold in_u; lia). rewrite Hu, Z.gtb_ltb.
  destruct (Z.eqb_spec len 0); [done|].
  destruct (Z.ltb_spec (Z.of_nat (length (buf_ st))) (pos_ st + len)); [done|]. simpl.
  destruct (slice_in_bounds (Z.to_nat (pos_ st)) (Z.to_nat (len - 1)) (buf_ st)) as [k Hk]; [lia|].
  rewrite Hk. simpl. apply slice_Some_length in Hk. split_and!; [lia|lia|done|lia|lia].
Qed.

Lemma safe_uint32 u : safe u CdrReader.read_uint32 (in_u 32).
Proof. by apply safe_unsigned. Qed.

Lemma safe_string u : safe u CdrReader.read_string string_fits.
Proof.
  eapply safe_bind; [apply safe_uint32|]. intros len Hl.
  eapply safe_weaken; [by apply safe_string_body|]. naive_solver.
Qed.

Lemma init_wf data st : in_memory data -> CdrReader.init data = Ok st -> wf_reader st.
Proof.
  unfold CdrReader.init. intros Hm. case_match eqn:E; [done|]. apply Z.ltb_ge in E.
  destruct data as [|b0 [|b1 data]]; [done|done|]. case_match; [done|]. intros [= <-].
  unfold wf_reader, CdrReader.size_. cbn [pos_ buf_]. split; [lia|done].
Qed.

Lemma init_defined data : defined (CdrReader.init data).
Proof.
  unfold CdrReader.init. case_match eqn:E; [apply defined_Throw|]. apply Z.ltb_ge in E.
  destruct data as [|b0 [|b1 data]]; simpl in E; [lia|lia|]. case_match; auto with rcl.
Qed.

(** The reader accepts whatever follows the header the writer starts with. *)
Lemma init_writer k : CdrReader.init (CdrWriter.init ++ k) = Ok (mk_reader (CdrWriter.init ++ k) 4).
Proof.
  unfold CdrReader.init. rewrite length_app.
  rewrite (proj2 (Z.ltb_ge _ _)); [done|]. simpl length. lia.
Qed.

#[export] Hint Resolve safe_ret safe_throw safe_uint32 safe_string init_defined : rcl.

(* ------------------------------------------------------------------ *)
(** * Byte-level checks against the encodings of tests/cdr_test.cpp *)

Example string_encoding :
  CdrWriter.write_string (lit "Hi") CdrWriter.init =
  [x00; x01; x00; x00; x03; x00; x00; x00; x48; x69; x00].
Proof. vm_compute. reflexivity. Qed.

Example eight_byte_alignment :
  CdrWriter.write_uint64 2 (CdrWriter.write_uint32 1 CdrWriter.init) =
  [x00; x01; x00; x00; x01; x00; x00; x00; x00; x00; x00; x00;
   x02; x00; x00; x00; x00; x00; x00; x00].
Proof. vm_compute. reflexivity. Qed.
