(* ===== verification/Message.v ===== *)
(** Message types (src/src/rcllite/msg_traits.hpp).

    [Message] is the interface every entity (Publisher, Subscription, Service,
    Client) is written against: the DDS type name and the two CDR members;
    [MessageLaws] is what a type must promise (Codegen.v discharges it for the
    generated types).  [write_sequence] and [read_sequence] are the helpers for
    hand-written types. *)
From stdpp Require Import base tactics list numbers.
From Stdlib Require Import ZArith Lia Strings.Byte.
From S2P Require Import Prelude Bytes Cdr.

(* ------------------------------------------------------------------ *)
(** * The interface *)

(** [MessageType<T>] and the static members of [T].  [deserialize] returns the
    message, or [None] where the C++ member returns [false]. *)
Class Message (M : Type) := {
  dds_name : bytes;
  serialize : M -> bytes -> bytes;
  deserialize : reader (option M)
}.
Arguments dds_name M {_}.

(** What a message type promises: what [serialize] appends is decoded by
    [deserialize] wherever in a stream it stands. *)
Class MessageLaws (M : Type) `{Message M} := {
  msg_valid : M -> Prop;
  message_roundtrip m w :
    msg_valid m -> has_header w -> reads deserialize w (Some m) (serialize m w)
}.

(* ------------------------------------------------------------------ *)
(** * Whole payloads *)

(** Constructing a CdrReader on a received payload and running the message's
    deserialize member. *)
Definition decode_payload {M} `{Message M} (payload : bytes) : outcome (option M * CdrReader_state) :=
  let* st := CdrReader.init payload in deserialize st.

Lemma decode_reads {M} `{Message M} (m : M) k :
  reads deserialize CdrWriter.init (Some m) (CdrWriter.init ++ k) ->
  forall tail, in_memory ((CdrWriter.init ++ k) ++ tail) ->
  decode_payload ((CdrWriter.init ++ k) ++ tail) =
  Ok (Some m, mk_reader ((CdrWriter.init ++ k) ++ tail) (Z.of_nat (length (CdrWriter.init ++ k)))).
Proof.
  intros [_ Hr] tail Hm. unfold decode_payload. rewrite <- (app_assoc CdrWriter.init k).
  rewrite init_writer. simpl mbind. rewrite (app_assoc CdrWriter.init k). by apply Hr.
Qed.

(** A message serialized into a fresh writer survives the transport, whatever
    padding it adds. *)
Lemma decode_transported {M} `{MessageLaws M} (m : M) tail :
  msg_valid m -> in_memory (serialize m CdrWriter.init ++ tail) ->
  exists st, decode_payload (serialize m CdrWriter.init ++ tail) = Ok (Some m, st).
Proof.
  intros Hv Hm. assert (Hr : reads deserialize CdrWriter.init (Some m) (serialize m CdrWriter.init)).
  { apply message_roundtrip; [done|]. unfold has_header. simpl. lia. }
  destruct (reads_prefix _ _ _ _ Hr) as [k Hk]. rewrite Hk in *. eexists. by apply decode_reads.
Qed.

(* ------------------------------------------------------------------ *)
(** * Sequences *)

Definition get_remaining : reader Z := fun st => Ok (CdrReader.remaining st, st).

Section sequences.
Context {T : Type}.

Definition write_elems (serialize_elem : T -> bytes -> bytes) (v : list T) (w : bytes) : bytes :=
  foldl (fun w e => serialize_elem e w) w v.

Definition write_sequence (serialize_elem : T -> bytes -> bytes) (v : list T) (w : bytes)
  : bytes :=
  write_elems serialize_elem v
    (CdrWriter.write_uint32 (u32 (Z.of_nat (length v))) (CdrWriter.align_to 4 w)).

Fixpoint read_elems (n : nat) (deserialize_elem : reader (option T)) : reader (option (list T)) :=
  match n with
  | O => mret (Some [])
  | S n =>
      let* e := deserialize_elem in
      match e with
      | None => mret None
      | Some a =>
          let* rest := read_elems n deserialize_elem in
          mret (cons a <$> rest)
      end
  end.

Definition read_sequence (deserialize_elem : reader (option T)) : reader (option (list T)) :=
  let* _ := CdrReader.align_to 4 in
  let* n := CdrReader.read_uint32 in
  let* rem := get_remaining in
  if (n >? rem)%Z then mret None
  else read_elems (Z.to_nat n) deserialize_elem.
End sequences.

Definition write_string_sequence : list bytes -> bytes -> bytes :=
  write_sequence CdrWriter.write_string.
Definition read_string_sequence : reader (option (list bytes)) :=
  read_sequence (let* s := CdrReader.read_string in mret (Some s)).

(** The elements a loop of element writers produces are read back by the loop
    of element readers, when every element is. *)
Section sequence_facts.
Context {T : Type} (we : T -> bytes -> bytes) (re : reader (option T)) (ok : T -> Prop).
Hypothesis elem_reads :
  forall e w, ok e -> has_header w -> reads re w (Some e) (we e w).

Lemma reads_elems v w :
  Forall ok v -> has_header w ->
  reads (read_elems (length v) re) w (Some v) (write_elems we v w).
Proof.
  intros Hv. revert w. induction Hv as [|e v He Hv IH]; intros w Hh; [apply reads_ret|].
  pose proof (elem_reads e w He Hh) as H1. pose proof (has_header_reads _ _ _ _ H1 Hh) as Hh1.
  eapply reads_bind; [exact H1|]. cbn beta iota.
  eapply reads_bind; [by apply IH|]. apply reads_ret.
Qed.

Hypothesis elem_nonempty :
  forall e w, ok e -> has_header w -> length w < length (we e w).

Lemma write_elems_grow v w :
  Forall ok v -> has_header w -> length w + length v <= length (write_elems we v w).
Proof.
  intros Hv. revert w. induction Hv as [|e v He Hv IH]; intros w Hh; simpl; [lia|].
  pose proof (elem_nonempty e w He Hh).
  pose proof (has_header_reads _ _ _ _ (elem_reads e w He Hh) Hh) as Hh1.
  specialize (IH (we e w) Hh1). unfold write_elems in *. simpl. lia.
Qed.

(** Guard and loop together, for any element writer that emits at least one
    byte per element. *)
Lemma reads_guarded (body : reader (option (list T))) v w w' :
  reads body w (Some v) w' -> length w + length v <= length w' ->
  reads (let* rem := get_remaining in
         if (Z.of_nat (length v) >? rem)%Z then mret None else body) w (Some v) w'.
Proof.
  intros [[k ->] Hr] Hl. split; [by eexists|]. intros tail Hm.
  unfold mbind, reader_bind, get_remaining, CdrReader.remaining, CdrReader.size_. cbn [buf_ pos_].
  unfold in_memory in Hm. rewrite !length_app in *.
  rewrite u64_small by lia. rewrite Z.gtb_ltb, (proj2 (Z.ltb_ge _ _)) by lia.
  apply Hr. unfold in_memory. rewrite !length_app. lia.
Qed.

Lemma reads_sequence v w :
  Forall ok v -> in_u 32 (Z.of_nat (length v)) -> has_header w ->
  reads (read_sequence re) w (Some v) (write_sequence we v w).
Proof.
  intros Hv Hn Hh. unfold read_sequence, write_sequence.
  unfold u32. rewrite uwrap_small by done.
  assert (Hh1 : has_header (CdrWriter.align_to 4 w)) by (by apply has_header_app).
  eapply reads_bind; [by apply reads_align|]. cbn beta.
  pose proof (reads_uint32 _ _ Hn Hh1) as H2.
  pose proof (has_header_reads _ _ _ _ H2 Hh1) as Hh2.
  eapply reads_bind; [exact H2|]. cbn beta.
  apply (reads_guarded (read_elems (Z.to_nat (Z.of_nat (length v))) re)).
  - rewrite Nat2Z.id. by apply reads_elems.
  - by apply write_elems_grow.
Qed.
End sequence_facts.

Lemma write_string_grow s w : length w < length (CdrWriter.write_string s w).
Proof.
  unfold CdrWriter.write_string, CdrWriter.write_bytes, CdrWriter.write_uint32,
    CdrWriter.write_aligned, CdrWriter.write_bytes, CdrWriter.align_to.
  rewrite !length_app. simpl. lia.
Qed.

Lemma reads_some {A} (r : reader A) w a w' :
  reads r w a w' -> reads (let* x := r in mret (Some x)) w (Some a) w'.
Proof. apply (reads_map r Some). Qed.
