(* ===== verification/Codegen.v ===== *)
(** The serialization members that tools/msg_codegen.py emits.

    A [.msg] file is a list of members, each a primitive, a string or a nested
    message, alone, as a sequence ([T[]], [T[<=N]]) or as a fixed array
    ([T[N]]).  [denote] is the generated struct; [serialize_type] and
    [deserialize_type] are the emitted C++ members, one clause per branch of
    [emit_serialize] and [emit_deserialize].  The [Message] instance at the end
    discharges the interface of Message.v for every generated type. *)
From stdpp Require Import base tactics list numbers.
From Stdlib Require Import ZArith Lia Strings.Byte.
From S2P Require Import Prelude Bytes Cdr Message.

(** The keys of [PRIM]. *)
Inductive prim : Type :=
| bool_ | byte_ | char_ | float32_ | float64_
| int8_ | int16_ | int32_ | int64_
| uint8_ | uint16_ | uint32_ | uint64_.

#[global] Instance prim_eq_dec : EqDecision prim.
Proof. solve_decision. Defined.

(** [PRIM]: the wire alignment, which is also [sizeof] of the [CPP_PRIM] type. *)
Definition prim_size (p : prim) : nat :=
  match p with
  | bool_ | byte_ | char_ | int8_ | uint8_ => 1
  | int16_ | uint16_ => 2
  | float32_ | int32_ | uint32_ => 4
  | float64_ | int64_ | uint64_ => 8
  end.

(** [CPP_PRIM]: a C++ [bool], or a number (floats as their bit pattern). *)
Definition prim_denote (p : prim) : Type := match p with bool_ => bool | _ => Z end.

Definition prim_signed (p : prim) : bool :=
  match p with int8_ | int16_ | int32_ | int64_ => true | _ => false end.

(** The values the C++ type can hold. *)
Definition prim_valid (p : prim) : prim_denote p -> Prop :=
  match p with
  | bool_ => fun _ => True
  | p => fun z =>
      (if prim_signed p then in_s else in_u) (8 * Z.of_nat (prim_size p))%Z z
  end.

(** [w.write_<prim>(v)] and [r.read_<prim>()]. *)
Definition write_prim (p : prim) : prim_denote p -> bytes -> bytes :=
  match p with
  | bool_ => CdrWriter.write_bool
  | byte_ => CdrWriter.write_byte
  | char_ => CdrWriter.write_char
  | float32_ => CdrWriter.write_float32
  | float64_ => CdrWriter.write_float64
  | int8_ => CdrWriter.write_int8
  | int16_ => CdrWriter.write_int16
  | int32_ => CdrWriter.write_int32
  | int64_ => CdrWriter.write_int64
  | uint8_ => CdrWriter.write_uint8
  | uint16_ => CdrWriter.write_uint16
  | uint32_ => CdrWriter.write_uint32
  | uint64_ => CdrWriter.write_uint64
  end.

Definition read_prim (p : prim) : reader (prim_denote p) :=
  match p with
  | bool_ => CdrReader.read_bool
  | byte_ => CdrReader.read_byte
  | char_ => CdrReader.read_char
  | float32_ => CdrReader.read_float32
  | float64_ => CdrReader.read_float64
  | int8_ => CdrReader.read_int8
  | int16_ => CdrReader.read_int16
  | int32_ => CdrReader.read_int32
  | int64_ => CdrReader.read_int64
  | uint8_ => CdrReader.read_uint8
  | uint16_ => CdrReader.read_uint16
  | uint32_ => CdrReader.read_uint32
  | uint64_ => CdrReader.read_uint64
  end.

(** The object representation of one value, and the value of a representation
    ([None]: a trap representation). *)
Definition prim_repr (p : prim) : prim_denote p -> bytes :=
  match p with
  | bool_ => fun b => [if b then x01 else x00]
  | p => fun z => le_split (prim_size p) z
  end.

Definition prim_of_repr (p : prim) : bytes -> option (prim_denote p) :=
  match p with
  | bool_ => fun b => match b with [x00] => Some false | [x01] => Some true | _ => None end
  | p => fun b =>
      Some (if prim_signed p then swrap (8 * Z.of_nat (prim_size p)) (le_combine b)
            else le_combine b)
  end.

(** The bytes at [data()] of a contiguous container of primitives. *)
Definition prim_data (p : prim) (v : list (prim_denote p)) : bytes :=
  concat (map (prim_repr p) v).

(** [n] objects laid out in [b]. *)
Fixpoint prim_of_data (p : prim) (n : nat) (b : bytes) : option (list (prim_denote p)) :=
  match n with
  | O => Some []
  | S n =>
      a ← prim_of_repr p (take (prim_size p) b);
      rest ← prim_of_data p n (drop (prim_size p) b);
      Some (a :: rest)
  end.

Definition lift_trap {A} (o : option A) : reader A :=
  match o with Some a => mret a | None => undefined end.

(* ------------------------------------------------------------------ *)
(** * Schemas *)

Inductive arity : Type :=
| Scalar
| Seq
| Fixed (n : nat).

Inductive ftype : Type :=
| TPrim (p : prim)
| TString
| TMsg (ms : list (arity * ftype)).

Section ftype_ind.
Variable P : ftype -> Prop.
Hypothesis Hprim : forall p, P (TPrim p).
Hypothesis Hstring : P TString.
Hypothesis Hmsg : forall ms, Forall (fun m => P (snd m)) ms -> P (TMsg ms).

Fixpoint ftype_nested_ind (t : ftype) : P t :=
  match t with
  | TPrim p => Hprim p
  | TString => Hstring
  | TMsg ms =>
      Hmsg ms ((fix go (ms : list (arity * ftype)) : Forall (fun m => P (snd m)) ms :=
                  match ms with
                  | [] => Forall_nil_2 _
                  | m :: ms => Forall_cons_2 _ m ms (ftype_nested_ind (snd m)) (go ms)
                  end) ms)
  end.
End ftype_ind.

(** The C++ type of a member ([cpp_type]) and of a struct. *)
Definition arity_denote (a : arity) (D : Type) : Type :=
  match a with Scalar => D | Seq => list D | Fixed _ => list D end.

Definition members_denote (D : ftype -> Type) : list (arity * ftype) -> Type :=
  fix go (ms : list (arity * ftype)) : Type :=
    match ms with
    | [] => unit
    | m :: ms => (arity_denote (fst m) (D (snd m)) * go ms)%type
    end.

Fixpoint denote (t : ftype) : Type :=
  match t with
  | TPrim p => prim_denote p
  | TString => bytes
  | TMsg ms => members_denote denote ms
  end.

(* ------------------------------------------------------------------ *)
(** * [emit_serialize] *)

(** The sequence branch, by element type. *)
Definition serialize_seq_elems (t : ftype) (ser : denote t -> bytes -> bytes)
  : list (denote t) -> bytes -> bytes :=
  match t as t return (denote t -> bytes -> bytes) -> list (denote t) -> bytes -> bytes with
  | TPrim p => fun ser v w =>
      if decide (p = bool_) then write_elems ser v w
      else if (length v =? 0)%nat then w
      else CdrWriter.write_aligned (prim_data p v) (Z.of_nat (prim_size p)) w
  | _ => fun ser v w => write_elems ser v w
  end ser.

(** The fixed-array branch. *)
Definition serialize_fixed (t : ftype) (ser : denote t -> bytes -> bytes)
  : list (denote t) -> bytes -> bytes :=
  match t as t return (denote t -> bytes -> bytes) -> list (denote t) -> bytes -> bytes with
  | TPrim p => fun ser v w =>
      CdrWriter.write_bytes (prim_data p v) (CdrWriter.align_to (Z.of_nat (prim_size p)) w)
  | _ => fun ser v w => write_elems ser v w
  end ser.

Definition emit_serialize (a : arity) (t : ftype) (ser : denote t -> bytes -> bytes)
  : arity_denote a (denote t) -> bytes -> bytes :=
  match a as a return arity_denote a (denote t) -> bytes -> bytes with
  | Scalar => ser
  | Seq => fun v w =>
      serialize_seq_elems t ser v
        (CdrWriter.write_uint32 (u32 (Z.of_nat (length v))) (CdrWriter.align_to 4 w))
  | Fixed _ => fun v w => serialize_fixed t ser v w
  end.

Definition serialize_method (ser : forall t, denote t -> bytes -> bytes)
  : forall ms, members_denote denote ms -> bytes -> bytes :=
  fix go (ms : list (arity * ftype)) : members_denote denote ms -> bytes -> bytes :=
    match ms with
    | [] => fun _ w => w
    | m :: ms => fun v w =>
        go ms (snd v) (emit_serialize (fst m) (snd m) (ser (snd m)) (fst v) w)
    end.

Fixpoint serialize_type (t : ftype) : denote t -> bytes -> bytes :=
  match t as t return denote t -> bytes -> bytes with
  | TPrim p => write_prim p
  | TString => CdrWriter.write_string
  | TMsg ms => serialize_method serialize_type ms
  end.

(* ------------------------------------------------------------------ *)
(** * [emit_deserialize] *)

(** The body of the sequence branch once [n] has passed the guard. *)
Definition deserialize_seq_elems (t : ftype) (de : reader (option (denote t))) (n : nat)
  : reader (option (list (denote t))) :=
  match t as t return reader (option (denote t)) -> reader (option (list (denote t))) with
  | TPrim p => fun de =>
      if decide (p = bool_) then read_elems n de
      else if (n =? 0)%nat then mret (Some [])
      else
        let* _ := CdrReader.align_to (Z.of_nat (prim_size p)) in
        let* b := CdrReader.read_bytes (Z.of_nat n * Z.of_nat (prim_size p)) in
        let* v := lift_trap (prim_of_data p n b) in
        mret (Some v)
  | _ => fun de => read_elems n de
  end de.

Definition deserialize_fixed (t : ftype) (de : reader (option (denote t))) (n : nat)
  : reader (option (list (denote t))) :=
  match t as t return reader (option (denote t)) -> reader (option (list (denote t))) with
  | TPrim p => fun de =>
      let* _ := CdrReader.align_to (Z.of_nat (prim_size p)) in
      let* b := CdrReader.read_bytes (Z.of_nat n * Z.of_nat (prim_size p)) in
      let* v := lift_trap (prim_of_data p n b) in
      mret (Some v)
  | _ => fun de => read_elems n de
  end de.

Definition emit_deserialize (a : arity) (t : ftype) (de : reader (option (denote t)))
  : reader (option (arity_denote a (denote t))) :=
  match a as a return reader (option (arity_denote a (denote t))) with
  | Scalar => de
  | Seq =>
      let* _ := CdrReader.align_to 4 in
      let* n := CdrReader.read_uint32 in
      let* rem := get_remaining in
      if (n >? rem)%Z then mret None
      else deserialize_seq_elems t de (Z.to_nat n)
  | Fixed n => deserialize_fixed t de n
  end.

Definition deserialize_method (de : forall t, reader (option (denote t)))
  : forall ms, reader (option (members_denote denote ms)) :=
  fix go (ms : list (arity * ftype)) : reader (option (members_denote denote ms)) :=
    match ms as ms return reader (option (members_denote denote ms)) with
    | [] => mret (Some tt)
    | m :: ms =>
        let* a := emit_deserialize (fst m) (snd m) (de (snd m)) in
        match a with
        | None => mret None
        | Some a =>
            let* rest := go ms in
            mret (pair a <$> rest)
        end
    end.

Fixpoint deserialize_type (t : ftype) : reader (option (denote t)) :=
  match t as t return reader (option (denote t)) with
  | TPrim p => let* v := read_prim p in mret (Some v)
  | TString => let* s := CdrReader.read_string in mret (Some s)
  | TMsg ms => deserialize_method deserialize_type ms
  end.

(* ------------------------------------------------------------------ *)
(** * Values the generated structs can hold *)

Definition arity_valid (a : arity) {D : Type} (ok : D -> Prop) : arity_denote a D -> Prop :=
  match a as a return arity_denote a D -> Prop with
  | Scalar => ok
  | Seq => fun v => in_u 32 (Z.of_nat (length v)) /\ Forall ok v
  | Fixed n => fun v => length v = n /\ (Z.of_nat n < 2 ^ 32)%Z /\ Forall ok v
  end.

Definition members_valid (ok : forall t, denote t -> Prop)
  : forall ms, members_denote denote ms -> Prop :=
  fix go (ms : list (arity * ftype)) : members_denote denote ms -> Prop :=
    match ms with
    | [] => fun _ => True
    | m :: ms => fun v => arity_valid (fst m) (ok (snd m)) (fst v) /\ go ms (snd v)
    end.

Fixpoint type_valid (t : ftype) : denote t -> Prop :=
  match t as t return denote t -> Prop with
  | TPrim p => prim_valid p
  | TString => string_fits
  | TMsg ms => members_valid type_valid ms
  end.

(** A type whose every value takes at least one byte on the wire. *)
Definition arity_nonempty (a : arity) (b : bool) : bool :=
  match a with Scalar => b | Seq => true | Fixed n => negb (n =? 0)%nat && b end.

Fixpoint nonempty (t : ftype) : bool :=
  match t with
  | TPrim _ => true
  | TString => true
  | TMsg ms => existsb (fun m => arity_nonempty (fst m) (nonempty (snd m))) ms
  end.

(** No sequence of field-less messages: the premise of the emitted guard,
    "every element needs >= 1 byte". *)
Fixpoint guard_sound (t : ftype) : bool :=
  match t with
  | TPrim _ => true
  | TString => true
  | TMsg ms =>
      forallb (fun m => guard_sound (snd m) &&
                        match fst m with Seq => nonempty (snd m) | _ => true end) ms
  end.

(** No [bool] member anywhere. *)
Fixpoint bool_free (t : ftype) : bool :=
  match t with
  | TPrim p => negb (bool_decide (p = bool_))
  | TString => true
  | TMsg ms => forallb (fun m => bool_free (snd m)) ms
  end.

(* ------------------------------------------------------------------ *)
(** * Primitives *)

Lemma write_prim_aligned p v w :
  write_prim p v w = CdrWriter.write_aligned (prim_repr p v) (Z.of_nat (prim_size p)) w.
Proof. by destruct p. Qed.

Lemma length_prim_repr p v : length (prim_repr p v) = prim_size p.
Proof. destruct p; simpl; try apply length_le_split; done. Qed.

Lemma prim_size_pos p : 0 < prim_size p <= 8.
Proof. destruct p; simpl; lia. Qed.

Lemma prim_of_repr_repr p v : prim_valid p v -> prim_of_repr p (prim_repr p v) = Some v.
Proof.
  destruct p; [by destruct v|..]; cbn -[le_split swrap]; intros Hv;
    f_equal; rewrite le_combine_split;
    first [apply uwrap_small; exact Hv
          |rewrite swrap_uwrap by done; apply swrap_small; [done|exact Hv]].
Qed.

Lemma length_prim_data p v : length (prim_data p v) = length v * prim_size p.
Proof.
  unfold prim_data. induction v as [|a v IH]; simpl; [done|].
  rewrite length_app, length_prim_repr, IH. lia.
Qed.

Lemma prim_of_data_data p v :
  Forall (prim_valid p) v -> prim_of_data p (length v) (prim_data p v) = Some v.
Proof.
  induction 1 as [|a v Ha Hv IH]; [done|]. simpl.
  change (prim_data p (a :: v)) with (prim_repr p a ++ prim_data p v).
  rewrite take_app_length', drop_app_length' by (by rewrite length_prim_repr).
  by rewrite prim_of_repr_repr, IH by done.
Qed.

Lemma reads_prim p v w :
  prim_valid p v -> has_header w -> reads (read_prim p) w v (write_prim p v w).
Proof.
  intros Hv Hh. destruct p; cbn [prim_valid prim_signed] in Hv;
    first [by apply reads_bool
          |by apply (reads_unsigned 1)|by apply (reads_unsigned 2)
          |by apply (reads_unsigned 4)|by apply (reads_unsigned 8)
          |by apply (reads_signed 1)|by apply (reads_signed 2)
          |by apply (reads_signed 4)|by apply (reads_signed 8)].
Qed.

Lemma write_prim_grow p v w : length w < length (write_prim p v w).
Proof.
  rewrite write_prim_aligned. unfold CdrWriter.write_aligned, CdrWriter.write_bytes,
    CdrWriter.align_to.
  rewrite !length_app, length_prim_repr. pose proof (prim_size_pos p). lia.
Qed.

(** The contiguous read of [n] primitives decodes the contiguous write. *)
Lemma reads_prim_data p v w :
  Forall (prim_valid p) v -> has_header w ->
  reads (let* _ := CdrReader.align_to (Z.of_nat (prim_size p)) in
         let* b := CdrReader.read_bytes (Z.of_nat (length v) * Z.of_nat (prim_size p)) in
         let* x := lift_trap (prim_of_data p (length v) b) in
         mret (Some x)) w (Some v)
        (CdrWriter.write_bytes (prim_data p v) (CdrWriter.align_to (Z.of_nat (prim_size p)) w)).
Proof.
  intros Hv Hh. pose proof (prim_size_pos p) as Hp.
  eapply reads_bind; [apply reads_align; [lia|done]|]. cbn beta.
  eapply reads_bind; [apply (reads_bytes (prim_data p v)); rewrite length_prim_data; lia|]. cbn beta.
  rewrite prim_of_data_data by done. apply reads_some, reads_ret.
Qed.

(** Writing an aligned element leaves the stream aligned for the next one. *)
Lemma align_to_aligned n w :
  (0 < n)%Z -> (CdrWriter.payload_offset w `mod` n = 0)%Z -> CdrWriter.align_to n w = w.
Proof.
  intros Hn Ha. unfold CdrWriter.align_to. rewrite Ha, Z.sub_0_r, Z.mod_same by lia.
  apply app_nil_r.
Qed.

Lemma align_to_offset n w :
  (0 < n)%Z -> (CdrWriter.payload_offset (CdrWriter.align_to n w) `mod` n = 0)%Z.
Proof.
  intros Hn. unfold CdrWriter.align_to, CdrWriter.payload_offset.
  rewrite length_app, length_replicate.
  set (o := (Z.of_nat (length w) - 4)%Z).
  assert (Hp : (0 <= (n - o `mod` n) `mod` n < n)%Z) by (apply Z.mod_pos_bound; lia).
  replace (Z.of_nat (length w + Z.to_nat ((n - o `mod` n) `mod` n)) - 4)%Z
    with (o + (n - o `mod` n) `mod` n)%Z by lia.
  rewrite Zplus_mod_idemp_r.
  replace (o + (n - o `mod` n))%Z with ((o - o `mod` n) + n)%Z by lia.
  rewrite <- Zplus_mod_idemp_l, Zminus_mod_idemp_r.
  rewrite Z.sub_diag, Z.mod_0_l by lia. by apply Z.mod_same; lia.
Qed.

Lemma write_prims_aligned p v w :
  (CdrWriter.payload_offset w `mod` Z.of_nat (prim_size p) = 0)%Z ->
  write_elems (write_prim p) v w = w ++ prim_data p v.
Proof.
  pose proof (prim_size_pos p) as Hp. revert w.
  induction v as [|a v IH]; intros w Ha; simpl; [by rewrite app_nil_r|].
  unfold write_elems in *. simpl. rewrite write_prim_aligned.
  unfold CdrWriter.write_aligned, CdrWriter.write_bytes.
  rewrite align_to_aligned by (done || lia). rewrite IH.
  - rewrite <- app_assoc. done.
  - unfold CdrWriter.payload_offset in *. rewrite length_app, length_prim_repr.
    replace (Z.of_nat (length w + prim_size p) - 4)%Z
      with ((Z.of_nat (length w) - 4) + 1 * Z.of_nat (prim_size p))%Z by lia.
    by rewrite Z.mod_add by lia.
Qed.

(** The bulk branch of a primitive sequence is the loop of element writers. *)
Lemma bulk_eq_loop p (v : list (prim_denote p)) w :
  serialize_seq_elems (TPrim p) (write_prim p) v w = write_elems (write_prim p) v w.
Proof.
  unfold serialize_seq_elems. case_decide; [done|].
  destruct v as [|a v]; [done|]. cbn [length Nat.eqb].
  pose proof (prim_size_pos p) as Hp.
  transitivity (write_elems (write_prim p) (a :: v)
                  (CdrWriter.align_to (Z.of_nat (prim_size p)) w)).
  - by rewrite write_prims_aligned by (apply align_to_offset; lia).
  - unfold write_elems. simpl. f_equal. rewrite !write_prim_aligned.
    unfold CdrWriter.write_aligned. f_equal.
    apply align_to_aligned; [lia|]. apply align_to_offset. lia.
Qed.

(* ------------------------------------------------------------------ *)
(** * Round trip *)

Section member_roundtrip.
Context (t : ftype).
Hypothesis t_reads : forall v w,
  type_valid t v -> has_header w -> reads (deserialize_type t) w (Some v) (serialize_type t v w).
Hypothesis t_grow : forall v w,
  type_valid t v -> has_header w -> nonempty t = true -> length w < length (serialize_type t v w).

Lemma elems_reads v w :
  Forall (type_valid t) v -> has_header w ->
  reads (read_elems (length v) (deserialize_type t)) w (Some v)
        (write_elems (serialize_type t) v w).
Proof. intros. by apply (reads_elems _ _ (type_valid t)). Qed.

Lemma seq_elems_reads v w :
  Forall (type_valid t) v -> has_header w ->
  reads (deserialize_seq_elems t (deserialize_type t) (length v)) w (Some v)
        (serialize_seq_elems t (serialize_type t) v w).
Proof.
  intros Hv Hh. pose proof (elems_reads v w Hv Hh) as He.
  destruct t as [p| |ms]; [|done|done].
  unfold deserialize_seq_elems, serialize_seq_elems. case_decide; [done|].
  destruct (Nat.eqb_spec (length v) 0) as [E|_].
  - apply nil_length_inv in E as ->. apply reads_ret.
  - by apply reads_prim_data.
Qed.

Lemma fixed_reads v w :
  Forall (type_valid t) v -> has_header w ->
  reads (deserialize_fixed t (deserialize_type t) (length v)) w (Some v)
        (serialize_fixed t (serialize_type t) v w).
Proof.
  intros Hv Hh. pose proof (elems_reads v w Hv Hh) as He.
  destruct t as [p| |ms]; [|done|done]. by apply reads_prim_data.
Qed.

Lemma seq_elems_grow v w :
  Forall (type_valid t) v -> has_header w -> nonempty t = true ->
  length w + length v <= length (serialize_seq_elems t (serialize_type t) v w).
Proof.
  intros Hv Hh Hn.
  assert (He : serialize_seq_elems t (serialize_type t) v w =
               write_elems (serialize_type t) v w).
  { destruct t as [p| |ms]; [apply bulk_eq_loop|done|done]. }
  rewrite He. eapply (write_elems_grow _ _ (type_valid t)); eauto.
Qed.

Lemma member_reads a v w :
  match a with Seq => nonempty t = true | _ => True end ->
  arity_valid a (type_valid t) v -> has_header w ->
  reads (emit_deserialize a t (deserialize_type t)) w (Some v)
        (emit_serialize a t (serialize_type t) v w).
Proof.
  destruct a as [| |n]; cbn [arity_denote arity_valid emit_deserialize emit_serialize] in *;
    intros Hn Hv Hh.
  - by apply t_reads.
  - destruct Hv as [Hl Hv]. unfold u32. rewrite uwrap_small by done.
    assert (Hh1 : has_header (CdrWriter.align_to 4 w)) by (by apply has_header_app).
    eapply reads_bind; [by apply reads_align|]. cbn beta.
    pose proof (reads_uint32 _ _ Hl Hh1) as H2.
    pose proof (has_header_reads _ _ _ _ H2 Hh1) as Hh2.
    eapply reads_bind; [exact H2|]. cbn beta.
    eapply reads_guarded; [|by apply seq_elems_grow].
    rewrite Nat2Z.id. by apply seq_elems_reads.
  - destruct Hv as (<- & _ & Hv). by apply fixed_reads.
Qed.

Lemma member_grow a v w :
  arity_valid a (type_valid t) v -> has_header w ->
  arity_nonempty a (nonempty t) = true ->
  length w < length (emit_serialize a t (serialize_type t) v w).
Proof.
  destruct a as [| |n]; cbn [arity_denote arity_valid arity_nonempty emit_serialize] in *;
    intros Hv Hh Hn.
  - by apply t_grow.
  - destruct Hv as [Hl Hv]. set (w1 := CdrWriter.write_uint32 _ _).
    assert (length w < length w1).
    { unfold w1, CdrWriter.write_uint32, CdrWriter.write_aligned, CdrWriter.write_bytes,
        CdrWriter.align_to. rewrite !length_app, length_le_split. lia. }
    assert (Hh1 : has_header w1) by (unfold has_header in *; lia).
    pose proof (reads_length _ _ _ _ (seq_elems_reads v w1 Hv Hh1)). lia.
  - destruct Hv as (<- & _ & Hv). apply andb_true_iff in Hn as [Hn1 Hn2].
    destruct v as [|e v]; [done|]. pose proof (fixed_reads (e :: v) w Hv Hh) as Hr.
    destruct t as [p| |ms].
    + cbn [serialize_fixed]. unfold CdrWriter.write_bytes, CdrWriter.align_to.
      rewrite !length_app, length_prim_data. pose proof (prim_size_pos p). simpl. lia.
    + pose proof (write_elems_grow _ _ (type_valid TString) t_reads
        (fun e w H1 H2 => t_grow e w H1 H2 Hn2) (e :: v) w Hv Hh) as H.
      cbn [serialize_fixed length] in *. lia.
    + pose proof (write_elems_grow _ _ (type_valid (TMsg ms)) t_reads
        (fun e w H1 H2 => t_grow e w H1 H2 Hn2) (e :: v) w Hv Hh) as H.
      cbn [serialize_fixed length] in *. lia.
Qed.
End member_roundtrip.

(** Round trip and growth, together, by induction on the schema. *)
Definition type_codec_ok (t : ftype) : Prop :=
  (forall v w, type_valid t v -> has_header w ->
     reads (deserialize_type t) w (Some v) (serialize_type t v w)) /\
  (forall v w, type_valid t v -> has_header w -> nonempty t = true ->
     length w < length (serialize_type t v w)).

Lemma members_reads ms :
  Forall (fun m => guard_sound (snd m) = true -> type_codec_ok (snd m)) ms ->
  guard_sound (TMsg ms) = true ->
  forall v w, type_valid (TMsg ms) v -> has_header w ->
    reads (deserialize_type (TMsg ms)) w (Some v) (serialize_type (TMsg ms) v w).
Proof.
  induction 1 as [|[a t] ms Ht Hms IH]; intros Hg v w Hv Hh.
  - destruct v. apply reads_ret.
  - cbn [guard_sound forallb fst snd] in Hg. apply andb_true_iff in Hg as [Hg1 Hg2].
    apply andb_true_iff in Hg1 as [Hg1 Hg3]. destruct v as [v vs]. destruct Hv as [Hv Hvs].
    destruct (Ht Hg1) as [Hr Hgr].
    pose proof (member_reads t Hr Hgr a v w ltac:(by destruct a) Hv Hh) as H1.
    pose proof (has_header_reads _ _ _ _ H1 Hh) as Hh1.
    cbn [deserialize_type deserialize_method fst snd].
    eapply reads_bind; [exact H1|]. cbn beta iota.
    eapply reads_bind; [by apply IH|]. apply reads_ret.
Qed.

Lemma members_grow ms :
  Forall (fun m => guard_sound (snd m) = true -> type_codec_ok (snd m)) ms ->
  guard_sound (TMsg ms) = true ->
  forall v w, type_valid (TMsg ms) v -> has_header w -> nonempty (TMsg ms) = true ->
    length w < length (serialize_type (TMsg ms) v w).
Proof.
  induction 1 as [|[a t] ms Ht Hms IH]; intros Hg v w Hv Hh Hn; [done|].
  pose proof Hg as Hg0.
  cbn [guard_sound forallb fst snd] in Hg. apply andb_true_iff in Hg as [Hg1 Hg2].
  apply andb_true_iff in Hg1 as [Hg1 Hg3]. destruct v as [v vs]. destruct Hv as [Hv Hvs].
  destruct (Ht Hg1) as [Hr Hgr].
  pose proof (member_reads t Hr Hgr a v w ltac:(by destruct a) Hv Hh) as H1.
  pose proof (has_header_reads _ _ _ _ H1 Hh) as Hh1.
  pose proof (reads_length _ _ _ _ H1) as Hl1.
  pose proof (reads_length _ _ _ _ (members_reads ms Hms Hg2 vs _ Hvs Hh1)) as Hl2.
  cbn [nonempty existsb fst snd] in Hn. apply orb_true_iff in Hn as [Hn|Hn].
  - pose proof (member_grow t Hr Hgr a v w Hv Hh Hn).
    cbn [serialize_type serialize_method fst snd] in *. lia.
  - specialize (IH Hg2 vs _ Hvs Hh1 Hn).
    cbn [serialize_type serialize_method fst snd] in *. lia.
Qed.

Lemma type_codec t : guard_sound t = true -> type_codec_ok t.
Proof.
  induction t as [p| |ms IH] using ftype_nested_ind; intros Hg; split; intros v w Hv Hh.
  - by apply reads_some, reads_prim.
  - intros _. apply write_prim_grow.
  - by apply reads_some, reads_string.
  - intros _. apply write_string_grow.
  - by apply members_reads.
  - by apply members_grow.
Qed.

(* ------------------------------------------------------------------ *)
(** * Hostile input *)

(** [None] is the emitted [return false]. *)
Definition if_read {T} (P : T -> Prop) (o : option T) : Prop := match o with Some x => P x | None => True end.

Lemma safe_some {T} u (r : reader T) (P : T -> Prop) : safe u r P -> safe u (let* v := r in mret (Some v)) (if_read P).
Proof. intros Hr. eapply safe_bind; [exact Hr|]. intros v Hv. by apply safe_ret. Qed.

Lemma safe_get_remaining u : safe u get_remaining (fun _ => True).
Proof. intros st [Hp _]. simpl. split_and!; [done|done|lia|lia]. Qed.

Lemma safe_elems {T} u (r : reader (option T)) (P : T -> Prop) n :
  safe u r (if_read P) -> safe u (read_elems n r) (if_read (fun v => length v = n /\ Forall P v)).
Proof.
  intros Hr. induction n as [|n IH]; [by apply safe_ret|].
  eapply safe_bind; [exact Hr|]. intros [a|] Ha; [|by apply safe_ret].
  eapply safe_bind; [exact IH|]. intros [v|] Hv; [|by apply safe_ret]. apply safe_ret.
  destruct Hv as [Hl Hv]. split; [simpl; by rewrite Hl|by constructor].
Qed.

(** What a representation of the right size denotes is a value of the type. *)
Lemma prim_of_repr_valid p b v : length b = prim_size p -> prim_of_repr p b = Some v -> prim_valid p v.
Proof.
  intros Hl Hv. pose proof (le_combine_range b) as Hr. rewrite Hl in Hr.
  destruct p; [done|..]; cbn [prim_of_repr prim_signed] in Hv; injection Hv as <-;
    cbn [prim_valid prim_signed]; first [exact Hr|apply swrap_range; done].
Qed.

Lemma prim_of_data_valid p n : forall b v,
  length b = n * prim_size p -> prim_of_data p n b = Some v -> length v = n /\ Forall (prim_valid p) v.
Proof.
  induction n as [|n IH]; intros b v Hl Hv; cbn [prim_of_data] in Hv; [by injection Hv as <-|].
  destruct (prim_of_repr p (take (prim_size p) b)) as [x|] eqn:Hx; [|done].
  destruct (prim_of_data p n (drop (prim_size p) b)) as [rest|] eqn:Hr; [|done]. injection Hv as <-.
  apply IH in Hr as [Hn Hf]; [|rewrite length_drop; lia]. split; [simpl; by rewrite Hn|]. constructor; [|exact Hf].
  eapply prim_of_repr_valid; [|exact Hx]. rewrite length_take. lia.
Qed.

Lemma prim_of_data_bool_free p n b :
  p <> bool_ -> is_Some (prim_of_data p n b).
Proof.
  intros Hp. revert b. induction n as [|n IH]; intros b; [by eexists|].
  destruct (IH (drop (prim_size p) b)) as [rest Hrest]. cbn [prim_of_data].
  destruct p; [done|..]; cbn [prim_of_repr mbind option_bind]; rewrite Hrest; by eexists.
Qed.

(** Only a [bool] can be undefined. *)
Lemma safe_read_prim p : safe (p = bool_) (read_prim p) (prim_valid p).
Proof.
  destruct p; [|first [by apply (safe_unsigned _ 1)|by apply (safe_unsigned _ 2)|by apply (safe_unsigned _ 4)
    |by apply (safe_unsigned _ 8)|by apply (safe_signed _ 1)|by apply (safe_signed _ 2)|by apply (safe_signed _ 4)
    |by apply (safe_signed _ 8)]..].
  eapply safe_bind; [by apply safe_aligned|]. intros b _.
  repeat case_match; first [by apply safe_ret|by intros st _].
Qed.

Lemma safe_prim_data p n :
  (Z.of_nat n < 2 ^ 32)%Z ->
  safe (p = bool_) (let* _ := CdrReader.align_to (Z.of_nat (prim_size p)) in
        let* b := CdrReader.read_bytes (Z.of_nat n * Z.of_nat (prim_size p)) in
        let* x := lift_trap (prim_of_data p n b) in
        mret (Some x)) (if_read (fun v => length v = n /\ Forall (prim_valid p) v)).
Proof.
  intros Hn. pose proof (prim_size_pos p) as Hp.
  eapply safe_bind; [apply safe_align; lia|]. intros _ _.
  eapply safe_bind; [apply safe_bytes; nia|]. intros b Hb. apply safe_some.
  destruct (prim_of_data p n b) as [x|] eqn:Hx.
  - apply safe_ret. eapply prim_of_data_valid; [|exact Hx]. by rewrite Hb, <- Nat2Z.inj_mul, Nat2Z.id.
  - intros st _. simpl. destruct (decide (p = bool_)) as [|Hne]; [done|].
    destruct (prim_of_data_bool_free p n b Hne) as [? Hx']. by rewrite Hx in Hx'.
Qed.

(** Fixed arrays are declared with a length that fits the generator's target
    ([std::array<T, N>] of at most 2^32 elements). *)
Fixpoint arrays_fit (t : ftype) : Prop :=
  match t with
  | TPrim _ => True
  | TString => True
  | TMsg ms =>
      (fix go (ms : list (arity * ftype)) : Prop :=
         match ms with
         | [] => True
         | m :: ms =>
             match fst m with Fixed n => (Z.of_nat n < 2 ^ 32)%Z | _ => True end /\
             arrays_fit (snd m) /\ go ms
         end) ms
  end.

(** A larger set of traps, for the members of a struct. *)
Lemma safe_trap {T} (u u' : Prop) (r : reader T) P : (u -> u') -> safe u r P -> safe u' r P.
Proof. intros Hu Hr st Hw. specialize (Hr st Hw). destruct (r st) as [[a st']|e|]; auto. Qed.

Lemma safe_member a t :
  match a with Fixed n => (Z.of_nat n < 2 ^ 32)%Z | _ => True end ->
  safe (bool_free t = false) (deserialize_type t) (if_read (type_valid t)) ->
  safe (bool_free t = false) (emit_deserialize a t (deserialize_type t)) (if_read (arity_valid a (type_valid t))).
Proof.
  intros Hn Ht.
  assert (Hfix : forall n, (Z.of_nat n < 2 ^ 32)%Z -> safe (bool_free t = false) (deserialize_fixed t (deserialize_type t) n)
    (if_read (fun v => length v = n /\ Forall (type_valid t) v))).
  { intros n Hl. destruct t as [p| |ms]; try by apply safe_elems.
    eapply safe_trap; [|by apply safe_prim_data]. by intros ->. }
  destruct a as [| |n]; [exact Ht| |].
  - eapply safe_bind; [by apply safe_align|]. intros _ _.
    eapply safe_bind; [apply safe_uint32|]. intros n Hnr. unfold in_u in Hnr.
    eapply safe_bind; [apply safe_get_remaining|]. intros rem _.
    case_match; [by apply safe_ret|].
    apply (safe_weaken _ _ (if_read (fun v => length v = Z.to_nat n /\ Forall (type_valid t) v))).
    + specialize (Hfix (Z.to_nat n) ltac:(lia)). destruct t as [p| |ms]; try by apply safe_elems.
      cbn [deserialize_seq_elems]. case_decide; [by apply safe_elems|].
      destruct (Nat.eqb_spec (Z.to_nat n) 0) as [->|]; [by apply safe_ret|exact Hfix].
    + intros [v|] Hv; [|done]. destruct Hv as [Hl Hv]. split; [unfold in_u; lia|done].
  - eapply safe_weaken; [by apply Hfix|]. intros [v|] Hv; [|done]. destruct Hv as [Hl Hv]. by split.
Qed.

(** Decoding stays inside the buffer, and gives a value the struct can hold; it
    is undefined only when a [bool] is read. *)
Lemma safe_type t :
  arrays_fit t -> safe (bool_free t = false) (deserialize_type t) (if_read (type_valid t)).
Proof.
  induction t as [p| |ms IH] using ftype_nested_ind; intros Hf.
  - apply safe_some. eapply safe_trap; [|apply safe_read_prim]. by intros ->.
  - apply safe_some, safe_string.
  - induction IH as [|[a t] ms Ht Hms IHms]; [by apply safe_ret|].
    destruct Hf as (Hn & Hf1 & Hf2). cbn [bool_free forallb snd].
    cbn [deserialize_type deserialize_method fst snd].
    eapply safe_bind; [eapply safe_trap; [|by apply safe_member; auto]; by intros ->|].
    intros [x|] Hx; [|by apply safe_ret].
    eapply safe_bind; [eapply safe_trap; [|by apply IHms]; intros Hb; cbn [bool_free] in Hb; by rewrite Hb, andb_false_r|].
    intros [rest|] Hr; by apply safe_ret.
Qed.

(* ------------------------------------------------------------------ *)
(** * The generated types implement the interface *)

(** A generated message type: its DDS name ("pkg::msg::dds_::Name_") and its
    members. *)
Definition generated_message (name : bytes) (ms : list (arity * ftype))
  : Message (denote (TMsg ms)) := {|
  dds_name := name;
  serialize := serialize_type (TMsg ms);
  deserialize := deserialize_type (TMsg ms)
|}.

Definition generated_laws (name : bytes) (ms : list (arity * ftype))
  (Hg : guard_sound (TMsg ms) = true) :
  @MessageLaws (denote (TMsg ms)) (generated_message name ms) :=
  @Build_MessageLaws _ (generated_message name ms) (type_valid (TMsg ms))
    (proj1 (type_codec (TMsg ms) Hg)).

Lemma written_reads t v :
  guard_sound t = true -> type_valid t v ->
  reads (deserialize_type t) CdrWriter.init (Some v) (serialize_type t v CdrWriter.init).
Proof. intros Hg Hv. apply type_codec; [done|done|]. unfold has_header. simpl. lia. Qed.

(** A reader constructed on what was written, and on further bytes. *)
Lemma decode_written t v tail :
  reads (deserialize_type t) CdrWriter.init (Some v) (serialize_type t v CdrWriter.init) ->
  in_memory (serialize_type t v CdrWriter.init ++ tail) ->
  (let* st := CdrReader.init (serialize_type t v CdrWriter.init ++ tail) in deserialize_type t st) =
  Ok (Some v, mk_reader (serialize_type t v CdrWriter.init ++ tail)
                (Z.of_nat (length (serialize_type t v CdrWriter.init)))).
Proof.
  intros Hr Hm. destruct (reads_prefix _ _ _ _ Hr) as [k Hk]. rewrite Hk in *.
  pose (M := {| dds_name := []; serialize := serialize_type t; deserialize := deserialize_type t |}).
  by apply (@decode_reads _ M v k Hr).
Qed.

(* ------------------------------------------------------------------ *)
(** * Properties *)


(** rcl_interfaces-like sample: string, nested struct with a bool, an int64, a
    double sequence, a bool sequence, a string sequence and a byte array. *)
Definition sample_schema : ftype :=
  TMsg [(Scalar, TString);
        (Scalar, TMsg [(Scalar, TPrim uint8_); (Scalar, TPrim bool_); (Scalar, TPrim int64_);
                       (Seq, TPrim float64_); (Seq, TPrim bool_); (Seq, TString)]);
        (Fixed 3, TPrim uint8_)].

Definition sample_value : denote sample_schema :=
  (lit "answer",
   ((2%Z, (true, ((-1)%Z, ([4607182418800017408%Z; 0%Z], ([true; false], ([lit "a"; lit "bc"], tt)))))),
    ([1%Z; 2%Z; 3%Z], tt))).

Lemma sample_valid : type_valid sample_schema sample_value.
Proof.
  cbn. unfold string_fits, in_u, in_s. cbn. split_and!; try lia; repeat constructor; cbn; lia.
Defined.





(** A string of two bytes after a bool: the padding between them was not zero. *)
Definition forwarded_type : ftype := TMsg [(Scalar, TPrim bool_); (Scalar, TString)].
Definition forwarded_bytes : bytes :=
  [x00; x01; x00; x00; x01; xaa; xbb; xcc; x03; x00; x00; x00] ++ lit "hi" ++ [x00].
Definition forwarded_value : denote forwarded_type := (true, (lit "hi", tt)).


(** C7: the bulk branch emitted for a sequence of primitives (one aligned copy
    of the contiguous storage) produces, for every primitive type, every
    sequence and every stream position, exactly the bytes of the loop of
    per-element writers. *)
Theorem bulk_sequence_layout (p : prim) (v : list (prim_denote p)) (w : bytes) :
  serialize_seq_elems (TPrim p) (write_prim p) v w = write_elems (write_prim p) v w.
Proof. apply bulk_eq_loop. Qed.

(** A bool member read from the wire is undefined behaviour as soon as the
    byte is neither 0 nor 1: a one-field message with a hostile byte reaches
    it, with every check of the reader passed. *)
Theorem hostile_bool_undefined (b : byte) (rest : bytes) :
  b <> x00 -> b <> x01 ->
  in_memory (CdrWriter.init ++ b :: rest) ->
  (let* st := CdrReader.init (CdrWriter.init ++ b :: rest)
   in deserialize_type (TMsg [(Scalar, TPrim bool_)]) st) = Undefined.
Proof.
  intros H0 H1 Hm. rewrite init_writer. cbn [mbind outcome_bind].
  pose proof (reads_aligned [b] 1 CdrWriter.init eq_refl ltac:(done) ltac:(unfold has_header; simpl; lia))
    as [_ Hr].
  change (CdrWriter.write_aligned [b] 1 CdrWriter.init) with (CdrWriter.init ++ [b]) in Hr.
  specialize (Hr rest). rewrite <- app_assoc in Hr. specialize (Hr Hm).
  cbn [deserialize_type deserialize_method emit_deserialize fst snd read_prim].
  unfold CdrReader.read_bool, mbind, reader_bind in *.
  change (Z.of_nat (length CdrWriter.init)) with 4%Z in Hr. simpl app in *. rewrite Hr.
  destruct b; done.
Qed.

Lemma hostile_bool_undefined_witness :
  (let* st := CdrReader.init (CdrWriter.init ++ [x02])
   in deserialize_type (TMsg [(Scalar, TPrim bool_)]) st) = Undefined.
Proof. apply (hostile_bool_undefined x02 []); [discriminate|discriminate|vm_compute; reflexivity]. Defined.

Lemma write_elems_id {T} (f : T -> bytes -> bytes) v w :
  (forall e w, f e w = w) -> write_elems f v w = w.
Proof.
  intros Hf. unfold write_elems. revert w. induction v as [|e v IH]; intros w; simpl; [done|].
  by rewrite Hf.
Qed.

(** The emitted guard rejects what the emitted writer produced when the
    elements of a sequence are field-less messages: a sequence of [n > 0] such
    elements is written as its bare length, and deserializing that payload
    returns [false]. *)
Theorem fieldless_sequence_rejected (v : list unit) :
  v <> [] -> in_u 32 (Z.of_nat (length v)) ->
  let t := TMsg [(Seq, TMsg [])] in
  let payload := serialize_type t (v, tt) CdrWriter.init in
  exists st, (let* st := CdrReader.init payload in deserialize_type t st) = Ok (None, st).
Proof.
  intros Hv Hn t payload.
  assert (Hp : payload = CdrWriter.init ++ le_split 4 (Z.of_nat (length v))).
  { unfold payload, t. cbn [serialize_type serialize_method emit_serialize serialize_seq_elems fst snd].
    unfold u32. rewrite uwrap_small by done. apply write_elems_id. done. }
  rewrite Hp, init_writer. cbn [mbind outcome_bind].
  set (buf := CdrWriter.init ++ le_split 4 (Z.of_nat (length v))).
  assert (Hm : in_memory (buf ++ [])).
  { unfold in_memory, buf. rewrite !length_app, length_le_split. simpl. lia. }
  destruct (reads_uint32 (Z.of_nat (length v)) CdrWriter.init Hn) as [_ Hr];
    [unfold has_header; simpl; lia|].
  change (CdrWriter.write_uint32 (Z.of_nat (length v)) CdrWriter.init) with buf in Hr.
  specialize (Hr [] Hm). rewrite app_nil_r in Hr.
  assert (Ha : CdrReader.align_to 4 (mk_reader buf 4) = Ok (tt, mk_reader buf 4)).
  { unfold CdrReader.align_to, CdrReader.size_, buf. cbn [buf_ pos_].
    rewrite length_app, length_le_split. done. }
  exists (mk_reader buf (Z.of_nat (length buf))).
  cbn [t deserialize_type deserialize_method emit_deserialize fst snd].
  unfold mbind, reader_bind. rewrite Ha. change (Z.of_nat (length CdrWriter.init)) with 4%Z in Hr.
  rewrite Hr. unfold get_remaining, CdrReader.remaining, CdrReader.size_. cbn [buf_ pos_].
  rewrite Z.sub_diag. change (u64 0) with 0%Z.
  destruct v as [|x v]; [done|]. rewrite Z.gtb_ltb, (proj2 (Z.ltb_lt _ _)) by (simpl; lia). done.
Qed.

Lemma fieldless_sequence_rejected_witness :
  exists st, (let* st := CdrReader.init
                (serialize_type (TMsg [(Seq, TMsg [])]) ([tt; tt], tt) CdrWriter.init)
              in deserialize_type (TMsg [(Seq, TMsg [])]) st) = Ok (None, st).
Proof.
  apply (fieldless_sequence_rejected [tt; tt]); [discriminate|].
  unfold in_u. simpl. lia.
Defined.
