(* ===== verification/Names.v ===== *)
(** Name mapping between ROS 2 and DDS (src/src/rcllite/names.hpp and
    names.cpp): topic, service and node names, and message type names. *)
From stdpp Require Import base tactics list numbers sets.
From Stdlib Require Import ZArith Lia Strings.Byte.
From S2P Require Import Prelude Bytes.

(** [validate_fqn] (anonymous namespace): [Ok tt], or it throws. *)
Definition validate_fqn (fqn : bytes) : outcome unit :=
  if bool_decide (fqn = []) || negb (bool_decide (head fqn = Some x2f)) then Throw InvalidArguments
  else if (1 <? length fqn)%nat && bool_decide (last fqn = Some x2f) then Throw InvalidArguments
  else if bool_decide (find_sub (lit "//") fqn <> None) then Throw InvalidArguments
  else Ok tt.

Definition ros_to_dds_topic_name (ros_fqn : bytes) : outcome bytes :=
  let* _ := validate_fqn ros_fqn in Ok (lit "rt" ++ ros_fqn).

Definition ros_to_dds_request_topic_name (ros_fqn : bytes) : outcome bytes :=
  let* _ := validate_fqn ros_fqn in Ok (lit "rq" ++ ros_fqn ++ lit "Request").

Definition ros_to_dds_reply_topic_name (ros_fqn : bytes) : outcome bytes :=
  let* _ := validate_fqn ros_fqn in Ok (lit "rr" ++ ros_fqn ++ lit "Reply").

Definition make_fq_node_name (ns name : bytes) : outcome bytes :=
  if bool_decide (name = []) || bool_decide (find_char x2f name <> None)
  then Throw InvalidArguments
  else if bool_decide (ns = []) || negb (bool_decide (head ns = Some x2f)) ||
          ((1 <? length ns)%nat && bool_decide (last ns = Some x2f))
  then Throw InvalidArguments
  else if bool_decide (ns = lit "/") then Ok (lit "/" ++ name)
  else Ok (ns ++ lit "/" ++ name).

(** [dds_ns.replace(slash, 1, "::")]. *)
Definition replace_char (i : nat) (t s : bytes) : bytes := take i s ++ t ++ drop (S i) s.

Definition dds_type_name (type : bytes) : outcome bytes :=
  if bool_decide (find_sub (lit "::") type <> None) then Ok type
  else
    match rfind_char x2f type with
    | None => Throw InvalidArguments
    | Some cut =>
        let dds_ns := take cut type in
        let dds_ns := match find_char x2f dds_ns with
                      | Some slash => replace_char slash (lit "::") dds_ns
                      | None => dds_ns
                      end in
        Ok (dds_ns ++ lit "::dds_::" ++ drop (S cut) type ++ lit "_")
    end.

Definition expand_topic_name (topic ns : bytes) : outcome bytes :=
  if bool_decide (topic = []) then Throw InvalidArguments
  else if bool_decide (head topic = Some x2f) then Ok topic
  else if bool_decide (find_char x2f topic <> None) then Throw InvalidArguments
  else if bool_decide (ns = lit "/") || bool_decide (ns = []) then Ok (lit "/" ++ topic)
  else Ok (ns ++ lit "/" ++ topic).

(* ------------------------------------------------------------------ *)
(** * The checks of tests/names_test.cpp *)

Example topic_mapping : ros_to_dds_topic_name (lit "/ns/deep/topic") = Ok (lit "rt/ns/deep/topic").
Proof. reflexivity. Qed.
Example request_mapping :
  ros_to_dds_request_topic_name (lit "/add_two_ints") = Ok (lit "rq/add_two_intsRequest").
Proof. reflexivity. Qed.
Example type_mapping : dds_type_name (lit "std_msgs/msg/String") = Ok (lit "std_msgs::msg::dds_::String_").
Proof. reflexivity. Qed.
Example type_rejected : dds_type_name (lit "std_msgs.String") = Throw InvalidArguments.
Proof. reflexivity. Qed.
Example empty_token_rejected : ros_to_dds_topic_name (lit "/a//b") = Throw InvalidArguments.
Proof. reflexivity. Qed.
Example subnamespace_rejected : expand_topic_name (lit "foo/bar") (lit "/ns") = Throw InvalidArguments.
Proof. reflexivity. Qed.

(* ------------------------------------------------------------------ *)
(** * Fully qualified names *)

(** What [validate_fqn] accepts: a leading slash, no trailing one (unless the
    name is "/"), no empty token. *)
Definition valid_fqn (fqn : bytes) : Prop :=
  head fqn = Some x2f /\
  (1 < length fqn -> last fqn <> Some x2f) /\
  ~ exists p q, fqn = p ++ lit "//" ++ q.

Lemma validate_fqn_spec fqn :
  validate_fqn fqn = if decide (head fqn = Some x2f /\
                                (1 < length fqn -> last fqn <> Some x2f) /\
                                find_sub (lit "//") fqn = None)
                     then Ok tt else Throw InvalidArguments.
Proof.
  unfold validate_fqn. destruct (Nat.ltb_spec 1 (length fqn)) as [Hl|Hl];
    repeat case_bool_decide; simpl; case_decide; subst; try done; naive_solver lia.
Qed.

Lemma validate_fqn_Ok fqn : validate_fqn fqn = Ok tt <-> valid_fqn fqn.
Proof.
  rewrite validate_fqn_spec. unfold valid_fqn. rewrite <- find_sub_None.
  case_decide; naive_solver.
Qed.

Lemma validate_fqn_cases fqn :
  (valid_fqn fqn /\ validate_fqn fqn = Ok tt) \/
  (~ valid_fqn fqn /\ validate_fqn fqn = Throw InvalidArguments).
Proof.
  pose proof (validate_fqn_spec fqn) as H. rewrite <- validate_fqn_Ok.
  destruct (decide _) in H; rewrite H; naive_solver.
Qed.

(** A namespace and a token as the sources use them. *)
Definition valid_namespace (ns : bytes) : Prop := ns = lit "/" \/ (valid_fqn ns /\ 1 < length ns).
Definition token (t : bytes) : Prop := t <> [] /\ x2f ∉ t.

Lemma lit_slashes : lit "//" = [x2f; x2f].
Proof. done. Qed.

Lemma no_double_slash_token t : x2f ∉ t -> ~ exists p q, t = p ++ lit "//" ++ q.
Proof. intros Ht (p & q & ->). rewrite lit_slashes in Ht. set_solver. Qed.

Lemma head_app_cons {A} (a : A) l k : head ((a :: l) ++ k) = Some a.
Proof. done. Qed.

Lemma last_token p t : token t -> last (p ++ t) <> Some x2f.
Proof.
  intros [Hn Ht]. destruct (exists_last Hn) as (t' & x & ->).
  rewrite app_assoc, last_snoc. set_solver.
Qed.

(** Joining a name that does not end in a slash and a token keeps tokens
    non-empty. *)
Lemma no_double_slash_join ns t :
  (~ exists p q, ns = p ++ lit "//" ++ q) -> last ns <> Some x2f -> token t ->
  ~ exists p q, ns ++ x2f :: t = p ++ lit "//" ++ q.
Proof.
  intros Hns Hl [Htn Ht] (p & q & Heq). rewrite lit_slashes in *.
  revert Hns Hl Heq. revert p. induction ns as [|a ns IH]; intros p Hns Hl Heq.
  - destruct p as [|b p]; simplify_eq/=; set_solver.
  - destruct p as [|b p]; simplify_eq/=.
    + destruct ns as [|c ns]; simplify_eq/=; try done. apply Hns. by exists [], ns.
    + apply (IH p); [|by destruct ns|done].
      intros (p' & q' & ->). apply Hns. by exists (b :: p'), q'.
Qed.

Lemma valid_fqn_root t : token t -> valid_fqn (x2f :: t).
Proof.
  intros Ht. split_and!; [done|intros _; by apply (last_token [x2f])|].
  by apply (no_double_slash_join []); [intros (p & q & H); by destruct p| |].
Qed.

Lemma valid_fqn_join ns t : valid_fqn ns -> 1 < length ns -> token t -> valid_fqn (ns ++ x2f :: t).
Proof.
  intros (Hh & Hl & Hd) Hlen Ht. split_and!.
  - by destruct ns.
  - intros _. change (x2f :: t) with ([x2f] ++ t). rewrite app_assoc. by apply last_token.
  - apply no_double_slash_join; auto.
Qed.

(* ------------------------------------------------------------------ *)
(** * Message type names *)

Lemma double_colon_mid p q : (exists p' q', p ++ lit "::" ++ q = p' ++ lit "::" ++ q').
Proof. by exists p, q. Qed.

Lemma find_sub_present t p q : find_sub t (p ++ t ++ q) <> None.
Proof. rewrite find_sub_None. intros H. apply H. by exists p, q. Qed.

Lemma dds_type_name_full t : find_sub (lit "::") t <> None -> dds_type_name t = Ok t.
Proof. intros H. unfold dds_type_name. by rewrite bool_decide_eq_true_2. Qed.

Lemma no_colon_no_sub s : x3a ∉ s -> find_sub (lit "::") s = None.
Proof.
  intros H. apply find_sub_None. intros (p & q & ->).
  change (lit "::") with [x3a; x3a] in H. set_solver.
Qed.

(* ------------------------------------------------------------------ *)
(** * Properties *)

(** The three kinds of DDS topic a ROS name maps to. *)
Inductive dds_kind : Type := KTopic | KRequest | KReply.

Definition dds_topic_of (k : dds_kind) : bytes -> outcome bytes :=
  match k with
  | KTopic => ros_to_dds_topic_name
  | KRequest => ros_to_dds_request_topic_name
  | KReply => ros_to_dds_reply_topic_name
  end.

Lemma dds_topic_of_Ok k fqn d :
  dds_topic_of k fqn = Ok d ->
  valid_fqn fqn /\
  d = match k with
      | KTopic => lit "rt" ++ fqn
      | KRequest => lit "rq" ++ fqn ++ lit "Request"
      | KReply => lit "rr" ++ fqn ++ lit "Reply"
      end.
Proof.
  destruct (validate_fqn_cases fqn) as [[Hv E]|[Hv E]]; destruct k; simpl;
    unfold ros_to_dds_topic_name, ros_to_dds_request_topic_name, ros_to_dds_reply_topic_name;
    rewrite E; simpl; intros; simplify_eq; done.
Qed.

(** C9: the mapping of ROS names to DDS topics is injective across topics,
    service requests and service replies: two names mapped to the same DDS
    topic are the same name used in the same role. *)
Theorem dds_topic_injective (k1 k2 : dds_kind) (fqn1 fqn2 d : bytes) :
  dds_topic_of k1 fqn1 = Ok d -> dds_topic_of k2 fqn2 = Ok d -> k1 = k2 /\ fqn1 = fqn2.
Proof.
  intros [_ H1]%dds_topic_of_Ok [_ H2]%dds_topic_of_Ok.
  destruct k1, k2; simpl in *; simplify_eq; (split; [done|]); try done;
    match goal with H : ?a ++ ?c = ?b ++ ?c |- _ => by apply app_inv_tail in H end.
Qed.

Lemma dds_topic_injective_witness : KRequest = KRequest /\ lit "/ns/svc" = lit "/ns/svc".
Proof.
  apply (dds_topic_injective KRequest KRequest (lit "/ns/svc") (lit "/ns/svc")
           (lit "rq/ns/svcRequest")); reflexivity.
Defined.

(** A topic or service name given relative to a valid namespace, and a node
    name in it, always expand to a fully qualified name of the expected shape,
    which the DDS mapping then accepts; a name that already starts with a slash
    is left alone. *)
Theorem relative_names_expand (ns t : bytes) :
  valid_namespace ns -> token t ->
  let fqn := if decide (ns = lit "/") then lit "/" ++ t else ns ++ lit "/" ++ t in
  expand_topic_name t ns = Ok fqn /\ make_fq_node_name ns t = Ok fqn /\
  expand_topic_name fqn ns = Ok fqn /\
  ros_to_dds_topic_name fqn = Ok (lit "rt" ++ fqn) /\
  ros_to_dds_request_topic_name fqn = Ok (lit "rq" ++ fqn ++ lit "Request") /\
  ros_to_dds_reply_topic_name fqn = Ok (lit "rr" ++ fqn ++ lit "Reply").
Proof.
  intros Hns Ht fqn. pose proof Ht as [Htn Htc].
  assert (Hv : valid_fqn fqn /\ head fqn = Some x2f /\ fqn <> []).
  { unfold fqn. case_decide as Hd.
    - split_and!; [by apply valid_fqn_root|done|done].
    - destruct Hns as [?|[Hv Hl]]; [done|].
      pose proof (valid_fqn_join ns t Hv Hl Ht) as Hj.
      split_and!; [done|apply Hj|by destruct ns]. }
  destruct Hv as (Hv & Hh & Hne). apply validate_fqn_Ok in Hv as E.
  unfold ros_to_dds_topic_name, ros_to_dds_request_topic_name, ros_to_dds_reply_topic_name.
  rewrite E. split_and!; try done.
  - unfold expand_topic_name. rewrite (bool_decide_eq_false_2 (t = [])) by done.
    rewrite bool_decide_eq_false_2 by (destruct t; [done|set_solver]).
    rewrite bool_decide_eq_false_2 by (apply find_char_None in Htc; naive_solver).
    unfold fqn. case_decide as Hd; [by rewrite bool_decide_eq_true_2|].
    assert (ns <> []) by (destruct Hns as [?|[? Hlen]]; [done|intros ->; simpl in Hlen; lia]).
    by rewrite (bool_decide_eq_false_2 (ns = lit "/")), (bool_decide_eq_false_2 (ns = [])).
  - unfold make_fq_node_name. rewrite (bool_decide_eq_false_2 (t = [])) by done.
    rewrite bool_decide_eq_false_2 by (apply find_char_None in Htc; naive_solver).
    unfold fqn. case_decide as Hd; [by subst|].
    destruct Hns as [?|[(Hh' & Hl' & _) Hlen]]; [done|].
    rewrite (bool_decide_eq_false_2 (ns = [])) by (by destruct ns).
    rewrite (bool_decide_eq_true_2 (head ns = Some x2f)) by done.
    rewrite (bool_decide_eq_false_2 (last ns = Some x2f)) by auto.
    rewrite andb_false_r. simpl. by rewrite bool_decide_eq_false_2.
  - unfold expand_topic_name. by rewrite (bool_decide_eq_false_2 (fqn = [])), bool_decide_eq_true_2.
Qed.

Lemma relative_names_expand_witness :
  expand_topic_name (lit "chatter") (lit "/robot") = Ok (lit "/robot/chatter") /\
  make_fq_node_name (lit "/robot") (lit "chatter") = Ok (lit "/robot/chatter") /\
  expand_topic_name (lit "/robot/chatter") (lit "/robot") = Ok (lit "/robot/chatter") /\
  ros_to_dds_topic_name (lit "/robot/chatter") = Ok (lit "rt/robot/chatter") /\
  ros_to_dds_request_topic_name (lit "/robot/chatter") = Ok (lit "rq/robot/chatterRequest") /\
  ros_to_dds_reply_topic_name (lit "/robot/chatter") = Ok (lit "rr/robot/chatterReply").
Proof.
  apply (relative_names_expand (lit "/robot") (lit "chatter")).
  - right. split; [apply validate_fqn_Ok; reflexivity|simpl; lia].
  - split; [discriminate|decide_closed].
Defined.

(** [dds_type_name] maps the ROS form pkg/msg/Name to the DDS name
    pkg::msg::dds_::Name_, rejects a name with neither a slash nor "::", and
    normalises: applied to its own result it returns it unchanged. *)
Theorem dds_type_name_normalises (pkg kind name t d : bytes) :
  x2f ∉ pkg ++ kind ++ name -> x3a ∉ pkg ++ kind ++ name ->
  dds_type_name (pkg ++ lit "/" ++ kind ++ lit "/" ++ name) =
    Ok (pkg ++ lit "::" ++ kind ++ lit "::dds_::" ++ name ++ lit "_") /\
  dds_type_name (pkg ++ kind ++ name) = Throw InvalidArguments /\
  (dds_type_name t = Ok d -> dds_type_name d = Ok d).
Proof.
  intros Hs Hc. split_and!.
  - unfold dds_type_name. rewrite no_colon_no_sub by (simpl; set_solver).
    rewrite bool_decide_eq_false_2 by naive_solver.
    rewrite !app_assoc. change (lit "/") with [x2f].
    rewrite <- (app_assoc _ [x2f] name). change ([x2f] ++ name) with (x2f :: name).
    rewrite rfind_char_app by set_solver. rewrite take_app_length.
    rewrite <- (app_assoc pkg [x2f] kind). change ([x2f] ++ kind) with (x2f :: kind).
    rewrite find_char_app by set_solver. unfold replace_char.
    rewrite take_app_length, !drop_S_app. by rewrite <- !app_assoc.
  - unfold dds_type_name. rewrite no_colon_no_sub by set_solver.
    rewrite bool_decide_eq_false_2 by naive_solver.
    by rewrite (proj2 (rfind_char_None x2f _)) by set_solver.
  - intros Hd. apply dds_type_name_full. revert Hd. unfold dds_type_name.
    case_bool_decide as Hsub; [by intros [= <-]|].
    destruct (rfind_char x2f t) as [cut|]; [|done]. cbv zeta. intros [= <-].
    apply (find_sub_present (lit "::") _ (lit "dds_::" ++ drop (S cut) t ++ lit "_")).
Qed.

Lemma dds_type_name_normalises_witness :
  dds_type_name (lit "std_msgs/msg/String") = Ok (lit "std_msgs::msg::dds_::String_") /\
  dds_type_name (lit "std_msgsmsgString") = Throw InvalidArguments /\
  (dds_type_name (lit "a/b/c") = Ok (lit "a::b::dds_::c_") ->
   dds_type_name (lit "a::b::dds_::c_") = Ok (lit "a::b::dds_::c_")).
Proof.
  apply (dds_type_name_normalises (lit "std_msgs") (lit "msg") (lit "String")).
  - decide_closed.
  - decide_closed.
Defined.
