(* ===== verification/MsgText.v ===== *)
(** From the text of .msg and .srv files to schemas (src/tools/msg_codegen.py):
    the line parser with its two regular expressions, the names of headers and
    C++ types, and the schema whose codec Codegen.v models.

    Texts are ASCII, as bytes; Python's character classes are those of ASCII.
    The regular expressions are matched by maximal runs of characters: each class
    excludes what may follow it, so backtracking never finds another match. *)
From Stdlib Require Import ZArith Lia Strings.Byte.
From Stdlib Require Import DecimalString DecimalZ DecimalPos.
From stdpp Require Import base tactics list numbers sets sorting.
From S2P Require Import Prelude Bytes Cdr Message Codegen Names.

(* ------------------------------------------------------------------ *)
(** * Python strings *)

Definition between (lo hi : Z) (b : byte) : bool := (lo <=? Z_of_byte b)%Z && (Z_of_byte b <=? hi)%Z.
Definition is_lower : byte -> bool := between 97 122.
Definition is_upper : byte -> bool := between 65 90.
Definition is_digit : byte -> bool := between 48 57.
Definition is_ident_start (b : byte) : bool := is_lower b || is_upper b || bool_decide (b = x5f).
Definition is_ident (b : byte) : bool := is_ident_start b || is_digit b.
Definition is_type_char (b : byte) : bool := is_ident b || bool_decide (b = x2f).
Definition is_const_start (b : byte) : bool := is_upper b || bool_decide (b = x5f).
Definition is_const (b : byte) : bool := is_const_start b || is_digit b.

(** [str.isspace] and [\s]; the line boundaries of [str.splitlines]. *)
Definition isspace (b : byte) : bool := between 9 13 b || between 28 32 b.
Definition ends_line (b : byte) : bool := between 10 13 b || between 28 30 b.

Definition upper (b : byte) : byte := if is_lower b then byte_of_Z (Z_of_byte b - 32) else b.
Definition lower (b : byte) : byte := if is_upper b then byte_of_Z (Z_of_byte b + 32) else b.

(** The longest prefix of bytes satisfying [p], and the rest. *)
Fixpoint span (p : byte -> bool) (s : bytes) : bytes * bytes :=
  match s with
  | [] => ([], [])
  | c :: s' => if p c then let (a, b) := span p s' in (c :: a, b) else ([], s)
  end.

Definition lstrip (s : bytes) : bytes := snd (span isspace s).
Definition strip (s : bytes) : bytes := rev (lstrip (rev (lstrip s))).

(** A carriage return takes the line feed after it with it. *)
Fixpoint splitlines_from (line : bytes) (after_cr : bool) (s : bytes) : list bytes :=
  match s with
  | [] => match line with [] => [] | _ => [line] end
  | c :: s =>
      if after_cr && bool_decide (c = x0a) then splitlines_from line false s
      else if ends_line c then line :: splitlines_from [] (bool_decide (c = x0d)) s
      else splitlines_from (line ++ [c]) false s
  end.

Definition splitlines (s : bytes) : list bytes := splitlines_from [] false s.

(** [int(s)]: white space around, a sign, digits with single underscores between
    them. *)
Fixpoint digits_value (acc : Z) (digit_before : bool) (s : bytes) : option Z :=
  match s with
  | [] => if digit_before then Some acc else None
  | c :: s =>
      if is_digit c then digits_value (10 * acc + (Z_of_byte c - 48)) true s
      else if bool_decide (c = x5f) && digit_before then digits_value acc false s
      else None
  end.

Definition py_int (s : bytes) : outcome Z :=
  let s := strip s in
  let (sign, ds) := match s with
                    | x2d :: r => ((-1)%Z, r)
                    | x2b :: r => (1%Z, r)
                    | _ => (1%Z, s)
                    end in
  match digits_value 0 false ds with
  | Some n => Ok (sign * n)%Z
  | None => Throw ValueError
  end.

(** [s.split(c)]. *)
Fixpoint split_on (c : byte) (s : bytes) : list bytes :=
  match s with
  | [] => [[]]
  | d :: s =>
      match split_on c s with
      | [] => [[d]]
      | p :: ps => if decide (d = c) then [] :: p :: ps else (d :: p) :: ps
      end
  end.

(** [sep.join(parts)]. *)
Fixpoint join (sep : bytes) (parts : list bytes) : bytes :=
  match parts with
  | [] => []
  | [p] => p
  | p :: ps => p ++ sep ++ join sep ps
  end.

(* ------------------------------------------------------------------ *)
(** * Names *)

Definition split_pkg_type (token : bytes) : outcome (bytes * bytes) :=
  match find_char x2f token with
  | None => Throw ValueError
  | Some i =>
      let pkg := take i token in
      let name := drop (S i) token in
      if bool_decide (pkg = []) || bool_decide (name = []) then Throw ValueError else Ok (pkg, name)
  end.

Definition capital (p : bytes) : bytes := match p with [] => [] | c :: p => upper c :: p end.
Definition snake_to_camel (s : bytes) : bytes := concat (map capital (split_on x5f s)).

(** An underscore goes between a lower case letter or digit and an upper case
    letter. *)
Fixpoint camel_to_snake_from (after_small : bool) (s : bytes) : bytes :=
  match s with
  | [] => []
  | c :: s =>
      (if after_small && is_upper c then [x5f] else []) ++
      lower c :: camel_to_snake_from (is_lower c || is_digit c) s
  end.
Definition camel_to_snake (s : bytes) : bytes := camel_to_snake_from false s.

(** The keys of [PRIM] and the values of [CPP_PRIM]. *)
Definition prim_key (p : prim) : bytes :=
  match p with
  | bool_ => lit "bool" | byte_ => lit "byte" | char_ => lit "char"
  | float32_ => lit "float32" | float64_ => lit "float64"
  | int8_ => lit "int8" | int16_ => lit "int16" | int32_ => lit "int32" | int64_ => lit "int64"
  | uint8_ => lit "uint8" | uint16_ => lit "uint16" | uint32_ => lit "uint32" | uint64_ => lit "uint64"
  end.

Definition all_prims : list prim :=
  [bool_; byte_; char_; float32_; float64_; int8_; int16_; int32_; int64_; uint8_; uint16_; uint32_; uint64_].

Definition PRIM (t : bytes) : option prim := List.find (fun p => bool_decide (prim_key p = t)) all_prims.

Definition CPP_PRIM (p : prim) : bytes :=
  match p with
  | bool_ => lit "bool"
  | byte_ | char_ | uint8_ => lit "uint8_t"
  | float32_ => lit "float"
  | float64_ => lit "double"
  | int8_ => lit "int8_t" | int16_ => lit "int16_t" | int32_ => lit "int32_t" | int64_ => lit "int64_t"
  | uint16_ => lit "uint16_t" | uint32_ => lit "uint32_t" | uint64_ => lit "uint64_t"
  end.

(* ------------------------------------------------------------------ *)
(** * The parser *)

Record Member := mk_member {
  ros_type : bytes;
  member_name : bytes;
  is_seq : bool;
  fixed_len : option Z;
  default_text : bytes
}.

Record MsgDef := mk_msg { msg_package : bytes; msg_name : bytes; members : list Member }.
Record SrvDef := mk_srv { srv_package : bytes; srv_name : bytes; request : MsgDef; response : MsgDef }.

Definition starts (p : byte -> bool) (s : bytes) : bool := match s with c :: _ => p c | [] => false end.

(** [^[A-Za-z_][A-Za-z0-9_]*\s+[A-Z_][A-Z0-9_]*\s*=]. *)
Definition is_constant (line : bytes) : bool :=
  let (type, r) := span is_ident line in
  let (gap, r) := span isspace r in
  let (name, r) := span is_const r in
  let (_, r) := span isspace r in
  starts is_ident_start type && negb (bool_decide (gap = [])) && starts is_const_start name &&
  starts (fun c => bool_decide (c = x3d)) r.

(** [(?:<=\d+)?]. *)
Definition match_bound (s : bytes) : bytes * bytes :=
  match s with
  | x3c :: x3d :: r =>
      let (ds, r) := span is_digit r in
      if bool_decide (ds = []) then ([], s) else (lit "<=" ++ ds, r)
  | _ => ([], s)
  end.

(** [(\[[^\]]*\])?], without the brackets. *)
Definition match_bracket (s : bytes) : option bytes * bytes :=
  match s with
  | x5b :: r =>
      let (inner, r) := span (fun c => negb (bool_decide (c = x5d))) r in
      match r with [] => (None, s) | _ :: r => (Some inner, r) end
  | _ => (None, s)
  end.

(** The four groups of the expression for members. *)
Definition match_member (line : bytes) : option (bytes * option bytes * bytes * option bytes) :=
  let (type, r) := span is_type_char line in
  let (bound, r) := match_bound r in
  let (bracket, r) := match_bracket r in
  let (gap, r) := span isspace r in
  let (name, r) := span is_ident r in
  let (gap', rest) := span isspace r in
  if starts is_ident_start type && negb (bool_decide (gap = [])) && starts is_lower name &&
     (bool_decide (r = []) || negb (bool_decide (gap' = [])))
  then Some (type ++ bound, bracket, name, if bool_decide (r = []) then None else Some rest)
  else None.

(** Whether the member is a sequence, and the length of a fixed array. *)
Definition parse_bracket (bracket : option bytes) : outcome (bool * option Z) :=
  match bracket with
  | None => Ok (false, None)
  | Some [] => Ok (true, None)
  | Some inner =>
      if starts_with (lit "<=") inner then Ok (true, None)
      else let* n := py_int inner in Ok (false, Some n)
  end.

(** Nested types of the same package may omit it. *)
Definition qualified (package type : bytes) : bytes :=
  if bool_decide (PRIM type = None) && negb (bool_decide (type = lit "string")) && bool_decide (find_char x2f type = None)
  then package ++ lit "/" ++ type else type.

Definition parse_member (package type_tok : bytes) (bracket : option bytes) (name : bytes) (rest : option bytes)
  : outcome Member :=
  if bool_decide (type_tok = lit "wstring") then Throw ValueError
  else
    let type := if starts_with (lit "string<=") type_tok then lit "string" else type_tok in
    let* shape := parse_bracket bracket in
    let default := match rest with Some r => strip r | None => [] end in
    Ok (mk_member (qualified package type) name (fst shape) (snd shape) default).

(** The body of the loop; [None]: the line declares no member. *)
Definition parse_line (package : bytes) (raw : bytes) : outcome (option Member) :=
  let line := strip (fst (span (fun c => negb (bool_decide (c = x23))) raw)) in
  if bool_decide (line = []) then Ok None
  else if is_constant line then Ok None
  else
    match match_member line with
    | None => Throw ValueError
    | Some (type_tok, bracket, name, rest) =>
        let* m := parse_member package type_tok bracket name rest in Ok (Some m)
    end.

Fixpoint parse_lines (package : bytes) (lines : list bytes) : outcome (list Member) :=
  match lines with
  | [] => Ok []
  | raw :: lines =>
      let* m := parse_line package raw in
      let* ms := parse_lines package lines in
      Ok (option_list m ++ ms)
  end.

Definition parse_msg (text package name : bytes) : outcome MsgDef :=
  let* ms := parse_lines package (splitlines text) in Ok (mk_msg package name ms).

Definition parse_srv (text package name : bytes) : outcome SrvDef :=
  match find_sub (lit "---") text with
  | None => Throw ValueError
  | Some i =>
      let* req := parse_msg (take i text) package (name ++ lit "_Request") in
      let* resp := parse_msg (drop (i + 3) text) package (name ++ lit "_Reply") in
      Ok (mk_srv package name req resp)
  end.

(** The name a header gets from [main]: the file's name without its extension
    becomes the message's name, and that the header's. *)
Definition header_name (base : bytes) : bytes := camel_to_snake (snake_to_camel base).

(** The build rule (bazel/rules/msg.bzl) declares its outputs with its own copy
    of [camel_to_snake]: a loop that looks at the character before. *)
Fixpoint bazel_camel_to_snake_from (before : option byte) (s : bytes) : bytes :=
  match s with
  | [] => []
  | ch :: s =>
      (if is_upper ch && match before with Some b => is_lower b || is_digit b | None => false end then [x5f] else []) ++
      lower ch :: bazel_camel_to_snake_from (Some ch) s
  end.
Definition bazel_camel_to_snake (s : bytes) : bytes := bazel_camel_to_snake_from None s.

(* ------------------------------------------------------------------ *)
(** * What is emitted for a definition *)

Definition cpp_type (m : Member) : outcome bytes :=
  let* base := match PRIM (ros_type m) with
               | Some p => Ok (CPP_PRIM p)
               | None =>
                   if bool_decide (ros_type m = lit "string") then Ok (lit "std::string")
                   else let* t := split_pkg_type (ros_type m) in Ok (fst t ++ lit "::msg::" ++ snd t)
               end in
  Ok (if is_seq m then lit "std::vector<" ++ base ++ lit ">"
      else match fixed_len m with
           | Some n => lit "std::array<" ++ base ++ lit ", " ++ to_string n ++ lit ">"
           | None => base
           end).

Definition quote : bytes := [x22].

Definition default_init (m : Member) : bytes :=
  if is_seq m || bool_decide (fixed_len m <> None) then []
  else
    let d := default_text m in
    match PRIM (ros_type m) with
    | Some p =>
        if bool_decide (d = []) then
          match p with
          | bool_ => lit "false"
          | float32_ | float64_ => lit "0.0"
          | _ => lit "static_cast<" ++ CPP_PRIM p ++ lit ">(0)"
          end
        else
          match p with
          | bool_ => if bool_decide (d = lit "true") then lit "true" else lit "false"
          | _ => lit "static_cast<" ++ CPP_PRIM p ++ lit ">(" ++ d ++
                 (if starts_with (lit "u") (CPP_PRIM p) then lit "u" else []) ++ lit ")"
          end
    | None =>
        if bool_decide (ros_type m = lit "string") && negb (bool_decide (d = [])) then
          if starts_with quote d && ends_with quote d then d else quote ++ d ++ quote
        else []
    end.

Definition struct_line (indent : bytes) (m : Member) : outcome bytes :=
  let* t := cpp_type m in
  let init := default_init m in
  Ok (indent ++ t ++ lit " " ++ member_name m ++ (if bool_decide (init = []) then [] else lit " {" ++ init ++ lit "}") ++ lit ";").

Fixpoint outcome_map {A B} (f : A -> outcome B) (l : list A) : outcome (list B) :=
  match l with
  | [] => Ok []
  | a :: l => let* b := f a in let* bs := outcome_map f l in Ok (b :: bs)
  end.

Definition struct_body (msg : MsgDef) (indent : bytes) : outcome bytes :=
  let* lines := outcome_map (struct_line indent) (members msg) in
  Ok (match lines with
      | [] => indent ++ lit "char _rcllite_empty_{0};  // empty message"
      | _ => join [x0a] lines
      end).

(** The header a nested member needs, if it is not the message's own. *)
Definition include_of (own_package own_name : bytes) (m : Member) : outcome (option bytes) :=
  if bool_decide (PRIM (ros_type m) <> None) || bool_decide (ros_type m = lit "string") then Ok None
  else
    let* t := split_pkg_type (ros_type m) in
    if bool_decide (t = (own_package, own_name)) then Ok None
    else Ok (Some (lit "#include " ++ quote ++ lit "rcllite_types/" ++ fst t ++ lit "/" ++
                   camel_to_snake (snd t) ++ lit ".hpp" ++ quote)).

(** The set as a sorted list. *)
Definition include_list (msgs : list MsgDef) (own_package own_name : bytes) : outcome (list bytes) :=
  let* deps := outcome_map (include_of own_package own_name) (concat (map members msgs)) in
  Ok (merge_sort bytes_le (remove_dups (omap id deps))).

Definition includes_for (msgs : list MsgDef) (own_package own_name : bytes) : outcome bytes :=
  let* l := include_list msgs own_package own_name in Ok (join [x0a] l).

(** [dds_name] of the specializations in the headers. *)
Definition msg_dds_name (msg : MsgDef) : bytes := msg_package msg ++ lit "::msg::dds_::" ++ msg_name msg ++ lit "_".
Definition srv_dds_name (srv : SrvDef) (part : bytes) : bytes :=
  srv_package srv ++ lit "::srv::dds_::" ++ srv_name srv ++ lit "_" ++ part ++ lit "_".

(** The branch of [emit_serialize] and [emit_deserialize]. *)
Definition arity_of (m : Member) : option arity :=
  if is_seq m then Some Seq
  else match fixed_len m with
       | None => Some Scalar
       | Some n => if (0 <=? n)%Z then Some (Fixed (Z.to_nat n)) else None
       end.

(** The schema of a message, with the definitions of the nested types given by
    [env]; the fuel is the depth of nesting.  [None]: the generated header does
    not compile. *)
Fixpoint schema (env : bytes -> bytes -> option MsgDef) (fuel : nat) (msg : MsgDef) : option ftype :=
  match fuel with
  | O => None
  | S fuel =>
      ms ← mapM (fun m =>
        a ← arity_of m;
        t ← match PRIM (ros_type m) with
            | Some p => Some (TPrim p)
            | None =>
                if bool_decide (ros_type m = lit "string") then Some TString
                else match split_pkg_type (ros_type m) with
                     | Ok (pkg, nm) => d ← env pkg nm; schema env fuel d
                     | _ => None
                     end
            end;
        Some (a, t)) (members msg);
      Some (TMsg ms)
  end.

(* ------------------------------------------------------------------ *)
(** * Runs of characters *)

Definition all (p : byte -> bool) (s : bytes) : Prop := Forall (fun c => p c = true) s.

Lemma all_weaken (p q : byte -> bool) s : (forall c, p c = true -> q c = true) -> all p s -> all q s.
Proof. intros Hpq Hs. eapply list.Forall_impl; [exact Hs|exact Hpq]. Qed.

Lemma all_app p s t : all p s -> all p t -> all p (s ++ t).
Proof. intros. by apply Forall_app. Qed.

Lemma all_rev p s : all p s -> all p (rev s).
Proof. apply Forall_rev. Qed.

Lemma starts_app p s t : s <> [] -> starts p (s ++ t) = starts p s.
Proof. by destruct s. Qed.

Lemma starts_all p q s : all q s -> (forall c, q c = true -> p c = false) -> starts p s = false.
Proof. intros Hs Hq. destruct Hs; [done|]. simpl. auto. Qed.

Lemma span_app p s t : all p s -> starts p t = false -> span p (s ++ t) = (s, t).
Proof.
  intros Hs Ht. induction Hs as [|c s Hc _ IH]; [destruct t as [|c t]; [done|]; simpl in *; by rewrite Ht|].
  simpl. by rewrite Hc, IH.
Qed.

Lemma span_none p t : starts p t = false -> span p t = ([], t).
Proof. apply (span_app p []). constructor. Qed.

Lemma span_all p s : all p s -> span p s = (s, []).
Proof. intros Hs. rewrite <- (app_nil_r s) at 1. by apply span_app. Qed.

(** No space at either end. *)
Definition trimmed (s : bytes) : Prop := starts isspace s = false /\ starts isspace (rev s) = false.

Lemma strip_surrounded lead s trail :
  all isspace lead -> all isspace trail -> trimmed s -> strip (lead ++ s ++ trail) = s.
Proof.
  intros Hl Ht [Hs He]. unfold strip, lstrip. destruct (decide (s = [])) as [->|Hne].
  - simpl. rewrite (span_all isspace (lead ++ trail)) by by apply all_app. done.
  - rewrite (span_app _ lead) by (done || by rewrite starts_app). cbn [snd]. rewrite rev_app_distr.
    rewrite (span_app _ (rev trail)) by (done || by apply all_rev). cbn [snd]. apply rev_involutive.
Qed.

Lemma strip_trimmed s : trimmed s -> strip s = s.
Proof. intros Hs. rewrite <- (app_nil_r s) at 1. by apply (strip_surrounded [] s []); [constructor..|]. Qed.

Lemma trimmed_all p s : all p s -> (forall c, p c = true -> isspace c = false) -> trimmed s.
Proof. intros Hs Hp. split; eapply starts_all; [exact Hs|exact Hp|by apply all_rev|exact Hp]. Qed.

Lemma trimmed_ends s m t :
  s <> [] -> t <> [] -> starts isspace s = false -> starts isspace (rev t) = false -> trimmed (s ++ m ++ t).
Proof.
  intros Hs Ht Hs1 Ht2. split; [by rewrite starts_app|].
  rewrite !rev_app_distr, <- app_assoc, starts_app; [done|]. intros Hr. apply Ht. by rewrite <- (rev_involutive t), Hr.
Qed.

(** The classes that meet in a line. *)
Lemma ident_class c : is_ident c = true ->
  isspace c = false /\ ends_line c = false /\ is_type_char c = true /\ c <> x23 /\ c <> x5b /\ c <> x3c /\ c <> x5d /\ c <> x3d.
Proof. by destruct c. Qed.

Lemma digit_class c : is_digit c = true -> is_ident c = true /\ is_type_char c = true.
Proof. by destruct c. Qed.

Lemma space_class c : isspace c = true -> is_ident c = false /\ is_type_char c = false /\ is_const c = false /\ is_digit c = false /\
  is_lower c = false /\ c <> x23 /\ c <> x5b /\ c <> x3c /\ c <> x3d.
Proof. by destruct c. Qed.

Lemma lower_class c : is_lower c = true -> is_ident c = true /\ is_ident_start c = true /\ is_const c = false.
Proof. by destruct c. Qed.

Lemma start_class c : is_ident_start c = true -> is_ident c = true.
Proof. unfold is_ident. by intros ->. Qed.

(* ------------------------------------------------------------------ *)
(** * Numbers *)

Lemma digits_value_acc u : forall acc b, (u = Decimal.Nil -> b = true) ->
  digits_value (Z.pos acc) b (lit (NilEmpty.string_of_uint u)) = Some (Z.pos (Pos.of_uint_acc u acc)).
Proof.
  unfold lit, String.list_byte_of_string.
  induction u as [|u IH|u IH|u IH|u IH|u IH|u IH|u IH|u IH|u IH|u IH]; intros acc b Hb; [by rewrite Hb|..];
    cbn [NilEmpty.string_of_uint String.list_ascii_of_string map digits_value Pos.of_uint_acc Ascii.byte_of_ascii];
    (rewrite <- (IH _ true) by done); cbn; f_equal; lia.
Qed.

Lemma digits_value_uint u : u <> Decimal.Nil ->
  digits_value 0 false (lit (NilEmpty.string_of_uint u)) = Some (Z.of_uint u).
Proof.
  assert (Hgen : forall b, (u = Decimal.Nil -> b = true) -> digits_value 0 b (lit (NilEmpty.string_of_uint u)) = Some (Z.of_uint u)).
  { unfold Z.of_uint. induction u as [|u IH|u IH|u IH|u IH|u IH|u IH|u IH|u IH|u IH|u IH]; intros b Hb; [by rewrite Hb|..].
    - exact (IH true ltac:(done)).
    - exact (digits_value_acc u 1 true ltac:(done)).
    - exact (digits_value_acc u 2 true ltac:(done)).
    - exact (digits_value_acc u 3 true ltac:(done)).
    - exact (digits_value_acc u 4 true ltac:(done)).
    - exact (digits_value_acc u 5 true ltac:(done)).
    - exact (digits_value_acc u 6 true ltac:(done)).
    - exact (digits_value_acc u 7 true ltac:(done)).
    - exact (digits_value_acc u 8 true ltac:(done)).
    - exact (digits_value_acc u 9 true ltac:(done)). }
  intros Hn. by apply Hgen.
Qed.

Definition decimal (n : nat) : bytes := to_string (Z.of_nat n).

(** The digits of a natural number. *)
Lemma decimal_uint n : exists u, u <> Decimal.Nil /\ decimal n = lit (NilEmpty.string_of_uint u) /\ Z.of_uint u = Z.of_nat n.
Proof.
  unfold decimal, to_string. pose proof (DecimalZ.of_to (Z.of_nat n)) as Hz.
  assert (Hn : match Z.to_int (Z.of_nat n) with Decimal.Pos u => u <> Decimal.Nil | Decimal.Neg _ => False end).
  { destruct n as [|n]; simpl; [done|]. apply DecimalPos.Unsigned.to_uint_nonnil. }
  destruct (Z.to_int (Z.of_nat n)) as [u|u]; [|done]. by exists u.
Qed.

Lemma uint_digits u : all is_digit (lit (NilEmpty.string_of_uint u)).
Proof. unfold lit, String.list_byte_of_string. induction u; simpl; constructor; done. Qed.

Lemma decimal_digits n : all is_digit (decimal n) /\ decimal n <> [].
Proof.
  destruct (decimal_uint n) as (u & Hu & -> & _). split; [apply uint_digits|]. by destruct u.
Qed.

Lemma py_int_decimal n : py_int (decimal n) = Ok (Z.of_nat n).
Proof.
  destruct (decimal_uint n) as (u & Hu & E & Hz). pose proof (decimal_digits n) as [Hd Hne].
  assert (Ht : trimmed (decimal n)).
  { eapply trimmed_all; [exact Hd|]. intros c [Hc _]%digit_class. by apply ident_class in Hc as [? _]. }
  unfold py_int. rewrite strip_trimmed by done. pose proof (digits_value_uint u Hu) as Hv. rewrite <- E, Hz in Hv.
  destruct Hd as [|c ds Hc _]; [done|].
  assert (Hm : match c :: ds with x2d :: r => ((-1)%Z, r) | x2b :: r => (1%Z, r) | _ => (1%Z, c :: ds) end = (1%Z, c :: ds))
    by by destruct c.
  rewrite Hm, Hv. by rewrite Z.mul_1_l.
Qed.

(* ------------------------------------------------------------------ *)
(** * Definition files as they are written *)

(** The type of a member: a primitive, [string], [string<=n], [pkg/Name], or the
    name of a message of the same package. *)
Inductive base_type :=
| BPrim (p : prim)
| BString
| BBounded (n : nat)
| BNested (pkg name : bytes)
| BLocal (name : bytes).

(** [T], [T[]], [T[<=n]], [T[n]]. *)
Inductive shape := One | Sequence | Bounded (n : nat) | Array (n : nat).

Record field := mk_field { f_base : base_type; f_shape : shape; f_name : bytes; f_default : bytes }.

Inductive item :=
| Blank
| Constant (type name value : bytes)
| Field (f : field).

(** A line: its item, the white space before it, inside it and after it, and a
    comment or nothing. *)
Record line := mk_line { lead : bytes; content : item; gap : bytes; gap2 : bytes; trail : bytes; comment : bytes }.

Definition base_run (b : base_type) : bytes :=
  match b with
  | BPrim p => prim_key p
  | BString | BBounded _ => lit "string"
  | BNested pkg name => pkg ++ lit "/" ++ name
  | BLocal name => name
  end.
Definition base_bound (b : base_type) : bytes := match b with BBounded n => lit "<=" ++ decimal n | _ => [] end.
Definition shape_text (sh : shape) : bytes :=
  match sh with
  | One => []
  | Sequence => lit "[]"
  | Bounded n => lit "[<=" ++ decimal n ++ lit "]"
  | Array n => lit "[" ++ decimal n ++ lit "]"
  end.

Definition item_text (g g2 : bytes) (i : item) : bytes :=
  match i with
  | Blank => []
  | Constant type name value => type ++ g ++ name ++ g2 ++ lit "=" ++ value
  | Field f =>
      (base_run (f_base f) ++ base_bound (f_base f) ++ shape_text (f_shape f)) ++ g ++
      f_name f ++ (if bool_decide (f_default f = []) then [] else g2 ++ f_default f)
  end.

Definition line_text (l : line) : bytes := lead l ++ item_text (gap l) (gap2 l) (content l) ++ trail l ++ comment l.
Definition file_text (ls : list line) : bytes := concat (map (fun l => line_text l ++ [x0a]) ls).

(** The member a field declares in a file of [package]. *)
Definition member_of (package : bytes) (f : field) : Member :=
  mk_member
    (match f_base f with
     | BPrim p => prim_key p
     | BString | BBounded _ => lit "string"
     | BNested pkg name => pkg ++ lit "/" ++ name
     | BLocal name => package ++ lit "/" ++ name
     end)
    (f_name f)
    (match f_shape f with Sequence | Bounded _ => true | _ => false end)
    (match f_shape f with Array n => Some (Z.of_nat n) | _ => None end)
    (f_default f).

Definition declared (package : bytes) (ls : list line) : list Member :=
  omap (fun l => match content l with Field f => Some (member_of package f) | _ => None end) ls.

(** Lines the format allows. *)
Definition is_blank (c : byte) : bool := bool_decide (c = x20) || bool_decide (c = x09).
Definition is_plain (c : byte) : bool := negb (ends_line c).
Definition is_text (c : byte) : bool := is_plain c && negb (bool_decide (c = x23)).

Definition identifier (s : bytes) : Prop := starts is_ident_start s = true /\ all is_ident s.

Definition base_ok (b : base_type) : Prop :=
  match b with
  | BNested pkg name => identifier pkg /\ identifier name
  | BLocal name => identifier name /\ PRIM name = None /\ name <> lit "string" /\ name <> lit "wstring"
  | _ => True
  end.

Definition item_ok (g g2 : bytes) (i : item) : Prop :=
  match i with
  | Blank => True
  | Constant type name value =>
      identifier type /\ g <> [] /\ starts is_const_start name = true /\ all is_const name /\
      all is_text value /\ starts isspace (rev value) = false
  | Field f =>
      base_ok (f_base f) /\ g <> [] /\ starts is_lower (f_name f) = true /\ all is_ident (f_name f) /\
      all is_text (f_default f) /\ trimmed (f_default f) /\ (f_default f <> [] -> g2 <> [])
  end.

Definition line_ok (l : line) : Prop :=
  all is_blank (lead l) /\ all is_blank (gap l) /\ all is_blank (gap2 l) /\ all is_blank (trail l) /\
  all is_plain (comment l) /\ (comment l = [] \/ starts (fun c => bool_decide (c = x23)) (comment l) = true) /\
  item_ok (gap l) (gap2 l) (content l).

#[global] Instance all_dec p s : Decision (all p s).
Proof. unfold all. apply _. Defined.
#[global] Instance trimmed_dec s : Decision (trimmed s).
Proof. unfold trimmed. apply _. Defined.
#[global] Instance identifier_dec s : Decision (identifier s).
Proof. unfold identifier. apply _. Defined.
#[global] Instance base_ok_dec b : Decision (base_ok b).
Proof. destruct b; unfold base_ok; apply _. Defined.
#[global] Instance item_ok_dec g g2 i : Decision (item_ok g g2 i).
Proof. destruct i; unfold item_ok; apply _. Defined.
#[global] Instance line_ok_dec l : Decision (line_ok l).
Proof. unfold line_ok. apply _. Defined.

(* ------------------------------------------------------------------ *)
(** * Reading back what is written *)

Lemma splitlines_from_line s rest : forall cur,
  all is_plain s -> splitlines_from cur false (s ++ x0a :: rest) = (cur ++ s) :: splitlines_from [] false rest.
Proof.
  intros cur Hs. revert cur. induction Hs as [|c s Hc _ IH]; intros cur; [by rewrite app_nil_r|].
  cbn [app splitlines_from andb]. apply negb_true_iff in Hc. rewrite Hc, IH. by rewrite <- app_assoc.
Qed.

Lemma splitlines_file ls :
  Forall (fun l => all is_plain (line_text l)) ls -> splitlines (file_text ls) = map line_text ls.
Proof.
  unfold splitlines, file_text. induction 1 as [|l ls Hl _ IH]; [done|]. cbn [map concat].
  rewrite <- app_assoc. cbn [app]. rewrite splitlines_from_line by done. by rewrite IH.
Qed.

Lemma blank_class c : is_blank c = true -> isspace c = true /\ is_text c = true.
Proof. by destruct c. Qed.

Lemma text_plain s : all is_text s -> all is_plain s.
Proof. apply all_weaken. by intros c [? _]%andb_true_iff. Qed.

Lemma blank_space s : all is_blank s -> all isspace s.
Proof. apply all_weaken. by intros c [? _]%blank_class. Qed.

Lemma blank_text s : all is_blank s -> all is_text s.
Proof. apply all_weaken. by intros c [_ ?]%blank_class. Qed.

Lemma ident_text s : all is_ident s -> all is_text s.
Proof. apply all_weaken. by intros []. Qed.

Lemma const_text s : all is_const s -> all is_text s.
Proof. apply all_weaken. by intros []. Qed.

(** The first character of a gap, and of what follows an item. *)
Lemma starts_gap p g s : all is_blank g -> g <> [] -> (forall c, is_blank c = true -> p c = false) -> starts p (g ++ s) = false.
Proof. intros Hg Hne Hp. rewrite starts_app by done. by eapply starts_all. Qed.

Lemma starts_mono (p q : byte -> bool) s : (forall c, q c = true -> p c = true) -> starts p s = false -> starts q s = false.
Proof. intros Hpq. destruct s as [|c s]; [done|]. simpl. specialize (Hpq c). destruct (q c); [by rewrite Hpq|done]. Qed.

Lemma starts_true_false (p q : byte -> bool) s : (forall c, q c = true -> p c = false) -> starts q s = true -> starts p s = false.
Proof. intros Hpq. destruct s as [|c s]; [done|]. simpl. auto. Qed.

Lemma starts_nonempty p s : starts p s = true -> s <> [].
Proof. by intros H ->. Qed.

(** A comment is cut off, the white space stripped. *)
Lemma line_content l :
  all is_blank (lead l) -> all is_blank (trail l) -> all is_text (item_text (gap l) (gap2 l) (content l)) ->
  (comment l = [] \/ starts (fun c => bool_decide (c = x23)) (comment l) = true) ->
  trimmed (item_text (gap l) (gap2 l) (content l)) ->
  strip (fst (span (fun c => negb (bool_decide (c = x23))) (line_text l))) = item_text (gap l) (gap2 l) (content l).
Proof.
  intros Hl Ht Hi Hc Htr. unfold line_text. rewrite !app_assoc, <- (app_assoc (lead l)).
  assert (Hn : forall s, all is_text s -> all (fun c => negb (bool_decide (c = x23))) s).
  { intros s. apply all_weaken. by intros c [_ ?]%andb_true_iff. }
  rewrite span_app.
  - cbn [fst]. apply strip_surrounded; [by apply blank_space..|done].
  - apply all_app; [by apply Hn, blank_text|]. apply all_app; [by apply Hn|by apply Hn, blank_text].
  - destruct Hc as [->|Hc]; [done|]. eapply starts_true_false; [|exact Hc]. simpl. by intros c ->.
Qed.

(* ------------------------------------------------------------------ *)
(** ** Constants *)

Lemma constant_matched type g name g2 value :
  identifier type -> all is_blank g -> g <> [] -> starts is_const_start name = true -> all is_const name -> all is_blank g2 ->
  is_constant (type ++ g ++ name ++ g2 ++ lit "=" ++ value) = true.
Proof.
  intros [Hs Hi] Hg Hgn Hns Hn Hg2. unfold is_constant.
  rewrite (span_app is_ident type); [|done|apply starts_gap; [done|done|by intros []]].
  rewrite (span_app isspace g); [|by apply blank_space|].
  2: { rewrite starts_app by by eapply starts_nonempty. eapply starts_true_false; [|exact Hns]. by intros []. }
  rewrite (span_app is_const name); [|done|].
  2: { destruct Hg2 as [|c g2 Hc]; [done|]. simpl. revert Hc. by destruct c. }
  rewrite (span_app isspace g2) by (by apply blank_space || done).
  rewrite Hs, Hns, bool_decide_eq_false_2 by done. done.
Qed.

(** A type followed by something else than a capital is no constant. *)
Lemma not_constant a b :
  all is_ident a -> starts is_ident b = false ->
  (forall g r, span isspace b = (g, r) -> g = [] \/ starts is_const r = false) -> is_constant (a ++ b) = false.
Proof.
  intros Ha Hb Hr. unfold is_constant. rewrite span_app by done. destruct (span isspace b) as [g r].
  destruct (Hr g r eq_refl) as [->|Hc].
  { destruct (span is_const r) as [name r1], (span isspace r1). by rewrite bool_decide_eq_true_2, andb_false_r. }
  rewrite (span_none is_const r Hc). destruct (span isspace r) as [? ?]. by rewrite andb_false_r.
Qed.

(* ------------------------------------------------------------------ *)
(** ** Members *)

Definition type_text (f : field) : bytes := base_run (f_base f) ++ base_bound (f_base f) ++ shape_text (f_shape f).
Definition bracket_of (sh : shape) : option bytes :=
  match sh with
  | One => None
  | Sequence => Some []
  | Bounded n => Some (lit "<=" ++ decimal n)
  | Array n => Some (decimal n)
  end.

Lemma prim_key_ident p : identifier (prim_key p).
Proof. destruct p; (split; [done|repeat constructor]). Qed.

Lemma base_run_ok b : base_ok b ->
  starts is_ident_start (base_run b) = true /\ all is_type_char (base_run b).
Proof.
  assert (Hid : forall s, identifier s -> starts is_ident_start s = true /\ all is_type_char s).
  { intros s [Hs Hi]. split; [done|]. eapply all_weaken; [|exact Hi]. by intros c (_ & _ & ? & _)%ident_class. }
  assert (Hstr : identifier (lit "string")) by (split; [done|repeat constructor]).
  destruct b as [p| |n|pkg name|name]; cbn [base_ok base_run]; intros Hb;
    [exact (Hid _ (prim_key_ident p))|exact (Hid _ Hstr)|exact (Hid _ Hstr)| |].
  - destruct Hb as [Hp Hn]. destruct (Hid _ Hp) as [Hs Ha], (Hid _ Hn) as [_ Hb].
    split; [rewrite starts_app; [done|by eapply starts_nonempty]|]. apply all_app; [done|]. by constructor.
  - apply Hid, Hb.
Qed.

(** The part of a type that is an identifier, and what follows it. *)
Lemma type_parts f : base_ok (f_base f) ->
  exists a b, type_text f = a ++ b /\ all is_ident a /\ a <> [] /\
    (b = [] \/ (starts is_ident b = false /\ starts isspace b = false /\ b <> [])).
Proof.
  intros Hb.
  assert (Hsh : shape_text (f_shape f) = [] \/ starts is_ident (shape_text (f_shape f)) = false /\
    starts isspace (shape_text (f_shape f)) = false /\ shape_text (f_shape f) <> []) by (destruct (f_shape f); auto).
  unfold type_text. destruct (f_base f) as [p| |n|pkg name|name]; cbn [base_run base_bound base_ok] in *.
  - exists (prim_key p), (shape_text (f_shape f)). destruct (prim_key_ident p) as [Hs Ha]. split_and!; [done|done|by eapply starts_nonempty|done].
  - exists (lit "string"), (shape_text (f_shape f)). split_and!; [done|repeat constructor|done|done].
  - exists (lit "string"), ((lit "<=" ++ decimal n) ++ shape_text (f_shape f)). split_and!; [done|repeat constructor|done|right; done].
  - destruct Hb as [[Hps Hpa] Hn]. exists pkg, ((lit "/" ++ name) ++ shape_text (f_shape f)).
    split_and!; [by rewrite <- !app_assoc|done|by eapply starts_nonempty|right; done].
  - destruct Hb as [[Hs Ha] _]. exists name, (shape_text (f_shape f)). split_and!; [done|done|by eapply starts_nonempty|done].
Qed.

(** What follows the name of a member. *)
Definition tail_text (g2 default : bytes) : bytes := if bool_decide (default = []) then [] else g2 ++ default.

Lemma span_tail g2 default :
  all is_blank g2 -> trimmed default -> (default <> [] -> g2 <> []) ->
  starts is_ident (tail_text g2 default) = false /\
  exists g', span isspace (tail_text g2 default) = (g', default) /\
    (bool_decide (tail_text g2 default = []) || negb (bool_decide (g' = [])) = true) /\
    (tail_text g2 default = [] <-> default = []).
Proof.
  intros Hg [Ht _] Hne. unfold tail_text. case_bool_decide as Hd.
  - subst default. split; [done|]. by exists [].
  - specialize (Hne Hd). split; [apply starts_gap; [done|done|by intros []]|].
    exists g2. split; [by apply span_app; [apply blank_space|]|].
    assert (Hn : g2 ++ default <> []) by by intros [? _]%app_nil.
    by rewrite !bool_decide_eq_false_2.
Qed.

Lemma bracket_matched sh t :
  starts (fun c => bool_decide (c = x5b)) t = false -> match_bracket (shape_text sh ++ t) = (bracket_of sh, t).
Proof.
  intros Ht.
  assert (Hb : forall inner, all (fun c => negb (bool_decide (c = x5d))) inner ->
    match_bracket (x5b :: inner ++ x5d :: t) = (Some inner, t)).
  { intros inner Hi. unfold match_bracket. by rewrite span_app. }
  assert (Hd : forall n, all (fun c => negb (bool_decide (c = x5d))) (decimal n)).
  { intros n. eapply all_weaken; [|apply decimal_digits]. by intros []. }
  destruct sh as [| |n|n]; cbn [shape_text bracket_of].
  - destruct t as [|c t]; [done|]. simpl in Ht. apply bool_decide_eq_false in Ht. by destruct c.
  - exact (Hb [] ltac:(constructor)).
  - specialize (Hb (lit "<=" ++ decimal n)). simpl in Hb |- *. rewrite <- app_assoc. apply Hb. constructor; [done|].
    constructor; [done|apply Hd].
  - specialize (Hb (decimal n) (Hd n)). simpl in Hb |- *. rewrite <- app_assoc. exact Hb.
Qed.

Lemma bound_matched b t :
  starts is_digit t = false -> starts (fun c => bool_decide (c = x3c)) t = false ->
  match_bound (base_bound b ++ t) = (base_bound b, t).
Proof.
  intros Hd Hc. destruct b as [p| |n|pkg name|name]; cbn [base_bound];
    try (destruct t as [|c t]; [done|]; simpl in Hc; apply bool_decide_eq_false in Hc; by destruct c).
  destruct (decimal_digits n) as [Hn Hne]. unfold match_bound. simpl. rewrite span_app by done.
  by rewrite bool_decide_eq_false_2.
Qed.

(** The four groups of a member's line. *)
Lemma member_matched f g g2 :
  all is_blank g -> all is_blank g2 -> item_ok g g2 (Field f) ->
  match_member (item_text g g2 (Field f)) =
    Some (base_run (f_base f) ++ base_bound (f_base f), bracket_of (f_shape f), f_name f,
      if bool_decide (f_default f = []) then None else Some (f_default f)).
Proof.
  intros Hg Hg2 (Hb & Hgn & Hns & Hn & Hdt & Htr & Hd2). destruct (base_run_ok _ Hb) as [Hrs Hr].
  cbn [item_text]. fold (tail_text g2 (f_default f)). rewrite <- !app_assoc. unfold match_member.
  assert (Hgap : forall p s, (forall c, is_blank c = true -> p c = false) -> starts p (g ++ s) = false).
  { intros p s. by apply starts_gap. }
  assert (Hshape : forall p s, (forall c, is_blank c = true -> p c = false) -> p x5b = false ->
    starts p (shape_text (f_shape f) ++ g ++ s) = false).
  { intros p s Hp Hx. destruct (f_shape f); simpl; [by apply Hgap|exact Hx..]. }
  rewrite (span_app is_type_char); [|exact Hr|].
  2: { destruct (f_base f); cbn [base_bound app]; first [done|apply Hshape; [by intros []|done]]. }
  rewrite bound_matched by (apply Hshape; [by intros []|done]).
  rewrite bracket_matched by (apply Hgap; by intros []).
  rewrite (span_app isspace g); [|by apply blank_space|].
  2: { rewrite starts_app by by eapply starts_nonempty. eapply starts_true_false; [|exact Hns]. by intros []. }
  destruct (span_tail g2 (f_default f) Hg2 Htr Hd2) as (Hti & g' & Hsp & Hok & Hnil).
  rewrite (span_app is_ident) by done. rewrite Hsp, Hrs, Hns, Hok, bool_decide_eq_false_2 by done. simpl.
  by rewrite (bool_decide_ext _ _ Hnil).
Qed.

Lemma PRIM_key p : PRIM (prim_key p) = Some p.
Proof. by destruct p. Qed.

Lemma no_prim_slash a b : PRIM (a ++ lit "/" ++ b) = None.
Proof.
  destruct (PRIM (a ++ lit "/" ++ b)) as [p|] eqn:Hp; [|done]. apply find_some in Hp as [_ Hk%bool_decide_eq_true].
  assert (Hno : x2f ∉ prim_key p) by (destruct p; decide_closed). rewrite Hk in Hno. set_solver.
Qed.

Lemma bracket_parsed sh :
  parse_bracket (bracket_of sh) = Ok (match sh with Sequence | Bounded _ => true | _ => false end,
                                      match sh with Array n => Some (Z.of_nat n) | _ => None end).
Proof.
  destruct sh as [| |n|n]; [done..|]. cbn [bracket_of]. unfold parse_bracket. pose proof (py_int_decimal n) as Hn.
  destruct (decimal_digits n) as [Hd Hne]. destruct Hd as [|c ds Hc _]; [done|].
  assert (Hs : starts_with (lit "<=") (c :: ds) = false).
  { unfold starts_with. rewrite bool_decide_eq_false_2; [done|]. intros Hx. injection Hx as -> _. done. }
  by rewrite Hs, Hn.
Qed.

Lemma qualified_base package b : base_ok b ->
  let t := base_run b ++ base_bound b in
  t <> lit "wstring" /\
  qualified package (if starts_with (lit "string<=") t then lit "string" else t) =
    match b with
    | BPrim p => prim_key p
    | BString | BBounded _ => lit "string"
    | BNested pkg name => pkg ++ lit "/" ++ name
    | BLocal name => package ++ lit "/" ++ name
    end.
Proof.
  assert (Hid : forall s, all is_ident s -> find_char x2f s = None /\ starts_with (lit "string<=") s = false).
  { intros s Hs. split.
    - apply find_char_None. intros Hin. by pose proof (proj1 (list.Forall_forall _ _) Hs _ Hin).
    - apply not_true_is_false. intros [q ->]%starts_with_spec. apply Forall_app in Hs as [Hs _].
      by pose proof (proj1 (list.Forall_forall _ _) Hs x3c ltac:(decide_closed)). }
  destruct b as [p| |n|pkg name|name]; cbn [base_run base_bound base_ok]; intros Hb; rewrite ?app_nil_r; unfold qualified.
  - destruct (Hid _ (proj2 (prim_key_ident p))) as [_ Hs]. rewrite Hs, PRIM_key. split; [by destruct p|done].
  - by split.
  - split; [done|]. assert (Hs : starts_with (lit "string<=") (lit "string" ++ lit "<=" ++ decimal n) = true); [|by rewrite Hs].
    apply starts_with_spec. by exists (decimal n).
  - assert (Hin : x2f ∈ pkg ++ lit "/" ++ name) by (simpl; set_solver). destruct Hb as [[_ Hp] _].
    assert (Hs : starts_with (lit "string<=") (pkg ++ lit "/" ++ name) = false).
    { apply not_true_is_false. intros [q Hq]%starts_with_spec.
      assert (Hspan : span is_ident (pkg ++ lit "/" ++ name) = (pkg, lit "/" ++ name)) by by apply span_app.
      rewrite Hq in Hspan. change (lit "string<=" ++ q) with (lit "string" ++ lit "<=" ++ q) in Hspan.
      rewrite span_app in Hspan; [by injection Hspan|repeat constructor|done]. }
    rewrite Hs, no_prim_slash. split; [intros Hw; rewrite Hw in Hin; revert Hin; decide_closed|].
    rewrite (bool_decide_eq_false_2 (find_char _ _ = None)) by (by rewrite find_char_None; intros []). by rewrite andb_false_r.
  - destruct Hb as ([_ Hi] & Hp & Hs & Hw). destruct (Hid _ Hi) as [Hc Hsb]. rewrite Hsb. split; [done|].
    by rewrite Hp, Hc, (bool_decide_eq_false_2 (name = _)).
Qed.

Lemma parse_member_field package g g2 f :
  item_ok g g2 (Field f) ->
  parse_member package (base_run (f_base f) ++ base_bound (f_base f)) (bracket_of (f_shape f)) (f_name f)
    (if bool_decide (f_default f = []) then None else Some (f_default f)) = Ok (member_of package f).
Proof.
  intros (Hb & _ & _ & _ & _ & Htr & _). destruct (qualified_base package _ Hb) as [Hw Hq].
  unfold parse_member. rewrite bool_decide_eq_false_2, bracket_parsed by done. cbn [mbind outcome_bind fst snd]. rewrite Hq.
  unfold member_of. do 2 f_equal. case_bool_decide as Hd; [by rewrite Hd|by apply strip_trimmed].
Qed.

(* ------------------------------------------------------------------ *)
(** ** Files *)

Lemma ident_trimmed s : all is_ident s -> trimmed s.
Proof. intros Hs. eapply trimmed_all; [exact Hs|]. by intros c (? & _)%ident_class. Qed.

Lemma type_text_ok f : base_ok (f_base f) -> all is_text (type_text f) /\ type_text f <> [] /\ starts isspace (type_text f) = false.
Proof.
  intros Hb. destruct (base_run_ok _ Hb) as [Hs Hr]. unfold type_text. split_and!.
  - assert (Hdec : forall n, all is_text (decimal n)).
    { intros n. eapply all_weaken; [|apply decimal_digits]. by intros []. }
    apply all_app; [eapply all_weaken; [|exact Hr]; by intros []|]. apply all_app.
    + destruct (f_base f); cbn [base_bound]; try (by constructor).
      apply all_app; [by repeat constructor|apply Hdec].
    + destruct (f_shape f); cbn [shape_text]; [constructor|by repeat constructor| |];
        repeat apply all_app; first [apply Hdec|by repeat constructor].
  - intros Hn. apply app_nil in Hn as [Hn _]. by rewrite Hn in Hs.
  - rewrite starts_app by by eapply starts_nonempty. eapply starts_true_false; [|exact Hs]. by intros [].
Qed.

(** An item's text has neither a comment nor a line end, and no space around. *)
Lemma item_text_ok g g2 i :
  all is_blank g -> all is_blank g2 -> item_ok g g2 i -> all is_text (item_text g g2 i) /\ trimmed (item_text g g2 i).
Proof.
  intros Hg%blank_text Hg2%blank_text Hi. destruct i as [|type name value|f]; cbn [item_text item_ok] in *.
  - split; [constructor|done].
  - destruct Hi as ([Hts Ht] & _ & _ & Hn & Hv & Hvt). split.
    + repeat apply all_app; try done; [by apply ident_text|by apply const_text|by repeat constructor].
    + replace (g ++ name ++ g2 ++ lit "=" ++ value) with ((g ++ name ++ g2) ++ lit "=" ++ value) by (by rewrite <- !app_assoc).
      apply trimmed_ends; [by eapply starts_nonempty|done|exact (proj1 (ident_trimmed _ Ht))|].
      simpl. destruct (rev value) as [|c v]; [done|]. exact Hvt.
  - destruct Hi as (Hb & Hgn & Hns & Hn & Hd & Htr & Hg2n). destruct (type_text_ok f Hb) as (Ht & Htn & Hts).
    fold (type_text f) (tail_text g2 (f_default f)). unfold tail_text. split.
    + apply all_app; [done|]. apply all_app; [done|]. apply all_app; [by apply ident_text|].
      case_bool_decide; [constructor|by apply all_app].
    + case_bool_decide as Hdn.
      * rewrite app_nil_r. apply trimmed_ends; [done|by eapply starts_nonempty|done|exact (proj2 (ident_trimmed _ Hn))].
      * replace (g ++ f_name f ++ g2 ++ f_default f) with ((g ++ f_name f ++ g2) ++ f_default f) by (by rewrite <- !app_assoc).
        apply trimmed_ends; [done|done|done|apply Htr].
Qed.

Lemma field_not_constant g g2 f :
  all is_blank g -> item_ok g g2 (Field f) -> is_constant (item_text g g2 (Field f)) = false.
Proof.
  intros Hg (Hb & Hgn & Hns & _). destruct (type_parts f Hb) as (a & b & Ht & Ha & _ & Hbs). cbn [item_text].
  fold (type_text f). rewrite Ht, <- app_assoc. destruct Hbs as [->|(Hbi & Hbsp & Hbn)].
  - apply not_constant; [done|apply (starts_gap is_ident g); [done|done|by intros []]|]. intros g' r Hs. right. cbn [app] in Hs.
    rewrite span_app in Hs; [|by apply blank_space|].
    + injection Hs as _ <-. rewrite starts_app by by eapply starts_nonempty. eapply starts_true_false; [|exact Hns]. by intros [].
    + rewrite starts_app by by eapply starts_nonempty. eapply starts_true_false; [|exact Hns]. by intros [].
  - apply not_constant; [done|by rewrite starts_app|]. intros g' r Hs. left. rewrite span_none in Hs by by rewrite starts_app.
    by injection Hs as <- _.
Qed.

Lemma line_parsed package l :
  line_ok l ->
  parse_line package (line_text l) = Ok (match content l with Field f => Some (member_of package f) | _ => None end).
Proof.
  intros (Hl & Hg & Hg2 & Ht & _ & Hc & Hi). destruct (item_text_ok _ _ _ Hg Hg2 Hi) as [Htext Htrim].
  unfold parse_line. rewrite line_content by done. destruct (content l) as [|type name value|f].
  - done.
  - destruct Hi as (Ht' & Hgn & Hns & Hn & _). rewrite bool_decide_eq_false_2.
    + cbn [item_text]. by rewrite constant_matched.
    + cbn [item_text]. by intros [Hx _]%app_nil; destruct Ht' as [Ht' _]; rewrite Hx in Ht'.
  - pose proof Hi as (Hb & _). destruct (type_text_ok f Hb) as (_ & Hn & _). rewrite bool_decide_eq_false_2.
    + rewrite field_not_constant, member_matched by done. by rewrite (parse_member_field package _ _ f Hi).
    + cbn [item_text]. by intros [Hx _]%app_nil.
Qed.

Lemma line_plain l : line_ok l -> all is_plain (line_text l).
Proof.
  intros (Hl & Hg & Hg2 & Ht & Hc & _ & Hi). destruct (item_text_ok _ _ _ Hg Hg2 Hi) as [Htext _].
  unfold line_text. repeat apply all_app; [by apply text_plain, blank_text|by apply text_plain|by apply text_plain, blank_text|done].
Qed.

Lemma lines_parsed package ls :
  Forall line_ok ls -> parse_lines package (map line_text ls) = Ok (declared package ls).
Proof.
  induction 1 as [|l ls Hl _ IH]; [done|]. cbn [map parse_lines]. rewrite line_parsed by done. cbn [mbind outcome_bind].
  rewrite IH. unfold declared. simpl. by destruct (content l).
Qed.

Lemma file_parsed package name ls :
  Forall line_ok ls -> parse_msg (file_text ls) package name = Ok (mk_msg package name (declared package ls)).
Proof.
  intros Hls. unfold parse_msg. rewrite splitlines_file by (eapply list.Forall_impl; [exact Hls|exact line_plain]).
  by rewrite lines_parsed.
Qed.

(* ------------------------------------------------------------------ *)
(** ** Services *)

Lemma find_separator a b :
  (a = [] \/ list.last a = Some x0a) -> find_sub (lit "---") a = None ->
  find_sub (lit "---") (a ++ lit "---" ++ b) = Some (length a).
Proof.
  induction a as [|c a IH]; intros Hl Hn; [done|]. destruct Hl as [Hl|Hl]; [done|].
  apply find_sub_None_cons in Hn as [Hc Hn]. change ((c :: a) ++ lit "---" ++ b) with (c :: (a ++ lit "---" ++ b)).
  cbn [find_sub]. rewrite decide_False.
  - rewrite IH; [done| |done]. destruct a as [|d a]; [by left|right; exact Hl].
  - destruct a as [|d [|e a]]; simpl in Hl, Hc |- *; [injection Hl as ->; done|injection Hl as ->; by intros [= _ ?]|exact Hc].
Qed.

Lemma file_text_last ls : file_text ls = [] \/ list.last (file_text ls) = Some x0a.
Proof.
  destruct ls as [|l ls _] using rev_ind; [by left|]. right. unfold file_text. rewrite map_app, concat_app. simpl.
  by rewrite app_nil_r, app_assoc, last_snoc.
Qed.

(** A line without anything. *)
Definition empty_line : line := mk_line [] Blank [] [] [] [].

Lemma empty_line_ok : line_ok empty_line.
Proof. unfold line_ok, empty_line, all. simpl. split_and!; auto. Qed.

(** C8: definition files are read as they were written.  A .msg file: whatever the
    spacing, the comments, the blank lines and the constants between them, the
    members are those declared, in order, each with its type (bounded strings and
    sequences as unbounded ones, a name without a package in the file's own), its
    length and the text of its default.  A .srv file: its request and its response,
    split at the separator, each read as a message of its own. *)
Theorem text_roundtrip (package name : bytes) (ls req resp : list line) :
  Forall line_ok ls -> Forall line_ok req -> Forall line_ok resp -> find_sub (lit "---") (file_text req) = None ->
  parse_msg (file_text ls) package name = Ok (mk_msg package name (declared package ls)) /\
  parse_srv (file_text req ++ lit "---" ++ [x0a] ++ file_text resp) package name =
    Ok (mk_srv package name (mk_msg package (name ++ lit "_Request") (declared package req))
          (mk_msg package (name ++ lit "_Reply") (declared package resp))).
Proof.
  intros Hls Hq Hp Hn. split; [by apply file_parsed|]. unfold parse_srv. rewrite find_separator by (done || apply file_text_last).
  rewrite take_app_length, drop_app_add. change (drop 3 (lit "---" ++ [x0a] ++ file_text resp)) with (file_text (empty_line :: resp)).
  rewrite (file_parsed package _ req), (file_parsed package _ (empty_line :: resp)) by (done || (constructor; [apply empty_line_ok|done])).
  done.
Qed.

(* ------------------------------------------------------------------ *)
(** * Header names *)

(** A word of a file name in snake case, of at least two characters. *)
Definition is_small (c : byte) : bool := is_lower c || is_digit c.
Definition word (w : bytes) : Prop := starts is_lower w = true /\ all is_small w /\ 2 <= length w.

Lemma small_class c : is_small c = true -> is_upper c = false /\ lower c = c /\ c <> x5f.
Proof. by destruct c. Qed.

Lemma lower_upper c : is_lower c = true -> is_upper (upper c) = true /\ lower (upper c) = c /\ is_small (upper c) = false.
Proof. by destruct c. Qed.

Lemma bazel_from before s :
  bazel_camel_to_snake_from before s =
    camel_to_snake_from (match before with Some b => is_lower b || is_digit b | None => false end) s.
Proof.
  revert before. induction s as [|c s IH]; intros before; [done|]. cbn [bazel_camel_to_snake_from camel_to_snake_from].
  rewrite (IH (Some c)). by rewrite (andb_comm (is_upper c)).
Qed.

Lemma small_kept w s b : all is_small w -> w <> [] -> camel_to_snake_from b (w ++ s) = w ++ camel_to_snake_from true s.
Proof.
  intros Hw Hne. revert b. induction Hw as [|c w Hc Hw IH]; [done|]. intros b. cbn [app camel_to_snake_from].
  destruct (small_class c Hc) as (Hu & Hl & _). rewrite Hu, andb_false_r, Hl. unfold is_small in Hc. rewrite Hc. cbn [app]. f_equal.
  destruct w; [done|]. by apply IH.
Qed.

Lemma capital_snake w s b : word w ->
  camel_to_snake_from b (capital w ++ s) = (if b then [x5f] else []) ++ w ++ camel_to_snake_from true s.
Proof.
  intros (Hl & Hw & Hlen). destruct Hw as [|c w Hc Hw]; [done|]. simpl in Hl, Hlen.
  destruct (lower_upper c Hl) as (Hu & Hlo & Hs). cbn [capital app camel_to_snake_from].
  unfold is_small in Hs. rewrite Hu, andb_true_r, Hlo, Hs. f_equal. cbn [app]. f_equal.
  apply small_kept; [done|]. by intros ->; simpl in *; lia.
Qed.

Lemma capitals_snake ws : Forall word ws -> forall b,
  camel_to_snake_from b (concat (map capital ws)) = (match ws with [] => [] | _ => if b then [x5f] else [] end) ++ join [x5f] ws.
Proof.
  induction 1 as [|w ws Hw Hws IH]; intros b; [done|]. cbn [map concat]. rewrite capital_snake by done. rewrite IH. f_equal.
  destruct ws as [|v ws]; [by rewrite app_nil_r|]. done.
Qed.

Lemma split_join c ws : ws <> [] -> Forall (fun w => c ∉ w) ws -> split_on c (join [c] ws) = ws.
Proof.
  intros Hne Hws. induction Hws as [|w ws Hw Hws IH]; [done|]. clear Hne.
  assert (Hone : forall w, c ∉ w -> split_on c w = [w]).
  { clear. induction w as [|d w IHw]; intros Hw; [done|]. apply not_elem_of_cons in Hw as [Hd Hw]. simpl. rewrite IHw by done.
    by rewrite decide_False. }
  destruct ws as [|v ws]; [by apply Hone|]. change (join [c] (w :: v :: ws)) with (w ++ [c] ++ join [c] (v :: ws)).
  specialize (IH ltac:(done)). revert IH. generalize (join [c] (v :: ws)) as rest. intros rest IH.
  induction w as [|d w IHw]; simpl.
  - rewrite IH. by rewrite decide_True.
  - apply not_elem_of_cons in Hw as [Hd Hw]. simpl in IHw. rewrite (IHw Hw). by rewrite decide_False.
Qed.

Lemma word_no_underscore w : word w -> x5f ∉ w.
Proof. intros (_ & Hw & _) Hin. by pose proof (proj1 (list.Forall_forall _ _) Hw _ Hin). Qed.

Lemma small_join ws : Forall word ws -> bazel_camel_to_snake (join [x5f] ws) = join [x5f] ws.
Proof.
  intros Hws. unfold bazel_camel_to_snake.
  assert (Hall : all (fun c => is_small c || bool_decide (c = x5f)) (join [x5f] ws)).
  { induction Hws as [|w ws (_ & Hw & _) Hws IH]; [constructor|].
    assert (Hw' : all (fun c => is_small c || bool_decide (c = x5f)) w) by (eapply all_weaken; [|exact Hw]; by intros c ->).
    destruct ws; [exact Hw'|]. apply all_app; [exact Hw'|]. apply all_app; [by constructor|exact IH]. }
  revert Hall. generalize (None : option byte). induction (join [x5f] ws) as [|c s IH]; intros before Hall; [done|].
  inversion_clear Hall as [|? ? Hc Hs]. cbn [bazel_camel_to_snake_from]. rewrite (IH (Some c) Hs). by destruct c.
Qed.

(** The header the generator writes is the one the build rule declares: the two
    copies of [camel_to_snake] are the same function, so the paths agree for every
    file in CamelCase, and they do for every file in snake case whose words have
    at least two characters and begin with a letter. *)
Theorem header_paths (base : bytes) (ws : list bytes) :
  bazel_camel_to_snake base = camel_to_snake base /\
  (starts is_upper base = true -> x5f ∉ base -> header_name base = bazel_camel_to_snake base) /\
  (ws <> [] -> Forall word ws ->
   header_name (join [x5f] ws) = bazel_camel_to_snake (join [x5f] ws) /\ header_name (join [x5f] ws) = join [x5f] ws).
Proof.
  assert (Heq : forall s, bazel_camel_to_snake s = camel_to_snake s) by (intros s; apply bazel_from).
  split; [apply Heq|]. split.
  - intros Hu Hn. rewrite Heq. unfold header_name, snake_to_camel. f_equal.
    pose proof (split_join x5f [base] ltac:(done) ltac:(by constructor)) as Hs. simpl in Hs. rewrite Hs. simpl. rewrite app_nil_r.
    destruct base as [|c base]; [done|]. simpl in Hu |- *. f_equal. by destruct c.
  - intros Hne Hws.
    assert (Hh : header_name (join [x5f] ws) = join [x5f] ws).
    { unfold header_name, snake_to_camel, camel_to_snake. rewrite split_join; [|done|by eapply list.Forall_impl; [exact Hws|exact word_no_underscore]].
      rewrite capitals_snake by done. by destruct ws. }
    split; [|exact Hh]. by rewrite small_join.
Qed.

(** Outside these the generator writes another file than the rule declares. *)
Example header_name_differs :
  (header_name (lit "foo_2d"), bazel_camel_to_snake (lit "foo_2d")) = (lit "foo2d", lit "foo_2d") /\
  (header_name (lit "a_b"), bazel_camel_to_snake (lit "a_b")) = (lit "ab", lit "a_b").
Proof. split; vm_compute; reflexivity. Qed.

(* ------------------------------------------------------------------ *)
(** * What the headers say *)

Lemma outcome_map_elem {A B} (f : A -> outcome B) l l' :
  outcome_map f l = Ok l' -> forall b, b ∈ l' <-> exists a, a ∈ l /\ f a = Ok b.
Proof.
  revert l'. induction l as [|a l IH]; intros l' Hl b; cbn [outcome_map] in Hl; [injection Hl as <-; set_solver|].
  apply bind_Ok_inv in Hl as (x & Hx & Hl). apply bind_Ok_inv in Hl as (xs & Hxs & [= <-]).
  rewrite elem_of_cons, (IH _ Hxs). split.
  - intros [->|(a' & Ha & Hf)]; [exists a; split; [by left|done]|exists a'; split; [by right|done]].
  - intros (a' & [->|Ha]%elem_of_cons & Hf); [left; congruence|right; by exists a'].
Qed.

(** The includes of a header are those its nested members need, each once,
    sorted, without the header itself. *)
Theorem includes_exact (msgs : list MsgDef) (own_package own_name : bytes) (l : list bytes) :
  include_list msgs own_package own_name = Ok l ->
  Sorted.StronglySorted bytes_le l /\ NoDup l /\
  forall x, x ∈ l <-> exists m, m ∈ concat (map members msgs) /\ include_of own_package own_name m = Ok (Some x).
Proof.
  intros (deps & Hd & [= <-])%bind_Ok_inv. split_and!.
  - apply StronglySorted_merge_sort; apply _.
  - rewrite merge_sort_Permutation. apply NoDup_remove_dups.
  - intros x. rewrite merge_sort_Permutation, elem_of_remove_dups, list_elem_of_omap. split.
    + intros (o & Ho & Hx). unfold id in Hx. subst o. by apply (outcome_map_elem _ _ _ Hd).
    + intros Hx. exists (Some x). split; [|done]. by apply (outcome_map_elem _ _ _ Hd).
Qed.

Lemma includes_exact_witness :
  let m t := mk_member t (lit "x") false None [] in
  let d := mk_msg (lit "p") (lit "A") [m (lit "p/A"); m (lit "q/FooBar"); m (lit "string"); m (lit "q/FooBar"); m (lit "p/B")] in
  include_list [d] (lit "p") (lit "A") =
    Ok [lit "#include " ++ quote ++ lit "rcllite_types/p/b.hpp" ++ quote;
        lit "#include " ++ quote ++ lit "rcllite_types/q/foo_bar.hpp" ++ quote] /\
  NoDup [lit "#include " ++ quote ++ lit "rcllite_types/p/b.hpp" ++ quote;
         lit "#include " ++ quote ++ lit "rcllite_types/q/foo_bar.hpp" ++ quote].
Proof.
  intros m d. assert (Hl : include_list [d] (lit "p") (lit "A") =
    Ok [lit "#include " ++ quote ++ lit "rcllite_types/p/b.hpp" ++ quote;
        lit "#include " ++ quote ++ lit "rcllite_types/q/foo_bar.hpp" ++ quote]) by (vm_compute; reflexivity).
  split; [exact Hl|]. apply (includes_exact [d] (lit "p") (lit "A") _ Hl).
Defined.

(** The names in the headers are those dds_type_name gives for the ROS names. *)
Theorem generated_dds_names (msg : MsgDef) (srv : SrvDef) (part : bytes) :
  identifier (msg_package msg) -> identifier (msg_name msg) -> identifier (srv_package srv) -> identifier (srv_name srv) ->
  all is_ident part ->
  dds_type_name (msg_package msg ++ lit "/msg/" ++ msg_name msg) = Ok (msg_dds_name msg) /\
  dds_type_name (srv_package srv ++ lit "/srv/" ++ srv_name srv ++ lit "_" ++ part) = Ok (srv_dds_name srv part).
Proof.
  intros [_ Hp] [_ Hn] [_ Hsp] [_ Hsn] Hpart.
  assert (Hno : forall c s, all is_ident s -> is_ident c = false -> c ∉ s).
  { intros c s Hs Hc Hin. pose proof (proj1 (list.Forall_forall _ _) Hs _ Hin) as Ht. simpl in Ht. congruence. }
  assert (Hgen : forall pkg kind name, all is_ident pkg -> all is_ident kind -> all is_ident name ->
    dds_type_name (pkg ++ lit "/" ++ kind ++ lit "/" ++ name) = Ok (pkg ++ lit "::" ++ kind ++ lit "::dds_::" ++ name ++ lit "_")).
  { intros pkg kind name H1 H2 H3. apply (dds_type_name_normalises pkg kind name [] []); apply Hno; try done; by repeat apply all_app. }
  split.
  - exact (Hgen _ (lit "msg") _ Hp ltac:(by repeat constructor) Hn).
  - assert (Hname : all is_ident (srv_name srv ++ lit "_" ++ part)) by (apply all_app; [done|by constructor]).
    pose proof (Hgen _ (lit "srv") _ Hsp ltac:(by repeat constructor) Hname) as Hd. rewrite <- !app_assoc in Hd. exact Hd.
Qed.

Lemma generated_dds_names_witness :
  dds_type_name (lit "rcl_interfaces/msg/Parameter") = Ok (lit "rcl_interfaces::msg::dds_::Parameter_") /\
  dds_type_name (lit "rcl_interfaces/srv/GetParameters_Request") = Ok (lit "rcl_interfaces::srv::dds_::GetParameters_Request_").
Proof.
  apply (generated_dds_names (mk_msg (lit "rcl_interfaces") (lit "Parameter") [])
    (mk_srv (lit "rcl_interfaces") (lit "GetParameters") (mk_msg [] [] []) (mk_msg [] [] [])) (lit "Request"));
    try (split; [done|]); repeat constructor.
Defined.

(* ------------------------------------------------------------------ *)
(** * A definition read, resolved and used *)

Definition plain_field (b : base_type) (sh : shape) (name default : bytes) : line :=
  mk_line [] (Field (mk_field b sh name default)) [x20] [x20] [] [].

(** A constant, a comment, bounds, a fixed array, a default and a nested type of
    the same package. *)
Definition demo_lines : list line :=
  [mk_line [] Blank [] [] [] (lit "# header");
   mk_line [x20] (Constant (lit "uint8") (lit "KIND_A") (lit " 1")) [x20] [x20] [x20] (lit "# one");
   plain_field (BBounded 8) One (lit "name") (quote ++ lit "x y" ++ quote);
   mk_line [x09] (Field (mk_field (BLocal (lit "Inner")) (Bounded 4) (lit "inner") [])) [x20; x20] [] [x20] (lit "#c");
   plain_field (BPrim uint8_) (Array 3) (lit "gid") [];
   empty_line].

Definition inner_lines : list line :=
  [plain_field (BPrim int64_) One (lit "value") (lit "-1"); plain_field BString Sequence (lit "tags") []].

Lemma demo_lines_ok : Forall line_ok demo_lines /\ Forall line_ok inner_lines.
Proof. split; decide_closed. Qed.

Lemma text_roundtrip_witness :
  parse_msg (file_text demo_lines) (lit "pkg") (lit "Outer") =
    Ok (mk_msg (lit "pkg") (lit "Outer")
      [mk_member (lit "string") (lit "name") false None (quote ++ lit "x y" ++ quote);
       mk_member (lit "pkg/Inner") (lit "inner") true None [];
       mk_member (lit "uint8") (lit "gid") false (Some 3%Z) []]) /\
  exists srv, parse_srv (file_text demo_lines ++ lit "---" ++ [x0a] ++ file_text inner_lines) (lit "pkg") (lit "Do") = Ok srv /\
    length (members (request srv)) = 3 /\ length (members (response srv)) = 2.
Proof.
  destruct demo_lines_ok as [H1 H2].
  destruct (text_roundtrip (lit "pkg") (lit "Outer") demo_lines demo_lines inner_lines H1 H1 H2) as [Hm _]; [vm_compute; reflexivity|].
  destruct (text_roundtrip (lit "pkg") (lit "Do") demo_lines demo_lines inner_lines H1 H1 H2) as [_ Hs]; [vm_compute; reflexivity|].
  split; [exact Hm|]. eexists. split; [exact Hs|]. split; reflexivity.
Defined.

(** Resolved, it is a schema whose codec round-trips. *)
Example demo_schema :
  let env (pkg nm : bytes) := match parse_msg (file_text inner_lines) pkg nm with Ok d => Some d | _ => None end in
  match parse_msg (file_text demo_lines) (lit "pkg") (lit "Outer") with
  | Ok msg => schema env 2 msg
  | _ => None
  end = Some (TMsg [(Scalar, TString); (Seq, TMsg [(Scalar, TPrim int64_); (Seq, TString)]); (Fixed 3, TPrim uint8_)]).
Proof. vm_compute. reflexivity. Qed.

(* ------------------------------------------------------------------ *)
(** * What it gets wrong *)

(** A hash inside a quoted default cuts the line: the initializer of
    [string s "a#b"] has an opening quote too many. *)
Example hash_in_default :
  match parse_msg (lit "string s " ++ quote ++ lit "a#b" ++ quote) (lit "p") (lit "M") with
  | Ok msg => map default_init (members msg)
  | _ => []
  end = [quote ++ quote ++ lit "a" ++ quote].
Proof. vm_compute. reflexivity. Qed.

(** [bool b 1], true in ROS 2, is false. *)
Example bool_default_one :
  match parse_msg (lit "bool b 1") (lit "p") (lit "M") with
  | Ok msg => map default_init (members msg)
  | _ => []
  end = [lit "false"].
Proof. vm_compute. reflexivity. Qed.

(** Dashes in a comment of the request are taken for the separator. *)
Example dashes_in_comment :
  parse_srv (lit "# --- request ---" ++ [x0a] ++ lit "int64 a" ++ [x0a] ++ lit "---" ++ [x0a] ++ lit "int64 b") (lit "p") (lit "S") =
  Throw ValueError.
Proof. vm_compute. reflexivity. Qed.

(** A bound on a number is read as the name of a message. *)
Example bounded_number :
  match parse_msg (lit "uint8<=5 x") (lit "p") (lit "M") with
  | Ok msg => map cpp_type (members msg)
  | _ => []
  end = [Ok (lit "p::msg::uint8<=5")].
Proof. vm_compute. reflexivity. Qed.

(** [wstring] is an error for the whole file. *)
Example wstring_rejected :
  parse_msg (lit "int8 a" ++ [x0a] ++ lit "wstring w") (lit "p") (lit "M") = Throw ValueError.
Proof. vm_compute. reflexivity. Qed.
