(* ===== verification/Qos.v ===== *)
(** QoS profiles (src/src/rcllite/qos.hpp) and their translation to a
    CycloneDDS QoS object ([make_dds_qos] of src/src/rcllite/dds/entities.cpp). *)
From stdpp Require Import base tactics list numbers.
From Stdlib Require Import ZArith Lia.
From S2P Require Import Prelude.

Inductive Reliability : Type := BestEffort | Reliable.
Inductive Durability : Type := Volatile | TransientLocal.
Inductive History : Type := KeepLast | KeepAll.

(** [depth] is a [size_t]. *)
Record QoS := mk_qos {
  reliability : Reliability;
  durability : Durability;
  history : History;
  depth : Z
}.

(** The default member initializers. *)
Definition QoS_default : QoS := mk_qos Reliable Volatile KeepLast 10.

Definition set_best_effort (q : QoS) : QoS := mk_qos BestEffort (durability q) (history q) (depth q).
Definition set_transient_local (q : QoS) : QoS :=
  mk_qos (reliability q) TransientLocal (history q) (depth q).
Definition keep_last (d : Z) (q : QoS) : QoS := mk_qos (reliability q) (durability q) KeepLast d.

Definition Default : QoS := QoS_default.
Definition SensorData : QoS := keep_last 5 (set_best_effort QoS_default).
Definition Parameters : QoS := keep_last 10 QoS_default.
Definition ParameterEvents : QoS := keep_last 1000 (set_transient_local QoS_default).
Definition Services : QoS := keep_last 10 QoS_default.

(** The enumerators of the CycloneDDS header the translation names, and the
    policies set on the [dds_qos_t]. *)
Inductive dds_history_kind : Type := DDS_HISTORY_KEEP_LAST | DDS_HISTORY_KEEP_ALL.
Inductive dds_reliability_kind : Type := DDS_RELIABILITY_BEST_EFFORT | DDS_RELIABILITY_RELIABLE.
Inductive dds_durability_kind : Type := DDS_DURABILITY_VOLATILE | DDS_DURABILITY_TRANSIENT_LOCAL.

Definition DDS_INFINITY : Z := 2 ^ 63 - 1.

Record dds_qos := mk_dds_qos {
  q_history : dds_history_kind;
  q_depth : Z;
  q_reliability : dds_reliability_kind;
  q_max_blocking : Z;
  q_durability : dds_durability_kind;
  q_deadline : Z
}.

(** [base_dds_qos]: [created] is whether [dds_create_qos] returned an object. *)
Definition base_dds_qos (created : bool) : outcome unit :=
  if created then Ok tt else Throw InternalError.

Definition make_dds_qos (created : bool) (qos : QoS) : outcome dds_qos :=
  let* _ := base_dds_qos created in
  let inf := DDS_INFINITY in
  Ok (mk_dds_qos
        (match history qos with KeepAll => DDS_HISTORY_KEEP_ALL | _ => DDS_HISTORY_KEEP_LAST end)
        (i32 (depth qos))
        (match reliability qos with
         | Reliable => DDS_RELIABILITY_RELIABLE
         | _ => DDS_RELIABILITY_BEST_EFFORT
         end)
        inf
        (match durability qos with
         | TransientLocal => DDS_DURABILITY_TRANSIENT_LOCAL
         | _ => DDS_DURABILITY_VOLATILE
         end)
        inf).

(** The profiles of tests/qos_test.cpp. *)
Example sensor_data_translates :
  make_dds_qos true SensorData =
  Ok (mk_dds_qos DDS_HISTORY_KEEP_LAST 5 DDS_RELIABILITY_BEST_EFFORT DDS_INFINITY
        DDS_DURABILITY_VOLATILE DDS_INFINITY).
Proof. reflexivity. Qed.

Example latch_translates :
  make_dds_qos true (keep_last 1 (set_transient_local QoS_default)) =
  Ok (mk_dds_qos DDS_HISTORY_KEEP_LAST 1 DDS_RELIABILITY_RELIABLE DDS_INFINITY
        DDS_DURABILITY_TRANSIENT_LOCAL DDS_INFINITY).
Proof. reflexivity. Qed.

(** The inverse reading of a translated QoS, as a specification. *)
Definition qos_of_dds (d : dds_qos) : QoS :=
  mk_qos
    (match q_reliability d with DDS_RELIABILITY_RELIABLE => Reliable | _ => BestEffort end)
    (match q_durability d with DDS_DURABILITY_TRANSIENT_LOCAL => TransientLocal | _ => Volatile end)
    (match q_history d with DDS_HISTORY_KEEP_ALL => KeepAll | _ => KeepLast end)
    (q_depth d).

Lemma i32_small z : in_u 31 z -> i32 z = z.
Proof. unfold in_u. intros. apply swrap_small; [lia|]. unfold in_s. lia. Qed.

(** The translation of a QoS profile never fails once CycloneDDS gave it a
    QoS object, and it loses nothing exactly when the depth fits the [int32_t]
    of a DDS history: reading the DDS QoS back gives the profile if and only if
    the depth is below 2^31; otherwise only the depth differs, and it is taken
    modulo 2^32 as a signed number (so a depth in [2^31, 2^32) turns negative). *)
Theorem make_dds_qos_faithful (q : QoS) :
  in_u 64 (depth q) ->
  exists d, make_dds_qos true q = Ok d /\
    (qos_of_dds d = q <-> in_u 31 (depth q)) /\
    reliability (qos_of_dds d) = reliability q /\ durability (qos_of_dds d) = durability q /\
    history (qos_of_dds d) = history q /\
    (2 ^ 31 <= depth q < 2 ^ 32 -> q_depth d < 0)%Z /\
    (q_depth d = (depth q) `mod` 2 ^ 32 \/ q_depth d = (depth q) `mod` 2 ^ 32 - 2 ^ 32)%Z.
Proof.
  intros Hq. eexists. split; [reflexivity|]. cbn [q_depth].
  pose proof (swrap_range 32 (depth q) ltac:(lia)) as Hr. fold (i32 (depth q)) in Hr.
  assert (Hm : exists k, (i32 (depth q) = depth q + k * 2 ^ 32)%Z).
  { unfold i32, swrap. exists (- ((depth q + 2 ^ (32 - 1)) `div` 2 ^ 32))%Z.
    pose proof (Z.div_mod (depth q + 2 ^ (32 - 1)) (2 ^ 32) ltac:(lia)). lia. }
  destruct Hm as [k Hk]. unfold in_s in Hr. unfold in_u in *.
  pose proof (Z.div_mod (depth q) (2 ^ 32) ltac:(lia)).
  pose proof (Z.mod_pos_bound (depth q) (2 ^ 32) ltac:(lia)).
  split_and!.
  - split.
    + intros H1. apply (f_equal depth) in H1. simpl in H1. lia.
    + intros H1. unfold qos_of_dds. simpl. rewrite i32_small by done.
      destruct q as [[] [] [] ?]; reflexivity.
  - by destruct (reliability q).
  - by destruct (durability q).
  - by destruct (history q).
  - intros. lia.
  - lia.
Qed.

Lemma make_dds_qos_faithful_witness :
  exists d, make_dds_qos true (keep_last (2 ^ 31) QoS_default) = Ok d /\
    (qos_of_dds d = keep_last (2 ^ 31) QoS_default <-> in_u 31 (2 ^ 31)) /\
    reliability (qos_of_dds d) = Reliable /\ durability (qos_of_dds d) = Volatile /\
    history (qos_of_dds d) = KeepLast /\
    (2 ^ 31 <= 2 ^ 31 < 2 ^ 32 -> q_depth d < 0)%Z /\
    (q_depth d = (2 ^ 31) `mod` 2 ^ 32 \/ q_depth d = (2 ^ 31) `mod` 2 ^ 32 - 2 ^ 32)%Z.
Proof.
  apply (make_dds_qos_faithful (keep_last (2 ^ 31) QoS_default)). unfold in_u. simpl. lia.
Defined.
