(* ===== verification/RawSerdata.v ===== *)
(** The opaque CDR sertype and serdata that rcllite plugs into CycloneDDS
    (src/src/rcllite/dds/raw_serdata.hpp and raw_serdata.cpp).

    A serdata is its padded payload.  [raw_from_ser] reassembles a sample from
    the fragment chain of the network stack: a fragment covers the bytes
    [min, maxp1) of the sample and carries them.  Every memcpy is bounds
    checked in the model and yields [Undefined] out of bounds, which is what the
    theorems exclude for the chains CycloneDDS delivers. *)
From stdpp Require Import base tactics list numbers.
From Stdlib Require Import ZArith Lia Strings.Byte.
From S2P Require Import Prelude Bytes Cdr.

(** [struct ddsi_sertype] as far as the callbacks look at it. *)
Record ddsi_sertype := mk_sertype { type_name : bytes }.

Record RawSerdata := mk_serdata {
  c_type : option ddsi_sertype;   (* [d->c.type]; null for an untyped serdata *)
  payload : bytes
}.

Definition create_raw_sertype (name : bytes) : ddsi_sertype := mk_sertype name.

Definition raw_pad (requested : nat) : nat :=
  Z.to_nat (u32 (0 - u32 (Z.of_nat requested)) `mod` 4).

(** [d->payload.assign(requested + pad, 0)]. *)
Definition raw_resize (requested : nat) : bytes :=
  replicate (requested + raw_pad requested) x00.

Definition raw_eqkey (_ _ : RawSerdata) : bool := true.

Definition raw_size (d : RawSerdata) : Z := u32 (Z.of_nat (length (payload d))).

(** [std::memcpy(buf + p, data, data.size())]. *)
Definition memcpy_at (p : nat) (data buf : bytes) : outcome bytes :=
  if decide (p + length data <= length buf)
  then Ok (take p buf ++ data ++ drop (p + length data) buf)
  else Undefined.

(** [struct nn_rdata]: the range it covers and the bytes of that range. *)
Record nn_rdata := mk_rdata { frag_min : nat; frag_maxp1 : nat; frag_data : bytes }.

(** The loop over the chain: [off] is also the distance of [cursor] from the
    start of the payload. *)
Fixpoint from_ser_loop (fragchain : list nn_rdata) (off : nat) (buf : bytes) : outcome bytes :=
  match fragchain with
  | [] => Ok buf
  | f :: rest =>
      if decide (off < frag_maxp1 f) then
        if decide (off < frag_min f) then Undefined   (* src points before the fragment *)
        else
          match slice (off - frag_min f) (frag_maxp1 f - off) (frag_data f) with
          | Some src =>
              let* buf := memcpy_at off src buf in
              from_ser_loop rest (frag_maxp1 f) buf
          | None => Undefined
          end
      else from_ser_loop rest off buf
  end.

Definition raw_from_ser (type : ddsi_sertype) (fragchain : list nn_rdata) (size : nat)
  : outcome RawSerdata :=
  let* buf := from_ser_loop fragchain 0 (raw_resize size) in
  Ok (mk_serdata (Some type) buf).

Fixpoint from_ser_iov_loop (iov : list bytes) (cursor : nat) (buf : bytes) : outcome bytes :=
  match iov with
  | [] => Ok buf
  | base :: rest =>
      let* buf := memcpy_at cursor base buf in
      from_ser_iov_loop rest (cursor + length base) buf
  end.

Definition raw_from_ser_iov (type : ddsi_sertype) (iov : list bytes) (size : nat)
  : outcome RawSerdata :=
  let* buf := from_ser_iov_loop iov 0 (raw_resize size) in
  Ok (mk_serdata (Some type) buf).

Definition raw_from_keyhash : option RawSerdata := None.
Definition raw_from_sample : option RawSerdata := None.

Definition raw_to_ser (d : RawSerdata) (off sz : nat) : outcome bytes :=
  match slice off sz (payload d) with Some b => Ok b | None => Undefined end.

Definition raw_to_sample (_ : RawSerdata) : bool := false.

Definition raw_to_untyped (_ : RawSerdata) : RawSerdata := mk_serdata None [].

Definition raw_get_keyhash : bytes := replicate 16 x00.

Definition sertype_raw_equal (a b : ddsi_sertype) : bool := bool_decide (type_name a = type_name b).

(** [raw_serdata_from_blob]: [iov_len_bits] is the width of
    [ddsrt_iov_len_t]; [None] is the null pointer. *)
Definition raw_serdata_from_blob (iov_len_bits : Z) (type : ddsi_sertype) (blob : bytes)
  : outcome (option RawSerdata) :=
  let size := Z.of_nat (length blob) in
  if negb (uwrap iov_len_bits size =? size)%Z then Ok None
  else
    let* d := raw_from_ser_iov type [blob] (length blob) in
    Ok (Some d).

Definition raw_serdata_payload (d : RawSerdata) : bytes := payload d.
Definition raw_serdata_payload_size (d : RawSerdata) : nat := length (payload d).

(* ------------------------------------------------------------------ *)
(** * Padding *)

(** A payload padded with zeros to a multiple of four bytes. *)
Definition padded (p : bytes) : bytes := p ++ replicate (Z.to_nat ((- Z.of_nat (length p)) `mod` 4)) x00.

Lemma raw_pad_eq n : Z.of_nat (raw_pad n) = ((- Z.of_nat n) `mod` 4)%Z.
Proof.
  unfold raw_pad, u32, uwrap.
  rewrite Z2Nat.id by (apply Z.mod_pos_bound; lia).
  rewrite Z.mod_mod_divide by (by exists (2 ^ 30)%Z).
  rewrite Zminus_mod.
  rewrite Z.mod_mod_divide by (by exists (2 ^ 30)%Z).
  by rewrite <- Zminus_mod.
Qed.

Lemma length_padded_mod p : (Z.of_nat (length (padded p)) `mod` 4 = 0)%Z.
Proof.
  unfold padded. rewrite length_app, length_replicate.
  pose proof (Z.mod_pos_bound (- Z.of_nat (length p)) 4 ltac:(lia)).
  rewrite Nat2Z.inj_add, Z2Nat.id by lia. rewrite Zplus_mod_idemp_r.
  by rewrite Z.add_opp_diag_r.
Qed.

Lemma padded_aligned p : (Z.of_nat (length p) `mod` 4 = 0)%Z -> padded p = p.
Proof.
  intros H. unfold padded. rewrite Z.mod_opp_l_z by lia. simpl. apply app_nil_r.
Qed.

Lemma padded_idemp p : padded (padded p) = padded p.
Proof. apply padded_aligned, length_padded_mod. Qed.

Lemma length_raw_resize n : length (raw_resize n) = n + raw_pad n.
Proof. apply length_replicate. Qed.

(* ------------------------------------------------------------------ *)
(** * Writing a prefix piece by piece *)

(** [holds s off n buf]: the first [off] bytes of the sample [s] have been
    written at the start of [buf] and the rest is zero. *)
Definition holds (s : bytes) (off n : nat) (buf : bytes) : Prop :=
  off <= length s <= n /\ buf = take off s ++ replicate (n - off) x00.

Lemma memcpy_holds s off len n buf :
  holds s off n buf -> off + len <= length s ->
  exists buf', memcpy_at off (take len (drop off s)) buf = Ok buf' /\ holds s (off + len) n buf'.
Proof.
  intros [Ho ->] Hl. unfold memcpy_at.
  assert (Hlen : length (take len (drop off s)) = len) by (rewrite length_take, length_drop; lia).
  assert (Htk : length (take off s) = off) by (rewrite length_take; lia).
  rewrite Hlen. rewrite decide_True by (rewrite length_app, Htk, length_replicate; lia).
  eexists. split; [done|]. split; [lia|].
  rewrite take_app_length' by done. rewrite drop_app_ge by lia. rewrite Htk, drop_replicate.
  rewrite app_assoc, take_take_drop. do 2 f_equal. lia.
Qed.

Lemma holds_all s n buf : holds s (length s) n buf -> buf = s ++ replicate (n - length s) x00.
Proof. intros [_ ->]. by rewrite take_ge. Qed.

Lemma holds_resize s : holds s 0 (length s + raw_pad (length s)) (raw_resize (length s)).
Proof. split; [lia|]. unfold raw_resize. by rewrite Nat.sub_0_r. Qed.

Lemma padded_eq s : s ++ replicate (length s + raw_pad (length s) - length s) x00 = padded s.
Proof.
  unfold padded. do 2 f_equal. pose proof (raw_pad_eq (length s)). lia.
Qed.

(** A scatter list is copied in order. *)
Lemma from_ser_iov_loop_holds iov s off n buf :
  holds s off n buf -> drop off s = concat iov ->
  exists buf', from_ser_iov_loop iov off buf = Ok buf' /\ holds s (length s) n buf'.
Proof.
  revert off buf. induction iov as [|b iov IH]; intros off buf Hh Hd; simpl in *.
  - exists buf. split; [done|]. pose proof Hh as [[Ho _] _].
    assert (length s <= off) by (apply (f_equal length) in Hd; rewrite length_drop in Hd; simpl in Hd; lia).
    by replace (length s) with off by lia.
  - assert (Hb : take (length b) (drop off s) = b) by (rewrite Hd; apply take_app_length).
    assert (Hl : off + length b <= length s).
    { apply (f_equal length) in Hd. rewrite length_drop, length_app in Hd.
      destruct Hh as [[? ?] _]. lia. }
    destruct (memcpy_holds s off (length b) n buf Hh Hl) as (buf1 & E & Hh1).
    rewrite Hb in E. rewrite E. simpl. apply IH; [done|].
    rewrite <- drop_drop, Hd. apply drop_app_length.
Qed.

Lemma raw_from_ser_iov_spec type iov :
  raw_from_ser_iov type iov (length (concat iov)) = Ok (mk_serdata (Some type) (padded (concat iov))).
Proof.
  unfold raw_from_ser_iov.
  destruct (from_ser_iov_loop_holds iov (concat iov) 0 _ _ (holds_resize _) eq_refl) as (buf & E & Hh).
  rewrite E. simpl. apply holds_all in Hh as ->. by rewrite padded_eq.
Qed.

Lemma raw_serdata_from_blob_spec bits type blob :
  raw_serdata_from_blob bits type blob =
  if (uwrap bits (Z.of_nat (length blob)) =? Z.of_nat (length blob))%Z
  then Ok (Some (mk_serdata (Some type) (padded blob))) else Ok None.
Proof.
  unfold raw_serdata_from_blob. destruct (_ =? _)%Z; simpl; [|done].
  pose proof (raw_from_ser_iov_spec type [blob]) as H. simpl in H. rewrite app_nil_r in H.
  by rewrite H.
Qed.

(* ------------------------------------------------------------------ *)
(** * Fragment reassembly *)

(** A fragment carries the bytes it claims to cover. *)
Definition fragment_of (s : bytes) (f : nn_rdata) : Prop :=
  frag_min f <= frag_maxp1 f <= length s /\
  frag_data f = take (frag_maxp1 f - frag_min f) (drop (frag_min f) s).

(** A chain in the order the defragmenter hands it over: each fragment starts
    at or before the first byte not yet covered (overlaps and duplicates are
    allowed, holes are not), and the last byte is covered. *)
Fixpoint chain_covers (s : bytes) (off : nat) (chain : list nn_rdata) : Prop :=
  match chain with
  | [] => off = length s
  | f :: rest => fragment_of s f /\ frag_min f <= off /\ chain_covers s (off `max` frag_maxp1 f) rest
  end.

Lemma slice_fragment s f off :
  fragment_of s f -> frag_min f <= off <= frag_maxp1 f ->
  slice (off - frag_min f) (frag_maxp1 f - off) (frag_data f) =
  Some (take (frag_maxp1 f - off) (drop off s)).
Proof.
  intros [Hr Hd] Ho. unfold slice. rewrite decide_True.
  - f_equal. rewrite Hd, skipn_firstn_comm, firstn_firstn, drop_drop. f_equal; [lia|].
    f_equal. lia.
  - rewrite Hd, length_take, length_drop. lia.
Qed.

Lemma from_ser_loop_holds chain s off n buf :
  holds s off n buf -> chain_covers s off chain ->
  exists buf', from_ser_loop chain off buf = Ok buf' /\ holds s (length s) n buf'.
Proof.
  revert off buf. induction chain as [|f chain IH]; intros off buf Hh Hc; simpl in *.
  - subst. eauto.
  - destruct Hc as (Hf & Hm & Hc). pose proof Hf as [Hr _]. case_decide as Hd.
    + rewrite (decide_False (P := off < frag_min f)) by lia.
      rewrite (slice_fragment s f off) by (done || lia).
      destruct (memcpy_holds s off (frag_maxp1 f - off) n buf Hh ltac:(lia)) as (buf1 & E & Hh1).
      rewrite E. simpl. replace (off + (frag_maxp1 f - off)) with (frag_maxp1 f) in Hh1 by lia.
      apply IH; [done|]. by rewrite Nat.max_r in Hc by lia.
    + apply IH; [done|]. by rewrite Nat.max_l in Hc by lia.
Qed.

(* ------------------------------------------------------------------ *)
(** * Transport *)

(** C4: whatever fragments a sample arrives in (duplicated or overlapping
    fragments included, as long as they leave no hole), reassembly stays inside
    the payload buffer and yields the sample followed by the zero padding that
    rounds it up to four bytes; so does a scatter list that carries the sample. *)
Theorem reassembly (type : ddsi_sertype) (s : bytes) (chain : list nn_rdata) (iov : list bytes) :
  chain_covers s 0 chain -> concat iov = s ->
  raw_from_ser type chain (length s) = Ok (mk_serdata (Some type) (padded s)) /\
  raw_from_ser_iov type iov (length s) = Ok (mk_serdata (Some type) (padded s)).
Proof.
  intros Hc <-. split; [|apply raw_from_ser_iov_spec]. unfold raw_from_ser.
  destruct (from_ser_loop_holds chain _ 0 _ _ (holds_resize _) Hc) as (buf & E & Hh).
  rewrite E. simpl. apply holds_all in Hh as ->. by rewrite padded_eq.
Qed.

Lemma reassembly_witness :
  let s := lit "abcdefg" in
  let chain := [mk_rdata 0 4 (lit "abcd"); mk_rdata 0 2 (lit "ab"); mk_rdata 2 7 (lit "cdefg")] in
  raw_from_ser (mk_sertype (lit "T")) chain 7 =
    Ok (mk_serdata (Some (mk_sertype (lit "T"))) (lit "abcdefg" ++ [x00])) /\
  raw_from_ser_iov (mk_sertype (lit "T")) [lit "abc"; lit "defg"] 7 =
    Ok (mk_serdata (Some (mk_sertype (lit "T"))) (lit "abcdefg" ++ [x00])).
Proof.
  apply (reassembly (mk_sertype (lit "T")) (lit "abcdefg")); [|reflexivity].
  unfold chain_covers, fragment_of. vm_compute. repeat split; lia.
Defined.

(** The pieces CycloneDDS cuts a serdata into with [to_ser]. *)
Fixpoint to_ser_pieces (d : RawSerdata) (off : nat) (szs : list nat) : outcome (list bytes) :=
  match szs with
  | [] => Ok []
  | sz :: rest =>
      let* b := raw_to_ser d off sz in
      let* bs := to_ser_pieces d (off + sz) rest in
      Ok (b :: bs)
  end.

Lemma to_ser_pieces_concat d szs off :
  off + sum_list szs = length (payload d) ->
  exists bs, to_ser_pieces d off szs = Ok bs /\ concat bs = drop off (payload d).
Proof.
  revert off. induction szs as [|sz szs IH]; intros off Hs; simpl in *.
  - exists []. split; [done|]. by rewrite drop_ge by lia.
  - unfold raw_to_ser, slice. rewrite decide_True by lia. simpl.
    destruct (IH (off + sz)) as (bs & -> & Hb); [lia|]. simpl.
    eexists. split; [done|]. simpl. rewrite Hb, <- drop_drop. apply take_drop.
Qed.

(** C5: end to end through the serdata operations: a blob given to
    [raw_serdata_from_blob], handed out by [raw_to_ser] in pieces of any sizes
    and gathered again by [raw_from_ser_iov], arrives as the blob plus at most
    three zero bytes, which are the same at the sender and at the receiver; the
    only blobs refused are those whose size an iovec cannot hold. *)
Theorem blob_transport (bits : Z) (type : ddsi_sertype) (blob : bytes) (szs : list nat) :
  in_u bits (Z.of_nat (length blob)) ->
  sum_list szs = length (padded blob) ->
  exists d bs,
    raw_serdata_from_blob bits type blob = Ok (Some d) /\
    to_ser_pieces d 0 szs = Ok bs /\
    raw_from_ser_iov type bs (raw_serdata_payload_size d) = Ok d /\
    raw_serdata_payload d = padded blob /\
    length blob <= length (padded blob) < length blob + 4.
Proof.
  intros Hb Hs. rewrite raw_serdata_from_blob_spec, uwrap_small, Z.eqb_refl by done.
  set (d := mk_serdata (Some type) (padded blob)).
  destruct (to_ser_pieces_concat d szs 0) as (bs & E & Hc); [done|].
  exists d, bs. split_and!; [done|done| |done|unfold padded; rewrite length_app; lia|].
  - replace (raw_serdata_payload_size d) with (length (concat bs)) by (by rewrite Hc).
    rewrite raw_from_ser_iov_spec, Hc. simpl. by rewrite drop_0, padded_idemp.
  - unfold padded. rewrite length_app, length_replicate.
    pose proof (Z.mod_pos_bound (- Z.of_nat (length blob)) 4 ltac:(lia)). lia.
Qed.

Lemma blob_transport_witness :
  exists d bs,
    raw_serdata_from_blob 32 (mk_sertype (lit "T")) (lit "hello") = Ok (Some d) /\
    to_ser_pieces d 0 [3; 5] = Ok bs /\
    raw_from_ser_iov (mk_sertype (lit "T")) bs (raw_serdata_payload_size d) = Ok d /\
    raw_serdata_payload d = padded (lit "hello") /\
    5 <= length (padded (lit "hello")) < 5 + 4.
Proof.
  apply (blob_transport 32 (mk_sertype (lit "T")) (lit "hello") [3; 5]); [|reflexivity].
  unfold in_u. simpl. lia.
Defined.
