(* ===== verification/SerdataOps.v ===== *)
(** The operation tables that rcllite hands to CycloneDDS
    (src/src/rcllite/dds/raw_serdata.cpp, [raw_serdata_ops] and
    [raw_sertype_ops]), and the reference counted objects behind them: a slice
    lent by [to_ser_ref] stays readable until it is given back.

    The count of a serdata belongs to CycloneDDS ([ddsi_serdata_ref] and
    [ddsi_serdata_unref]) and is the class [DdsiRefc]; the objects themselves are
    allocated with [new] and deleted by [raw_free]. *)
From Stdlib Require Import ZArith Lia Strings.Byte.
From stdpp Require Import base tactics list numbers gmap.
From S2P Require Import Prelude Bytes Cdr RawSerdata.

(** [serdata_unref] says whether the reference it dropped was the last one, in
    which case CycloneDDS calls [ops->free]. *)
Class DdsiRefc (C : Type) := {
  serdata_ref : nat -> C -> C;
  serdata_unref : nat -> C -> bool * C
}.

Class DdsiRefcLaws (C : Type) `{DdsiRefc C} := {
  count : C -> nat -> nat;
  ref_count d c e : count (serdata_ref d c) e = count c e + (if decide (e = d) then 1 else 0);
  unref_count d c : 0 < count c d ->
    fst (serdata_unref d c) = bool_decide (count c d = 1) /\
    forall e, count (snd (serdata_unref d c)) e = count c e - (if decide (e = d) then 1 else 0)
}.

(** The objects alive and CycloneDDS' counts. *)
Record Mem (C : Type) := mk_mem { objects : gmap nat RawSerdata; counts : C }.
Arguments mk_mem {C} _ _.
Arguments objects {C} _.
Arguments counts {C} _.

(** A [ddsrt_iovec_t] into the payload of a serdata: [iov_base] is the payload's
    start plus [view_off]. *)
Record iovec := mk_iovec { view_of : nat; view_off : nat; iov_len : Z }.

(* ------------------------------------------------------------------ *)
(** * Operations on objects *)

Section objects.
Context {C : Type} `{DdsiRefc C}.
Notation MemM := (stM (Mem C)).

(** Width of [ddsrt_iov_len_t]. *)
Variable iov_len_bits : Z.

(** [as_raw(dcmn)->payload]. *)
Definition as_raw (d : nat) : MemM RawSerdata := fun m =>
  (match objects m !! d with Some o => Ok o | None => Undefined end, m).

(** [delete as_raw(dcmn)]: deleting twice is undefined. *)
Definition raw_free (d : nat) : MemM unit := fun m =>
  match objects m !! d with
  | Some _ => (Ok tt, mk_mem (delete d (objects m)) (counts m))
  | None => (Undefined, m)
  end.

Definition ddsi_serdata_ref (d : nat) : MemM nat := fun m =>
  (Ok d, mk_mem (objects m) (serdata_ref d (counts m))).

(** Calls the [free] of the serdata's operations for the last reference. *)
Definition ddsi_serdata_unref (free : nat -> MemM unit) (d : nat) : MemM unit := fun m =>
  let (last, c) := serdata_unref d (counts m) in
  (if last then free d else mret tt) (mk_mem (objects m) c).

(** [data() + off] past the end of the payload is undefined. *)
Definition raw_to_ser_ref (d off sz : nat) : MemM (nat * iovec) :=
  let* o := as_raw d in
  if decide (off <= length (payload o)) then
    let* d' := ddsi_serdata_ref d in
    mret (d', mk_iovec d off (uwrap iov_len_bits (Z.of_nat sz)))
  else st_lift Undefined.

Definition raw_to_ser_unref (d : nat) : MemM unit := ddsi_serdata_unref raw_free d.

(** What CycloneDDS reads through a lent slice. *)
Definition read_iovec (v : iovec) : MemM bytes :=
  let* o := as_raw (view_of v) in
  st_lift (match slice (view_off v) (Z.to_nat (iov_len v)) (payload o) with Some b => Ok b | None => Undefined end).

(** What the rest of CycloneDDS does with counts meanwhile. *)
Inductive act := Ref (d : nat) | Unref (d : nat).

Definition run_act (a : act) : MemM unit :=
  match a with
  | Ref d => let* _ := ddsi_serdata_ref d in mret tt
  | Unref d => ddsi_serdata_unref raw_free d
  end.
End objects.

Definition raw_untyped_to_sample (_ : ddsi_sertype) (_ : RawSerdata) : bool := false.

(** [std::snprintf(buf, size, ...)]: the bytes written, terminator included, and
    the length of the whole text. *)
Definition snprintf (size : nat) (text : bytes) : bytes * nat :=
  (match size with O => [] | S k => take k text ++ [x00] end, length text).

(** The bytes written to the buffer and the result. *)
Definition raw_print (d : RawSerdata) (size : nat) : bytes * nat :=
  let (written, n) := snprintf size (lit "[opq " ++ to_string (Z.of_nat (length (payload d))) ++ lit " b]") in
  (written, if n <? size then n else size).

(** [struct ddsi_serdata_ops] without the operations on references. *)
Record ddsi_serdata_ops := mk_serdata_ops {
  op_eqkey : RawSerdata -> RawSerdata -> bool;
  op_size : RawSerdata -> Z;
  op_from_ser : ddsi_sertype -> list nn_rdata -> nat -> outcome RawSerdata;
  op_from_ser_iov : ddsi_sertype -> list bytes -> nat -> outcome RawSerdata;
  op_from_keyhash : option RawSerdata;
  op_from_sample : option RawSerdata;
  op_to_ser : RawSerdata -> nat -> nat -> outcome bytes;
  op_to_sample : RawSerdata -> bool;
  op_to_untyped : RawSerdata -> RawSerdata;
  op_untyped_to_sample : ddsi_sertype -> RawSerdata -> bool;
  op_print : RawSerdata -> nat -> bytes * nat;
  op_get_keyhash : bytes
}.

Definition raw_serdata_ops : ddsi_serdata_ops := {|
  op_eqkey := raw_eqkey;
  op_size := raw_size;
  op_from_ser := raw_from_ser;
  op_from_ser_iov := raw_from_ser_iov;
  op_from_keyhash := raw_from_keyhash;
  op_from_sample := raw_from_sample;
  op_to_ser := raw_to_ser;
  op_to_sample := raw_to_sample;
  op_to_untyped := raw_to_untyped;
  op_untyped_to_sample := raw_untyped_to_sample;
  op_print := raw_print;
  op_get_keyhash := raw_get_keyhash
|}.

(** The operations on sample memory leave it alone. *)
Definition sertype_raw_zero_samples {M : Type} (samples : M) : M := samples.
Definition sertype_raw_realloc_samples {M : Type} (samples : M) : M := samples.
Definition sertype_raw_free_samples {M : Type} (samples : M) : M := samples.

(** [std::hash<std::string>] is a parameter. *)
Definition sertype_raw_hash (hash : bytes -> Z) (tp : ddsi_sertype) : Z := u32 (hash (type_name tp)).

Definition sertype_raw_get_serialized_size : Z := 0.
Definition sertype_raw_serialize_into : bool := false.

Record ddsi_sertype_ops := mk_sertype_ops {
  op_equal : ddsi_sertype -> ddsi_sertype -> bool;
  op_hash : ddsi_sertype -> Z;
  op_get_serialized_size : Z;
  op_serialize_into : bool
}.

Definition raw_sertype_ops (hash : bytes -> Z) : ddsi_sertype_ops := {|
  op_equal := sertype_raw_equal;
  op_hash := sertype_raw_hash hash;
  op_get_serialized_size := sertype_raw_get_serialized_size;
  op_serialize_into := sertype_raw_serialize_into
|}.

(* ------------------------------------------------------------------ *)
(** * The contract of the tables *)

Lemma raw_print_bounds d size :
  length (fst (raw_print d size)) <= size /\ snd (raw_print d size) <= size /\
  (snd (raw_print d size) < size ->
   fst (raw_print d size) = lit "[opq " ++ to_string (Z.of_nat (length (payload d))) ++ lit " b]" ++ [x00]).
Proof.
  unfold raw_print, snprintf. set (t := _ ++ _). cbn [fst snd].
  destruct (Nat.ltb_spec (length t) size) as [Hn|Hn]; destruct size as [|k]; try lia.
  - split_and!; [rewrite length_app, length_take; simpl; lia|lia|]. intros _.
    rewrite take_ge by lia. unfold t. by rewrite <- !app_assoc.
  - split_and!; simpl; lia.
  - split_and!; [rewrite length_app, length_take; simpl; lia|lia|lia].
Qed.

(** What CycloneDDS asks of the tables: equal sertypes hash alike and equality
    is that of the names; keys compare as their hashes do (all keyless);
    printing stays inside its buffer and says when it was cut; whatever piece of
    the serialized size is asked for can be copied out; nothing is ever built
    from a key hash or a typed sample. *)
Theorem ops_contract (hash : bytes -> Z) (a b : ddsi_sertype) (d e : RawSerdata) (off sz size : nat) :
  (op_equal (raw_sertype_ops hash) a b = true <-> type_name a = type_name b) /\
  (op_equal (raw_sertype_ops hash) a b = true -> op_hash (raw_sertype_ops hash) a = op_hash (raw_sertype_ops hash) b) /\
  in_u 32 (op_hash (raw_sertype_ops hash) a) /\
  (op_eqkey raw_serdata_ops d e = bool_decide (op_get_keyhash raw_serdata_ops = op_get_keyhash raw_serdata_ops)) /\
  length (fst (op_print raw_serdata_ops d size)) <= size /\
  (in_u 32 (Z.of_nat (length (payload d))) -> (Z.of_nat (off + sz) <= op_size raw_serdata_ops d)%Z ->
   exists p, op_to_ser raw_serdata_ops d off sz = Ok p /\ length p = sz) /\
  op_from_keyhash raw_serdata_ops = None /\ op_from_sample raw_serdata_ops = None /\
  op_to_sample raw_serdata_ops d = false /\ op_untyped_to_sample raw_serdata_ops a d = false.
Proof.
  simpl. split_and!; try done.
  - unfold sertype_raw_equal. by rewrite bool_decide_eq_true.
  - unfold sertype_raw_equal, sertype_raw_hash. by rewrite bool_decide_eq_true; intros ->.
  - apply uwrap_range. lia.
  - apply raw_print_bounds.
  - intros Hu Hs. unfold raw_size, u32 in Hs. rewrite uwrap_small in Hs by done. unfold raw_to_ser.
    destruct (slice_in_bounds off sz (payload d)) as [p Hp]; [lia|]. rewrite Hp.
    exists p. split; [done|]. by eapply slice_Some_length.
Qed.

(* ------------------------------------------------------------------ *)
(** * Lent slices *)

Section lent.
Context {C : Type} `{DdsiRefcLaws C}.
Variable iov_len_bits : Z.
Implicit Types m : Mem C.

(** Objects are alive exactly while they are counted. *)
Definition counted m : Prop := forall d, 0 < count (counts m) d <-> is_Some (objects m !! d).

(** [a] gives up only references of others: a holder of [held] references on [d]
    gives up none of them. *)
Definition fair (d held : nat) (a : act) m : Prop :=
  match a with
  | Ref e => is_Some (objects m !! e)
  | Unref e => (if decide (e = d) then held else 0) < count (counts m) e
  end.

Fixpoint fair_run (d held : nat) (acts : list act) m : Prop :=
  match acts with
  | [] => True
  | a :: acts => fair d held a m /\ fair_run d held acts (snd (run_act a m))
  end.

(** Dropping a reference deletes exactly the object whose last one it was. *)
Lemma unref_spec d m :
  counted m -> 0 < count (counts m) d ->
  exists m', ddsi_serdata_unref raw_free d m = (Ok tt, m') /\ counted m' /\
    (forall e, count (counts m') e = count (counts m) e - (if decide (e = d) then 1 else 0)) /\
    objects m' = (if decide (count (counts m) d = 1) then delete d (objects m) else objects m).
Proof.
  intros Hc Hp. destruct (unref_count d (counts m) Hp) as [Hl Hn].
  unfold ddsi_serdata_unref. destruct (serdata_unref d (counts m)) as [last c]. simpl in *. subst last.
  assert (Hd : is_Some (objects m !! d)) by by apply Hc. destruct Hd as [o Ho].
  case_bool_decide as H1; unfold raw_free; simpl; rewrite ?Ho; (eexists; split; [done|]); simpl.
  - rewrite decide_True by done. split; [|split; done]. intros e. simpl. rewrite Hn.
    destruct (decide (e = d)) as [->|Hne]; [|rewrite lookup_delete_ne, Nat.sub_0_r by done; apply Hc].
    rewrite lookup_delete_eq. split; [lia|by intros [? [=]]].
  - rewrite decide_False by done. split; [|split; done]. intros e. simpl. rewrite Hn.
    destruct (decide (e = d)) as [->|Hne]; [|rewrite Nat.sub_0_r; apply Hc].
    rewrite <- (Hc d). lia.
Qed.

Lemma ref_spec d m :
  counted m -> is_Some (objects m !! d) ->
  exists m', ddsi_serdata_ref d m = (Ok d, m') /\ counted m' /\ objects m' = objects m /\
    forall e, count (counts m') e = count (counts m) e + (if decide (e = d) then 1 else 0).
Proof.
  intros Hc Hd. eexists. split; [done|]. simpl. split_and!; [|done|intros; apply ref_count].
  intros e. simpl. rewrite ref_count. destruct (decide (e = d)) as [->|]; [|rewrite Nat.add_0_r; apply Hc].
  split; [done|]. intros _. lia.
Qed.

(** One act of the others keeps the books and the object. *)
Lemma fair_step d held a m o :
  counted m -> held <= count (counts m) d -> 0 < held -> objects m !! d = Some o -> fair d held a m ->
  exists m', run_act a m = (Ok tt, m') /\ counted m' /\ held <= count (counts m') d /\ objects m' !! d = Some o.
Proof.
  intros Hc Hh Hpos Ho Hf. destruct a as [e|e]; simpl in *.
  - destruct (ref_spec e m Hc Hf) as (m' & E & Hc' & Hob & Hn). rewrite (st_bind_Ok _ _ _ _ _ E).
    exists m'. split_and!; [done|done| |by rewrite Hob]. rewrite Hn. lia.
  - destruct (unref_spec e m Hc ltac:(destruct (decide (e = d)); lia)) as (m' & E & Hc' & Hn & Hob).
    exists m'. split_and!; [done|done| |].
    + rewrite Hn. destruct (decide (d = e)) as [<-|]; [rewrite decide_True in Hf by done|]; lia.
    + rewrite Hob. destruct (decide (count (counts m) e = 1)); [|done].
      rewrite lookup_delete_ne; [done|]. intros ->. rewrite decide_True in Hf by done. lia.
Qed.

Lemma fair_run_keeps d held acts : forall m o,
  counted m -> held <= count (counts m) d -> 0 < held -> objects m !! d = Some o -> fair_run d held acts m ->
  exists m', st_iter run_act acts m = (Ok tt, m') /\ counted m' /\ held <= count (counts m') d /\ objects m' !! d = Some o.
Proof.
  induction acts as [|a acts IH]; intros m o Hc Hh Hpos Ho Hf; [by exists m|]. destruct Hf as [Ha Hf].
  destruct (fair_step d held a m o Hc Hh Hpos Ho Ha) as (m1 & E & Hc1 & Hh1 & Ho1).
  cbn [st_iter]. rewrite (st_bind_Ok _ _ _ _ _ E). rewrite E in Hf. by apply (IH m1 o).
Qed.

(** C6: A slice of a live serdata lent by [raw_to_ser_ref] reads as the same bytes as
    [raw_to_ser] copies, for as long as it is held, whatever references everyone
    else takes and drops meanwhile: the lender holds a reference of its own, in
    addition to those counted before.  Giving it back with [raw_to_ser_unref]
    deletes the object exactly when nobody else holds it, and no object is
    deleted twice. *)
Theorem lent_slice_stays_valid m (d off sz : nat) (o : RawSerdata) (acts : list act) :
  counted m -> objects m !! d = Some o -> off + sz <= length (payload o) -> in_u iov_len_bits (Z.of_nat sz) ->
  exists v m1, raw_to_ser_ref iov_len_bits d off sz m = (Ok (d, v), m1) /\
    count (counts m1) d = S (count (counts m) d) /\
    (fair_run d 1 acts m1 ->
     exists m2 p m3, st_iter run_act acts m1 = (Ok tt, m2) /\
       read_iovec v m2 = (Ok p, m2) /\ raw_to_ser o off sz = Ok p /\
       raw_to_ser_unref d m2 = (Ok tt, m3) /\ counted m3 /\
       (objects m3 !! d = None <-> count (counts m2) d = 1)).
Proof.
  intros Hc Ho Hb Hu. destruct (ref_spec d m Hc ltac:(by exists o)) as (m1 & E & Hc1 & Hob & Hn).
  eexists _, m1. split.
  { unfold raw_to_ser_ref. rewrite (st_bind_Ok (as_raw d) _ m o m) by (unfold as_raw; by rewrite Ho).
    rewrite decide_True by lia. by rewrite (st_bind_Ok _ _ _ _ _ E). }
  split; [rewrite Hn, decide_True by done; lia|]. intros Hf. destruct (fair_run_keeps d 1 acts m1 o) as (m2 & E2 & Hc2 & Hh2 & Ho2); [done| |lia|by rewrite Hob|done|].
  { rewrite Hn, decide_True by done. lia. }
  destruct (slice_in_bounds off sz (payload o) Hb) as [p Hp].
  destruct (unref_spec d m2 Hc2 Hh2) as (m3 & E3 & Hc3 & _ & Hob3).
  exists m2, p, m3. split_and!; [done| | |done|done|].
  - unfold read_iovec. simpl. rewrite (st_bind_Ok (as_raw d) _ m2 o m2) by (unfold as_raw; by rewrite Ho2).
    rewrite uwrap_small, Nat2Z.id, Hp by done. done.
  - unfold raw_to_ser. by rewrite Hp.
  - rewrite Hob3. destruct (decide _) as [H1|H1]; [by rewrite lookup_delete_eq|]. by rewrite Ho2.
Qed.
End lent.

(* ------------------------------------------------------------------ *)
(** * Counts kept in a map *)

Module MapRefc.
#[export] Instance map_refc : DdsiRefc (gmap nat nat) := {
  serdata_ref d c := <[d := S (default 0 (c !! d))]> c;
  serdata_unref d c := (bool_decide (default 0 (c !! d) = 1), <[d := pred (default 0 (c !! d))]> c)
}.

#[export] Program Instance map_refc_laws : DdsiRefcLaws (gmap nat nat) := {
  count c d := default 0 (c !! d)
}.
Next Obligation.
  intros d c e. simpl. destruct (decide (e = d)) as [->|]; [rewrite lookup_insert_eq; simpl; lia|].
  by rewrite lookup_insert_ne, Nat.add_0_r by done.
Qed.
Next Obligation.
  intros d c Hp. simpl. split; [done|]. intros e.
  destruct (decide (e = d)) as [->|]; [rewrite lookup_insert_eq; simpl; lia|].
  by rewrite lookup_insert_ne, Nat.sub_0_r by done.
Qed.
End MapRefc.
Export MapRefc.

Definition lent_mem : Mem (gmap nat nat) :=
  mk_mem {[7 := mk_serdata None (lit "abcdefgh")]} {[7 := 1]}.

(** The network thread lends the slice while the writer's history drops its own
    reference. *)
Lemma lent_slice_stays_valid_witness :
  exists v m1, raw_to_ser_ref 32 7 2 4 lent_mem = (Ok (7, v), m1) /\
    count (counts m1) 7 = S (count (counts lent_mem) 7) /\
    (fair_run 7 1 [Unref 7] m1 ->
     exists m2 p m3, st_iter run_act [Unref 7] m1 = (Ok tt, m2) /\
       read_iovec v m2 = (Ok p, m2) /\ raw_to_ser (mk_serdata None (lit "abcdefgh")) 2 4 = Ok p /\
       raw_to_ser_unref 7 m2 = (Ok tt, m3) /\ counted m3 /\
       (objects m3 !! 7 = None <-> count (counts m2) 7 = 1)).
Proof.
  apply (lent_slice_stays_valid 32 lent_mem 7 2 4 (mk_serdata None (lit "abcdefgh")) [Unref 7]).
  - intros e. simpl. destruct (decide (e = 7)) as [->|]; [rewrite !lookup_singleton_eq; simpl; split; [eauto|lia]|].
    rewrite !lookup_singleton_ne by done. simpl. split; [lia|by intros [? [=]]].
  - reflexivity.
  - simpl. lia.
  - unfold in_u. simpl. lia.
Defined.
