(* ===== verification/DdsConfig.v ===== *)
(** Process-wide DDS configuration: the environment variables, the [Context]
    singleton with its pre-init overrides, the CycloneDDS configuration
    fragments (src/src/rcllite/dds/entities.cpp, first half) and the [init_dds]
    entry point of the bindings (src/src/ffi/rcllite_ffi.cpp). *)
From stdpp Require Import base tactics list numbers sets.
From Stdlib Require Import ZArith Lia Strings.Byte.
From S2P Require Import Prelude Bytes.

(** The variables read with [getenv]; [None] is an unset variable. *)
Record environment := mk_env {
  ROS_DOMAIN_ID : option bytes;
  ROS_LOCALHOST_ONLY : option bytes;
  CYCLONEDDS_URI : option bytes
}.

(* ------------------------------------------------------------------ *)
(** * [strtol] in base 10 *)

Definition isspace (c : byte) : bool :=
  let z := Z_of_byte c in (z =? 32)%Z || ((9 <=? z)%Z && (z <=? 13)%Z).

Definition digit (c : byte) : option Z :=
  let z := Z_of_byte c in
  if (48 <=? z)%Z && (z <=? 57)%Z then Some (z - 48)%Z else None.

Fixpoint skip_space (s : bytes) : bytes :=
  match s with c :: r => if isspace c then skip_space r else s | [] => [] end.

Fixpoint digits (s : bytes) (acc : Z) : Z :=
  match s with
  | c :: r => match digit c with Some d => digits r (10 * acc + d) | None => acc end
  | [] => acc
  end.

(** The result is clamped to the range of [long]. *)
Definition strtol (s : bytes) : Z :=
  let clamp z := Z.max (- 2 ^ 63) (Z.min z (2 ^ 63 - 1)) in
  match skip_space s with
  | x2d :: r => clamp (- digits r 0)%Z
  | x2b :: r => clamp (digits r 0)
  | r => clamp (digits r 0)
  end.

Definition env_domain_id (env : environment) : Z :=
  match ROS_DOMAIN_ID env with
  | None => 0
  | Some s =>
      if bool_decide (s = []) then 0
      else
        let v := strtol s in
        if (v <? 0)%Z || (v >? 232)%Z then 0 else u32 v
  end.

Definition env_localhost_only (env : environment) : bool :=
  match ROS_LOCALHOST_ONLY env with
  | None => false
  | Some s => bool_decide (s = lit "1") || bool_decide (s = lit "true")
  end.

(* ------------------------------------------------------------------ *)
(** * The context *)

Record DdsConfigOverrides := mk_overrides {
  cfg_domain_id : option Z;
  cfg_config_xml : bytes
}.

Record Context := mk_context {
  domain_id_ : Z;
  localhost_only_ : bool;
  config_xml_ : bytes
}.

(** [g_ctx] and [g_cfg]. *)
Record ctx_globals := mk_globals {
  g_ctx : option Context;
  g_cfg : option DdsConfigOverrides
}.

Definition ctx_init : ctx_globals := mk_globals None None.

Definition Context_ctor (env : environment) (cfg : option DdsConfigOverrides) : Context :=
  let c := mk_context (env_domain_id env) (env_localhost_only env) [] in
  match cfg with
  | None => c
  | Some o =>
      mk_context (match cfg_domain_id o with Some d => d | None => domain_id_ c end)
        (localhost_only_ c) (cfg_config_xml o)
  end.

(** [Context::instance]: [std::call_once] builds the context on the first call. *)
Definition Context_instance (env : environment) (g : ctx_globals) : Context * ctx_globals :=
  match g_ctx g with
  | Some c => (c, g)
  | None => let c := Context_ctor env (g_cfg g) in (c, mk_globals (Some c) (g_cfg g))
  end.

Definition Context_configure (domain_id : option Z) (config_xml : bytes) (g : ctx_globals)
  : outcome ctx_globals :=
  match g_ctx g with
  | Some _ => Throw InvalidArguments
  | None => Ok (mk_globals None (Some (mk_overrides domain_id config_xml)))
  end.

(* ------------------------------------------------------------------ *)
(** * Configuration fragments *)

Definition quot : bytes := [x22].

Definition default_config_xml (env : environment) (localhost_only : bool) : bytes :=
  match CYCLONEDDS_URI env with
  | Some _ => []
  | None =>
      if negb localhost_only then []
      else
        lit "<CycloneDDS><Domain>" ++
        lit "<General><AllowMulticast>false</AllowMulticast></General>" ++
        lit "<Discovery>" ++
        lit "<ParticipantIndex>auto</ParticipantIndex>" ++
        lit "<MaxAutoParticipantIndex>32</MaxAutoParticipantIndex>" ++
        lit "<Peers><Peer address=" ++ quot ++ lit "localhost" ++ quot ++ lit "/></Peers>" ++
        lit "</Discovery></Domain></CycloneDDS>"
  end.

Definition own_listener (port : Z) (interface : bytes) : bytes :=
  (if bool_decide (interface = []) then lit "127.0.0.1" else interface) ++ lit ":" ++
  to_string port.

Definition tcp_config_xml (port : Z) (peers : list bytes) (interface : bytes) : bytes :=
  let xml :=
    lit "<CycloneDDS xmlns=" ++ quot ++ lit "https://cdds.io/config" ++ quot ++ lit "><Domain>" ++
    lit "<General><Transport>tcp</Transport><AllowMulticast>false</AllowMulticast>" in
  let xml :=
    if bool_decide (interface = []) then xml
    else xml ++ lit "<Interfaces><NetworkInterface address=" ++ quot ++ interface ++ quot ++
         lit "/></Interfaces>" in
  let xml :=
    xml ++ lit "</General>" ++ lit "<Discovery><ParticipantIndex>auto</ParticipantIndex><Peers>" in
  let xml :=
    foldl (fun xml peer => xml ++ lit "<Peer Address=" ++ quot ++ peer ++ quot ++ lit "/>") xml peers in
  let xml :=
    if bool_decide (peers = [])
    then xml ++ lit "<Peer Address=" ++ quot ++ own_listener port interface ++ quot ++ lit "/>"
    else xml in
  xml ++ lit "</Peers></Discovery>" ++ lit "<TCP><Port>" ++ to_string port ++
  lit "</Port><NoDelay>true</NoDelay>" ++
  lit "<AlwaysUsePeeraddrForUnicast>true</AlwaysUsePeeraddrForUnicast></TCP>" ++
  lit "</Domain></CycloneDDS>".

(** The configuration string of [Participant::Participant]; [None] is the null
    pointer passed when nothing is configured. *)
Definition participant_config (env : environment) (ctx : Context) : option bytes :=
  let cfg := default_config_xml env (localhost_only_ ctx) in
  let extra := config_xml_ ctx in
  let cfg :=
    if bool_decide (extra = []) then cfg
    else (if bool_decide (cfg = []) then cfg else cfg ++ lit ",") ++ extra in
  let cfg :=
    match CYCLONEDDS_URI env with
    | Some uri => (if bool_decide (cfg = []) then cfg else cfg ++ lit ",") ++ uri
    | None => cfg
    end in
  if bool_decide (cfg = []) then None else Some cfg.

Definition participant_user_data (enclave : bytes) : bytes := lit "enclave=" ++ enclave ++ lit ";".

(** [InitDds_]. *)
Definition InitDds_ (tcp_port : Z) (peers : list bytes) (domain_id : Z) (interface : bytes)
  (g : ctx_globals) : outcome ctx_globals :=
  if (tcp_port >? 65535)%Z then Throw ValueError
  else if (domain_id >? 232)%Z then Throw ValueError
  else
    let xml :=
      if (tcp_port >? 0)%Z then
        let own := lit "127.0.0.1:" ++ to_string tcp_port in
        let dial := filter (fun peer => peer <> own) peers in
        tcp_config_xml (uwrap 16 tcp_port) dial interface
      else [] in
    let domain := if (domain_id >=? 0)%Z then Some (u32 domain_id) else None in
    Context_configure domain xml g.

Example domain_from_env : env_domain_id (mk_env (Some (lit " +42x")) None None) = 42%Z.
Proof. reflexivity. Qed.
Example domain_out_of_range : env_domain_id (mk_env (Some (lit "233")) None None) = 0%Z.
Proof. reflexivity. Qed.
Example domain_negative : env_domain_id (mk_env (Some (lit "-1")) None None) = 0%Z.
Proof. reflexivity. Qed.

(* ------------------------------------------------------------------ *)
(** * Specification: fragments as documents *)

(** A document tree and its text: an element without children is written as an
    empty-element tag. *)
Inductive xml : Type :=
| Text (t : bytes)
| Elem (tag : bytes) (attrs : list (bytes * bytes)) (children : list xml).

Definition render_attr (a : bytes * bytes) : bytes :=
  lit " " ++ fst a ++ lit "=" ++ quot ++ snd a ++ quot.

Fixpoint render (x : xml) : bytes :=
  match x with
  | Text t => t
  | Elem tag attrs children =>
      lit "<" ++ tag ++ concat (map render_attr attrs) ++
      match children with
      | [] => lit "/>"
      | _ => lit ">" ++ concat (map render children) ++ lit "</" ++ tag ++ lit ">"
      end
  end.

Definition leaf (tag : bytes) (t : bytes) : xml := Elem tag [] [Text t].

(** The peers a configuration dials. *)
Definition dialed (port : Z) (peers : list bytes) (interface : bytes) : list bytes :=
  match peers with [] => [own_listener port interface] | _ => peers end.

Definition tcp_config (port : Z) (peers : list bytes) (interface : bytes) : xml :=
  Elem (lit "CycloneDDS") [(lit "xmlns", lit "https://cdds.io/config")]
    [Elem (lit "Domain") []
      [Elem (lit "General") []
         ([leaf (lit "Transport") (lit "tcp"); leaf (lit "AllowMulticast") (lit "false")] ++
          match interface with
          | [] => []
          | _ => [Elem (lit "Interfaces") []
                    [Elem (lit "NetworkInterface") [(lit "address", interface)] []]]
          end);
       Elem (lit "Discovery") []
         [leaf (lit "ParticipantIndex") (lit "auto");
          Elem (lit "Peers") []
            (map (fun p => Elem (lit "Peer") [(lit "Address", p)] []) (dialed port peers interface))];
       Elem (lit "TCP") []
         [leaf (lit "Port") (to_string port); leaf (lit "NoDelay") (lit "true");
          leaf (lit "AlwaysUsePeeraddrForUnicast") (lit "true")]]].

(** The fragments a participant passes, in order. *)
Definition fragments (env : environment) (ctx : Context) : list bytes :=
  (if localhost_only_ ctx && negb (bool_decide (is_Some (CYCLONEDDS_URI env)))
   then [default_config_xml env true] else []) ++
  (if bool_decide (config_xml_ ctx = []) then [] else [config_xml_ ctx]) ++
  option_list (CYCLONEDDS_URI env).

Fixpoint join (sep : bytes) (l : list bytes) : bytes :=
  match l with
  | [] => []
  | [x] => x
  | x :: r => x ++ sep ++ join sep r
  end.

(* ------------------------------------------------------------------ *)
(** * The fragments are the documents they are meant to be *)

Lemma concat_cons_map {A} (f : A -> bytes) x l : concat (map f (x :: l)) = f x ++ concat (map f l).
Proof. done. Qed.

Lemma if_app (b : bool) (x y : bytes) : (if b then x ++ y else x) = x ++ (if b then y else []).
Proof. destruct b; [done|by rewrite app_nil_r]. Qed.

Lemma tcp_config_text port peers interface :
  tcp_config_xml port peers interface = render (tcp_config port peers interface).
Proof.
  unfold tcp_config_xml, tcp_config.
  rewrite (foldl_app_acc _ (fun peer => lit "<Peer Address=" ++ quot ++ peer ++ quot ++ lit "/>"))
    by done.
  set (ps := map (fun p => Elem (lit "Peer") [(lit "Address", p)] []) (dialed port peers interface)).
  assert (Hps : concat (map (fun peer => lit "<Peer Address=" ++ quot ++ peer ++ quot ++ lit "/>") peers)
                ++ (if bool_decide (peers = []) then
                      lit "<Peer Address=" ++ quot ++ own_listener port interface ++ quot ++ lit "/>"
                    else []) = concat (map render ps)).
  { unfold ps, dialed. destruct peers as [|p peers]; [simpl; rewrite ?app_nil_r, <- ?app_assoc; reflexivity|].
    rewrite (bool_decide_false (p :: peers = [])) by congruence. rewrite app_nil_r, map_map. f_equal. apply map_ext.
    intros q. simpl; rewrite ?app_nil_r, <- ?app_assoc; reflexivity. }
  assert (Hr : render (Elem (lit "Peers") [] ps) =
               lit "<Peers>" ++ concat (map render ps) ++ lit "</Peers>").
  { unfold ps, dialed. by destruct peers. }
  rewrite <- Hps in Hr. generalize dependent (Elem (lit "Peers") [] ps). intros x Hr.
  rewrite if_app. clear ps Hps.
  generalize dependent (concat (map (fun peer => lit "<Peer Address=" ++ quot ++ peer ++ quot ++ lit "/>") peers)).
  intros dials Hr.
  destruct interface as [|c i]; [rewrite (bool_decide_true ([] = [])) by done|
    rewrite (bool_decide_false (c :: i = [])) by congruence];
    generalize dependent (own_listener port); intros own Hr;
    repeat (simpl; rewrite ?Hr, <- ?app_assoc, ?app_nil_r); reflexivity.
Qed.

(** The configuration handed to CycloneDDS is the comma-separated list of
    the localhost fragment (only when no CYCLONEDDS_URI is set), the fragment
    given to [configure] and the user's CYCLONEDDS_URI, in that order and
    nothing else, so that a set CYCLONEDDS_URI always comes last; with nothing
    configured the null pointer is passed. *)
Theorem participant_config_fragments (env : environment) (ctx : Context) :
  participant_config env ctx =
    (let s := join (lit ",") (fragments env ctx) in
     if bool_decide (s = []) then None else Some s) /\
  (forall uri, CYCLONEDDS_URI env = Some uri -> last (fragments env ctx) = Some uri).
Proof.
  unfold participant_config, fragments, default_config_xml. split.
  - destruct (CYCLONEDDS_URI env) as [uri|], (localhost_only_ ctx), (config_xml_ ctx) as [|c x];
      simpl; rewrite ?app_nil_r, <- ?app_assoc; simpl; try done.
  - intros uri ->. simpl. rewrite app_assoc. apply last_snoc.
Qed.

Lemma participant_config_fragments_witness :
  let env := mk_env None (Some (lit "1")) (Some (lit "file:///etc/dds.xml")) in
  let ctx := mk_context 0 true (lit "<X/>") in
  participant_config env ctx = Some (lit "<X/>,file:///etc/dds.xml") /\
  last (fragments env ctx) = Some (lit "file:///etc/dds.xml").
Proof.
  intros env ctx. destruct (participant_config_fragments env ctx) as [H1 H2].
  split; [exact H1|apply H2; reflexivity].
Defined.

Lemma env_domain_id_range env : (0 <= env_domain_id env <= 232)%Z.
Proof.
  unfold env_domain_id. destruct (ROS_DOMAIN_ID env) as [s|]; [|lia]. case_bool_decide; [lia|].
  rewrite Z.gtb_ltb. destruct (Z.ltb_spec (strtol s) 0), (Z.ltb_spec 232 (strtol s)); simpl; try lia.
  unfold u32. rewrite uwrap_small; [lia|]. unfold in_u. lia.
Qed.

(** C10: [init_dds] before any context takes effect exactly: the context built
    by the first [instance] has the requested domain (or the one of
    ROS_DOMAIN_ID, which is always in 0..232), its fragment is the text of the
    TCP configuration that dials the peers other than 127.0.0.1:port, or our own
    listener when none is left, and nothing later changes it: every further
    [instance] returns the same context and every further [init_dds] throws. *)
Theorem init_dds_effective (port domain : Z) (peers : list bytes) (interface : bytes)
    (env : environment) :
  (port <= 65535)%Z -> (domain <= 232)%Z ->
  exists g c g1,
    InitDds_ port peers domain interface ctx_init = Ok g /\
    Context_instance env g = (c, g1) /\
    domain_id_ c = (if (domain >=? 0)%Z then domain else env_domain_id env) /\
    (0 <= domain_id_ c <= 232)%Z /\
    config_xml_ c =
      (if (port >? 0)%Z
       then render (tcp_config port (filter (fun p => p <> lit "127.0.0.1:" ++ to_string port) peers)
                      interface)
       else []) /\
    (forall env', Context_instance env' g1 = (c, g1)) /\
    (forall port' peers' domain' interface',
       is_Ok (InitDds_ port' peers' domain' interface' g1) = false).
Proof.
  intros Hp Hd. unfold InitDds_. rewrite !Z.gtb_ltb.
  rewrite (proj2 (Z.ltb_ge 65535 port)), (proj2 (Z.ltb_ge 232 domain)) by lia.
  assert (Hcast : (0 < port)%Z -> uwrap 16 port = port).
  { intros. apply uwrap_small. unfold in_u. lia. }
  assert (Hdom : match (if (domain >=? 0)%Z then Some (u32 domain) else None) with
                 | Some d => d | None => env_domain_id env end =
                 if (domain >=? 0)%Z then domain else env_domain_id env).
  { rewrite Z.geb_leb. destruct (Z.leb_spec 0 domain); [|done].
    apply uwrap_small. unfold in_u. lia. }
  eexists _, _, _. split; [reflexivity|]. split; [reflexivity|].
  cbn [g_cfg g_ctx Context_ctor domain_id_ config_xml_ cfg_domain_id cfg_config_xml].
  rewrite Hdom. split_and!; try done.
  - rewrite Z.geb_leb. destruct (Z.leb_spec 0 domain); [lia|]. pose proof (env_domain_id_range env). lia.
  - rewrite Z.geb_leb. destruct (Z.leb_spec 0 domain); [lia|]. pose proof (env_domain_id_range env). lia.
  - destruct (Z.ltb_spec 0 port); [|done]. rewrite Hcast by done. apply tcp_config_text.
  - intros. unfold Context_configure. cbn [g_ctx]. by destruct (port' >? 65535)%Z, (domain' >? 232)%Z.
Qed.

Lemma init_dds_effective_witness :
  exists g c g1,
    InitDds_ 7412 [lit "127.0.0.1:7412"] 5 [] ctx_init = Ok g /\
    Context_instance (mk_env None None None) g = (c, g1) /\
    domain_id_ c = 5%Z /\ (0 <= domain_id_ c <= 232)%Z /\
    config_xml_ c = render (tcp_config 7412 (filter (fun p => p <> lit "127.0.0.1:" ++ to_string 7412) [lit "127.0.0.1:7412"]) []) /\
    (forall env', Context_instance env' g1 = (c, g1)) /\
    (forall port' peers' domain' interface',
       is_Ok (InitDds_ port' peers' domain' interface' g1) = false).
Proof.
  apply (init_dds_effective 7412 5 [lit "127.0.0.1:7412"] [] (mk_env None None None)); lia.
Defined.

(* ------------------------------------------------------------------ *)
(** * [configure] and [instance] on two threads *)

(** Where the thread inside [call_once] is: [new Context()] reads [g_cfg] under
    its lock, and [g_ctx] is assigned after the constructor returned. *)
Inductive once_pc : Type := Starting | Built (c : Context) | Published (c : Context).

(** [accepted] is the last override a [configure] that returned normally
    installed; [late] holds when one returned normally after the constructor had
    read [g_cfg]. *)
Record race_state := mk_race {
  globals : ctx_globals;
  pc : once_pc;
  accepted : option DdsConfigOverrides;
  late : bool
}.

Definition race_init : race_state := mk_race ctx_init Starting None false.

Inductive race_step (env : environment) : race_state -> race_state -> Prop :=
| race_build g a l :
    race_step env (mk_race g Starting a l) (mk_race g (Built (Context_ctor env (g_cfg g))) a l)
| race_publish g c a l :
    race_step env (mk_race g (Built c) a l) (mk_race (mk_globals (Some c) (g_cfg g)) (Published c) a l)
| race_configure g g' p a l d x :
    Context_configure d x g = Ok g' ->
    race_step env (mk_race g p a l)
      (mk_race g' p (Some (mk_overrides d x)) (match p with Built _ => true | _ => l end))
| race_configure_throws g p a l d x e :
    Context_configure d x g = Throw e -> race_step env (mk_race g p a l) (mk_race g p a l).

Definition race_inv (env : environment) (s : race_state) : Prop :=
  match pc s with
  | Starting => g_ctx (globals s) = None /\ g_cfg (globals s) = accepted s
  | Built c => g_ctx (globals s) = None /\ (late s = false -> c = Context_ctor env (accepted s))
  | Published c => g_ctx (globals s) = Some c /\ (late s = false -> c = Context_ctor env (accepted s))
  end.

Lemma race_inv_step env s s' : race_step env s s' -> race_inv env s -> race_inv env s'.
Proof.
  destruct 1 as [g a l|g c a l|g g' p a l d x E|g p a l d x e E]; unfold race_inv; simpl; try done.
  - intros [? ->]. eauto.
  - intros [? ?]. eauto.
  - unfold Context_configure in E. destruct (g_ctx g) eqn:Eg; simplify_eq. simpl.
    destruct p as [|c|c]; naive_solver.
Qed.

(** C11: on two threads, a published context reflects the last accepted
    [configure], except when that call fell between the construction and the
    publication of the context: then it returned normally and its settings are
    lost without a trace (an execution that does so exists). *)
Theorem configure_race (env : environment) :
  (forall s c, star (race_step env) race_init s -> pc s = Published c -> late s = false ->
     c = Context_ctor env (accepted s)) /\
  (exists s c, star (race_step env) race_init s /\ pc s = Published c /\
     accepted s = Some (mk_overrides (Some 7%Z) (lit "x")) /\ config_xml_ c = []).
Proof.
  split.
  - intros s c Hs Hpc Hl.
    assert (Hi : race_inv env s) by (eapply star_invariant; [apply race_inv_step|done|done]).
    unfold race_inv in Hi. rewrite Hpc in Hi. naive_solver.
  - set (c := Context_ctor env None). set (o := Some (mk_overrides (Some 7%Z) (lit "x"))).
    exists (mk_race (mk_globals (Some c) o) (Published c) o true), c. split_and!; [|done..].
    eapply star_step; [apply race_build|].
    eapply star_step; [apply (race_configure _ ctx_init (mk_globals None o) (Built c) None false (Some 7%Z) (lit "x")); reflexivity|].
    eapply star_step; [apply race_publish|apply star_refl].
Qed.

Lemma configure_race_witness :
  (forall c, star (race_step (mk_env None None None)) race_init
     (mk_race (mk_globals (Some c) None) (Published c) None false) -> c = mk_context 0 false []) /\
  (exists s c, star (race_step (mk_env None None None)) race_init s /\ pc s = Published c /\
     accepted s = Some (mk_overrides (Some 7%Z) (lit "x")) /\ config_xml_ c = []).
Proof.
  destruct (configure_race (mk_env None None None)) as [H1 H2]. split; [|exact H2].
  intros c Hs. exact (H1 _ c Hs eq_refl eq_refl).
Defined.
