(* ===== verification/Dds.v ===== *)
(** The DDS entity wrappers of src/src/rcllite/dds/entities.hpp and entities.cpp.

    CycloneDDS is the environment: what rcllite calls of it is the operations of
    the classes [DdsFactory], [DdsReader] and [DdsWriter], and what rcllite
    relies on is their laws.  MockDds.v gives the instances that the repository's
    own test double (src/tests/mock/mock_ddsc.cc) implements. *)
From stdpp Require Import base tactics list numbers sets.
From Stdlib Require Import ZArith Lia Strings.Byte.
From S2P Require Import Prelude Bytes Qos RawSerdata DdsConfig.

Record dds_sample_info := mk_info { valid_data : bool }.

Definition sample : Type := RawSerdata * dds_sample_info.

(** [dds_takecdr(rd, buf, maxs, infos, DDS_ANY_STATE)]: the return value and the
    serdatas stored in [buf]. *)
Class DdsReader (R : Type) := { dds_takecdr : Z -> R -> Z * list sample * R }.

Class DdsReaderLaws (R : Type) `{DdsReader R} := {
  reader_ok : R -> Prop;
  pending : R -> list sample;
  takecdr_spec maxs r :
    (0 < maxs)%Z -> reader_ok r ->
    exists r', dds_takecdr maxs r =
        (Z.of_nat (length (take (Z.to_nat maxs) (pending r))), take (Z.to_nat maxs) (pending r), r') /\
      reader_ok r' /\ pending r' = drop (Z.to_nat maxs) (pending r)
}.

(** [dds_writecdr] consumes the serdata and returns a code;
    [dds_get_publication_matched_status] returns a code and a [current_count]. *)
Class DdsWriter (W : Type) := {
  dds_writecdr : RawSerdata -> W -> Z * W;
  publication_matched : W -> Z * Z
}.

Class DdsWriterLaws (W : Type) `{DdsWriter W} := {
  written : W -> list RawSerdata;
  writecdr_spec d w rc w' :
    dds_writecdr d w = (rc, w') ->
    written w' = if (rc =? 0)%Z then written w ++ [d] else written w
}.

(** Entity creation and deletion: a handle, or a negative return code. *)
Inductive dds_kind : Type :=
| KDomain | KParticipant | KPublisher | KSubscriber | KTopic (name : bytes)
| KWriter | KReader | KReadCondition | KGuardCondition | KWaitset.

Class DdsFactory (F : Type) := {
  dds_create : dds_kind -> stM F Z;
  dds_delete : Z -> stM F unit
}.

Class DdsFactoryLaws (F : Type) `{DdsFactory F} := {
  live : F -> list Z;
  create_spec k f : exists h f',
    dds_create k f = (Ok h, f') /\ live f' = if (0 <=? h)%Z then h :: live f else live f;
  delete_spec h f : exists f', dds_delete h f = (Ok tt, f') /\ h ∉ live f' /\ live f' ⊆ live f
}.

(* ------------------------------------------------------------------ *)
(** * Writer and Reader: data path *)

Section writer.
Context {W : Type} `{DdsWriter W} (iov_len_bits : Z) (sertype_ : ddsi_sertype).

(** [Writer::write]; [DDS_RETCODE_OK] is 0. *)
Definition Writer_write (payload : bytes) : stM W bool :=
  let* d := st_lift (raw_serdata_from_blob iov_len_bits sertype_ payload) in
  match d with
  | None => mret false
  | Some d => let* rc := st_run (dds_writecdr d) in mret (rc =? 0)%Z
  end.

Definition Writer_reader_count (w : W) : Z :=
  let (rc, current_count) := publication_matched w in
  if (rc <? 0)%Z then 0 else current_count.
End writer.

(** [Reader::writer_count] on what [dds_get_subscription_matched_status] gave. *)
Definition Reader_writer_count (rc current_count : Z) : Z := if (rc <? 0)%Z then 0 else current_count.

(** The reader, the state of the code that handles samples, and the number of
    serdata references given back with [ddsi_serdata_unref]. *)
Record taking (R U : Type) := mk_taking { rd_ : R; user : U; unrefs : nat }.
Arguments mk_taking {R U} _ _ _.
Arguments rd_ {R U} _.
Arguments user {R U} _.
Arguments unrefs {R U} _.

Section reader.
Context {R U : Type} `{DdsReader R} (fn : bytes -> dds_sample_info -> stM U unit).

Definition st_user {A} (m : stM U A) : stM (taking R U) A := fun w =>
  let (o, s) := m (user w) in (o, mk_taking (rd_ w) s (unrefs w)).

Definition serdata_unref : stM (taking R U) unit :=
  st_modify (fun w => mk_taking (rd_ w) (user w) (1 + unrefs w)).

(** What one sample means to the user code. *)
Definition deliver (x : sample) : stM U unit :=
  if valid_data (snd x) then fn (raw_serdata_payload (fst x)) (snd x) else mret tt.

(** The inner loop over one batch. *)
Definition take_one (x : sample) : stM (taking R U) unit :=
  let* _ := st_user (deliver x) in serdata_unref.

Definition take_batch : list sample -> stM (taking R U) unit := st_iter take_one.

Definition takecdr (w : taking R U) : (Z * list sample) * taking R U :=
  let '(n, batch, r) := dds_takecdr 16 (rd_ w) in (n, batch, mk_taking r (user w) (unrefs w)).

(** [Reader::take]; [None] when the fuel is used up. *)
Fixpoint Reader_take (fuel : nat) (taken_total : Z) : stM (taking R U) (option Z) :=
  match fuel with
  | O => mret None
  | S fuel =>
      let* t := st_run takecdr in
      let (n, batch) := t : Z * list sample in
      if (n <? 0)%Z then st_throw InternalError
      else
        let* _ := take_batch batch in
        let taken_total := (taken_total + n)%Z in
        if (n <? 16)%Z then mret (Some taken_total) else Reader_take fuel taken_total
  end.
End reader.

(* ------------------------------------------------------------------ *)
(** * Entity lifetime *)

Record Participant := mk_participant { pp_ : Z; pub_ : Z; sub_ : Z }.

Section entities.
Context {F : Type} `{DdsFactory F}.

(** [DDS_RETCODE_PRECONDITION_NOT_MET]: the domain exists already. *)
Definition DDS_RETCODE_PRECONDITION_NOT_MET : Z := -4.

(** [qos_created] is whether [dds_create_qos] returned an object. *)
Definition Participant_ctor (qos_created : bool) : stM F Participant :=
  let* dom := dds_create KDomain in
  if (dom <? 0)%Z && negb (dom =? DDS_RETCODE_PRECONDITION_NOT_MET)%Z then st_throw InternalError
  else
    let* _ := st_lift (base_dds_qos qos_created) in
    let* pp := dds_create KParticipant in
    if (pp <? 0)%Z then st_throw InternalError
    else
      let* pub := dds_create KPublisher in
      let* sub := dds_create KSubscriber in
      if (pub <? 0)%Z || (sub <? 0)%Z then st_throw InternalError
      else mret (mk_participant pp pub sub).

Definition Participant_dtor (p : Participant) : stM F unit :=
  if (0 <=? pp_ p)%Z then dds_delete (pp_ p) else mret tt.

(** [sertype] is what [create_raw_sertype] returned. *)
Definition Writer_ctor (sertype : option ddsi_sertype) (qos_created : bool) (topic : bytes) (qos : QoS)
  : stM F Z :=
  match sertype with
  | None => st_throw InternalError
  | Some _ =>
      let* q := st_lift (make_dds_qos qos_created qos) in
      let* tp := dds_create (KTopic topic) in
      if (tp <? 0)%Z then st_throw InternalError
      else
        let* wr := dds_create KWriter in
        if (wr <? 0)%Z then st_throw InternalError else mret wr
  end.

Definition Writer_dtor (wr : Z) : stM F unit :=
  if (0 <=? wr)%Z then dds_delete wr else mret tt.

(** The reader and its read condition. *)
Definition Reader_ctor (sertype : option ddsi_sertype) (qos_created : bool) (topic : bytes) (qos : QoS)
  : stM F (Z * Z) :=
  match sertype with
  | None => st_throw InternalError
  | Some _ =>
      let* q := st_lift (make_dds_qos qos_created qos) in
      let* tp := dds_create (KTopic topic) in
      if (tp <? 0)%Z then st_throw InternalError
      else
        let* rd := dds_create KReader in
        if (rd <? 0)%Z then st_throw InternalError
        else
          let* rc := dds_create KReadCondition in
          if (rc <? 0)%Z then st_throw InternalError else mret (rd, rc)
  end.

Definition Reader_dtor (r : Z * Z) : stM F unit :=
  let* _ := (if (0 <=? snd r)%Z then dds_delete (snd r) else mret tt) in
  if (0 <=? fst r)%Z then dds_delete (fst r) else mret tt.

Definition GuardCondition_ctor : stM F Z :=
  let* g := dds_create KGuardCondition in
  if (g <? 0)%Z then st_throw InternalError else mret g.

Definition GuardCondition_dtor (g : Z) : stM F unit :=
  if (0 <=? g)%Z then dds_delete g else mret tt.
End entities.

(* ------------------------------------------------------------------ *)
(** * Reader::take drains the reader *)

Lemma div16_S n : 16 <= n -> n / 16 = S ((n - 16) / 16).
Proof.
  intros. replace n with (n - 16 + 1 * 16) at 1 by lia. rewrite Nat.div_add; lia.
Qed.

Section take_facts.
Context {R U : Type} `{DdsReaderLaws R} (fn : bytes -> dds_sample_info -> stM U unit).
Implicit Types w : taking R U.

Lemma take_one_eq x (r : R) s n o s' :
  deliver fn x s = (o, s') ->
  take_one fn x (mk_taking r s n) =
  (o, mk_taking r s' (match o with Ok _ => 1 + n | _ => n end)).
Proof.
  intros E. unfold take_one, mbind, stM_bind, st_user. simpl. rewrite E. by destruct o as [[]| |].
Qed.

Lemma take_batch_ok l : forall (r : R) s n s',
  st_iter (deliver fn) l s = (Ok tt, s') ->
  take_batch fn l (mk_taking r s n) = (Ok tt, mk_taking r s' (n + length l)).
Proof.
  induction l as [|x l IH]; intros r s n s' E; simpl in *.
  - injection E as ->. by rewrite Nat.add_0_r.
  - unfold mbind, stM_bind in E. destruct (deliver fn x s) as [[[]|e|] s1] eqn:Ex; try done.
    unfold take_batch in *. simpl. pose proof (take_one_eq x r s n _ _ Ex) as H1.
    rewrite (st_bind_Ok _ _ _ _ _ H1), (IH _ _ _ _ E). do 2 f_equal. lia.
Qed.

Lemma take_batch_throws l1 x l2 : forall (r : R) s n s1 s2 e,
  st_iter (deliver fn) l1 s = (Ok tt, s1) -> deliver fn x s1 = (Throw e, s2) ->
  take_batch fn (l1 ++ x :: l2) (mk_taking r s n) = (Throw e, mk_taking r s2 (n + length l1)).
Proof.
  intros r s n s1 s2 e E Ex. unfold take_batch.
  rewrite (st_iter_app _ _ _ _ _ (take_batch_ok l1 r s n s1 E)). simpl.
  pose proof (take_one_eq x r s1 (n + length l1) _ _ Ex) as H1.
  by rewrite (st_bind_Throw _ _ _ _ _ H1).
Qed.

(** One call of [dds_takecdr] on a healthy reader. *)
Lemma takecdr_batch w :
  reader_ok (rd_ w) ->
  exists r', takecdr w = ((Z.of_nat (length (take 16 (pending (rd_ w)))), take 16 (pending (rd_ w))),
                          mk_taking r' (user w) (unrefs w)) /\
    reader_ok r' /\ pending r' = drop 16 (pending (rd_ w)).
Proof.
  intros Hr. destruct (takecdr_spec 16 (rd_ w) ltac:(lia) Hr) as (r' & E & Hr' & Hp).
  exists r'. split_and!; [|done|done]. unfold takecdr. by rewrite E.
Qed.

Lemma Reader_take_unfold fuel total w :
  Reader_take fn (S fuel) total w =
  (let '((n, batch), w1) := takecdr w in
   (if (n <? 0)%Z then st_throw InternalError
    else
      let* _ := take_batch fn batch in
      if (n <? 16)%Z then mret (Some (total + n)%Z) else Reader_take fn fuel (total + n)
    : stM (taking R U) (option Z)) w1).
Proof.
  simpl. unfold mbind at 1, stM_bind at 1, st_run. by destruct (takecdr w) as [[n batch] w1].
Qed.

Lemma Reader_take_all fuel : forall total w s',
  reader_ok (rd_ w) -> length (pending (rd_ w)) / 16 < fuel ->
  st_iter (deliver fn) (pending (rd_ w)) (user w) = (Ok tt, s') ->
  exists r', Reader_take fn fuel total w =
      (Ok (Some (total + Z.of_nat (length (pending (rd_ w))))%Z),
       mk_taking r' s' (unrefs w + length (pending (rd_ w)))) /\
    pending r' = [] /\ reader_ok r'.
Proof.
  induction fuel as [|fuel IH]; intros total w s' Hr Hf E; [lia|].
  destruct (takecdr_batch w Hr) as (r1 & Et & Hr1 & Hp1). rewrite Reader_take_unfold, Et.
  set (q := pending (rd_ w)) in *. rewrite (proj2 (Z.ltb_ge _ 0)) by lia.
  rewrite <- (take_drop 16 q) in E.
  destruct (st_iter (deliver fn) (take 16 q) (user w)) as [o s1] eqn:E1.
  assert (o = Ok tt) as ->.
  { by eapply st_iter_prefix_Ok. }
  rewrite (st_iter_app _ _ _ _ _ E1) in E.
  rewrite (st_bind_Ok _ _ _ _ _ (take_batch_ok _ r1 _ (unrefs w) _ E1)).
  rewrite length_take. destruct (decide (length q < 16)) as [Hl|Hl].
  - rewrite (proj2 (Z.ltb_lt _ 16)) by lia. exists r1. rewrite Nat.min_r by lia.
    rewrite drop_ge in E, Hp1 by lia. injection E as ->. done.
  - rewrite (proj2 (Z.ltb_ge _ 16)) by lia. rewrite Nat.min_l by lia.
    destruct (IH (total + Z.of_nat 16)%Z (mk_taking r1 s1 (unrefs w + 16)) s') as (r2 & E2 & H2).
    + done.
    + simpl. rewrite Hp1, length_drop.
      pose proof (div16_S (length q) ltac:(lia)). lia.
    + simpl. by rewrite Hp1.
    + exists r2. split; [|done]. rewrite E2. simpl. rewrite Hp1, length_drop.
      f_equal; f_equal; [f_equal|]; lia.
Qed.

Lemma Reader_take_throwing fuel : forall total w l1 x l2 s1 s2 e,
  reader_ok (rd_ w) -> length l1 / 16 < fuel -> pending (rd_ w) = l1 ++ x :: l2 ->
  st_iter (deliver fn) l1 (user w) = (Ok tt, s1) -> deliver fn x s1 = (Throw e, s2) ->
  exists r', Reader_take fn fuel total w = (Throw e, mk_taking r' s2 (unrefs w + length l1)) /\
    pending r' = drop (16 * S (length l1 / 16)) (pending (rd_ w)).
Proof.
  induction fuel as [|fuel IH]; intros total w l1 x l2 s1 s2 e Hr Hf Hq E Ex; [lia|].
  destruct (takecdr_batch w Hr) as (r1 & Et & Hr1 & Hp1). rewrite Reader_take_unfold, Et.
  rewrite (proj2 (Z.ltb_ge _ 0)) by lia. rewrite Hq in *.
  destruct (decide (length l1 < 16)) as [Hl|Hl].
  - rewrite Nat.div_small by done. exists r1. split; [|by rewrite Hp1].
    rewrite take_app_ge by lia. destruct (16 - length l1) as [|k] eqn:Ek; [lia|]. simpl (take _ (x :: _)).
    by rewrite (st_bind_Throw _ _ _ _ _
      (take_batch_throws l1 x (take k l2) r1 (user w) (unrefs w) s1 s2 e E Ex)).
  - rewrite take_app_le by lia. rewrite <- (take_drop 16 l1) in E.
    destruct (st_iter (deliver fn) (take 16 l1) (user w)) as [o s0] eqn:E1.
    assert (o = Ok tt) as ->.
    { by eapply st_iter_prefix_Ok. }
    rewrite (st_iter_app _ _ _ _ _ E1) in E.
    rewrite (st_bind_Ok _ _ _ _ _ (take_batch_ok _ r1 _ (unrefs w) _ E1)).
    rewrite length_take, Nat.min_l by lia. rewrite (proj2 (Z.ltb_ge _ 16)) by lia.
    rewrite drop_app_le in Hp1 by lia.
    assert (Hdiv : length l1 / 16 = S (length (drop 16 l1) / 16)).
    { rewrite length_drop. apply div16_S. lia. }
    destruct (IH (total + Z.of_nat 16)%Z (mk_taking r1 s0 (unrefs w + 16)) (drop 16 l1) x l2 s1 s2 e)
      as (r2 & E2 & H2); [done|lia|done|done|done|].
    exists r2. split.
    + rewrite E2. simpl. rewrite length_drop. do 2 f_equal. lia.
    + rewrite H2. simpl rd_. rewrite Hp1, Hdiv.
      rewrite <- (drop_app_le l1 (x :: l2) 16), drop_drop by lia. f_equal. lia.
Qed.
End take_facts.

(** C12: [Reader::take] on a healthy reader whose handler does not throw hands
    every valid sample to the handler, in the order of the queue and exactly
    once, gives every serdata reference back, empties the reader and returns the
    number of samples; the batches of 16 are invisible. *)
Theorem take_drains {R U} `{DdsReaderLaws R} (fn : bytes -> dds_sample_info -> stM U unit)
    (fuel : nat) (w : taking R U) (s' : U) :
  reader_ok (rd_ w) -> length (pending (rd_ w)) / 16 < fuel ->
  st_iter (deliver fn) (pending (rd_ w)) (user w) = (Ok tt, s') ->
  exists r', Reader_take fn fuel 0 w =
      (Ok (Some (Z.of_nat (length (pending (rd_ w))))),
       mk_taking r' s' (unrefs w + length (pending (rd_ w)))) /\
    pending r' = [] /\ reader_ok r'.
Proof. apply (Reader_take_all fn fuel 0 w s'). Qed.

(** When the handler throws on a sample, the exception leaves [take]; the
    reference of that sample and of every later sample of the same batch is
    never given back, and those later samples are gone from the reader without
    having been handled. *)
Theorem take_throw_loses_batch {R U} `{DdsReaderLaws R}
    (fn : bytes -> dds_sample_info -> stM U unit) (fuel : nat) (w : taking R U)
    (l1 l2 : list sample) (x : sample) (s1 s2 : U) (e : exn) :
  reader_ok (rd_ w) -> length l1 / 16 < fuel -> pending (rd_ w) = l1 ++ x :: l2 ->
  st_iter (deliver fn) l1 (user w) = (Ok tt, s1) -> deliver fn x s1 = (Throw e, s2) ->
  exists r' lost, Reader_take fn fuel 0 w = (Throw e, mk_taking r' s2 (unrefs w + length l1)) /\
    l2 = lost ++ pending r' /\ length l1 `mod` 16 + length lost <= 15 /\
    (16 <= length l1 `mod` 16 + 1 + length l2 -> length l1 `mod` 16 + length lost = 15).
Proof.
  intros Hr Hf Hq E Ex.
  destruct (Reader_take_throwing fn fuel 0 w l1 x l2 s1 s2 e Hr Hf Hq E Ex) as (r' & E2 & Hp).
  exists r', (take (15 - length l1 `mod` 16) l2). split; [done|].
  pose proof (Nat.div_mod_eq (length l1) 16). pose proof (Nat.mod_upper_bound (length l1) 16 ltac:(lia)).
  rewrite Hp, Hq, drop_app_ge by lia.
  replace (16 * S (length l1 / 16) - length l1) with (S (15 - length l1 `mod` 16)) by lia.
  simpl drop. rewrite take_drop, length_take. split_and!; [done|lia|lia].
Qed.

(* ------------------------------------------------------------------ *)
(** * Entities of a constructor that fails *)

Ltac step_create h f :=
  match goal with
  | |- context [mbind ?g (dds_create ?k) ?f0] =>
      let E := fresh "E" in let L := fresh "L" in
      destruct (create_spec k f0) as (h & f & E & L);
      rewrite (st_bind_Ok (dds_create k) g f0 h f E)
  end.

Lemma participant_ctor_spec {F} `{DdsFactoryLaws F} (qos_created : bool) (f : F) :
  match Participant_ctor qos_created f with
  | (Ok p, f') =>
      (0 <= pp_ p)%Z /\ pp_ p ∈ live f' /\ pub_ p ∈ live f' /\ sub_ p ∈ live f' /\ live f ⊆ live f' /\
      exists f'', Participant_dtor p f' = (Ok tt, f'') /\ pp_ p ∉ live f''
  | (Throw e, f') => e = InternalError /\ live f ⊆ live f'
  | (Undefined, _) => False
  end.
Proof.
  unfold Participant_ctor. step_create dm f1.
  destruct ((dm <? 0)%Z && _); simpl.
  { split; [done|]. rewrite L. case_match; set_solver. }
  destruct qos_created; simpl; [|split; [done|]; rewrite L; case_match; set_solver].
  unfold st_lift. rewrite (st_bind_Ok _ _ _ tt f1) by done.
  step_create pp f2. destruct (Z.ltb_spec pp 0).
  { split; [done|]. rewrite L0, L. repeat case_match; set_solver. }
  step_create pub f3. step_create sub f4. rewrite (Zle_imp_le_bool 0 pp) in L0 by done.
  destruct (Z.ltb_spec pub 0), (Z.ltb_spec sub 0); simpl;
    [split; [done|]; rewrite L2, L1, L0, L; repeat case_match; set_solver..|].
  rewrite (Zle_imp_le_bool 0 pub) in L1 by done. rewrite (Zle_imp_le_bool 0 sub) in L2 by done.
  rewrite L2, L1, L0. split_and!; [done|set_solver..| |].
  - rewrite L. case_match; set_solver.
  - unfold Participant_dtor. simpl. rewrite (Zle_imp_le_bool 0 pp) by done.
    destruct (delete_spec pp f4) as (f5 & ? & ? & _). eauto.
Qed.

(** A constructed participant owns a participant, a publisher and a
    subscriber that are alive, and its destructor deletes the participant; when
    its publisher or subscriber cannot be created the constructor throws, and
    since the destructor of an object whose constructor threw never runs, the
    participant stays alive. *)
Theorem participant_lifetime {F} `{DdsFactoryLaws F} (qos_created : bool) (f : F) :
  match Participant_ctor qos_created f with
  | (Ok p, f') =>
      (0 <= pp_ p)%Z /\ pp_ p ∈ live f' /\ pub_ p ∈ live f' /\ sub_ p ∈ live f' /\
      exists f'', Participant_dtor p f' = (Ok tt, f'') /\ pp_ p ∉ live f''
  | (Throw e, f') =>
      e = InternalError /\
      forall h, h ∈ live f -> h ∈ live f'
  | (Undefined, _) => False
  end /\
  (forall dm f1 pp f2 pub f3 sub f4,
     dds_create KDomain f = (Ok dm, f1) -> (0 <= dm)%Z ->
     dds_create KParticipant f1 = (Ok pp, f2) -> (0 <= pp)%Z ->
     dds_create KPublisher f2 = (Ok pub, f3) -> dds_create KSubscriber f3 = (Ok sub, f4) ->
     (pub < 0 \/ sub < 0)%Z ->
     Participant_ctor true f = (Throw InternalError, f4) /\ pp ∈ live f4).
Proof.
  split.
  - pose proof (participant_ctor_spec qos_created f) as Hp.
    destruct (Participant_ctor qos_created f) as [[p|e|] f']; [|by destruct Hp as [-> Hl]; eauto|done].
    destruct Hp as (? & ? & ? & ? & _ & ?). done.
  - intros dm f1 pp f2 pub f3 sub f4 E1 Hd E2 Hp E3 E4 Hs.
    assert (pp ∈ live f4).
    { pose proof (create_spec KParticipant f1) as (h & f' & E & L). rewrite E2 in E. simplify_eq.
      pose proof (create_spec KPublisher f') as (h' & f'' & E & L'). rewrite E3 in E. simplify_eq.
      pose proof (create_spec KSubscriber f'') as (h'' & f''' & E & L''). rewrite E4 in E. simplify_eq.
      rewrite L'', L', L, (Zle_imp_le_bool 0 h) by done. repeat case_match; set_solver. }
    split; [|done]. unfold Participant_ctor. rewrite (st_bind_Ok _ _ _ _ _ E1).
    rewrite (proj2 (Z.ltb_ge dm 0)) by done. simpl. unfold st_lift.
    rewrite (st_bind_Ok _ _ _ tt f1), (st_bind_Ok _ _ _ _ _ E2) by done.
    rewrite (proj2 (Z.ltb_ge pp 0)) by done.
    rewrite (st_bind_Ok _ _ _ _ _ E3), (st_bind_Ok _ _ _ _ _ E4).
    destruct Hs; [rewrite (proj2 (Z.ltb_lt pub 0)) by done|rewrite (proj2 (Z.ltb_lt sub 0)), orb_true_r by done];
      done.
Qed.
