(* ===== verification/MockDds.v ===== *)
(** The test double of CycloneDDS in src/tests/mock/mock_ddsc.cc, as instances of
    the classes of Dds.v: the proof that the laws the development relies on have
    an implementation, and the concrete systems the witnesses run. *)
From stdpp Require Import base tactics list numbers sets.
From Stdlib Require Import ZArith Lia Strings.Byte.
From S2P Require Import Prelude Bytes Qos RawSerdata DdsConfig Dds.

(** [ReaderState]: [known] is whether the handle is in [readers]. *)
Record ReaderState := mk_reader_state {
  known : bool;
  queue : list bytes;
  sertype : ddsi_sertype
}.

Definition DDS_RETCODE_BAD_PARAMETER : Z := -3.

Definition mock_sample (t : ddsi_sertype) (p : bytes) : sample :=
  (mk_serdata (Some t) p, mk_info true).

Definition mock_takecdr (maxs : Z) (r : ReaderState) : Z * list sample * ReaderState :=
  if negb (known r) then (DDS_RETCODE_BAD_PARAMETER, [], r)
  else
    let n := if (Z.of_nat (length (queue r)) <? maxs)%Z then length (queue r) else Z.to_nat maxs in
    let drained := take n (queue r) in
    (Z.of_nat (length drained), map (mock_sample (sertype r)) drained,
     mk_reader_state true (drop n (queue r)) (sertype r)).

#[export] Instance mock_reader : DdsReader ReaderState := {| dds_takecdr := mock_takecdr |}.

#[export] Instance mock_reader_laws : DdsReaderLaws ReaderState.
Proof.
  refine {| reader_ok r := known r = true;
            pending r := map (mock_sample (sertype r)) (queue r) |}.
  intros maxs [k q t] Hm Hk. simpl in *. subst k. unfold mock_takecdr. simpl.
  destruct (Z.ltb_spec (Z.of_nat (length q)) maxs).
  - eexists. rewrite firstn_map, length_map, !firstn_all2 by lia. split_and!; [done|done|].
    simpl. by rewrite skipn_map, !drop_ge by lia.
  - eexists. rewrite firstn_map, length_map. split_and!; [done|done|].
    simpl. by rewrite skipn_map.
Defined.

(** [WriterState] with the global [write_result]. *)
Record WriterState := mk_writer_state {
  mock_written : list RawSerdata;
  matched : Z;
  write_result : Z
}.

Definition mock_writecdr (d : RawSerdata) (w : WriterState) : Z * WriterState :=
  if (write_result w =? 0)%Z
  then (write_result w, mk_writer_state (mock_written w ++ [d]) (matched w) (write_result w))
  else (write_result w, w).

#[export] Instance mock_writer : DdsWriter WriterState := {|
  dds_writecdr := mock_writecdr;
  publication_matched w := (0%Z, matched w)
|}.

#[export] Instance mock_writer_laws : DdsWriterLaws WriterState.
Proof.
  refine {| written := mock_written |}. intros d w rc w'. simpl. unfold mock_writecdr.
  destruct (write_result w =? 0)%Z eqn:E; intros [= <- <-]; by rewrite E.
Defined.

(** [alloc_handle], with the results of the next calls given in advance so that
    failures can be scripted: a non-negative entry allocates a handle, a negative
    one is returned as an error; with an empty script every call succeeds. *)
Record Factory := mk_factory { next_handle : Z; alive : list Z; script : list Z }.

Definition mock_create (k : dds_kind) : stM Factory Z := fun f =>
  match script f with
  | c :: s =>
      if (0 <=? c)%Z
      then (Ok (Z.max 0 (next_handle f)),
            mk_factory (next_handle f + 1) (Z.max 0 (next_handle f) :: alive f) s)
      else (Ok c, mk_factory (next_handle f) (alive f) s)
  | [] =>
      (Ok (Z.max 0 (next_handle f)),
       mk_factory (next_handle f + 1) (Z.max 0 (next_handle f) :: alive f) [])
  end.

Definition mock_delete (h : Z) : stM Factory unit := fun f =>
  (Ok tt, mk_factory (next_handle f) (filter (fun x => x <> h) (alive f)) (script f)).

#[export] Instance mock_factory : DdsFactory Factory := {|
  dds_create := mock_create; dds_delete := mock_delete |}.

#[export] Instance mock_factory_laws : DdsFactoryLaws Factory.
Proof.
  refine {| live := alive |}.
  - intros k [n a s]. simpl. unfold mock_create. simpl.
    destruct s as [|c s]; [|destruct (Z.leb_spec 0 c)]; eexists _, _; (split; [done|]); simpl.
    + by rewrite (Zle_imp_le_bool 0 (Z.max 0 n)) by lia.
    + by rewrite (Zle_imp_le_bool 0 (Z.max 0 n)) by lia.
    + by rewrite (proj2 (Z.leb_gt 0 c)) by lia.
  - intros h f. eexists. split; [done|]. simpl. split; [by intros [? _]%list_elem_of_filter|].
    intros x [_ ?]%list_elem_of_filter. done.
Defined.

(* ------------------------------------------------------------------ *)
(** * The theorems of Dds.v at concrete inputs *)

Definition mock_queue : ReaderState := mk_reader_state true (map (fun n => [byte_of_Z (Z.of_nat n)]) (seq 0 20)) (mk_sertype (lit "T")).

(** Appends every payload to a log. *)
Definition logger (payload : bytes) (_ : dds_sample_info) : stM (list bytes) unit :=
  st_modify (fun l => l ++ [payload]).

(** Throws on the payload 2. *)
Definition choking (payload : bytes) (i : dds_sample_info) : stM (list bytes) unit :=
  if bool_decide (payload = [x02]) then st_throw InvalidArguments else logger payload i.

Lemma take_drains_witness :
  exists r', Reader_take logger 2 0 (mk_taking mock_queue [] 0) =
      (Ok (Some 20%Z), mk_taking r' (map (fun n => [byte_of_Z (Z.of_nat n)]) (seq 0 20)) 20) /\
    pending r' = [] /\ reader_ok r'.
Proof.
  destruct (take_drains logger 2 (mk_taking mock_queue [] 0)
              (map (fun n => [byte_of_Z (Z.of_nat n)]) (seq 0 20)))
    as (r' & E & H); [reflexivity|vm_compute; lia|vm_compute; reflexivity|].
  exists r'. split; [exact E|exact H].
Defined.

Lemma take_throw_loses_batch_witness :
  exists r' lost, Reader_take choking 2 0 (mk_taking mock_queue [] 0) =
      (Throw InvalidArguments, mk_taking r' [[x00]; [x01]] 2) /\
    map (mock_sample (mk_sertype (lit "T"))) (map (fun n => [byte_of_Z (Z.of_nat n)]) (seq 3 17)) =
      lost ++ pending r' /\
    2 + length lost <= 15 /\ (16 <= 2 + 1 + 17 -> 2 + length lost = 15).
Proof.
  apply (take_throw_loses_batch choking 2 (mk_taking mock_queue [] 0)
           (map (mock_sample (mk_sertype (lit "T"))) [[x00]; [x01]])
           (map (mock_sample (mk_sertype (lit "T"))) (map (fun n => [byte_of_Z (Z.of_nat n)]) (seq 3 17)))
           (mock_sample (mk_sertype (lit "T")) [x02]) [[x00]; [x01]] [[x00]; [x01]] InvalidArguments);
    [reflexivity|vm_compute; lia|vm_compute; reflexivity|vm_compute; reflexivity|vm_compute; reflexivity].
Defined.

(** The publisher cannot be created: handle 101 is the participant's. *)
Lemma participant_lifetime_witness :
  Participant_ctor true (mk_factory 100 [] [0; 0; -1; 0]%Z) =
    (Throw InternalError, mk_factory 103 [102; 101; 100]%Z []) /\
  101%Z ∈ live (mk_factory 103 [102; 101; 100]%Z []).
Proof.
  apply (proj2 (participant_lifetime true (mk_factory 100 [] [0; 0; -1; 0]%Z)) 100%Z
           (mk_factory 101 [100]%Z [0; -1; 0]%Z) 101%Z
           (mk_factory 102 [101; 100]%Z [-1; 0]%Z) (-1)%Z
           (mk_factory 102 [101; 100]%Z [0]%Z) 102%Z);
    [reflexivity|lia|reflexivity|lia|reflexivity|reflexivity|lia].
Defined.
