(* ===== verification/Pubsub.v ===== *)
(** Publishers and subscriptions (src/src/rcllite/publisher.hpp and
    subscription.hpp): typed publishing on a writer, the polling loop that waits
    for a matched peer, dispatching of received samples to a callback, and the
    end-to-end theorem from [publish] to the callback.  Everything is stated
    against the interfaces [Message], [DdsWriter] and [DdsReader]. *)
From stdpp Require Import base tactics list numbers sets.
From Stdlib Require Import ZArith Lia Strings.Byte.
From S2P Require Import Prelude Bytes Cdr Message Qos RawSerdata DdsConfig Dds MockDds.

(* ------------------------------------------------------------------ *)
(** * Polling with a deadline *)

(** [wait_for_subscribers] and [wait_for_service] poll a status every 10 ms.
    [ready i] is what the [i]-th poll observes, [now i] what the clock reads
    after it and [start] its reading on entry, in nanoseconds. *)
Section polling.
Variable ready : nat -> bool.
Variable now : nat -> Z.

(** [None] when the fuel is used up. *)
Fixpoint poll_loop (fuel : nat) (deadline : Z) (i : nat) : option bool :=
  match fuel with
  | O => None
  | S fuel =>
      if negb (ready i) then
        if (now i >=? deadline)%Z then Some false else poll_loop fuel deadline (S i)
      else Some true
  end.

(** [now() + timeout] is a signed 64-bit addition. *)
Definition wait_for (fuel : nat) (start timeout : Z) : outcome (option bool) :=
  if bool_decide (in_s 64 (start + timeout))
  then Ok (poll_loop fuel (start + timeout) 0) else Undefined.
End polling.

(** [count i] and [writer_count i] are what the matched status gave at the [i]-th poll:
    of subscriptions for a publisher, of servers for a client. *)
Definition wait_for_subscribers (count : nat -> Z) : (nat -> Z) -> nat -> Z -> Z -> outcome (option bool) :=
  wait_for (fun i => negb (count i =? 0)%Z).
Definition service_is_ready (writer_count : Z) : bool := (0 <? writer_count)%Z.
Definition wait_for_service (writer_count : nat -> Z) : (nat -> Z) -> nat -> Z -> Z -> outcome (option bool) :=
  wait_for (fun i => service_is_ready (writer_count i)).


(* ------------------------------------------------------------------ *)
(** * Publisher *)

Section publisher.
Context {M W : Type} `{Message M} `{DdsWriter W} (iov_len_bits : Z).

(** The DDS topic a publisher writes to; its type is [dds_name M]. *)
Definition publisher_topic (to_dds : bytes -> outcome bytes) (ros_topic : bytes) (raw_dds_topic : bool)
  : outcome bytes :=
  if raw_dds_topic then Ok ros_topic else to_dds ros_topic.

Definition publish (m : M) : stM W unit :=
  let w := serialize m CdrWriter.init in
  let* ok := Writer_write iov_len_bits (create_raw_sertype (dds_name M)) w in
  if negb ok then st_throw InternalError else mret tt.

Definition get_subscription_count (w : W) : Z := Writer_reader_count w.

(** The backpressure overload: [waited] is the result of
    [wait_for_subscribers(timeout)]. *)
Definition publish_waiting (waited : bool) (m : M) : stM W bool :=
  if negb waited then mret false
  else let* _ := publish m in mret true.
End publisher.

(* ------------------------------------------------------------------ *)
(** * Subscription *)

Section subscription.
Context {M R U : Type} `{Message M} `{DdsReader R} (callback : M -> stM U unit).

(** The handler given to [Reader::take]; exceptions of the decoder and of the
    callback are logged and dropped. *)
Definition on_sample (payload : bytes) (_ : dds_sample_info) : stM U unit :=
  st_try
    (let* d := st_lift (decode_payload payload) in
     match fst d with
     | Some msg => callback msg
     | None => mret tt
     end)
    (fun _ => mret tt).

Definition Subscription_dispatch (fuel : nat) : stM (taking R U) (option Z) :=
  Reader_take on_sample fuel 0.
End subscription.

(* ------------------------------------------------------------------ *)
(** * Specification of a subscription *)

(** What the payload of a sample decodes to, if it does. *)
Definition decoded {M} `{Message M} (payload : bytes) : option M :=
  match decode_payload payload with Ok (m, _) => m | _ => None end.

(** The messages of a queue, in order: malformed and invalid samples count for
    nothing. *)
Definition messages {M} `{Message M} (q : list sample) : list M :=
  omap (fun x => if valid_data (snd x) then decoded (raw_serdata_payload (fst x)) else None) q.

(** Calling back on every message in order, containing exceptions. *)
Definition call_each {M U} (callback : M -> stM U unit) (ms : list M) : stM U unit :=
  st_iter (fun m => st_try (callback m) (fun _ => mret tt)) ms.

Section dispatch_facts.
Context {M R U : Type} `{Message M} (callback : M -> stM U unit).

(** Decoding and the callback reach no undefined behaviour on these samples. *)
Definition samples_defined (q : list sample) : Prop :=
  Forall (fun x : sample => valid_data (snd x) = true ->
            defined (decode_payload (M := M) (raw_serdata_payload (fst x)))) q.

Definition callback_defined : Prop := forall m u, defined (fst (callback m u)).

Lemma on_sample_spec payload i u :
  defined (decode_payload (M := M) payload) ->
  on_sample callback payload i u =
  match decoded payload with
  | Some m => st_try (callback m) (fun _ => mret tt) u
  | None => (Ok tt, u)
  end.
Proof.
  intros Hd. unfold on_sample, decoded, st_try, mbind, stM_bind, st_lift.
  by destruct (decode_payload payload) as [[[m|] st]|e|].
Qed.

Lemma st_try_Ok m u : callback_defined ->
  exists u', st_try (callback m) (fun _ => mret tt) u = (Ok tt, u').
Proof.
  intros Hc. specialize (Hc m u). unfold st_try.
  destruct (callback m u) as [[[]|e|] u']; [by exists u'|by exists u'|done].
Qed.

Lemma call_each_Ok ms u : callback_defined -> exists u', call_each callback ms u = (Ok tt, u').
Proof.
  intros Hc. revert u. induction ms as [|m ms IH]; intros u; [by eexists|].
  destruct (st_try_Ok m u Hc) as [u1 E]. unfold call_each in *. simpl.
  rewrite (st_bind_Ok _ _ _ _ _ E). apply IH.
Qed.

Lemma deliver_messages q u :
  callback_defined -> samples_defined q ->
  st_iter (deliver (on_sample callback)) q u = call_each callback (messages q) u.
Proof.
  intros Hc Hq. revert u. induction Hq as [|[d i] q Hx Hq IH]; intros u; [done|].
  unfold messages, call_each in *. simpl in *.
  change (deliver (on_sample callback) (d, i)) with
    (if valid_data i then on_sample callback (raw_serdata_payload d) i else mret tt).
  destruct (valid_data i); [|rewrite (st_bind_Ok (mret tt) _ u tt u eq_refl); apply IH].
  pose proof (on_sample_spec (raw_serdata_payload d) i u (Hx eq_refl)) as Eo.
  destruct (decoded (raw_serdata_payload d)) as [m|]; [|rewrite (st_bind_Ok _ _ _ _ _ Eo); apply IH].
  destruct (st_try_Ok m u Hc) as [u' E]. rewrite E in Eo. simpl.
  rewrite (st_bind_Ok _ _ _ _ _ Eo), (st_bind_Ok _ _ _ _ _ E). apply IH.
Qed.
End dispatch_facts.

Lemma poll_loop_spec ready now deadline fuel : forall i,
  (forall j, now j + 10000000 <= now (S j))%Z ->
  (deadline <= now i + Z.of_nat fuel * 10000000)%Z -> 0 < fuel ->
  exists k b, i <= k <= i + fuel /\ poll_loop ready now (S fuel) deadline i = Some b /\ ready k = b /\
    (forall j, i <= j < k -> ready j = false /\ (now j < deadline)%Z) /\
    (b = false -> (deadline <= now k)%Z).
Proof.
  induction fuel as [|fuel IH]; intros i Hn Hd Hf; [lia|].
  destruct (ready i) eqn:Ei.
  { exists i, true. simpl. rewrite Ei. simpl. split_and!; try done; lia. }
  destruct (Z.leb_spec deadline (now i)) as [Hle|Hlt].
  { exists i, false. simpl. rewrite Ei. simpl.
    rewrite Z.geb_leb, (Zle_imp_le_bool _ _ Hle). split_and!; try done; lia. }
  specialize (Hn i) as Hni.
  assert (Hs : poll_loop ready now (S (S fuel)) deadline i = poll_loop ready now (S fuel) deadline (S i)).
  { simpl. rewrite Ei. simpl. by rewrite Z.geb_leb, (proj2 (Z.leb_gt _ _) Hlt). }
  rewrite Hs. destruct fuel as [|fuel].
  - exists (S i), (ready (S i)). simpl.
    assert (Hge : (deadline <= now (S i))%Z) by lia.
    rewrite Z.geb_leb, (Zle_imp_le_bool _ _ Hge).
    split_and!; try lia; [by destruct (ready (S i))|done|].
    intros j ?. replace j with i by lia. done.
  - destruct (IH (S i) Hn) as (k & b & Hk & E & Hb & Hj & Hfin); [lia|lia|].
    exists k, b. split_and!; try done; [lia..|].
    intros j ?. destruct (decide (j = i)) as [->|]; [done|]. apply Hj. lia.
Qed.

(** What the loop returns is what its last poll saw. *)
Lemma poll_loop_result ready now deadline fuel : forall i b,
  poll_loop ready now fuel deadline i = Some b -> exists k, ready k = b /\ i <= k < i + fuel.
Proof.
  induction fuel as [|fuel IH]; intros i b Hp; [done|]. cbn [poll_loop] in Hp. destruct (ready i) eqn:Er; simpl in Hp.
  - injection Hp as <-. exists i. split; [done|lia].
  - destruct (now i >=? deadline)%Z; [injection Hp as <-; exists i; split; [done|lia]|].
    destruct (IH (S i) b Hp) as (k & Hk & Hle). exists k. split; [done|lia].
Qed.

(** A client that waited successfully has seen a server, one that waited in vain
    saw none at its last poll. *)
Lemma wait_for_service_result writer_count now fuel start timeout b :
  wait_for_service writer_count now fuel start timeout = Ok (Some b) ->
  exists k, k < fuel /\ (b = true <-> 0 < writer_count k)%Z.
Proof.
  unfold wait_for_service, wait_for. case_bool_decide; [|done]. intros [= Hp].
  apply poll_loop_result in Hp as (k & <- & Hk). exists k. split; [lia|]. unfold service_is_ready. apply Z.ltb_lt.
Qed.

(** The polling loop of [wait_for_subscribers] and [wait_for_service] ends:
    when the clock advances by at least the 10 ms each iteration sleeps, it
    returns after at most timeout / 10 ms + 2 polls, the last poll decides the
    result, every earlier one saw nothing and happened before the deadline, and
    [false] is returned only once the deadline has passed. *)
Theorem wait_for_terminates (ready : nat -> bool) (now : nat -> Z) (start timeout : Z) :
  in_s 64 (start + timeout) -> (0 <= timeout)%Z -> (start <= now 0%nat)%Z ->
  (forall j, now j + 10000000 <= now (S j))%Z ->
  exists k b, k <= Z.to_nat (timeout / 10000000) + 1 /\
    wait_for ready now (Z.to_nat (timeout / 10000000) + 2) start timeout = Ok (Some b) /\
    ready k = b /\
    (forall j, j < k -> ready j = false /\ (now j < start + timeout)%Z) /\
    (b = false -> (start + timeout <= now k)%Z).
Proof.
  intros Hs Ht H0 Hn. unfold wait_for. rewrite bool_decide_true by done.
  destruct (poll_loop_spec ready now (start + timeout) (Z.to_nat (timeout / 10000000) + 1) 0)
    as (k & b & Hk & E & Hb & Hj & Hfin); [done| |lia|].
  - pose proof (Z.div_mod timeout 10000000 ltac:(lia)).
    pose proof (Z.mod_pos_bound timeout 10000000 ltac:(lia)). lia.
  - exists k, b. split_and!; [lia| |done| |done].
    + rewrite <- E. do 2 f_equal. lia.
    + intros. apply Hj. lia.
Qed.

Lemma wait_for_terminates_witness :
  exists k b, k <= Z.to_nat (25000000 / 10000000) + 1 /\
    wait_for (fun i => 2 <=? i) (fun i => 5 + Z.of_nat i * 11000000)%Z
      (Z.to_nat (25000000 / 10000000) + 2) 0 25000000 = Ok (Some b) /\
    (2 <=? k) = b /\
    (forall j, j < k -> (2 <=? j) = false /\ (5 + Z.of_nat j * 11000000 < 0 + 25000000)%Z) /\
    (b = false -> (0 + 25000000 <= 5 + Z.of_nat k * 11000000)%Z).
Proof.
  apply (wait_for_terminates (fun i => 2 <=? i) (fun i => 5 + Z.of_nat i * 11000000)%Z 0 25000000);
    [unfold in_s; simpl; lia|lia|lia|lia].
Defined.

(* ------------------------------------------------------------------ *)
(** * Publishing and dispatching *)

(** C13: dispatching a subscription never fails and never loses a sample: on a
    healthy reader with any queue, malformed samples and throwing callbacks
    included, [dispatch] returns, the callback has run on exactly the messages
    the queue decodes to, in order, every serdata reference is given back and
    the queue is empty. *)
Theorem subscription_dispatch {M R U} `{Message M} `{DdsReaderLaws R} (callback : M -> stM U unit)
    (fuel : nat) (r : R) (u : U) :
  reader_ok r -> length (pending r) / 16 < fuel ->
  callback_defined callback -> samples_defined (M := M) (pending r) ->
  exists r' u',
    Subscription_dispatch callback fuel (mk_taking r u 0) =
      (Ok (Some (Z.of_nat (length (pending r)))), mk_taking r' u' (length (pending r))) /\
    call_each callback (messages (pending r)) u = (Ok tt, u') /\
    pending r' = [] /\ reader_ok r'.
Proof.
  intros Hr Hf Hc Hq.
  destruct (call_each_Ok callback (messages (pending r)) u Hc) as [u' E].
  pose proof (deliver_messages callback (pending r) u Hc Hq) as Hd. rewrite E in Hd.
  destruct (Reader_take_all (on_sample callback) fuel 0 (mk_taking r u 0) u' Hr Hf Hd) as (r' & Et & Hp).
  by exists r', u'.
Qed.

Section publishing.
Context {M W : Type} `{Message M} `{DdsWriterLaws W} (iov_len_bits : Z).

(** The message fits an iovec and, padded, an object. *)
Definition payload_fits (m : M) : Prop :=
  in_u iov_len_bits (Z.of_nat (length (serialize m CdrWriter.init))) /\
  (Z.of_nat (length (serialize m CdrWriter.init)) + 4 < 2 ^ 63)%Z.

Definition serdata_of (m : M) : RawSerdata :=
  mk_serdata (Some (create_raw_sertype (dds_name M))) (padded (serialize m CdrWriter.init)).

Lemma publish_spec m w :
  payload_fits m ->
  exists rc w', dds_writecdr (serdata_of m) w = (rc, w') /\
    publish iov_len_bits m w = ((if (rc =? 0)%Z then Ok tt else Throw InternalError), w') /\
    written w' = written w ++ (if (rc =? 0)%Z then [serdata_of m] else []).
Proof.
  intros [Hf _]. destruct (dds_writecdr (serdata_of m) w) as [rc w'] eqn:E.
  exists rc, w'. split; [done|].
  pose proof (writecdr_spec _ _ _ _ E) as Hw.
  unfold publish, Writer_write, st_lift, st_run, mbind, stM_bind.
  rewrite raw_serdata_from_blob_spec, uwrap_small, Z.eqb_refl by done.
  unfold serdata_of in E. rewrite E. simpl.
  destruct (rc =? 0)%Z; simpl; [done|]. by rewrite app_nil_r.
Qed.

Lemma publish_all_written ms w w' :
  Forall payload_fits ms -> st_iter (publish iov_len_bits) ms w = (Ok tt, w') ->
  written w' = written w ++ map serdata_of ms.
Proof.
  intros Hf. revert w. induction Hf as [|m ms Hm Hf IH]; intros w E; simpl in *.
  - injection E as ->. by rewrite app_nil_r.
  - destruct (publish_spec m w Hm) as (rc & w1 & _ & Ep & Hw). unfold mbind, stM_bind in E.
    rewrite Ep in E. destruct (rc =? 0)%Z; [|done].
    apply IH in E. rewrite E, Hw, <- app_assoc. done.
Qed.
End publishing.

Lemma publish_defined {M W} `{Message M} `{DdsWriter W} bits (m : M) (w : W) :
  exists w', publish bits m w = (Ok tt, w') \/ publish bits m w = (Throw InternalError, w').
Proof.
  unfold publish, Writer_write, st_lift, st_run, mbind, stM_bind.
  rewrite raw_serdata_from_blob_spec. destruct (_ =? _)%Z; simpl; [|by eauto].
  destruct (dds_writecdr _ w) as [rc w']. simpl. destruct (rc =? 0)%Z; simpl; eauto.
Qed.

(** A publish succeeds exactly when the writer accepts the serdata, which
    carries the serialized message padded to four bytes under the message's DDS
    type; a refused write throws InternalError and leaves nothing written, and
    the backpressure overload without a matched subscription writes nothing. *)
Theorem publish_writes {M W} `{Message M} `{DdsWriterLaws W} (iov_len_bits : Z) (m : M) (w : W) :
  payload_fits iov_len_bits m ->
  exists rc w', dds_writecdr (serdata_of m) w = (rc, w') /\
    publish iov_len_bits m w = ((if (rc =? 0)%Z then Ok tt else Throw InternalError), w') /\
    written w' = written w ++ (if (rc =? 0)%Z then [serdata_of m] else []) /\
    publish_waiting iov_len_bits true m w =
      ((if (rc =? 0)%Z then Ok true else Throw InternalError), w') /\
    publish_waiting iov_len_bits false m w = (Ok false, w).
Proof.
  intros Hf. destruct (publish_spec iov_len_bits m w Hf) as (rc & w' & E & Ep & Hw).
  exists rc, w'. split_and!; try done. unfold publish_waiting, mbind, stM_bind.
  simpl. rewrite Ep. by destruct (rc =? 0)%Z.
Qed.

Lemma messages_transported {M} `{MessageLaws M} iov_len_bits (ms : list M) :
  Forall msg_valid ms -> Forall (payload_fits iov_len_bits) ms ->
  messages (map (fun m => (serdata_of m, mk_info true)) ms) = ms /\
  samples_defined (M := M) (map (fun m => (serdata_of m, mk_info true)) ms).
Proof.
  intros Hv Hf. induction Hv as [|m ms Hm Hv IH]; [by split; [|constructor]|].
  inversion_clear Hf as [|? ? [_ Hl] Hf']. destruct (IH Hf') as [IH1 IH2].
  destruct (decode_transported m (replicate (Z.to_nat ((- Z.of_nat (length (serialize m CdrWriter.init))) `mod` 4)) x00) Hm)
    as [st E].
  { unfold in_memory. rewrite length_app, length_replicate.
    pose proof (Z.mod_pos_bound (- Z.of_nat (length (serialize m CdrWriter.init))) 4 ltac:(lia)). lia. }
  assert (Hd : decode_payload (M := M) (raw_serdata_payload (serdata_of m)) = Ok (Some m, st)) by exact E.
  split.
  - assert (Hdec : decoded (M := M) (raw_serdata_payload (serdata_of m)) = Some m)
      by (unfold decoded; by rewrite Hd).
    transitivity (match decoded (M := M) (raw_serdata_payload (serdata_of m)) with
                  | Some m => m :: messages (map (fun m => (serdata_of m, mk_info true)) ms)
                  | None => messages (map (fun m => (serdata_of m, mk_info true)) ms)
                  end); [reflexivity|]. by rewrite Hdec, IH1.
  - constructor; [|done]. intros _.
    change (defined (decode_payload (M := M) (raw_serdata_payload (serdata_of m)))). by rewrite Hd.
Qed.

(** A queue that holds the samples of valid messages reaches the callback
    whole. *)
Lemma dispatch_transported {M R U} `{MessageLaws M} `{DdsReaderLaws R} (iov_len_bits : Z) (callback : M -> stM U unit)
    (ms : list M) (r : R) (u : U) (fuel : nat) :
  Forall msg_valid ms -> Forall (payload_fits iov_len_bits) ms -> callback_defined callback ->
  reader_ok r -> length ms / 16 < fuel -> pending r = map (fun m => (serdata_of m, mk_info true)) ms ->
  exists r' u',
    Subscription_dispatch callback fuel (mk_taking r u 0) =
      (Ok (Some (Z.of_nat (length ms))), mk_taking r' u' (length ms)) /\
    call_each callback ms u = (Ok tt, u') /\ pending r' = [].
Proof.
  intros Hv Hf Hc Hr Hfu Hq. destruct (messages_transported iov_len_bits ms Hv Hf) as [Hm Hd].
  destruct (call_each_Ok callback ms u Hc) as [u' E].
  pose proof (deliver_messages callback (pending r) u Hc) as Hdel.
  rewrite Hq, Hm, E in Hdel. specialize (Hdel Hd). rewrite <- Hq in Hdel.
  destruct (Reader_take_all (on_sample callback) fuel 0 (mk_taking r u 0) u' Hr) as (r' & Et & Hp & _).
  - simpl. by rewrite Hq, length_map.
  - done.
  - exists r', u'. simpl in Et. rewrite Hq, length_map in Et. done.
Qed.

(** Messages published on a writer that accepts them, and delivered in order by
    the transport, arrive at the callback of a subscription of the same type as
    they were sent: each exactly once, in the order of publication, and
    [dispatch] reports their number. *)
Theorem publish_reaches_callback {M W R U} `{MessageLaws M} `{DdsWriterLaws W} `{DdsReaderLaws R}
    (iov_len_bits : Z) (callback : M -> stM U unit) (ms : list M) (w w' : W) (r : R) (u : U) (fuel : nat) :
  Forall msg_valid ms -> Forall (payload_fits iov_len_bits) ms -> callback_defined callback ->
  st_iter (publish iov_len_bits) ms w = (Ok tt, w') ->
  reader_ok r -> length ms / 16 < fuel ->
  pending r = map (fun d => (d, mk_info true)) (drop (length (written w)) (written w')) ->
  exists r' u',
    Subscription_dispatch callback fuel (mk_taking r u 0) =
      (Ok (Some (Z.of_nat (length ms))), mk_taking r' u' (length ms)) /\
    call_each callback ms u = (Ok tt, u') /\ pending r' = [].
Proof.
  intros Hv Hf Hc Ep Hr Hfu Hq. rewrite (publish_all_written _ _ _ _ Hf Ep), drop_app_length, map_map in Hq.
  by apply (dispatch_transported iov_len_bits).
Qed.

(* ------------------------------------------------------------------ *)
(** * Concrete systems *)

(** std_msgs/String by hand: one string. *)
Definition String_msg : Message bytes := {|
  dds_name := lit "std_msgs::msg::dds_::String_";
  serialize := CdrWriter.write_string;
  deserialize := (let* s := CdrReader.read_string in mret (Some s))
|}.

Definition String_laws : @MessageLaws bytes String_msg :=
  @Build_MessageLaws bytes String_msg string_fits
    (fun m w Hv Hh => reads_some _ _ _ _ (reads_string m w Hv Hh)).

(** Appends to a log and throws on an empty message. *)
Definition log_nonempty (m : bytes) : stM (list bytes) unit :=
  if bool_decide (m = []) then st_throw UserException else st_modify (fun l => l ++ [m]).

Lemma log_nonempty_defined : callback_defined log_nonempty.
Proof. intros m u. unfold log_nonempty. by case_bool_decide. Qed.

(** A valid sample, a sample with an empty message (the callback throws), a
    truncated payload and a payload without header. *)
Definition mixed_queue : ReaderState :=
  mk_reader_state true
    [CdrWriter.write_string (lit "hello") CdrWriter.init; CdrWriter.write_string [] CdrWriter.init;
     CdrWriter.init ++ [x09; x00; x00; x00; x41]; [x00];
     padded (CdrWriter.write_string (lit "bye") CdrWriter.init)]
    (mk_sertype (lit "T")).

Lemma subscription_dispatch_witness :
  exists r' u',
    @Subscription_dispatch bytes ReaderState (list bytes) String_msg mock_reader log_nonempty 1
      (mk_taking mixed_queue [] 0) = (Ok (Some 5%Z), mk_taking r' u' 5) /\
    call_each log_nonempty [lit "hello"; []; lit "bye"] [] = (Ok tt, u') /\
    pending r' = [] /\ reader_ok r'.
Proof.
  destruct (@subscription_dispatch bytes ReaderState (list bytes) String_msg mock_reader mock_reader_laws
              log_nonempty 1 mixed_queue []) as (r' & u' & E1 & E2 & E3);
    [reflexivity|vm_compute; lia|exact log_nonempty_defined| |].
  - unfold samples_defined, defined. repeat constructor; vm_compute; done.
  - exists r', u'. split; [exact E1|]. split; [exact E2|exact E3].
Defined.

Lemma string_fits_wire (m : bytes) : length m < 100 -> string_fits m /\ @payload_fits bytes String_msg 64 m.
Proof.
  intros Hm. unfold string_fits, payload_fits, in_u. simpl.
  unfold CdrWriter.write_string, CdrWriter.write_bytes, CdrWriter.write_uint32,
    CdrWriter.write_aligned, CdrWriter.write_bytes, CdrWriter.align_to.
  rewrite !length_app. simpl length. lia.
Qed.

Lemma publish_writes_witness :
  exists rc w', dds_writecdr (@serdata_of bytes String_msg (lit "hi")) (mk_writer_state [] 1 (-1)) = (rc, w') /\
    @publish bytes WriterState String_msg mock_writer 64 (lit "hi") (mk_writer_state [] 1 (-1)) =
      ((if (rc =? 0)%Z then Ok tt else Throw InternalError), w') /\
    written w' = [] ++ (if (rc =? 0)%Z then [@serdata_of bytes String_msg (lit "hi")] else []) /\
    @publish_waiting bytes WriterState String_msg mock_writer 64 true (lit "hi") (mk_writer_state [] 1 (-1)) =
      ((if (rc =? 0)%Z then Ok true else Throw InternalError), w') /\
    @publish_waiting bytes WriterState String_msg mock_writer 64 false (lit "hi") (mk_writer_state [] 1 (-1)) =
      (Ok false, mk_writer_state [] 1 (-1)).
Proof.
  apply (@publish_writes bytes WriterState String_msg mock_writer mock_writer_laws 64 (lit "hi")
           (mk_writer_state [] 1 (-1))).
  apply string_fits_wire. simpl. lia.
Defined.

Lemma publish_reaches_callback_witness :
  let w' := mk_writer_state (map (@serdata_of bytes String_msg) [lit "a"; lit "bcd"]) 1 0 in
  let r := mk_reader_state true (map payload (mock_written w')) (create_raw_sertype (lit "std_msgs::msg::dds_::String_")) in
  exists r' u',
    @Subscription_dispatch bytes ReaderState (list bytes) String_msg mock_reader log_nonempty 1
      (mk_taking r [] 0) = (Ok (Some 2%Z), mk_taking r' u' 2) /\
    call_each log_nonempty [lit "a"; lit "bcd"] [] = (Ok tt, u') /\ pending r' = [].
Proof.
  intros w' r.
  destruct (@publish_reaches_callback bytes WriterState ReaderState (list bytes) String_msg String_laws
              mock_writer mock_writer_laws mock_reader mock_reader_laws 64 log_nonempty
              [lit "a"; lit "bcd"] (mk_writer_state [] 1 0) w' r [] 1) as (r' & u' & E1 & E2 & E3).
  - repeat constructor; simpl; lia.
  - repeat constructor; simpl; lia.
  - exact log_nonempty_defined.
  - vm_compute. reflexivity.
  - reflexivity.
  - vm_compute. lia.
  - vm_compute. reflexivity.
  - exists r', u'. split; [exact E1|]. split; [exact E2|exact E3].
Defined.
