(* ===== verification/Service.v ===== *)
(** Services and clients (src/src/rcllite/service.hpp): the request and reply
    header, the server's dispatch, the client's registration of pending requests
    and dispatch of responses, and the blocking [call].

    A promise of [call] lives on the caller's stack: [promises] maps the
    addresses of the live ones to their value, and touching another address is
    [Undefined]. *)
From stdpp Require Import base tactics list numbers gmap.
From Stdlib Require Import ZArith Lia Strings.Byte.
From S2P Require Import Prelude Bytes Cdr Message Qos RawSerdata DdsConfig Dds MockDds Pubsub.

Record ServiceHeader := mk_header { client_id : Z; sequence : Z }.

Definition write_service_header (h : ServiceHeader) (w : bytes) : bytes :=
  CdrWriter.write_int64 (sequence h) (CdrWriter.write_uint64 (client_id h) w).

Definition read_service_header : reader ServiceHeader :=
  let* id := CdrReader.read_uint64 in
  let* seq := CdrReader.read_int64 in
  mret (mk_header id seq).

(* ------------------------------------------------------------------ *)
(** * Server *)

Section service.
Context {Req Resp W U : Type} `{Message Req} `{Message Resp} `{DdsWriter W} (iov_len_bits : Z).
Variable callback : Req -> stM U Resp.

(** The reply writer and the state of the callback. *)
Record Service := mk_service { reply_writer : W; srv_user : U }.

Definition on_callback {A} (m : stM U A) : stM Service A := fun s =>
  let (o, u) := m (srv_user s) in (o, mk_service (reply_writer s) u).
Definition on_reply_writer {A} (m : stM W A) : stM Service A := fun s =>
  let (o, w) := m (reply_writer s) in (o, mk_service w (srv_user s)).

Definition encode_reply (h : ServiceHeader) (resp : Resp) : bytes :=
  serialize resp (write_service_header h CdrWriter.init).

Definition handle_request (payload : bytes) : stM Service unit :=
  let* r := st_lift (CdrReader.init payload) in
  let* hr := st_lift (read_service_header r) in
  let* d := st_lift (deserialize (M := Req) (snd hr)) in
  match fst d with
  | None => mret tt
  | Some req =>
      let* resp := on_callback (callback req) in
      let* _ := on_reply_writer
                  (Writer_write iov_len_bits (create_raw_sertype (dds_name Resp))
                     (encode_reply (fst hr) resp)) in
      mret tt
  end.

Definition on_request (payload : bytes) (_ : dds_sample_info) : stM Service unit :=
  st_try (handle_request payload) (fun _ => mret tt).

Definition Service_dispatch {R} `{DdsReader R} (fuel : nat) : stM (taking R Service) (option Z) :=
  Reader_take on_request fuel 0.
End service.
Arguments Service : clear implicits.
Arguments mk_service {W U} _ _.

(* ------------------------------------------------------------------ *)
(** * Client *)

Section client.
Context {Req Resp W Cb : Type} `{Message Req} `{Message Resp} `{DdsWriter W} (iov_len_bits : Z).

(** [struct Pending]: a completion callback, named by an element of [Cb], and
    the address of the promise of a [call]. *)
Record Pending := mk_pending { on_response : option Cb; sync_promise : option Z }.

Record Client := mk_client {
  client_id_ : Z;
  next_sequence_ : Z;
  request_writer_ : W;
  pending_ : gmap Z Pending;
  promises : gmap Z (option Resp)
}.

(** What a completion callback does; it may use the client again. *)
Variable run_callback : Cb -> Resp -> stM Client unit.

Definition set_pending (p : gmap Z Pending) (c : Client) : Client :=
  mk_client (client_id_ c) (next_sequence_ c) (request_writer_ c) p (promises c).
Definition set_promises (p : gmap Z (option Resp)) (c : Client) : Client :=
  mk_client (client_id_ c) (next_sequence_ c) (request_writer_ c) (pending_ c) p.
Definition set_writer (w : W) (c : Client) : Client :=
  mk_client (client_id_ c) (next_sequence_ c) w (pending_ c) (promises c).

Definition on_request_writer {A} (m : stM W A) : stM Client A := fun c =>
  let (o, w) := m (request_writer_ c) in (o, set_writer w c).

(** [++next_sequence_] on the atomic [int64_t]. *)
Definition next_sequence (c : Client) : Z * Client :=
  let seq := i64 (next_sequence_ c + 1) in
  (seq, mk_client (client_id_ c) seq (request_writer_ c) (pending_ c) (promises c)).

Definition encode_request (h : ServiceHeader) (req : Req) : bytes :=
  serialize req (write_service_header h CdrWriter.init).

Definition send_request (request : Req) (on_response : option Cb) (sync_promise : option Z)
  : stM Client Z :=
  let* seq := st_run next_sequence in
  let* _ := st_modify (fun c => set_pending (<[seq := mk_pending on_response sync_promise]> (pending_ c)) c) in
  let* c := st_get in
  let* ok := on_request_writer
               (Writer_write iov_len_bits (create_raw_sertype (dds_name Req))
                  (encode_request (mk_header (client_id_ c) seq) request)) in
  if negb ok then
    let* _ := st_modify (fun c => set_pending (delete seq (pending_ c)) c) in
    st_throw InternalError
  else mret seq.

Definition async_send_request (request : Req) (on_response : option Cb) : stM Client Z :=
  send_request request on_response None.

(** [std::promise::set_value]. *)
Definition set_value (address : Z) (resp : Resp) : stM Client unit := fun c =>
  match promises c !! address with
  | None => (Undefined, c)
  | Some (Some _) => (Throw StdException, c)
  | Some None => (Ok tt, set_promises (<[address := Some resp]> (promises c)) c)
  end.

(** The section under [pending_mtx_]. *)
Definition take_pending (seq : Z) (c : Client) : option Pending * Client :=
  (pending_ c !! seq, set_pending (delete seq (pending_ c)) c).

Definition complete (p : Pending) (resp : Resp) : stM Client unit :=
  let* _ := (match sync_promise p with Some a => set_value a resp | None => mret tt end) in
  match on_response p with Some cb => run_callback cb resp | None => mret tt end.

Definition handle_response (payload : bytes) : stM Client unit :=
  let* r := st_lift (CdrReader.init payload) in
  let* hr := st_lift (read_service_header r) in
  let* c := st_get in
  if bool_decide (client_id (fst hr) <> client_id_ c) then mret tt
  else
    let* d := st_lift (deserialize (M := Resp) (snd hr)) in
    match fst d with
    | None => mret tt
    | Some resp =>
        let* p := st_run (take_pending (sequence (fst hr))) in
        match p with
        | None => mret tt
        | Some p => complete p resp
        end
    end.

Definition on_reply (payload : bytes) (_ : dds_sample_info) : stM Client unit :=
  st_try (handle_response payload) (fun _ => mret tt).

Definition Client_dispatch {R} `{DdsReader R} (fuel : nat) : stM (taking R Client) (option Z) :=
  Reader_take on_reply fuel 0.

(** [call]: [address] is where its promise lives, [others] what other threads
    do to the client until the wait ends. *)
Definition call (request : Req) (address : Z) (others : stM Client unit) : stM Client Resp :=
  let* _ := st_modify (fun c => set_promises (<[address := None]> (promises c)) c) in
  let destroy := st_modify (fun c => set_promises (delete address (promises c)) c) in
  st_try
    (let* seq := send_request request None (Some address) in
     let* _ := others in
     let* c := st_get in
     match promises c !! address with
     | Some (Some resp) => let* _ := destroy in mret resp
     | _ =>
         let* _ := st_modify (fun c => set_pending (delete seq (pending_ c)) c) in
         st_throw WaitTimeout
     end)
    (fun e => let* _ := destroy in st_throw e).
End client.
Arguments Client : clear implicits.
Arguments Pending : clear implicits.

(* ------------------------------------------------------------------ *)
(** * The wire format *)

Definition valid_header (h : ServiceHeader) : Prop := in_u 64 (client_id h) /\ in_s 64 (sequence h).

Lemma header_reads h w :
  valid_header h -> has_header w ->
  reads read_service_header w h (write_service_header h w).
Proof.
  intros [Hi Hs] Hh. unfold read_service_header, write_service_header.
  pose proof (reads_uint64 _ _ Hi Hh) as H1. pose proof (has_header_reads _ _ _ _ H1 Hh) as Hh1.
  eapply reads_bind; [exact H1|]. eapply reads_bind; [by apply reads_int64|].
  destruct h. apply reads_ret.
Qed.

(** A received request or reply: the constructor, the header and the message are
    decoded from it, whatever padding follows. *)
Lemma headed_decodes {M} `{MessageLaws M} (h : ServiceHeader) (m : M) tail :
  valid_header h -> msg_valid m ->
  in_memory (serialize m (write_service_header h CdrWriter.init) ++ tail) ->
  exists st0 st1 st2,
    CdrReader.init (serialize m (write_service_header h CdrWriter.init) ++ tail) = Ok st0 /\
    read_service_header st0 = Ok (h, st1) /\ deserialize st1 = Ok (Some m, st2).
Proof.
  intros Hh Hv Hm. set (w1 := write_service_header h CdrWriter.init) in *.
  assert (Hi0 : has_header CdrWriter.init) by (unfold has_header; simpl; lia).
  pose proof (header_reads h CdrWriter.init Hh Hi0) as R1. fold w1 in R1.
  pose proof (has_header_reads _ _ _ _ R1 Hi0) as Hi1.
  pose proof (message_roundtrip m w1 Hv Hi1) as R2.
  destruct (reads_prefix _ _ _ _ R1) as [k1 E1]. destruct (reads_prefix _ _ _ _ R2) as [k2 E2].
  destruct R1 as [_ R1], R2 as [_ R2]. rewrite E2 in *.
  exists (mk_reader ((w1 ++ k2) ++ tail) (Z.of_nat (length CdrWriter.init))). do 2 eexists. split_and!.
  - rewrite E1, <- !(app_assoc CdrWriter.init). apply init_writer.
  - rewrite <- (app_assoc w1) in *. by apply R1.
  - rewrite <- (app_assoc w1) in *. rewrite (app_assoc w1) in *. by apply R2.
Qed.

(** The padding the transport adds. *)
Lemma padded_tail p : exists k, padded p = p ++ replicate k x00 /\ k < 4.
Proof.
  eexists. split; [done|]. pose proof (Z.mod_pos_bound (- Z.of_nat (length p)) 4 ltac:(lia)). lia.
Qed.

(** A payload that fits an iovec and, padded, an object. *)
Definition wire_fits (iov_len_bits : Z) (p : bytes) : Prop :=
  in_u iov_len_bits (Z.of_nat (length p)) /\ (Z.of_nat (length p) + 4 < 2 ^ 63)%Z.

Lemma padded_in_memory bits p : wire_fits bits p -> in_memory (padded p).
Proof.
  intros [_ Hl]. destruct (padded_tail p) as (k & -> & Hk).
  unfold in_memory. rewrite length_app, length_replicate. lia.
Qed.

Lemma headed_transported {M} `{MessageLaws M} bits (h : ServiceHeader) (m : M) :
  valid_header h -> msg_valid m -> wire_fits bits (serialize m (write_service_header h CdrWriter.init)) ->
  exists st0 st1 st2,
    CdrReader.init (padded (serialize m (write_service_header h CdrWriter.init))) = Ok st0 /\
    read_service_header st0 = Ok (h, st1) /\ deserialize st1 = Ok (Some m, st2).
Proof.
  intros Hh Hv Hf. pose proof (padded_in_memory _ _ Hf) as Hm.
  destruct (padded_tail (serialize m (write_service_header h CdrWriter.init))) as (k & E & _).
  rewrite E in *. by apply headed_decodes.
Qed.

Lemma write_accepted {W} `{DdsWriter W} bits t p (w : W) :
  in_u bits (Z.of_nat (length p)) ->
  Writer_write bits t p w =
  (let (rc, w') := dds_writecdr (mk_serdata (Some t) (padded p)) w in (Ok (rc =? 0)%Z, w')).
Proof.
  intros Hf. unfold Writer_write, st_lift, st_run, mbind, stM_bind.
  rewrite raw_serdata_from_blob_spec, uwrap_small, Z.eqb_refl by done.
  by destruct (dds_writecdr _ w).
Qed.

(* ------------------------------------------------------------------ *)
(** * Server *)

Section server_facts.
Context {Req Resp W U : Type} `{MessageLaws Req} `{Message Resp} `{DdsWriter W} (bits : Z).
Variable callback : Req -> stM U Resp.

Definition reply_serdata (h : ServiceHeader) (resp : Resp) : RawSerdata :=
  mk_serdata (Some (create_raw_sertype (dds_name Resp))) (padded (encode_reply h resp)).

Lemma on_request_spec h (req : Req) i (s : Service W U) :
  valid_header h -> msg_valid req -> wire_fits bits (encode_request h req) ->
  on_request bits callback (padded (encode_request h req)) i s =
  match callback req (srv_user s) with
  | (Ok resp, u) =>
      (let (o, w) := Writer_write bits (create_raw_sertype (dds_name Resp)) (encode_reply h resp)
                       (reply_writer s) in
       (match o with Undefined => Undefined | _ => Ok tt end, mk_service w u))
  | (Throw _, u) => (Ok tt, mk_service (reply_writer s) u)
  | (Undefined, u) => (Undefined, mk_service (reply_writer s) u)
  end.
Proof.
  intros Hh Hv Hf. destruct (headed_transported bits h req Hh Hv Hf) as (st0 & st1 & st2 & E0 & E1 & E2).
  unfold on_request, handle_request, st_try, st_lift, on_callback, on_reply_writer, mbind, stM_bind.
  unfold encode_request. rewrite E0, E1. simpl. rewrite E2. simpl.
  destruct (callback req (srv_user s)) as [[resp|e|] u]; try done.
  simpl. by destruct (Writer_write _ _ _ (reply_writer s)) as [[]].
Qed.
End server_facts.

(* ------------------------------------------------------------------ *)
(** * Client *)

Section client_facts.
Context {Req Resp W Cb : Type} `{Message Req} `{MessageLaws Resp} `{DdsWriter W} (bits : Z).
Variable run_callback : Cb -> Resp -> stM (Client Resp W Cb) unit.
Implicit Types c : Client Resp W Cb.

Lemma set_pending_eta c : set_pending (pending_ c) c = c.
Proof. by destruct c. Qed.

(** What handling a well-formed reply does. *)
Lemma on_reply_spec h (resp : Resp) i c :
  valid_header h -> msg_valid resp -> wire_fits bits (encode_reply h resp) ->
  on_reply run_callback (padded (encode_reply h resp)) i c =
  if bool_decide (client_id h = client_id_ c) then
    match pending_ c !! sequence h with
    | Some p => st_try (complete run_callback p resp) (fun _ => mret tt)
                  (set_pending (delete (sequence h) (pending_ c)) c)
    | None => (Ok tt, c)
    end
  else (Ok tt, c).
Proof.
  intros Hh Hv Hf. destruct (headed_transported bits h resp Hh Hv Hf) as (st0 & st1 & st2 & E0 & E1 & E2).
  unfold on_reply, handle_response, st_try, st_lift, st_get, st_run, take_pending, mbind, stM_bind.
  unfold encode_reply. rewrite E0, E1. simpl.
  destruct (decide (client_id h = client_id_ c)) as [Hid|Hid].
  - rewrite bool_decide_false, bool_decide_true by auto. rewrite E2. simpl.
    destruct (pending_ c !! sequence h) as [p|] eqn:Ep; [done|].
    simpl. rewrite delete_id by done. by rewrite set_pending_eta.
  - by rewrite bool_decide_true, bool_decide_false by done.
Qed.

(** Samples of the reply topic that concern this client in no way. *)
Definition ignored (id : Z) (payload : bytes) : Prop :=
  forall i c, client_id_ c = id -> on_reply run_callback payload i c = (Ok tt, c).

Lemma foreign_ignored id h (resp : Resp) :
  valid_header h -> msg_valid resp -> wire_fits bits (encode_reply h resp) ->
  client_id h <> id -> ignored id (padded (encode_reply h resp)).
Proof.
  intros Hh Hv Hf Hid i c Hc. rewrite on_reply_spec by done.
  by rewrite bool_decide_false by congruence.
Qed.

Lemma malformed_ignored id payload e :
  (let* r := CdrReader.init payload in read_service_header r) = Throw e -> ignored id payload.
Proof.
  intros E i c _. unfold on_reply, handle_response, st_try, st_lift, mbind, stM_bind.
  destruct (CdrReader.init payload) as [st|e'|]; simpl in E; [|done|done].
  destruct (read_service_header st) as [[]|e''|]; done.
Qed.

Lemma ignored_all i ps c :
  Forall (ignored (client_id_ c)) ps -> st_iter (fun p => on_reply run_callback p i) ps c = (Ok tt, c).
Proof.
  intros Hps. induction Hps as [|p ps Hp Hps IH]; [done|]. simpl.
  by rewrite (st_bind_Ok _ _ _ _ _ (Hp i c eq_refl)).
Qed.

Definition request_serdata (h : ServiceHeader) (req : Req) : RawSerdata :=
  mk_serdata (Some (create_raw_sertype (dds_name Req))) (padded (encode_request h req)).

(** The header of the next request. *)
Definition next_header c : ServiceHeader := mk_header (client_id_ c) (i64 (next_sequence_ c + 1)).

Lemma send_request_spec req cb sp c :
  in_u bits (Z.of_nat (length (encode_request (next_header c) req))) ->
  send_request bits req cb sp c =
  (let (rc, w) := dds_writecdr (request_serdata (next_header c) req) (request_writer_ c) in
   let seq := sequence (next_header c) in
   if (rc =? 0)%Z
   then (Ok seq, mk_client (client_id_ c) seq w (<[seq := mk_pending cb sp]> (pending_ c)) (promises c))
   else (Throw InternalError,
         mk_client (client_id_ c) seq w (delete seq (pending_ c)) (promises c))).
Proof.
  intros Hf. unfold send_request, st_run, st_modify, st_get, on_request_writer, mbind, stM_bind.
  simpl. rewrite write_accepted by done. unfold request_serdata.
  destruct (dds_writecdr _ (request_writer_ c)) as [rc w]. simpl.
  destruct (rc =? 0)%Z; simpl; [done|]. by rewrite delete_insert_eq.
Qed.
End client_facts.

Lemma next_header_valid {Resp W Cb} (c : Client Resp W Cb) :
  in_u 64 (client_id_ c) -> valid_header (next_header c).
Proof. intros. split; [done|]. by apply swrap_range. Qed.

(** The server's side of an exchange: the request is answered under its header. *)
Lemma request_answered {Req Resp Ws U} `{MessageLaws Req} `{Message Resp} `{DdsWriter Ws} (bits : Z)
    (callback : Req -> stM U Resp) h (req : Req) (resp : Resp) (u' : U) i (s : Service Ws U) (ws : Ws) :
  valid_header h -> msg_valid req -> wire_fits bits (encode_request h req) -> wire_fits bits (encode_reply h resp) ->
  callback req (srv_user s) = (Ok resp, u') ->
  dds_writecdr (reply_serdata h resp) (reply_writer s) = (0%Z, ws) ->
  on_request bits callback (payload (request_serdata h req)) i s = (Ok tt, mk_service ws u').
Proof.
  intros Hh Hreq Hf1 Hf2 Hcb Ews.
  change (payload (request_serdata h req)) with (padded (encode_request h req)).
  rewrite on_request_spec, Hcb by done. rewrite write_accepted by apply Hf2.
  unfold reply_serdata in Ews. by rewrite Ews.
Qed.

(** The client's side: a [call] whose reply arrives among samples that do not
    concern it. *)
Lemma call_returns {Req Resp Wc Cb} `{MessageLaws Req} `{MessageLaws Resp} `{DdsWriter Wc} (bits : Z)
    (run_callback : Cb -> Resp -> stM (Client Resp Wc Cb) unit)
    (c : Client Resp Wc Cb) (req : Req) (resp : Resp)
    (address : Z) (i : dds_sample_info) (before after : list bytes) (wc : Wc) :
  in_u 64 (client_id_ c) -> msg_valid resp ->
  wire_fits bits (encode_request (next_header c) req) ->
  wire_fits bits (encode_reply (next_header c) resp) ->
  dds_writecdr (request_serdata (next_header c) req) (request_writer_ c) = (0%Z, wc) ->
  Forall (ignored run_callback (client_id_ c)) before ->
  Forall (ignored run_callback (client_id_ c)) after ->
  call bits req address
    (st_iter (fun p => on_reply run_callback p i)
       (before ++ payload (reply_serdata (next_header c) resp) :: after)) c =
  (Ok resp, mk_client (client_id_ c) (i64 (next_sequence_ c + 1)) wc
              (delete (i64 (next_sequence_ c + 1)) (pending_ c)) (delete address (promises c))).
Proof.
  intros Hid Hresp Hf1 Hf2 Ewc Hbef Haft.
  pose proof (next_header_valid c Hid) as Hh.
  unfold call. rewrite (st_bind_Ok (st_modify _) _ c tt _ eq_refl).
  set (c0 := set_promises (<[address := None]> (promises c)) c).
  set (seq := i64 (next_sequence_ c + 1)).
  set (c1 := mk_client (client_id_ c) seq wc (<[seq := mk_pending None (Some address)]> (pending_ c))
               (<[address := None]> (promises c))).
  set (c2 := mk_client (client_id_ c) seq wc (delete seq (pending_ c))
               (<[address := Some resp]> (promises c))).
  assert (E1 : send_request bits req None (Some address) c0 = (Ok seq, c1)).
  { rewrite send_request_spec by apply Hf1. change (next_header c0) with (next_header c).
    change (request_writer_ c0) with (request_writer_ c). by rewrite Ewc. }
  assert (E2 : st_iter (fun p => on_reply run_callback p i)
                 (before ++ payload (reply_serdata (next_header c) resp) :: after) c1 = (Ok tt, c2)).
  { rewrite (st_iter_app _ _ _ _ _ (ignored_all run_callback i before c1 Hbef)). simpl.
    rewrite (st_bind_Ok _ _ c1 tt c2); [by apply (ignored_all run_callback i after c2)|].
    rewrite (on_reply_spec bits) by done. rewrite bool_decide_true by done. simpl.
    rewrite lookup_insert_eq. unfold st_try, complete, set_value, mbind, stM_bind. simpl.
    rewrite lookup_insert_eq. unfold c2, set_promises. simpl. by rewrite delete_insert_eq, insert_insert_eq. }
  unfold st_try. rewrite (st_bind_Ok _ _ _ _ _ E1), (st_bind_Ok _ _ _ _ _ E2).
  rewrite (st_bind_Ok st_get _ c2 c2 c2 eq_refl). simpl. rewrite lookup_insert_eq.
  unfold st_modify, mbind, stM_bind. simpl. unfold set_promises. simpl. by rewrite delete_insert_eq.
Qed.

(** C15: a remote procedure call end to end: the request a [call] writes is
    decoded by the server to the same request, the server's reply carries the
    header back, and the call returns exactly the response of the server's
    callback, whatever replies for other clients or malformed samples arrive
    before and after it; afterwards the request is no longer pending, the
    promise is gone and every other pending request is untouched. *)
Theorem rpc_end_to_end {Req Resp Wc Ws U Cb} `{MessageLaws Req} `{MessageLaws Resp}
    `{DdsWriterLaws Wc} `{DdsWriterLaws Ws} (bits : Z) (callback : Req -> stM U Resp)
    (run_callback : Cb -> Resp -> stM (Client Resp Wc Cb) unit)
    (c : Client Resp Wc Cb) (s : Service Ws U) (req : Req) (resp : Resp) (u' : U)
    (address : Z) (i : dds_sample_info) (before after : list bytes) (wc : Wc) (ws : Ws) :
  in_u 64 (client_id_ c) -> msg_valid req -> msg_valid resp ->
  wire_fits bits (encode_request (next_header c) req) ->
  wire_fits bits (encode_reply (next_header c) resp) ->
  callback req (srv_user s) = (Ok resp, u') ->
  dds_writecdr (request_serdata (next_header c) req) (request_writer_ c) = (0%Z, wc) ->
  dds_writecdr (reply_serdata (next_header c) resp) (reply_writer s) = (0%Z, ws) ->
  Forall (ignored run_callback (client_id_ c)) before ->
  Forall (ignored run_callback (client_id_ c)) after ->
  exists d d',
    written wc = written (request_writer_ c) ++ [d] /\
    on_request bits callback (payload d) i s = (Ok tt, mk_service ws u') /\
    written ws = written (reply_writer s) ++ [d'] /\
    call bits req address
      (st_iter (fun p => on_reply run_callback p i) (before ++ payload d' :: after)) c =
    (Ok resp, mk_client (client_id_ c) (i64 (next_sequence_ c + 1)) wc
                (delete (i64 (next_sequence_ c + 1)) (pending_ c)) (delete address (promises c))).
Proof.
  intros Hid Hreq Hresp Hf1 Hf2 Hcb Ewc Ews Hbef Haft.
  exists (request_serdata (next_header c) req), (reply_serdata (next_header c) resp). split_and!.
  - exact (writecdr_spec _ _ _ _ Ewc).
  - by eapply request_answered; [apply next_header_valid| |apply Hf1| | |].
  - exact (writecdr_spec _ _ _ _ Ews).
  - by apply call_returns.
Qed.


(** A [call] that gets no answer, or whose request cannot be written, cleans
    up: WaitTimeout or InternalError is thrown, the request is not pending, its
    promise is gone and all other entries are as before; the sequence number is
    used up in both cases. *)
Theorem call_failure_cleans_up {Req Resp W Cb} `{MessageLaws Req} `{MessageLaws Resp} `{DdsWriter W}
    (bits : Z) (run_callback : Cb -> Resp -> stM (Client Resp W Cb) unit)
    (c : Client Resp W Cb) (req : Req) (address : Z) (i : dds_sample_info) (replies : list bytes) :
  wire_fits bits (encode_request (next_header c) req) ->
  pending_ c !! i64 (next_sequence_ c + 1) = None -> promises c !! address = None ->
  Forall (ignored run_callback (client_id_ c)) replies ->
  exists rc w, dds_writecdr (request_serdata (next_header c) req) (request_writer_ c) = (rc, w) /\
    call bits req address (st_iter (fun p => on_reply run_callback p i) replies) c =
    (Throw (if (rc =? 0)%Z then WaitTimeout else InternalError),
     mk_client (client_id_ c) (i64 (next_sequence_ c + 1)) w (pending_ c) (promises c)).
Proof.
  intros Hf Hp Ha Hr. destruct (dds_writecdr (request_serdata (next_header c) req) (request_writer_ c)) as [rc w] eqn:E.
  exists rc, w. split; [done|]. unfold call. rewrite (st_bind_Ok (st_modify _) _ c tt _ eq_refl).
  set (c0 := set_promises (<[address := None]> (promises c)) c).
  set (seq := i64 (next_sequence_ c + 1)) in *.
  pose proof (send_request_spec bits req None (Some address) c0 ltac:(apply Hf)) as Es.
  change (next_header c0) with (next_header c) in Es.
  change (request_writer_ c0) with (request_writer_ c) in Es. rewrite E in Es. cbn zeta in Es.
  change (sequence (next_header c)) with seq in Es.
  destruct (rc =? 0)%Z.
  - unfold st_try. rewrite (st_bind_Ok _ _ _ _ _ Es).
    rewrite (st_bind_Ok _ _ _ _ _ (ignored_all run_callback i replies (mk_client _ _ w (<[seq := _]> _) _) Hr)).
    rewrite (st_bind_Ok st_get _ _ _ _ eq_refl). simpl. rewrite lookup_insert_eq.
    unfold st_modify, mbind, stM_bind. simpl. unfold set_promises. simpl.
    by rewrite !delete_insert_id.
  - unfold st_try. rewrite (st_bind_Throw _ _ _ _ _ Es).
    unfold st_modify, mbind, stM_bind. simpl. unfold set_promises. simpl.
    rewrite delete_insert_id by done. by rewrite delete_id.
Qed.

(* ------------------------------------------------------------------ *)
(** * [call] against a concurrent [dispatch] *)

(** The caller after its request was sent, and the executor thread handling the
    reply: each constructor is a point between two atomic actions. *)
Inductive caller_pc : Type :=
| CWaiting                      (* inside future.wait_for *)
| CTimedOut                     (* wait_for returned timeout; the lock is not taken yet *)
| CErased                       (* pending_.erase(seq) done; about to throw *)
| CReturned | CThrew.

Inductive spinner_pc (Resp Cb : Type) : Type :=
| SDecoded (resp : Resp)        (* the reply is decoded, the lock not taken *)
| STook (resp : Resp) (p : option (Pending Cb))   (* the lock is released again *)
| SDone.
Arguments SDecoded {Resp Cb} _.
Arguments STook {Resp Cb} _ _.
Arguments SDone {Resp Cb}.

Section race.
Context {Resp W Cb : Type} (seq address : Z).

(** [broken]: undefined behaviour was reached.  [overlap]: the caller has given
    up waiting while the executor held its pending entry. *)
Record race := mk_race_state {
  the_client : Client Resp W Cb;
  caller : caller_pc;
  spinner : spinner_pc Resp Cb;
  broken : bool;
  overlap : bool
}.

Definition destroy_promise (c : Client Resp W Cb) : Client Resp W Cb :=
  set_promises (delete address (promises c)) c.

Inductive race_next : race -> race -> Prop :=
| spin_take c cp resp b o :
    race_next (mk_race_state c cp (SDecoded resp) b o)
      (mk_race_state (snd (take_pending seq c)) cp (STook resp (fst (take_pending seq c))) b
         (match fst (take_pending seq c), cp with Some _, CTimedOut => true | _, _ => o end))
| spin_complete c cp resp p b o out c' :
    (match p with
     | Some (mk_pending _ (Some a)) => set_value a resp c
     | _ => (Ok tt, c)
     end) = (out, c') ->
    race_next (mk_race_state c cp (STook resp p) b o)
      (mk_race_state c' cp SDone (match out with Undefined => true | _ => b end) o)
| call_timeout c s b o :
    promises c !! address = Some None ->
    race_next (mk_race_state c CWaiting s b o)
      (mk_race_state c CTimedOut s b (match s with STook _ (Some _) => true | _ => o end))
| call_ready c s b o resp :
    promises c !! address = Some (Some resp) ->
    race_next (mk_race_state c CWaiting s b o) (mk_race_state (destroy_promise c) CReturned s b o)
| call_erase c s b o :
    race_next (mk_race_state c CTimedOut s b o)
      (mk_race_state (set_pending (delete seq (pending_ c)) c) CErased s b o)
| call_throw c s b o :
    race_next (mk_race_state c CErased s b o) (mk_race_state (destroy_promise c) CThrew s b o).

(** The client right after [send_request] of the call. *)
Definition sent (c : Client Resp W Cb) : Prop :=
  pending_ c !! seq = Some (mk_pending None (Some address)) /\ promises c !! address = Some None.

Definition race_start (c : Client Resp W Cb) (resp : Resp) : race :=
  mk_race_state c CWaiting (SDecoded resp) false false.

Definition entry : Pending Cb := mk_pending None (Some address).

(** Without an overlap: the entry is in the map exactly while the executor has
    not taken it and the caller has not erased it, and the promise it names is
    alive as long as either may use it. *)
Definition race_safe (r : race) : Prop :=
  overlap r = false ->
  broken r = false /\
  match spinner r with
  | SDecoded _ =>
      match caller r with
      | CWaiting | CTimedOut =>
          pending_ (the_client r) !! seq = Some entry /\ promises (the_client r) !! address = Some None
      | CErased => pending_ (the_client r) !! seq = None /\ promises (the_client r) !! address = Some None
      | CThrew => pending_ (the_client r) !! seq = None
      | CReturned => False
      end
  | STook _ (Some p) => p = entry /\ caller r = CWaiting /\ promises (the_client r) !! address = Some None
  | STook _ None | SDone => True
  end.

Lemma race_safe_step r r' : race_next r r' -> race_safe r -> race_safe r'.
Proof.
  unfold race_safe. destruct 1 as [c cp resp b o|c cp resp p b o out c' E|c s b o Hp|c s b o resp Hp|c s b o|c s b o];
    simpl; intros Hs.
  - destruct (pending_ c !! seq) as [p|] eqn:Ep; intros Ho.
    + destruct cp; try done; destruct (Hs Ho) as [Hb H]; try done;
        destruct H as [H1 H2]; simplify_eq; done.
    + destruct cp; naive_solver.
  - intros Ho. specialize (Hs Ho). destruct p as [[cb [a|]]|];
      [|by injection E as <- <-; destruct Hs..].
    destruct Hs as (Hb & Hent & Hc & Hprom). unfold entry, set_value in *. simplify_eq.
    rewrite Hprom in E. by injection E as <- <-.
  - intros Ho. destruct s as [|? [|]|]; try done; destruct (Hs Ho); done.
  - intros Ho. destruct (Hs Ho) as [Hb H]. split; [done|].
    destruct s as [|? [|]|]; try done; destruct_and?; congruence.
  - intros Ho. destruct (Hs Ho) as [Hb H]. split; [done|].
    destruct s as [|? [|]|]; try done; [|naive_solver]. simpl. rewrite lookup_delete_eq. naive_solver.
  - intros Ho. destruct (Hs Ho) as [Hb H]. split; [done|].
    destruct s as [|? [|]|]; try done; naive_solver.
Qed.
End race.

(** C17: the race between the timeout of a [call] and the executor completing
    it.  Interleaved in any other way the two threads are safe: as long as the
    caller does not give up while the executor holds the entry it took from the
    pending map, no undefined behaviour is reached.  But nothing prevents that
    overlap, because the lock is released between taking the entry and setting
    the promise: the run in which the caller times out, erases nothing, throws
    and so destroys the promise on its stack, and the executor then sets it,
    exists from every state right after the request was sent. *)
Theorem call_timeout_race {Resp W Cb} (seq address : Z) (c : Client Resp W Cb) (resp : Resp) :
  sent seq address c ->
  (forall r, star (race_next seq address) (race_start c resp) r -> overlap r = false -> broken r = false) /\
  (exists r, star (race_next seq address) (race_start c resp) r /\ caller r = CThrew /\ broken r = true).
Proof.
  intros [Hp Ha]. split.
  - intros r Hr Ho.
    assert (Hs : race_safe seq address r); [|by apply Hs].
    eapply star_invariant; [apply race_safe_step|exact Hr|]. by intros _.
  - eexists. split.
    + eapply star_step; [apply spin_take|]. simpl. rewrite Hp.
      eapply star_step; [by apply call_timeout|].
      eapply star_step; [apply call_erase|].
      eapply star_step; [apply call_throw|].
      eapply star_step; [apply spin_complete; unfold set_value, destroy_promise; simpl;
                         rewrite lookup_delete_eq; reflexivity|apply star_refl].
    + done.
Qed.

(* ------------------------------------------------------------------ *)
(** * A concrete service *)

Module Demo.
#[local] Existing Instance String_msg.
#[local] Existing Instance String_laws.

Definition client : Client bytes WriterState unit :=
  mk_client 7 41 (mk_writer_state [] 1 0) {[ 3%Z := mk_pending (Some tt) None ]} ∅.
Definition service : Service WriterState (list bytes) := mk_service (mk_writer_state [] 1 0) [].

(** Answers with the request twice and logs it. *)
Definition twice (req : bytes) : stM (list bytes) bytes := fun log => (Ok (req ++ req), log ++ [req]).
Definition ignore (_ : unit) (_ : bytes) : stM (Client bytes WriterState unit) unit := mret tt.

Lemma encode_fits h (m : bytes) : length m < 100 ->
  string_fits m /\ wire_fits 64 (serialize m (write_service_header h CdrWriter.init)).
Proof.
  intros Hm. unfold string_fits, wire_fits, in_u.
  assert (length (serialize m (write_service_header h CdrWriter.init)) = 25 + length m) as ->; [|lia].
  unfold write_service_header. simpl. rewrite !length_app. simpl. lia.
Qed.

Definition reply_to_other : bytes := padded (encode_reply (mk_header 8 42) (lit "x")).

Lemma junk_ignored : Forall (ignored ignore 7) [[x00]; reply_to_other].
Proof.
  constructor; [by apply (malformed_ignored ignore 7 [x00] InvalidArguments)|].
  constructor; [|done]. apply (foreign_ignored 64).
  - unfold valid_header, in_u, in_s. simpl. lia.
  - unfold msg_valid. simpl. unfold string_fits. simpl. lia.
  - apply encode_fits. simpl. lia.
  - done.
Qed.
End Demo.

Lemma rpc_end_to_end_witness :
  exists d d' wc ws,
    written wc = [d] /\
    @on_request bytes bytes WriterState (list bytes) String_msg String_msg mock_writer 64 Demo.twice (payload d) (mk_info true) Demo.service =
      (Ok tt, mk_service ws [lit "ab"]) /\
    written ws = [d'] /\
    @call bytes bytes WriterState unit String_msg mock_writer 64 (lit "ab") 1000
      (st_iter (fun p => @on_reply bytes WriterState unit String_msg Demo.ignore p (mk_info true))
         ([[x00]; Demo.reply_to_other] ++ payload d' :: [[x00]; Demo.reply_to_other])) Demo.client =
    (Ok (lit "abab"), mk_client 7 42 wc (delete 42%Z {[ 3%Z := mk_pending (Some tt) None ]}) (delete 1000%Z ∅)).
Proof.
  destruct (@rpc_end_to_end bytes bytes WriterState WriterState (list bytes) unit
              String_msg String_laws String_msg String_laws mock_writer mock_writer_laws mock_writer mock_writer_laws
              64 Demo.twice Demo.ignore Demo.client Demo.service (lit "ab") (lit "abab") [lit "ab"] 1000
              (mk_info true) [[x00]; Demo.reply_to_other] [[x00]; Demo.reply_to_other]
              (mk_writer_state [@request_serdata bytes String_msg (mk_header 7 42) (lit "ab")] 1 0)
              (mk_writer_state [@reply_serdata bytes String_msg (mk_header 7 42) (lit "abab")] 1 0))
    as (d & d' & E1 & E2 & E3 & E4).
  - unfold in_u. simpl. lia.
  - unfold msg_valid. simpl. unfold string_fits. simpl. lia.
  - unfold msg_valid. simpl. unfold string_fits. simpl. lia.
  - apply Demo.encode_fits. simpl. lia.
  - apply Demo.encode_fits. simpl. lia.
  - reflexivity.
  - reflexivity.
  - reflexivity.
  - exact Demo.junk_ignored.
  - exact Demo.junk_ignored.
  - eexists d, d', _, _. split; [exact E1|]. split; [exact E2|]. split; [exact E3|exact E4].
Defined.

Lemma call_failure_cleans_up_witness :
  exists rc w, dds_writecdr (@request_serdata bytes String_msg (mk_header 7 42) (lit "ab")) (mk_writer_state [] 1 0) = (rc, w) /\
    @call bytes bytes WriterState unit String_msg mock_writer 64 (lit "ab") 1000
      (st_iter (fun p => @on_reply bytes WriterState unit String_msg Demo.ignore p (mk_info true))
         [[x00]; Demo.reply_to_other]) Demo.client =
    (Throw (if (rc =? 0)%Z then WaitTimeout else InternalError),
     mk_client 7 42 w {[ 3%Z := mk_pending (Some tt) None ]} ∅).
Proof.
  apply (@call_failure_cleans_up bytes bytes WriterState unit String_msg String_laws String_msg String_laws
           mock_writer 64 Demo.ignore Demo.client (lit "ab") 1000 (mk_info true) [[x00]; Demo.reply_to_other]).
  - apply Demo.encode_fits. simpl. lia.
  - reflexivity.
  - reflexivity.
  - exact Demo.junk_ignored.
Defined.


Lemma call_timeout_race_witness :
  let c := mk_client 7 42 (mk_writer_state [] 1 0) {[ 42%Z := mk_pending None (Some 1000%Z) ]} {[ 1000%Z := None ]}
           : Client bytes WriterState unit in
  (forall r, star (race_next 42 1000) (race_start c (lit "r")) r -> overlap r = false -> broken r = false) /\
  (exists r, star (race_next 42 1000) (race_start c (lit "r")) r /\ caller r = CThrew /\ broken r = true).
Proof. intros c. apply (call_timeout_race 42 1000 c (lit "r")). split; reflexivity. Defined.
