(* ===== verification/Params.v ===== *)
(** Node parameters (src/src/rcllite/parameter.hpp, parameter.cpp and
    node_params.hpp): the value type and its wire form, the store behind one
    mutex, the event published on every change, and the handlers of the six
    parameter services.

    The store runs in [stM]: an exception (the event publisher's) leaves the
    updates made before it in place.  Doubles are their 64-bit patterns. *)
From Stdlib Require Import ZArith Lia Strings.Byte.
From stdpp Require Import base tactics list numbers gmap sorting.
From S2P Require Import Prelude Bytes Cdr Message Qos RawSerdata DdsConfig Dds MockDds Pubsub.

(* ------------------------------------------------------------------ *)
(** * Values *)

(** [enum class Type : uint8_t]: the value received from the wire is cast, so
    every [uint8_t] is a possible value. *)
Definition NotSet : Z := 0.
Definition Bool : Z := 1.
Definition Integer : Z := 2.
Definition Double : Z := 3.
Definition String : Z := 4.
Definition StringArray : Z := 9.

Record ParameterValue := mk_value {
  type : Z;
  bool_value : bool;
  integer_value : Z;
  double_value : Z;
  string_value : bytes;
  byte_array_value : list Z;
  bool_array_value : list bool;
  integer_array_value : list Z;
  double_array_value : list Z;
  string_array_value : list bytes
}.

Definition default_value : ParameterValue := mk_value NotSet false 0 0 [] [] [] [] [] [].

Definition to_value_bool (v : bool) : ParameterValue := mk_value Bool v 0 0 [] [] [] [] [] [].
Definition to_value_int64 (v : Z) : ParameterValue := mk_value Integer false v 0 [] [] [] [] [] [].
Definition to_value_double (v : Z) : ParameterValue := mk_value Double false 0 v [] [] [] [] [] [].
Definition to_value_string (v : bytes) : ParameterValue := mk_value String false 0 0 v [] [] [] [] [].
Definition to_value_string_array (v : list bytes) : ParameterValue :=
  mk_value StringArray false 0 0 [] [] [] [] [] v.

Definition value_as_bool (p : ParameterValue) : bool := bool_value p.
Definition value_as_int64 (p : ParameterValue) : Z := integer_value p.
Definition value_as_double (p : ParameterValue) : Z := double_value p.
Definition value_as_string (p : ParameterValue) : bytes := string_value p.

(** [rcl_interfaces/msg/ParameterValue]: the generated struct has the same
    members. *)
Record RclParameterValue := mk_rcl_value {
  r_type : Z;
  r_bool_value : bool;
  r_integer_value : Z;
  r_double_value : Z;
  r_string_value : bytes;
  r_byte_array_value : list Z;
  r_bool_array_value : list bool;
  r_integer_array_value : list Z;
  r_double_array_value : list Z;
  r_string_array_value : list bytes
}.

Definition rcl_value_default : RclParameterValue := mk_rcl_value 0 false 0 0 [] [] [] [] [] [].

Definition to_rcl_value (v : ParameterValue) : RclParameterValue :=
  mk_rcl_value (type v) (bool_value v) (integer_value v) (double_value v) (string_value v)
    (byte_array_value v) (bool_array_value v) (integer_array_value v) (double_array_value v)
    (string_array_value v).

Definition from_rcl_value (v : RclParameterValue) : ParameterValue :=
  mk_value (r_type v) (r_bool_value v) (r_integer_value v) (r_double_value v) (r_string_value v)
    (r_byte_array_value v) (r_bool_array_value v) (r_integer_array_value v) (r_double_array_value v)
    (r_string_array_value v).

Record RclParameter := mk_parameter { p_name : bytes; p_value : RclParameterValue }.
Record Time := mk_time { sec : Z; nanosec : Z }.
Record ParameterEvent := mk_event {
  stamp : Time;
  ev_node : bytes;
  new_parameters : list RclParameter;
  changed_parameters : list RclParameter;
  deleted_parameters : list RclParameter
}.
Record SetParametersResult := mk_result { successful : bool; reason : bytes }.
Record ParameterDescriptor := mk_descriptor { d_name : bytes; d_type : Z; dynamic_typing : bool }.

(** [now] is the system clock in nanoseconds since the epoch; [duration_cast]
    truncates towards zero. *)
Definition now_stamp (now : Z) : Time :=
  mk_time (i32 (Z.quot now 1000000000)) (u32 (Z.rem now 1000000000)).

(** The tokens [std::getline(is, cur, '.')] extracts: at the end of the stream a
    token is produced only when a character was extracted. *)
Fixpoint tokenize_from (cur s : bytes) : list bytes :=
  match s with
  | [] => if decide (cur = []) then [] else [cur]
  | c :: s => if decide (c = x2e) then cur :: tokenize_from [] s else tokenize_from (cur ++ [c]) s
  end.
Definition tokenize : bytes -> list bytes := tokenize_from [].

Example tokenize_nested : tokenize (lit "a.bc..d.") = [lit "a"; lit "bc"; []; lit "d"].
Proof. reflexivity. Qed.

(* ------------------------------------------------------------------ *)
(** * The store *)

Section store.
Context {W : Type} `{Message ParameterEvent} `{DdsWriter W} (iov_len_bits : Z).
(** The node's name and the successive readings of the system clock. *)
Variable node_name : bytes.
Variable clock : nat -> Z.

Record ParameterCore := mk_core {
  values_ : gmap bytes ParameterValue;
  events_pub : W;
  clock_reads : nat
}.

Definition set_values (v : gmap bytes ParameterValue) (c : ParameterCore) : ParameterCore :=
  mk_core v (events_pub c) (clock_reads c).

Definition read_clock (c : ParameterCore) : Z * ParameterCore :=
  (clock (clock_reads c), mk_core (values_ c) (events_pub c) (S (clock_reads c))).

Definition on_events {A} (m : stM W A) : stM ParameterCore A := fun c =>
  let (o, w) := m (events_pub c) in (o, mk_core (values_ c) w (clock_reads c)).

Definition make_event (now : Z) (name : bytes) (value : ParameterValue) (is_new : bool) : ParameterEvent :=
  let p := mk_parameter name (to_rcl_value value) in
  mk_event (now_stamp now) node_name (if is_new then [p] else []) (if is_new then [] else [p]) [].

Definition publish_event_locked (name : bytes) (value : ParameterValue) (is_new : bool)
  : stM ParameterCore unit :=
  let* now := st_run read_clock in
  on_events (publish iov_len_bits (make_event now name value is_new)).

Definition declare (name : bytes) (default_value : ParameterValue) : stM ParameterCore unit :=
  if bool_decide (name = []) then st_throw InvalidArguments
  else
    let* c := st_get in
    match values_ c !! name with
    | Some _ => st_throw InvalidArguments
    | None =>
        let* _ := st_modify (fun c => set_values (<[name := default_value]> (values_ c)) c) in
        if negb (type default_value =? NotSet)%Z
        then publish_event_locked name default_value true else mret tt
    end.

Definition get (name : bytes) (c : ParameterCore) : outcome ParameterValue :=
  match values_ c !! name with Some v => Ok v | None => Throw InvalidArguments end.

Definition get_or (name : bytes) (c : ParameterCore) : option ParameterValue := values_ c !! name.

Definition set (name : bytes) (value : ParameterValue) : stM ParameterCore bool :=
  let* c := st_get in
  match values_ c !! name with
  | None => mret false
  | Some old =>
      let was_not_set := (type old =? NotSet)%Z in
      let* _ := st_modify (fun c => set_values (<[name := value]> (values_ c)) c) in
      let* _ := (if negb (type value =? NotSet)%Z
                 then publish_event_locked name value was_not_set else mret tt) in
      mret true
  end.

(** [Node::get_parameter_or<T>] and [Node::get_parameter<T>], for the
    [value_as<T>] given. *)
Definition get_parameter_or {T} (value_as : ParameterValue -> T) (name : bytes) (alternative : T)
  (c : ParameterCore) : T :=
  match get_or name c with None => alternative | Some v => value_as v end.

Definition get_parameter {T} (value_as : ParameterValue -> T) (name : bytes) (c : ParameterCore)
  : outcome T :=
  match get_or name c with None => Throw InvalidArguments | Some v => Ok (value_as v) end.

(* ------------------------------------------------------------------ *)
(** * Service handlers *)

Definition type_of (name : bytes) (c : ParameterCore) : Z :=
  match values_ c !! name with Some v => type v | None => NotSet end.

Definition handle_describe (names : list bytes) (c : ParameterCore) : list ParameterDescriptor :=
  map (fun name => mk_descriptor name (type_of name c) false) names.

Definition handle_get_types (names : list bytes) (c : ParameterCore) : list Z :=
  map (fun name => type_of name c) names.

Definition handle_get (names : list bytes) (c : ParameterCore) : list RclParameterValue :=
  map (fun name => match values_ c !! name with
                   | Some v => to_rcl_value v
                   | None => rcl_value_default
                   end) names.

(** The loop over the requested prefixes, with its [break] on the first match. *)
Fixpoint any_prefix (parts : list bytes) (depth : Z) (prefixes : list bytes) : bool :=
  match prefixes with
  | [] => false
  | prefix :: rest =>
      let pp := tokenize prefix in
      if length parts <? length pp then any_prefix parts depth rest
      else if bool_decide (take (length pp) parts = pp) then
        (depth =? 0)%Z || (Z.of_nat (length parts - length pp) <=? depth)%Z
      else any_prefix parts depth rest
  end.

Definition name_matches (prefixes : list bytes) (depth : Z) (name : bytes) : bool :=
  let parts := tokenize name in
  match prefixes with
  | [] => (depth =? 0)%Z || (Z.of_nat (length parts) <=? depth)%Z
  | _ => any_prefix parts depth prefixes
  end.

(** The keys of [values_] in the order of [std::map]. *)
Definition keys (c : ParameterCore) : list bytes :=
  merge_sort bytes_le (elements (dom (values_ c) : gset bytes)).

(** [name.substr(0, dot)] for every dot of the name. *)
Fixpoint dot_prefixes (fuel : nat) (name : bytes) (dot : option nat) : list bytes :=
  match fuel with
  | O => []
  | S fuel =>
      match dot with
      | None => []
      | Some dot => substr 0 dot name :: dot_prefixes fuel name (find_char_from x2e (dot + 1) name)
      end
  end.

Definition handle_list (prefixes : list bytes) (depth : Z) (c : ParameterCore)
  : list bytes * list bytes :=
  let matched := filter (fun name => name_matches prefixes depth name = true) (keys c) in
  let names := merge_sort bytes_le matched in
  let inner := concat (map (fun name => dot_prefixes (S (length name)) name (find_char x2e name)) names) in
  (names, merge_sort bytes_le (elements (list_to_set inner : gset bytes))).

Fixpoint handle_set (parameters : list RclParameter) : stM ParameterCore (list SetParametersResult) :=
  match parameters with
  | [] => mret []
  | p :: rest =>
      let* ok := set (p_name p) (from_rcl_value (p_value p)) in
      let r := mk_result ok (if ok then [] else lit "parameter not declared") in
      let* rs := handle_set rest in
      mret (r :: rs)
  end.

(** [r.reason += (r.reason.empty() ? "" : ", ") + p.name]. *)
Definition undeclared_reason (c : ParameterCore) (parameters : list RclParameter) : bytes :=
  foldl (fun reason p =>
           match values_ c !! p_name p with
           | Some _ => reason
           | None => reason ++ (if bool_decide (reason = []) then [] else lit ", ") ++ p_name p
           end) [] parameters.

Definition all_declared (c : ParameterCore) (parameters : list RclParameter) : bool :=
  forallb (fun p => bool_decide (is_Some (values_ c !! p_name p))) parameters.

Definition handle_set_atomically (parameters : list RclParameter) : stM ParameterCore SetParametersResult :=
  let* c := st_get in
  if negb (all_declared c parameters)
  then mret (mk_result false (lit "parameters not declared: " ++ undeclared_reason c parameters))
  else
    let* _ := st_iter (fun p => let* _ := set (p_name p) (from_rcl_value (p_value p)) in mret tt) parameters in
    mret (mk_result true []).
End store.
Arguments ParameterCore : clear implicits.

(* ------------------------------------------------------------------ *)
(** * The store as a map *)

Lemma from_to_rcl_value v : from_rcl_value (to_rcl_value v) = v.
Proof. by destruct v. Qed.
Lemma to_from_rcl_value v : to_rcl_value (from_rcl_value v) = v.
Proof. by destruct v. Qed.

Section store_facts.
Context {W : Type} `{Message ParameterEvent} `{DdsWriter W} (bits : Z).
Variable node_name : bytes.
Variable clock : nat -> Z.
Implicit Types c : ParameterCore W.

(** Publishing an event reads the clock once and touches no value. *)
Lemma publish_event_spec name value is_new c :
  exists w, (publish_event_locked bits node_name clock name value is_new c =
               (Ok tt, mk_core (values_ c) w (S (clock_reads c))) \/
             publish_event_locked bits node_name clock name value is_new c =
               (Throw InternalError, mk_core (values_ c) w (S (clock_reads c)))) /\
    snd (publish bits (make_event node_name (clock (clock_reads c)) name value is_new) (events_pub c)) = w.
Proof.
  destruct (publish_defined bits (make_event node_name (clock (clock_reads c)) name value is_new)
              (events_pub c)) as [w Hw].
  exists w. unfold publish_event_locked, st_run, on_events, mbind, stM_bind. simpl.
  destruct Hw as [-> | ->]; simpl; auto.
Qed.

(** The spec of [set] on the map. *)
Definition assign (values : gmap bytes ParameterValue) (p : RclParameter) : gmap bytes ParameterValue :=
  match values !! p_name p with
  | Some _ => <[p_name p := from_rcl_value (p_value p)]> values
  | None => values
  end.

Lemma set_effect name value c :
  match values_ c !! name with
  | None => set bits node_name clock name value c = (Ok false, c)
  | Some _ =>
      exists o c', set bits node_name clock name value c = (o, c') /\
        values_ c' = <[name := value]> (values_ c) /\
        (o = Ok true \/ (o = Throw InternalError /\ type value <> NotSet))
  end.
Proof.
  unfold set, st_get, st_modify, mbind, stM_bind. destruct (values_ c !! name) as [old|] eqn:E; [|done].
  destruct (Z.eqb_spec (type value) NotSet); simpl; [by eauto 10|].
  destruct (publish_event_spec name value (type old =? NotSet)%Z (set_values (<[name := value]> (values_ c)) c))
    as (w & [-> | ->] & _); simpl; by eauto 10.
Qed.

Lemma set_assign p c o c' :
  set bits node_name clock (p_name p) (from_rcl_value (p_value p)) c = (o, c') ->
  values_ c' = assign (values_ c) p.
Proof.
  intros E. pose proof (set_effect (p_name p) (from_rcl_value (p_value p)) c) as Hs.
  unfold assign. destruct (values_ c !! p_name p); [|by rewrite E in Hs; injection Hs as -> ->].
  destruct Hs as (o1 & c1 & E1 & Hv & _). rewrite E in E1. by injection E1 as -> ->.
Qed.

Lemma assign_dom values p : dom (assign values p) = dom values.
Proof. unfold assign. case_match; [|done]. apply dom_insert_lookup_L. eauto. Qed.

Lemma assign_all_dom ps values : dom (foldl assign values ps) = dom values.
Proof.
  revert values. induction ps as [|p ps IH]; intros values; simpl; [done|].
  by rewrite IH, assign_dom.
Qed.

Lemma handle_set_spec ps : forall c rs c',
  handle_set bits node_name clock ps c = (Ok rs, c') ->
  values_ c' = foldl assign (values_ c) ps /\
  rs = map (fun p => if bool_decide (p_name p ∈ dom (values_ c)) then mk_result true []
                     else mk_result false (lit "parameter not declared")) ps.
Proof.
  induction ps as [|p ps IH]; intros c rs c' E; simpl in E.
  - by injection E as <- <-.
  - unfold mbind, stM_bind in E.
    destruct (set bits node_name clock (p_name p) (from_rcl_value (p_value p)) c) as [o c1] eqn:E1.
    pose proof (set_assign _ _ _ _ E1) as Hv1. destruct o as [ok| |]; try done.
    destruct (handle_set bits node_name clock ps c1) as [[rs1| |] c2] eqn:E2; try done.
    apply IH in E2 as [Hv2 ->]. injection E as <- <-. simpl. rewrite Hv2, Hv1. split; [done|].
    rewrite assign_dom. f_equal.
    pose proof (set_effect (p_name p) (from_rcl_value (p_value p)) c) as Hs. rewrite E1 in Hs.
    destruct (values_ c !! p_name p) eqn:Ep.
    + destruct Hs as (? & ? & [= <- <-] & _ & [[= ->]|[? _]]); [|done].
      by rewrite bool_decide_true by (by apply elem_of_dom).
    + injection Hs as -> _. by rewrite bool_decide_false by (by apply not_elem_of_dom).
Qed.

(** Setting every parameter of a list of declared ones: either all are set, or
    an event could not be published and the first [k + 1] are. *)
Lemma set_all_spec ps : forall c,
  exists o c', st_iter (fun p => let* _ := set bits node_name clock (p_name p) (from_rcl_value (p_value p)) in mret tt)
                 ps c = (o, c') /\
    ((o = Ok tt /\ values_ c' = foldl assign (values_ c) ps) \/
     (o = Throw InternalError /\ exists k, k < length ps /\ values_ c' = foldl assign (values_ c) (take (S k) ps))).
Proof.
  induction ps as [|p ps IH]; intros c; [by eauto 10|]. simpl.
  unfold mbind, stM_bind in *.
  destruct (set bits node_name clock (p_name p) (from_rcl_value (p_value p)) c) as [o c1] eqn:E1.
  pose proof (set_assign _ _ _ _ E1) as Hv1.
  pose proof (set_effect (p_name p) (from_rcl_value (p_value p)) c) as Hs. rewrite E1 in Hs.
  assert (Ho : (exists ok, o = Ok ok) \/ o = Throw InternalError).
  { destruct (values_ c !! p_name p); [|injection Hs; eauto].
    destruct Hs as (? & ? & [= <- <-] & _ & [->|[-> _]]); eauto. }
  destruct Ho as [[ok ->]| ->]; simpl.
  - destruct (IH c1) as (o2 & c2 & E2 & H2). exists o2, c2. split; [done|]. rewrite Hv1 in H2.
    destruct H2 as [?|(? & k & ? & ?)]; [by left|]. right. split; [done|]. exists (S k). split; [lia|done].
  - eexists _, _. split; [done|]. right. split; [done|]. exists 0. split; [simpl; lia|done].
Qed.
End store_facts.

(* ------------------------------------------------------------------ *)
(** * Listing *)

Lemma dot_prefixes_spec fuel name p0 x :
  length name < p0 + fuel ->
  x ∈ dot_prefixes fuel name (find_char_from x2e p0 name) <->
  exists i, p0 <= i /\ name !! i = Some x2e /\ x = take i name.
Proof.
  revert p0. induction fuel as [|fuel IH]; intros p0 Hf; simpl.
  - split; [set_solver|]. intros (i & Hi & Hc & _). apply lookup_lt_Some in Hc. lia.
  - pose proof (find_char_from_spec x2e p0 name) as Hs.
    destruct (find_char_from x2e p0 name) as [j|].
    + destruct Hs as (Hj & Hc & Hn). rewrite elem_of_cons, (IH (j + 1)) by lia.
      unfold substr. rewrite drop_0. split.
      * intros [->|(i & Hi & Hi')]; [by exists j|]. exists i. split; [lia|done].
      * intros (i & Hi & Hci & ->). destruct (decide (i < j)); [by destruct (Hn i)|].
        destruct (decide (i = j)) as [->|]; [by left|]. right. exists i. split; [lia|done].
    + split; [set_solver|]. intros (i & Hi & Hc & _). by destruct (Hs i).
Qed.

Lemma keys_spec {W} (c : ParameterCore W) :
  Sorted bytes_le (keys c) /\ NoDup (keys c) /\ forall name, name ∈ keys c <-> name ∈ dom (values_ c).
Proof.
  unfold keys. split_and!.
  - apply (Sorted_merge_sort bytes_le).
  - rewrite merge_sort_Permutation. apply NoDup_elements.
  - intros name. rewrite merge_sort_Permutation. apply elem_of_elements.
Qed.

Lemma any_prefix_recursive parts prefixes :
  any_prefix parts 0 prefixes = true <->
  exists prefix, prefix ∈ prefixes /\ tokenize prefix `prefix_of` parts.
Proof.
  induction prefixes as [|q prefixes IH]; simpl; [set_solver|].
  assert (Hq : tokenize q `prefix_of` parts <->
               ~ length parts < length (tokenize q) /\ take (length (tokenize q)) parts = tokenize q).
  { split.
    - intros [k ->]. rewrite length_app, take_app_length. split; [lia|done].
    - intros [_ E]. rewrite <- E. exists (drop (length (tokenize q)) parts). by rewrite take_drop. }
  destruct (Nat.ltb_spec (length parts) (length (tokenize q))); [|case_bool_decide].
  - rewrite IH. split; [set_solver|]. intros (r & [->|]%elem_of_cons & Hr); [|eauto].
    apply Hq in Hr as [? _]. lia.
  - simpl. split; [|done]. intros _. exists q. split; [set_solver|]. apply Hq. split; [lia|done].
  - rewrite IH. split; [set_solver|]. intros (r & [->|]%elem_of_cons & Hr); [|eauto].
    by apply Hq in Hr as [_ ?].
Qed.

(** List_parameters returns sorted names without duplicates, which are
    exactly the declared names that match; asked for everything below some
    prefixes (depth 0), those are the names one of whose token prefixes is a
    requested prefix, and with neither prefixes nor depth all of them; the
    returned prefixes are sorted, distinct and exactly the parts before a dot of
    a returned name. *)
Theorem list_parameters {W} (prefixes : list bytes) (depth : Z) (c : ParameterCore W) :
  let (names, inner) := handle_list prefixes depth c in
  Sorted bytes_le names /\ NoDup names /\
  (forall name, name ∈ names <-> name ∈ dom (values_ c) /\ name_matches prefixes depth name = true) /\
  (depth = 0%Z -> prefixes <> [] -> forall name, name ∈ names <->
     name ∈ dom (values_ c) /\ exists p, p ∈ prefixes /\ tokenize p `prefix_of` tokenize name) /\
  (depth = 0%Z -> prefixes = [] -> forall name, name ∈ names <-> name ∈ dom (values_ c)) /\
  Sorted bytes_le inner /\ NoDup inner /\
  (forall p, p ∈ inner <-> exists name i, name ∈ names /\ name !! i = Some x2e /\ p = take i name).
Proof.
  unfold handle_list. cbn zeta. destruct (keys_spec c) as (_ & Hk & Hkd).
  set (matched := filter (fun name => name_matches prefixes depth name = true) (keys c)).
  assert (Hm : forall name, name ∈ merge_sort bytes_le matched <->
            name ∈ dom (values_ c) /\ name_matches prefixes depth name = true).
  { intros name. rewrite merge_sort_Permutation. unfold matched.
    rewrite list_elem_of_filter, Hkd. tauto. }
  split_and!.
  - apply (Sorted_merge_sort bytes_le).
  - rewrite merge_sort_Permutation. by apply NoDup_filter.
  - exact Hm.
  - intros -> Hp name. rewrite Hm. unfold name_matches. destruct prefixes as [|p0 ps]; [done|].
    by rewrite any_prefix_recursive.
  - intros -> -> name. rewrite Hm. unfold name_matches. simpl. tauto.
  - apply (Sorted_merge_sort bytes_le).
  - rewrite merge_sort_Permutation. apply NoDup_elements.
  - intros p. rewrite merge_sort_Permutation, elem_of_elements, elem_of_list_to_set.
    rewrite list_elem_of_In, in_concat. split.
    + intros (l & Hl & Hp). apply in_map_iff in Hl as (name & <- & Hn).
      apply list_elem_of_In in Hn, Hp.
      apply (dot_prefixes_spec (S (length name)) name 0) in Hp as (i & _ & Hi & ->); [|lia]. eauto.
    + intros (name & i & Hn & Hi & ->).
      exists (dot_prefixes (S (length name)) name (find_char x2e name)). split.
      * apply in_map_iff. exists name. split; [done|]. by apply list_elem_of_In.
      * apply list_elem_of_In. apply (dot_prefixes_spec (S (length name)) name 0); [lia|]. eauto with lia.
Qed.

(** Whether a name is listed depends on the order of the requested
    prefixes: the loop stops at the first prefix that matches, even if the name
    lies too deep below it, although a later prefix would include it. *)
Theorem list_parameters_order_dependent {W} (w : W) :
  let c := mk_core {[ lit "a.b.c" := default_value ]} w 0 in
  fst (handle_list [lit "a.b"; lit "a"] 1 c) = [lit "a.b.c"] /\
  fst (handle_list [lit "a"; lit "a.b"] 1 c) = [].
Proof. split; vm_compute; reflexivity. Qed.

(* ------------------------------------------------------------------ *)
(** * Declaring, setting and reading *)

Section properties.
Context {W : Type} `{Message ParameterEvent} `{DdsWriter W} (bits : Z).
Variable node_name : bytes.
Variable clock : nat -> Z.

(** What can be declared, set and read: a parameter is declared at most
    once and never under the empty name; an undeclared parameter cannot be set
    or read; after a declaration or an accepted set the parameter reads as the
    given value and every other one as before, even when publishing the event
    then fails with InternalError; a value of type NotSet publishes no event. *)
Theorem parameter_store (c : ParameterCore W) (name other : bytes) (value : ParameterValue) :
  (name = [] \/ is_Some (values_ c !! name) ->
   declare bits node_name clock name value c = (Throw InvalidArguments, c)) /\
  (name <> [] -> values_ c !! name = None ->
   get name c = Throw InvalidArguments /\
   set bits node_name clock name value c = (Ok false, c) /\
   exists o c', declare bits node_name clock name value c = (o, c') /\
     (o = Ok tt \/ o = Throw InternalError) /\
     get name c' = Ok value /\ (other <> name -> get_or other c' = get_or other c) /\
     (type value = NotSet -> o = Ok tt /\ events_pub c' = events_pub c)) /\
  (is_Some (values_ c !! name) ->
   exists o c', set bits node_name clock name value c = (o, c') /\
     (o = Ok true \/ o = Throw InternalError) /\
     get name c' = Ok value /\ (other <> name -> get_or other c' = get_or other c)).
Proof.
  unfold get, get_or. split_and!.
  - intros Hn. unfold declare, st_get, mbind, stM_bind. case_bool_decide; [done|].
    destruct Hn as [?|[v ->]]; done.
  - intros Hn Hv. split; [by rewrite Hv|]. split.
    { pose proof (set_effect bits node_name clock name value c) as Hs. by rewrite Hv in Hs. }
    unfold declare, st_get, st_modify, mbind, stM_bind. rewrite bool_decide_false, Hv by done.
    destruct (Z.eqb_spec (type value) NotSet); simpl.
    + eexists _, _. split; [done|]. simpl. rewrite lookup_insert_eq. split_and!; [by left|done| |done].
      intros. by rewrite lookup_insert_ne.
    + destruct (publish_event_spec bits node_name clock name value true (set_values (<[name := value]> (values_ c)) c))
        as (w & Hw & _).
      destruct Hw as [-> | ->]; eexists _, _; (split; [done|]); simpl; rewrite lookup_insert_eq;
        (split_and!; [auto|done| |done]); intros; by rewrite lookup_insert_ne.
  - intros [v Hv]. pose proof (set_effect bits node_name clock name value c) as Hs. rewrite Hv in Hs.
    destruct Hs as (o & c' & E & Hval & Ho). exists o, c'. rewrite Hval, lookup_insert_eq.
    split_and!; [done|naive_solver|done|]. intros. by rewrite lookup_insert_ne.
Qed.

(** The events of a change: the event published when a declared parameter
    is set to a value of another type than NotSet carries the node, the name and
    the value, as a new parameter if it was not set before and as a changed one
    otherwise; the node's clock is read once for its stamp. *)
Theorem set_publishes_event (c : ParameterCore W) (name : bytes) (old value : ParameterValue) :
  values_ c !! name = Some old -> type value <> NotSet ->
  exists c', snd (set bits node_name clock name value c) = c' /\
    let ev := make_event node_name (clock (clock_reads c)) name value (type old =? NotSet)%Z in
    events_pub c' = snd (publish bits ev (events_pub c)) /\ clock_reads c' = S (clock_reads c) /\
    ev_node ev = node_name /\
    new_parameters ev ++ changed_parameters ev = [mk_parameter name (to_rcl_value value)] /\
    (new_parameters ev = [] <-> type old <> NotSet) /\
    from_rcl_value (to_rcl_value value) = value.
Proof.
  intros Hv Ht.
  assert (Hev : forall b, new_parameters (make_event node_name (clock (clock_reads c)) name value b) ++
                  changed_parameters (make_event node_name (clock (clock_reads c)) name value b) =
                  [mk_parameter name (to_rcl_value value)]) by (by intros []).
  destruct (publish_event_spec bits node_name clock name value (type old =? NotSet)%Z
              (set_values (<[name := value]> (values_ c)) c)) as (w & Hw & Hp).
  assert (Hs : snd (set bits node_name clock name value c) =
               mk_core (<[name := value]> (values_ c)) w (S (clock_reads c))).
  { unfold set, st_get, st_modify, mbind, stM_bind. rewrite Hv, (proj2 (Z.eqb_neq _ _) Ht).
    simpl. by destruct Hw as [-> | ->]. }
  eexists. split; [exact Hs|]. cbn zeta.
  split_and!; [done|done|done|apply Hev| |apply from_to_rcl_value].
  destruct (Z.eqb_spec (type old) NotSet); simpl; naive_solver.
Qed.

(** Set_parameters processes its list in order: each entry reports success
    exactly when its parameter is declared, declared parameters end up with the
    last value listed for them, get_parameters then returns exactly the value
    that was sent, undeclared names stay undeclared and read as the default. *)
Theorem set_parameters_service (c c' : ParameterCore W) (ps : list RclParameter)
    (rs : list SetParametersResult) :
  handle_set bits node_name clock ps c = (Ok rs, c') ->
  dom (values_ c') = dom (values_ c) /\
  rs = map (fun p => if bool_decide (p_name p ∈ dom (values_ c)) then mk_result true []
                     else mk_result false (lit "parameter not declared")) ps /\
  (forall before p after, ps = before ++ p :: after -> p_name p ∉ map p_name after ->
     handle_get [p_name p] c' =
     [if bool_decide (p_name p ∈ dom (values_ c)) then p_value p else rcl_value_default]) /\
  (forall name, name ∉ map p_name ps -> values_ c' !! name = values_ c !! name).
Proof.
  intros E. apply handle_set_spec in E as [Hv ->].
  assert (Hout : forall l values name, name ∉ map p_name l -> foldl assign values l !! name = values !! name).
  { intros l. induction l as [|p l IH]; intros values name Hn; simpl in *; [done|].
    rewrite IH by set_solver. unfold assign. case_match; [|done]. apply lookup_insert_ne. set_solver. }
  rewrite Hv. split_and!; [apply assign_all_dom|done| |auto].
  intros before p after -> Hl. unfold handle_get. simpl. rewrite Hv, foldl_app. simpl. rewrite Hout by done.
  unfold assign at 1. pose proof (assign_all_dom before (values_ c)) as Hd.
  case_bool_decide as Hin.
  - rewrite <- Hd in Hin. apply elem_of_dom in Hin as [v Hin]. rewrite Hin, lookup_insert_eq.
    by rewrite to_from_rcl_value.
  - rewrite <- Hd in Hin. apply not_elem_of_dom in Hin. by rewrite !Hin.
Qed.

(** Set_parameters_atomically refuses a request with an undeclared name and
    then changes nothing; otherwise a reply means that all parameters were set
    in order.  But when publishing an event fails the exception leaves the
    handler in the middle: no reply is sent, and a non-empty prefix of the
    request is in effect. *)
Theorem set_parameters_atomically (c : ParameterCore W) (ps : list RclParameter) :
  exists o c', handle_set_atomically bits node_name clock ps c = (o, c') /\
  ((~ (forall p, p ∈ ps -> is_Some (values_ c !! p_name p)) /\ c' = c /\
      o = Ok (mk_result false (lit "parameters not declared: " ++ undeclared_reason c ps))) \/
   ((forall p, p ∈ ps -> is_Some (values_ c !! p_name p)) /\
      ((o = Ok (mk_result true []) /\ values_ c' = foldl assign (values_ c) ps) \/
       (o = Throw InternalError /\
          exists k, k < length ps /\ values_ c' = foldl assign (values_ c) (take (S k) ps))))).
Proof.
  unfold handle_set_atomically, st_get, mbind at 1, stM_bind at 1.
  assert (Hall : all_declared c ps = true <-> forall p, p ∈ ps -> is_Some (values_ c !! p_name p)).
  { unfold all_declared. rewrite forallb_forall. setoid_rewrite bool_decide_eq_true.
    by setoid_rewrite <- list_elem_of_In. }
  destruct (all_declared c ps); simpl.
  - destruct (set_all_spec bits node_name clock ps c) as (o & c' & E & Ho).
    unfold mbind at 1, stM_bind at 1. rewrite E.
    destruct Ho as [[-> Hv]|[-> Hk]]; eexists _, _; (split; [done|]); right; (split; [by apply Hall|]); auto.
  - eexists _, _. split; [done|]. left. split; [|done]. intros Hp. by apply Hall in Hp.
Qed.
End properties.

(* ------------------------------------------------------------------ *)
(** * A concrete node *)

Module ParamDemo.
(** A codec for the event that carries the node name only; the definition of
    rcl_interfaces/ParameterEvent is not part of the repository. *)
Definition event_codec : Message ParameterEvent := {|
  dds_name := lit "rcl_interfaces::msg::dds_::ParameterEvent_";
  serialize ev := CdrWriter.write_string (ev_node ev);
  deserialize :=
    (let* s := CdrReader.read_string in mret (Some (mk_event (mk_time 0 0) s [] [] [])))
|}.
#[local] Existing Instance event_codec.

Definition values : gmap bytes ParameterValue :=
  {[ lit "a" := to_value_int64 1; lit "b" := default_value ]}.
(** A node whose event writer works, and one whose writer fails. *)
Definition good : ParameterCore WriterState := mk_core values (mk_writer_state [] 1 0) 0.
Definition bad : ParameterCore WriterState := mk_core values (mk_writer_state [] 1 (-1)) 0.
Definition p (name : bytes) (v : ParameterValue) : RclParameter := mk_parameter name (to_rcl_value v).
Definition two : gmap bytes ParameterValue := {[ lit "a.b" := default_value; lit "ab" := default_value ]}.
End ParamDemo.

#[local] Existing Instance ParamDemo.event_codec.
#[local] Existing Instance mock_writer.

Lemma list_parameters_witness :
  lit "a.b" ∈ fst (handle_list [lit "a"] 0 (mk_core ParamDemo.two tt 0)) <->
    lit "a.b" ∈ dom ParamDemo.two /\ exists q, q ∈ [lit "a"] /\ tokenize q `prefix_of` tokenize (lit "a.b").
Proof.
  apply (list_parameters [lit "a"] 0 (mk_core ParamDemo.two tt 0));
    [reflexivity|discriminate].
Defined.

Lemma parameter_store_witness :
  exists o c', declare 64 (lit "/n") (fun _ => 0%Z) (lit "c") (to_value_bool true) ParamDemo.bad = (o, c') /\
    (o = Ok tt \/ o = Throw InternalError) /\
    get (lit "c") c' = Ok (to_value_bool true) /\
    (lit "a" <> lit "c" -> get_or (lit "a") c' = get_or (lit "a") ParamDemo.bad) /\
    (Bool = NotSet -> o = Ok tt /\ events_pub c' = events_pub ParamDemo.bad).
Proof.
  apply (proj1 (proj2 (parameter_store 64 (lit "/n") (fun _ => 0%Z) ParamDemo.bad (lit "c") (lit "a") (to_value_bool true))));
    [discriminate|reflexivity].
Defined.

Lemma set_publishes_event_witness :
  exists c', snd (set 64 (lit "/n") (fun _ => 5000000007%Z) (lit "b") (to_value_int64 2) ParamDemo.good) = c' /\
    let ev := make_event (lit "/n") 5000000007 (lit "b") (to_value_int64 2) (NotSet =? NotSet)%Z in
    events_pub c' = snd (publish 64 ev (mk_writer_state [] 1 0)) /\ clock_reads c' = 1 /\
    ev_node ev = lit "/n" /\
    new_parameters ev ++ changed_parameters ev = [mk_parameter (lit "b") (to_rcl_value (to_value_int64 2))] /\
    (new_parameters ev = [] <-> NotSet <> NotSet) /\
    from_rcl_value (to_rcl_value (to_value_int64 2)) = to_value_int64 2.
Proof.
  apply (set_publishes_event 64 (lit "/n") (fun _ => 5000000007%Z) ParamDemo.good (lit "b") default_value (to_value_int64 2));
    [reflexivity|discriminate].
Defined.

Lemma set_parameters_service_witness :
  exists c', handle_set 64 (lit "/n") (fun _ => 0%Z)
      [ParamDemo.p (lit "a") (to_value_string (lit "x")); ParamDemo.p (lit "zz") (to_value_bool true)] ParamDemo.good =
      (Ok [mk_result true []; mk_result false (lit "parameter not declared")], c') /\
    handle_get [lit "a"] c' = [to_rcl_value (to_value_string (lit "x"))].
Proof.
  eexists. split; [vm_compute; reflexivity|].
  refine (proj1 (proj2 (proj2 (set_parameters_service 64 (lit "/n") (fun _ => 0%Z) ParamDemo.good _
    [ParamDemo.p (lit "a") (to_value_string (lit "x")); ParamDemo.p (lit "zz") (to_value_bool true)]
    [mk_result true []; mk_result false (lit "parameter not declared")] _)))
    [] (ParamDemo.p (lit "a") (to_value_string (lit "x"))) [ParamDemo.p (lit "zz") (to_value_bool true)] eq_refl _).
  - vm_compute. reflexivity.
  - apply (bool_decide_eq_true_1 (_ ∉ _)). vm_compute. reflexivity.
Defined.

Lemma set_parameters_atomically_witness :
  let ps := [ParamDemo.p (lit "a") (to_value_int64 7); ParamDemo.p (lit "b") (to_value_int64 8)] in
  exists o c', handle_set_atomically 64 (lit "/n") (fun _ => 0%Z) ps ParamDemo.bad = (o, c') /\
    ((~ (forall p, p ∈ ps -> is_Some (ParamDemo.values !! p_name p)) /\ c' = ParamDemo.bad /\
      o = Ok (mk_result false (lit "parameters not declared: " ++ undeclared_reason ParamDemo.bad ps))) \/
     ((forall p, p ∈ ps -> is_Some (ParamDemo.values !! p_name p)) /\
      ((o = Ok (mk_result true []) /\ values_ c' = foldl assign ParamDemo.values ps) \/
       (o = Throw InternalError /\
          exists k, k < length ps /\ values_ c' = foldl assign ParamDemo.values (take (S k) ps))))).
Proof. intros ps. apply (set_parameters_atomically 64 (lit "/n") (fun _ => 0%Z) ParamDemo.bad ps). Defined.

(** A request of two declared parameters whose second event is never sent: the
    first parameter is changed, the second is not, and there is no reply. *)
Example atomically_half_done :
  let r := handle_set_atomically 64 (lit "/n") (fun _ => 0%Z)
             [ParamDemo.p (lit "a") (to_value_int64 7); ParamDemo.p (lit "b") (to_value_int64 8)] ParamDemo.bad in
  fst r = Throw InternalError /\
  handle_get [lit "a"; lit "b"] (snd r) = [to_rcl_value (to_value_int64 7); to_rcl_value default_value].
Proof. split; vm_compute; reflexivity. Qed.

(** The descriptor says the type is fixed, yet a set changes it. *)
Example type_is_not_enforced :
  let r := set 64 (lit "/n") (fun _ => 0%Z) (lit "a") (to_value_string (lit "x")) ParamDemo.good in
  fst r = Ok true /\
  handle_describe [lit "a"] ParamDemo.good = [mk_descriptor (lit "a") Integer false] /\
  handle_describe [lit "a"] (snd r) = [mk_descriptor (lit "a") String false].
Proof. split_and!; vm_compute; reflexivity. Qed.
