(* ===== verification/ParamRpc.v ===== *)
(** The parameter services of a node as one server (src/src/rcllite/parameter.cpp):
    the six services of [ParameterCore::Impl] answer over the wire from one store,
    and what remote clients see of it refines a map.

    The request and response types come from rcl_interfaces, which is not part of
    the repository: a type is the fields the code reads or writes, its codec is an
    instance of [Message] and its promise [MessageLaws]. *)
From stdpp Require Import base tactics list numbers gmap functions.
From Stdlib Require Import ZArith Lia Strings.Byte Sorting.Sorted.
From S2P Require Import Prelude Bytes Cdr Message Qos RawSerdata DdsConfig Dds MockDds Pubsub Service Params.

(** The services, named by the classes of rcl_interfaces::srv. *)
Inductive param_service : Type :=
| DescribeParameters | GetParameterTypes | GetParameters | ListParameters
| SetParameters | SetParametersAtomically.

#[export] Instance param_service_eq_dec : EqDecision param_service.
Proof. solve_decision. Defined.

(** [names], [prefixes] and [depth], [parameters]. *)
Definition Request (k : param_service) : Type :=
  match k with
  | DescribeParameters | GetParameterTypes | GetParameters => list bytes
  | ListParameters => (list bytes * Z)%type
  | SetParameters | SetParametersAtomically => list RclParameter
  end.

(** [descriptors], [types], [values], [result.names] and [result.prefixes],
    [results], [result]. *)
Definition Response (k : param_service) : Type :=
  match k with
  | DescribeParameters => list ParameterDescriptor
  | GetParameterTypes => list Z
  | GetParameters => list RclParameterValue
  | ListParameters => (list bytes * list bytes)%type
  | SetParameters => list SetParametersResult
  | SetParametersAtomically => SetParametersResult
  end.

(** A handler that only reads. *)
Definition st_read {S A} (f : S -> A) : stM S A := fun s => (Ok (f s), s).

(* ------------------------------------------------------------------ *)
(** * The server *)

Section server.
Context {We Ws : Type} `{Message ParameterEvent} `{DdsWriter We} `{DdsWriter Ws} (bits : Z).
Context `{forall k, Message (Request k)} `{forall k, Message (Response k)}.
Variable node_name : bytes.
Variable clock : nat -> Z.

(** The callbacks the constructor passes to the services. *)
Definition callback (k : param_service) : Request k -> stM (ParameterCore We) (Response k) :=
  match k with
  | DescribeParameters => fun names => st_read (handle_describe names)
  | GetParameterTypes => fun names => st_read (handle_get_types names)
  | GetParameters => fun names => st_read (handle_get names)
  | ListParameters => fun req => st_read (handle_list (fst req) (snd req))
  | SetParameters => fun parameters => handle_set bits node_name clock parameters
  | SetParametersAtomically => fun parameters => handle_set_atomically bits node_name clock parameters
  end.

(** The store and the reply writers of the six services. *)
Record ParameterServer := mk_server { core : ParameterCore We; replies : param_service -> Ws }.

(** The service [k] takes a request. *)
Definition serve (k : param_service) (payload : bytes) (i : dds_sample_info) : stM ParameterServer unit := fun s =>
  let (o, srv) := on_request bits (callback k) payload i (mk_service (replies s k) (core s)) in
  (o, mk_server (srv_user srv) (<[k := reply_writer srv]> (replies s))).
End server.
Arguments ParameterServer : clear implicits.

(* ------------------------------------------------------------------ *)
(** * What a client may rely on *)

(** The answer to a request, and what becomes of the store, stated on the map of
    declared parameters. *)
Definition type_in (values : gmap bytes ParameterValue) (name : bytes) : Z :=
  from_option type NotSet (values !! name).

Definition set_result (values : gmap bytes ParameterValue) (p : RclParameter) : SetParametersResult :=
  if bool_decide (p_name p ∈ dom values) then mk_result true []
  else mk_result false (lit "parameter not declared").

(** [name] is asked for by a request without a depth limit. *)
Definition asked_for (prefixes : list bytes) (name : bytes) : Prop :=
  prefixes = [] \/ exists p, p ∈ prefixes /\ tokenize p `prefix_of` tokenize name.

Definition answers (values : gmap bytes ParameterValue) (k : param_service) :
  Request k -> Response k -> gmap bytes ParameterValue -> Prop :=
  match k with
  | DescribeParameters => fun names descriptors values' => values' = values /\
      descriptors = map (fun name => mk_descriptor name (type_in values name) false) names
  | GetParameterTypes => fun names types values' => values' = values /\ types = map (type_in values) names
  | GetParameters => fun names vs values' => values' = values /\
      vs = map (fun name => from_option to_rcl_value rcl_value_default (values !! name)) names
  | ListParameters => fun req resp values' => values' = values /\
      Sorted bytes_le (fst resp) /\ NoDup (fst resp) /\
      (forall name, name ∈ fst resp -> name ∈ dom values) /\
      (snd req = 0%Z -> forall name, name ∈ fst resp <-> name ∈ dom values /\ asked_for (fst req) name)
  | SetParameters => fun ps results values' =>
      values' = foldl assign values ps /\ results = map (set_result values) ps
  | SetParametersAtomically => fun ps result values' =>
      if bool_decide (Forall (fun p => p_name p ∈ dom values) ps)
      then result = mk_result true [] /\ values' = foldl assign values ps
      else successful result = false /\ values' = values
  end.

Lemma answers_dom values k req resp values' :
  answers values k req resp values' -> dom values' = dom values.
Proof.
  destruct k; simpl; [by intros [-> _]..| |].
  - intros [-> _]. apply assign_all_dom.
  - case_bool_decide; intros [_ ->]; [apply assign_all_dom|done].
Qed.

Section server_facts.
Context {We Ws : Type} `{Message ParameterEvent} `{DdsWriter We} (bits : Z).
Variable node_name : bytes.
Variable clock : nat -> Z.

Lemma type_of_in (c : ParameterCore We) name : type_of name c = type_in (values_ c) name.
Proof. unfold type_of, type_in. by destruct (values_ c !! name). Qed.

(** The callbacks answer as the map promises. *)
Lemma callback_answers (k : param_service) (req : Request k) (resp : Response k) (c c' : ParameterCore We) :
  callback bits node_name clock k req c = (Ok resp, c') -> answers (values_ c) k req resp (values_ c').
Proof.
  destruct k; simpl in *; unfold st_read.
  - intros [= <- <-]. split; [done|]. apply map_ext. intros name. by rewrite type_of_in.
  - intros [= <- <-]. split; [done|]. apply map_ext. intros name. apply type_of_in.
  - intros [= <- <-]. split; [done|]. apply map_ext. intros name. by destruct (values_ c !! name).
  - intros [= <- <-]. pose proof (list_parameters (fst req) (snd req) c) as Hl.
    destruct (handle_list (fst req) (snd req) c) as [names inner]. simpl.
    destruct Hl as (Hs & Hn & Hm & Hp & He & _). split_and!; [done|done|done|naive_solver|].
    intros Hd name. destruct (decide (fst req = [])) as [E|E].
    + rewrite (He Hd E). unfold asked_for. tauto.
    + rewrite (Hp Hd E). unfold asked_for. tauto.
  - intros E. by apply handle_set_spec in E as [Hv ->].
  - intros E. destruct (set_parameters_atomically bits node_name clock c req) as (o & c1 & E1 & Ho).
    rewrite E in E1. injection E1 as <- <-.
    assert (Hd : Forall (fun p => p_name p ∈ dom (values_ c)) req <->
                 forall p, p ∈ req -> is_Some (values_ c !! p_name p)).
    { rewrite Forall_forall. split; intros Hp p Hin; apply elem_of_dom, Hp; by apply list_elem_of_In. }
    rewrite <- Hd in Ho. case_bool_decide; naive_solver.
Qed.
End server_facts.

(* ------------------------------------------------------------------ *)
(** * Over the wire *)

Section wire.
Context {We Ws Wc Cb : Type} `{Message ParameterEvent} `{DdsWriter We} `{DdsWriterLaws Ws} `{DdsWriterLaws Wc}.
Context `{!forall k, Message (Request k)} `{!forall k, Message (Response k)}.
Context `{!forall k, MessageLaws (Request k)} `{!forall k, MessageLaws (Response k)}.
Variable bits : Z.
Variable node_name : bytes.
Variable clock : nat -> Z.
Implicit Types s : ParameterServer We Ws.

Notation serve := (serve bits node_name clock).
Notation callback := (callback bits node_name clock).

(** What an exchange assumes of its surroundings: the request and the response
    can be encoded, the handler returns, CycloneDDS accepts the two samples, and
    the other samples that reach the client do not concern it. *)
Record deliverable (k : param_service) (c : Client (Response k) Wc Cb)
    (run_callback : Cb -> Response k -> stM (Client (Response k) Wc Cb) unit) s (req : Request k)
    (resp : Response k) (core' : ParameterCore We) (wc : Wc) (ws : Ws) (before after : list bytes) : Prop := {
  id_range : in_u 64 (client_id_ c);
  request_valid : msg_valid req;
  response_valid : msg_valid resp;
  request_fits : wire_fits bits (encode_request (next_header c) req);
  reply_fits : wire_fits bits (encode_reply (next_header c) resp);
  handled : callback k req (core s) = (Ok resp, core');
  request_accepted : dds_writecdr (request_serdata (next_header c) req) (request_writer_ c) = (0%Z, wc);
  reply_accepted : dds_writecdr (reply_serdata (next_header c) resp) (replies s k) = (0%Z, ws);
  before_ignored : Forall (ignored run_callback (client_id_ c)) before;
  after_ignored : Forall (ignored run_callback (client_id_ c)) after
}.

(** One call of a parameter service: the server takes the request, its store is
    what the handler made of it, the other five services are untouched, and the
    call returns the handler's response. *)
Lemma remote_call k c run_callback s req resp core' wc ws before after address i :
  deliverable k c run_callback s req resp core' wc ws before after ->
  serve k (payload (request_serdata (next_header c) req)) i s =
    (Ok tt, mk_server core' (<[k := ws]> (replies s))) /\
  call bits req address
    (st_iter (fun p => on_reply run_callback p i)
       (before ++ payload (reply_serdata (next_header c) resp) :: after)) c =
  (Ok resp, mk_client (client_id_ c) (i64 (next_sequence_ c + 1)) wc
              (delete (i64 (next_sequence_ c + 1)) (pending_ c)) (delete address (promises c))).
Proof.
  intros [Hid Hreq Hresp Hf1 Hf2 Hcb Ewc Ews Hbef Haft]. split; [|by apply call_returns].
  unfold ParamRpc.serve.
  by rewrite (request_answered bits (callback k) _ _ resp core' i (mk_service (replies s k) (core s)) ws
                (next_header_valid c Hid) Hreq Hf1 Hf2 Hcb Ews).
Qed.

(** A session: clients, one after the other, call the services of the node. *)
Inductive session : ParameterServer We Ws -> list {k & (Request k * Response k)%type} ->
    ParameterServer We Ws -> Prop :=
| session_end s : session s [] s
| session_call k c run_callback s req resp core' wc ws before after address i d d' s1 answer c' xs s2 :
    deliverable k c run_callback s req resp core' wc ws before after ->
    written wc = written (request_writer_ c) ++ [d] ->
    serve k (payload d) i s = (Ok tt, s1) ->
    written (replies s1 k) = written (replies s k) ++ [d'] ->
    call bits req address (st_iter (fun p => on_reply run_callback p i) (before ++ payload d' :: after)) c
      = (Ok answer, c') ->
    session s1 xs s2 ->
    session s (existT k (req, answer) :: xs) s2.

(** The same session held with the map itself. *)
Inductive map_session : gmap bytes ParameterValue -> list {k & (Request k * Response k)%type} ->
    gmap bytes ParameterValue -> Prop :=
| map_session_end v : map_session v [] v
| map_session_call k req resp v v1 xs v2 :
    answers v k req resp v1 -> map_session v1 xs v2 -> map_session v (existT k (req, resp) :: xs) v2.


(** A handler that throws (an event could not be published) leaves its request
    unanswered: the server is as usable as before and has written no reply, the
    store is what the handler left, and the caller learns nothing but that its
    wait timed out. *)
Theorem failed_handler_unanswered k (c : Client (Response k) Wc Cb) run_callback s (req : Request k) e core'
    address i foreign (wc : Wc) :
  in_u 64 (client_id_ c) -> msg_valid req -> wire_fits bits (encode_request (next_header c) req) ->
  dds_writecdr (request_serdata (next_header c) req) (request_writer_ c) = (0%Z, wc) ->
  callback k req (core s) = (Throw e, core') ->
  pending_ c !! i64 (next_sequence_ c + 1) = None -> promises c !! address = None ->
  Forall (ignored run_callback (client_id_ c)) foreign ->
  (exists s', serve k (payload (request_serdata (next_header c) req)) i s = (Ok tt, s') /\
     core s' = core' /\ forall j, replies s' j = replies s j) /\
  call bits req address (st_iter (fun p => on_reply run_callback p i) foreign) c =
  (Throw WaitTimeout,
   mk_client (client_id_ c) (i64 (next_sequence_ c + 1)) wc (pending_ c) (promises c)).
Proof.
  intros Hid Hreq Hf Ew Hcb Hp Ha Hi. split.
  - unfold ParamRpc.serve.
    change (payload (request_serdata (next_header c) req)) with (padded (encode_request (next_header c) req)).
    rewrite on_request_spec by (done || by apply next_header_valid). simpl. rewrite Hcb.
    eexists. split_and!; [done|done|]. intros j. simpl.
    destruct (decide (j = k)) as [->|Hj]; [by rewrite fn_lookup_insert|by rewrite fn_lookup_insert_ne].
  - destruct (call_failure_cleans_up bits run_callback c req address i foreign Hf Hp Ha Hi) as (rc & w & Ew' & ->).
    rewrite Ew in Ew'. by injection Ew' as <- <-.
Qed.
End wire.

(* ------------------------------------------------------------------ *)
(** * A concrete server *)

(** Codecs from fields: what a codec writes it reads back, and it writes at
    least a byte. *)
Module RpcDemo.
Record codec (T : Type) := mk_codec {
  enc : T -> bytes -> bytes;
  dec : reader (option T);
  ok : T -> Prop;
  enc_reads t w : ok t -> has_header w -> reads dec w (Some t) (enc t w);
  enc_grows t w : ok t -> has_header w -> length w < length (enc t w)
}.
#[global] Arguments enc {T} _ _ _.
#[global] Arguments dec {T} _.
#[global] Arguments ok {T} _ _.

Definition string_codec : codec bytes :=
  mk_codec bytes CdrWriter.write_string (let* s := CdrReader.read_string in mret (Some s)) string_fits
    (fun s w Hs Hh => reads_some _ _ _ _ (reads_string s w Hs Hh)) (fun s w _ _ => write_string_grow s w).

Definition int64_codec : codec Z.
Proof.
  refine (mk_codec Z CdrWriter.write_int64 (let* z := CdrReader.read_int64 in mret (Some z)) (in_s 64) _ _).
  - intros t w Ht Hh. by apply reads_some, reads_int64.
  - intros t w Ht Hh. unfold CdrWriter.write_int64, CdrWriter.write_aligned, CdrWriter.write_bytes.
    rewrite length_app. unfold CdrWriter.align_to. rewrite length_app. simpl. lia.
Defined.

Definition pair_codec {A B} (a : codec A) (b : codec B) : codec (A * B).
Proof.
  refine (mk_codec (A * B) (fun t w => enc b (snd t) (enc a (fst t) w))
            (let* x := dec a in
             match x with
             | None => mret None
             | Some x => let* y := dec b in mret (pair x <$> y)
             end) (fun t => ok a (fst t) /\ ok b (snd t)) _ _).
  - intros [x y] w [Hx Hy] Hh. simpl in *. pose proof (enc_reads _ a x w Hx Hh) as R1.
    pose proof (has_header_reads _ _ _ _ R1 Hh) as Hh1.
    eapply reads_bind; [exact R1|]. cbn beta iota. eapply reads_bind; [by apply enc_reads|]. apply reads_ret.
  - intros [x y] w [Hx Hy] Hh. simpl in *. pose proof (enc_reads _ a x w Hx Hh) as R1.
    pose proof (has_header_reads _ _ _ _ R1 Hh) as Hh1.
    pose proof (enc_grows _ a x w Hx Hh). pose proof (enc_grows _ b y _ Hy Hh1). lia.
Defined.

Definition seq_codec {A} (a : codec A) : codec (list A).
Proof.
  refine (mk_codec (list A) (write_sequence (enc a)) (read_sequence (dec a))
            (fun v => Forall (ok a) v /\ in_u 32 (Z.of_nat (length v))) _ _).
  - intros v w [Hv Hl] Hh. by apply (reads_sequence _ _ (ok a) (enc_reads _ a) (enc_grows _ a)).
  - intros v w [Hv Hl] Hh. unfold write_sequence.
    set (w1 := CdrWriter.write_uint32 _ _).
    assert (length w < length w1 /\ has_header w1) as [Hw Hh1].
    { unfold w1, has_header in *. unfold CdrWriter.write_uint32, CdrWriter.write_aligned, CdrWriter.write_bytes, CdrWriter.align_to.
      rewrite !length_app. simpl. lia. }
    pose proof (write_elems_grow _ _ (ok a) (enc_reads _ a) (enc_grows _ a) v w1 Hv Hh1). lia.
Defined.

(** A type whose values of interest are coded by [A]. *)
Definition via_codec {A B} (a : codec A) (f : B -> A) (g : A -> B) : codec B.
Proof.
  refine (mk_codec B (fun b => enc a (f b)) (let* x := dec a in mret (g <$> x))
            (fun b => ok a (f b) /\ g (f b) = b) _ _).
  - intros b w [Hb Hg] Hh. pose proof (reads_map _ (fmap g) _ _ _ (enc_reads _ a (f b) w Hb Hh)) as R.
    simpl in R. by rewrite Hg in R.
  - intros b w [Hb _] Hh. by apply enc_grows.
Defined.

(** Of a value the type, the integer and the string; of a descriptor its name
    and type. *)
Definition value_codec : codec RclParameterValue :=
  via_codec (pair_codec int64_codec (pair_codec int64_codec string_codec))
    (fun v => (r_type v, (r_integer_value v, r_string_value v)))
    (fun x => mk_rcl_value (fst x) false (fst (snd x)) 0 (snd (snd x)) [] [] [] [] []).
Definition parameter_codec : codec RclParameter :=
  via_codec (pair_codec string_codec value_codec) (fun p => (p_name p, p_value p))
    (fun x => mk_parameter (fst x) (snd x)).
Definition result_codec : codec SetParametersResult :=
  via_codec (pair_codec int64_codec string_codec) (fun r => (Z.b2z (successful r), reason r))
    (fun x => mk_result (fst x =? 1)%Z (snd x)).
Definition descriptor_codec : codec ParameterDescriptor :=
  via_codec (pair_codec string_codec int64_codec) (fun d => (d_name d, d_type d))
    (fun x => mk_descriptor (fst x) (snd x) false).

Definition request_codec (k : param_service) : codec (Request k) :=
  match k with
  | DescribeParameters | GetParameterTypes | GetParameters => seq_codec string_codec
  | ListParameters => pair_codec (seq_codec string_codec) int64_codec
  | SetParameters | SetParametersAtomically => seq_codec parameter_codec
  end.
Definition response_codec (k : param_service) : codec (Response k) :=
  match k with
  | DescribeParameters => seq_codec descriptor_codec
  | GetParameterTypes => seq_codec int64_codec
  | GetParameters => seq_codec value_codec
  | ListParameters => pair_codec (seq_codec string_codec) (seq_codec string_codec)
  | SetParameters => seq_codec result_codec
  | SetParametersAtomically => result_codec
  end.

#[export] Instance request_msg k : Message (Request k) :=
  {| dds_name := lit "Request_"; serialize := enc (request_codec k); deserialize := dec (request_codec k) |}.
#[export] Instance response_msg k : Message (Response k) :=
  {| dds_name := lit "Response_"; serialize := enc (response_codec k); deserialize := dec (response_codec k) |}.
#[export] Instance request_laws k : MessageLaws (Request k) :=
  {| msg_valid := ok (request_codec k); message_roundtrip := enc_reads _ (request_codec k) |}.
#[export] Instance response_laws k : MessageLaws (Response k) :=
  {| msg_valid := ok (response_codec k); message_roundtrip := enc_reads _ (response_codec k) |}.

Definition writer : WriterState := mk_writer_state [] 1 0.
Definition server (c : ParameterCore WriterState) : ParameterServer WriterState WriterState :=
  mk_server c (fun _ => writer).
Definition client (k : param_service) (id : Z) : Client (Response k) WriterState unit := mk_client id 0 writer ∅ ∅.
Definition ignore k (_ : unit) (_ : Response k) : stM (Client (Response k) WriterState unit) unit := mret tt.

(** A request to assign a declared and an undeclared parameter, and its answer. *)
Definition assignments : Request SetParameters :=
  [ParamDemo.p (lit "a") (to_value_string (lit "x")); ParamDemo.p (lit "zz") (to_value_int64 3)].
Definition assigned : Response SetParameters :=
  [mk_result true []; mk_result false (lit "parameter not declared")].
Definition read_back : Response GetParameters := [to_rcl_value (to_value_string (lit "x")); rcl_value_default].
Definition exchanges : list {k & (Request k * Response k)%type} :=
  [existT SetParameters (assignments, assigned); existT GetParameters ([lit "a"; lit "b"], read_back)].

#[local] Existing Instance ParamDemo.event_codec.
#[local] Existing Instance mock_writer.

(** The server after it has answered the client [id]. *)
Definition served k id (req : Request k) (resp : Response k) (s : ParameterServer WriterState WriterState) :=
  mk_server (snd (callback 64 (lit "/n") (fun _ => 0%Z) k req (core s)))
    (<[k := snd (dds_writecdr (reply_serdata (mk_header id 1) resp) (replies s k))]> (replies s)).
Definition after_set := served SetParameters 7 assignments assigned (server ParamDemo.good).
Definition after_get := served GetParameters 8 [lit "a"; lit "b"] read_back after_set.
End RpcDemo.

#[local] Existing Instance ParamDemo.event_codec.
#[local] Existing Instance mock_writer.
#[local] Existing Instance mock_writer_laws.
Import RpcDemo.

Ltac wire_by_compute := split; [split; [discriminate|reflexivity]|reflexivity].
Ltac valid_by_compute := repeat constructor; solve [discriminate | reflexivity].


(** An assignment whose event cannot be published: the caller times out, and
    the parameter has the new value nevertheless. *)
Lemma failed_handler_unanswered_witness :
  let r := callback 64 (lit "/n") (fun _ => 0%Z) SetParameters assignments ParamDemo.bad in
  call 64 assignments 1000 (st_iter (fun p => on_reply (ignore SetParameters) p (mk_info true)) []) (client SetParameters 7) =
  (Throw WaitTimeout, mk_client 7 1 (mk_writer_state [request_serdata (mk_header 7 1) assignments] 1 0) ∅ ∅) /\
  handle_get [lit "a"] (snd r) = [to_rcl_value (to_value_string (lit "x"))].
Proof.
  intros r. split; [|vm_compute; reflexivity].
  refine (proj2 (failed_handler_unanswered (Cb := unit) 64 (lit "/n") (fun _ => 0%Z) SetParameters
           (client SetParameters 7) (ignore SetParameters) (server ParamDemo.bad) assignments InternalError (snd r)
           1000 (mk_info true) [] (mk_writer_state [request_serdata (mk_header 7 1) assignments] 1 0) _ _ _ _ _ _ _ _));
    [valid_by_compute|valid_by_compute|wire_by_compute|reflexivity|vm_compute; reflexivity|reflexivity|reflexivity|constructor].
Defined.
