(* ===== verification/ParamThreads.v ===== *)
(** The parameter store used by several threads (src/src/rcllite/parameter.cpp).
    Every function of [ParameterCore::Impl] holds [mtx_] for the whole of what it
    does to the store, except [handle_set], which takes it once per parameter, and
    [handle_set_atomically], which takes it for the check and then once per
    parameter.  A thread is the sections it still has to run; a step is a section
    of one thread. *)
From stdpp Require Import base tactics list numbers gmap.
From Stdlib Require Import ZArith Lia Strings.Byte.
From S2P Require Import Prelude Bytes Cdr Message Qos RawSerdata DdsConfig Dds MockDds Pubsub Params.

(** What a thread is doing: one constructor per point between two sections. *)
Inductive activity : Type :=
| Declaring (name : bytes) (default_value : ParameterValue)
| Setting (name : bytes) (value : ParameterValue)
| Getting (names : list bytes)
| Assigning (parameters : list RclParameter) (results : list SetParametersResult)   (* in handle_set *)
| Checking (parameters : list RclParameter)       (* handle_set_atomically, before the check *)
| Applying (parameters : list RclParameter)       (* after it: what is left to set *)
| Declared
| WasSet (ok : bool)
| Got (values : list RclParameterValue)
| Assigned (results : list SetParametersResult)
| Applied (result : SetParametersResult)
| Failed (e : exn).

(** Has the call returned or thrown? *)
Definition finished (t : activity) : bool :=
  match t with
  | Declared | WasSet _ | Got _ | Assigned _ | Applied _ | Failed _ => true
  | _ => false
  end.

Section threads.
Context {W : Type} `{Message ParameterEvent} `{DdsWriter W} (bits : Z).
Variable node_name : bytes.
Variable clock : nat -> Z.

Notation declare := (declare bits node_name clock).
Notation set := (set bits node_name clock).
Notation handle_set := (handle_set bits node_name clock).
Notation handle_set_atomically := (handle_set_atomically bits node_name clock).

(** The next section; a finished thread has none. *)
Definition section (t : activity) : stM (ParameterCore W) activity :=
  match t with
  | Declaring name v => let* _ := declare name v in mret Declared
  | Setting name v => let* ok := set name v in mret (WasSet ok)
  | Getting names => fun c => (Ok (Got (handle_get names c)), c)
  | Assigning (p :: ps) rs =>
      let* ok := set (p_name p) (from_rcl_value (p_value p)) in
      mret (Assigning ps (rs ++ [mk_result ok (if ok then [] else lit "parameter not declared")]))
  | Assigning [] rs => mret (Assigned rs)
  | Checking ps =>
      let* c := st_get in
      if negb (all_declared c ps)
      then mret (Applied (mk_result false (lit "parameters not declared: " ++ undeclared_reason c ps)))
      else mret (Applying ps)
  | Applying (p :: ps) => let* _ := set (p_name p) (from_rcl_value (p_value p)) in mret (Applying ps)
  | Applying [] => mret (Applied (mk_result true []))
  | t => mret t
  end.

Definition system : Type := ParameterCore W * list activity.

(** What the next section of a thread changes in the store, if anything. *)
Definition changes_of (t : activity) (c : ParameterCore W) : list (bytes * ParameterValue) :=
  match t with
  | Declaring name v =>
      if bool_decide (name <> [] /\ values_ c !! name = None) then [(name, v)] else []
  | Setting name v => if bool_decide (is_Some (values_ c !! name)) then [(name, v)] else []
  | Assigning (p :: _) _ | Applying (p :: _) =>
      if bool_decide (is_Some (values_ c !! p_name p)) then [(p_name p, from_rcl_value (p_value p))] else []
  | _ => []
  end.

(** A thread runs its next section; an exception leaves its call. *)
Inductive store_step (i : nat) : list (bytes * ParameterValue) -> system -> system -> Prop :=
| step_section c ts t t' c' :
    ts !! i = Some t -> finished t = false -> section t c = (Ok t', c') ->
    store_step i (changes_of t c) (c, ts) (c', <[i := t']> ts)
| step_throw c ts t e c' :
    ts !! i = Some t -> finished t = false -> section t c = (Throw e, c') ->
    store_step i (changes_of t c) (c, ts) (c', <[i := Failed e]> ts).

(** A run, with the changes made to the store and the threads that made them. *)
Inductive run (start : system) : list (nat * (bytes * ParameterValue)) -> system -> Prop :=
| run_start : run start [] start
| run_step log i changes s s' :
    run start log s -> store_step i changes s s' -> run start (log ++ map (pair i) changes) s'.

(** A thread that nothing interrupts. *)
Fixpoint alone (n : nat) (t : activity) : stM (ParameterCore W) activity :=
  match n with
  | O => mret t
  | S n => if finished t then mret t else let* t' := section t in alone n t'
  end.

(* ------------------------------------------------------------------ *)
(** * Uninterrupted calls *)

Lemma alone_Assigning ps : forall rs c,
  alone (S (length ps)) (Assigning ps rs) c =
  (let* rs' := handle_set ps in mret (Assigned (rs ++ rs'))) c.
Proof.
  induction ps as [|p ps IH]; intros rs c.
  { unfold mbind, stM_bind. simpl. by rewrite app_nil_r. }
  change (alone (S (length (p :: ps))) (Assigning (p :: ps) rs) c) with
    ((let* t' := section (Assigning (p :: ps) rs) in alone (S (length ps)) t') c).
  cbn [section Params.handle_set]. unfold mbind, stM_bind in *.
  destruct (set _ _ c) as [[ok|e|] c1]; [|done|done].
  transitivity (alone (S (length ps)) (Assigning ps (rs ++ [mk_result ok (if ok then [] else lit "parameter not declared")])) c1); [done|].
  rewrite IH. destruct (handle_set ps c1) as [[rs'|e|] c2]; [|done|done]. unfold mret, stM_ret. by rewrite <- app_assoc.
Qed.

Lemma alone_Applying ps : forall c,
  alone (S (length ps)) (Applying ps) c =
  (let* _ := st_iter (fun p => let* _ := set (p_name p) (from_rcl_value (p_value p)) in mret tt) ps in
   mret (Applied (mk_result true []))) c.
Proof.
  induction ps as [|p ps IH]; intros c; [done|].
  change (alone (S (length (p :: ps))) (Applying (p :: ps)) c) with
    ((let* t' := section (Applying (p :: ps)) in alone (S (length ps)) t') c).
  cbn [section st_iter]. unfold mbind, stM_bind in *.
  destruct (set _ _ c) as [[ok|e|] c1]; [|done|done]. apply IH.
Qed.

(** The handlers are what their sections do when no other thread runs. *)
Lemma alone_handlers ps c :
  alone (S (length ps)) (Assigning ps []) c = (let* rs := handle_set ps in mret (Assigned rs)) c /\
  alone (S (S (length ps))) (Checking ps) c = (let* r := handle_set_atomically ps in mret (Applied r)) c.
Proof.
  split; [apply alone_Assigning|].
  change (alone (S (S (length ps))) (Checking ps) c) with
    ((let* t' := section (Checking ps) in alone (S (length ps)) t') c).
  unfold handle_set_atomically. simpl section. unfold st_get, mbind, stM_bind.
  destruct (all_declared c ps); simpl negb; cbn iota; [|done].
  pose proof (alone_Applying ps c) as E. unfold mbind, stM_bind in E. simpl in E |- *.
  rewrite E. by destruct (st_iter _ ps c) as [[]].
Qed.

(* ------------------------------------------------------------------ *)
(** * One section *)

Definition write (values : gmap bytes ParameterValue) (ch : bytes * ParameterValue) : gmap bytes ParameterValue :=
  <[ch.1 := ch.2]> values.

(** The parameters an event carries. *)
Definition subjects (ev : ParameterEvent) : list (bytes * ParameterValue) :=
  map (fun p => (p_name p, from_rcl_value (p_value p))) (new_parameters ev ++ changed_parameters ev).

(** The changes that are announced. *)
Definition announced (ch : bytes * ParameterValue) : bool := negb (type ch.2 =? NotSet)%Z.

Definition publish_all (evs : list ParameterEvent) (w : W) : W :=
  foldl (fun w ev => snd (publish bits ev w)) w evs.

(** [m] makes the changes [chs] and announces them in the same order. *)
Definition makes_changes {A} (chs : list (bytes * ParameterValue)) (c : ParameterCore W)
    (r : outcome A * ParameterCore W) : Prop :=
  r.1 <> Undefined /\ values_ r.2 = foldl write (values_ c) chs /\
  exists evs, events_pub r.2 = publish_all evs (events_pub c) /\
    concat (map subjects evs) = List.filter announced chs.

Lemma makes_nothing {A} (o : outcome A) c : o <> Undefined -> makes_changes [] c (o, c).
Proof. intros Ho. split; [done|]. split; [done|]. by exists []. Qed.

Lemma makes_map {A B} (m : stM (ParameterCore W) A) (f : A -> B) chs c c0 :
  makes_changes chs c (m c0) -> makes_changes chs c ((let* a := m in mret (f a)) c0).
Proof. unfold makes_changes, mbind, stM_bind. intros [Ho Hr]. by destruct (m c0) as [[a|e|] c1]. Qed.

Lemma publish_event_makes name value is_new c :
  makes_changes [(name, value)] c
    ((if announced (name, value) then publish_event_locked bits node_name clock name value is_new else mret tt)
       (set_values (<[name := value]> (values_ c)) c)).
Proof.
  unfold makes_changes. simpl List.filter. destruct (announced (name, value)).
  - destruct (publish_event_spec bits node_name clock name value is_new (set_values (<[name := value]> (values_ c)) c))
      as (w & Ho & Hw).
    assert (Hev : concat (map subjects [make_event node_name (clock (clock_reads c)) name value is_new]) = [(name, value)]).
    { unfold subjects. destruct is_new; simpl; by rewrite from_to_rcl_value. }
    destruct Ho as [-> | ->]; (split; [done|]); (split; [done|]);
      exists [make_event node_name (clock (clock_reads c)) name value is_new]; exact (conj (eq_sym Hw) Hev).
  - simpl. split; [done|]. split; [done|]. by exists [].
Qed.

Lemma set_makes name value c :
  makes_changes (if bool_decide (is_Some (values_ c !! name)) then [(name, value)] else []) c (set name value c) /\
  forall ok, (set name value c).1 = Ok ok -> ok = bool_decide (is_Some (values_ c !! name)).
Proof.
  pose proof (set_effect bits node_name clock name value c) as Hs.
  destruct (values_ c !! name) as [old|] eqn:E.
  - rewrite bool_decide_true by eauto. split.
    + unfold Params.set, st_get. unfold mbind at 1, stM_bind at 1. rewrite E.
      unfold mbind at 1, stM_bind at 1. unfold st_modify.
      apply (makes_map _ (fun _ => true)). apply publish_event_makes.
    + destruct Hs as (o & c' & -> & _ & [->|[-> _]]); naive_solver.
  - rewrite bool_decide_false by (intros [? ?]; done). rewrite Hs. split; [by apply makes_nothing|].
    by intros ok [= <-].
Qed.

Lemma declare_makes name value c :
  makes_changes (if bool_decide (name <> [] /\ values_ c !! name = None) then [(name, value)] else []) c (declare name value c).
Proof.
  unfold Params.declare. destruct (decide (name = [])) as [->|Hn].
  { rewrite (bool_decide_false (_ /\ _)) by naive_solver. by apply makes_nothing. }
  rewrite (bool_decide_false (name = [])) by done. unfold st_get. unfold mbind at 1, stM_bind at 1.
  destruct (values_ c !! name) as [v|] eqn:E.
  - rewrite bool_decide_false by naive_solver. by apply makes_nothing.
  - rewrite bool_decide_true by naive_solver. unfold mbind at 1, stM_bind at 1. unfold st_modify.
    apply publish_event_makes.
Qed.

(** A section makes the changes [changes_of] lists and is defined. *)
Lemma section_makes t c : makes_changes (changes_of t c) c (section t c).
Proof.
  destruct t as [name v|name v|names|[|p ps] rs|ps|[|p ps]| | | | | |]; simpl section; simpl changes_of;
    try (by apply makes_nothing).
  - apply (makes_map _ (fun _ => Declared)), declare_makes.
  - apply (makes_map _ WasSet), set_makes.
  - apply (makes_map _ (fun ok : bool => Assigning ps (rs ++
             [mk_result ok (if ok then [] else lit "parameter not declared")]))), set_makes.
  - unfold st_get, mbind, stM_bind. destruct (negb _); by apply makes_nothing.
  - apply (makes_map _ (fun _ => Applying ps)), set_makes.
Qed.

Lemma write_grows chs values : dom values ⊆ dom (foldl write values chs).
Proof.
  revert values. induction chs as [|ch chs IH]; intros values; [done|]. simpl.
  etrans; [|apply IH]. unfold write. rewrite dom_insert_L. set_solver.
Qed.

(* ------------------------------------------------------------------ *)
(** * Whole runs *)

(** The change an assignment of the request stands for. *)
Definition change_of (p : RclParameter) : bytes * ParameterValue := (p_name p, from_rcl_value (p_value p)).

(** The changes of thread [i]. *)
Definition made_by (i : nat) (log : list (nat * (bytes * ParameterValue))) : list (bytes * ParameterValue) :=
  map snd (List.filter (fun e => e.1 =? i) log).

(** How far a request for atomic assignment can have come: [mine] is what it has
    changed so far, [names] the declared names. *)
Inductive atomic_progress (ps : list RclParameter) (names : gset bytes) : list (bytes * ParameterValue) -> activity -> Prop :=
| at_check : atomic_progress ps names [] (Checking ps)
| at_assignment before left :
    ps = before ++ left -> Forall (fun p => p_name p ∈ names) ps ->
    atomic_progress ps names (map change_of before) (Applying left)
| at_success : atomic_progress ps names (map change_of ps) (Applied (mk_result true []))
| at_refusal reason : atomic_progress ps names [] (Applied (mk_result false reason))
| at_exception before left e :
    ps = before ++ left -> before <> [] -> atomic_progress ps names (map change_of before) (Failed e).

(** The same of a request of [handle_set]: the answers given so far say exactly
    which of the assignments were made. *)
Definition reported (ps : list RclParameter) (rs : list SetParametersResult) : list (bytes * ParameterValue) :=
  map (fun pr => change_of pr.1) (List.filter (fun pr => successful pr.2) (zip ps rs)).

Inductive each_progress (ps : list RclParameter) : list (bytes * ParameterValue) -> activity -> Prop :=
| each_assignment before left rs :
    ps = before ++ left -> length rs = length before ->
    each_progress ps (reported before rs) (Assigning left rs)
| each_done rs : length rs = length ps -> each_progress ps (reported ps rs) (Assigned rs)
| each_exception before p left rs e :
    ps = before ++ p :: left -> length rs = length before ->
    each_progress ps (reported before rs ++ [change_of p]) (Failed e).

Lemma made_by_step i j log chs :
  made_by i (log ++ map (pair j) chs) = made_by i log ++ (if j =? i then chs else []).
Proof.
  unfold made_by. rewrite List.filter_app, map_app. f_equal.
  induction chs as [|ch chs IH]; simpl; [by destruct (j =? i)|].
  destruct (j =? i) eqn:E; simpl; by rewrite IH.
Qed.

Lemma atomic_progress_mono ps names names' mine t :
  names ⊆ names' -> atomic_progress ps names mine t -> atomic_progress ps names' mine t.
Proof.
  intros Hn [|before left Hps Hd| |reason|before left e Hps Hb]; econstructor; eauto.
  eapply List.Forall_impl; [|exact Hd]. simpl. intros p Hp. by apply Hn.
Qed.

(** A section advances its own request. *)
Lemma atomic_section ps c mine t o c' :
  atomic_progress ps (dom (values_ c)) mine t -> finished t = false -> section t c = (o, c') ->
  atomic_progress ps (dom (values_ c')) (mine ++ changes_of t c)
    (match o with Ok t' => t' | Throw e => Failed e | Undefined => t end).
Proof.
  intros Hp Hf Es. pose proof (section_makes t c) as (Hu & Hv & _). rewrite Es in Hu, Hv. simpl in Hu, Hv.
  pose proof (write_grows (changes_of t c) (values_ c)) as Hg. rewrite <- Hv in Hg.
  destruct Hp as [|before left Hps Hd| |reason|before left e Hps Hb]; try discriminate Hf.
  - simpl in Es |- *. unfold st_get, mbind, stM_bind in Es.
    destruct (all_declared c ps) eqn:Ea; injection Es as <- <-; [|constructor].
    change (@nil (bytes * ParameterValue)) with (map change_of []). econstructor; [done|].
    unfold all_declared in Ea. rewrite forallb_forall in Ea. apply List.Forall_forall. intros p Hp.
    apply elem_of_dom. eapply bool_decide_eq_true_1. by apply Ea.
  - destruct left as [|p left].
    + injection Es as <- <-. rewrite app_nil_r in Hps. subst. simpl. rewrite app_nil_r. constructor.
    + assert (Hin : is_Some (values_ c !! p_name p)).
      { apply elem_of_dom. rewrite List.Forall_forall in Hd. apply Hd. rewrite Hps. apply in_elt. }
      simpl changes_of in *. rewrite bool_decide_true in * by done.
      replace (map change_of before ++ [(p_name p, from_rcl_value (p_value p))]) with (map change_of (before ++ [p]))
        by by rewrite map_app.
      assert (Hps' : ps = (before ++ [p]) ++ left) by by rewrite <- app_assoc.
      assert (Hd' : Forall (fun p => p_name p ∈ dom (values_ c')) ps).
      { eapply List.Forall_impl; [|exact Hd]. simpl. intros q Hq. by apply Hg. }
      simpl in Es. apply st_bind_inv in Es as [(ok & c1 & _ & E)|[(e & _ & ->)|[_ ->]]]; [| |done].
      * injection E as <- <-. by econstructor.
      * econstructor; [done|]. by destruct before.
Qed.
Lemma reported_snoc before rs p ok reason :
  length rs = length before ->
  reported (before ++ [p]) (rs ++ [mk_result ok reason]) = reported before rs ++ (if ok then [change_of p] else []).
Proof.
  intros Hl. unfold reported. rewrite zip_with_app, List.filter_app, map_app by done.
  by destruct ok.
Qed.

Lemma each_section ps c mine t o c' :
  each_progress ps mine t -> finished t = false -> section t c = (o, c') ->
  each_progress ps (mine ++ changes_of t c)
    (match o with Ok t' => t' | Throw e => Failed e | Undefined => t end).
Proof.
  intros Hp Hf Es. destruct Hp as [before left rs Hps Hl|rs Hl|before p left rs e Hps Hl]; try discriminate Hf.
  destruct left as [|p left].
  - injection Es as <- <-. rewrite app_nil_r in Hps. subst. simpl. rewrite app_nil_r. by constructor.
  - simpl in Es |- *. pose proof (set_makes (p_name p) (from_rcl_value (p_value p)) c) as [[Hu _] Hok].
    pose proof (set_effect bits node_name clock (p_name p) (from_rcl_value (p_value p)) c) as Hs.
    apply st_bind_inv in Es as [(ok & c1 & E1 & E)|[(e & E1 & ->)|[E1 ->]]];
      rewrite E1 in Hu, Hok, Hs; simpl in Hu, Hok; [| |done].
    + injection E as <- <-. specialize (Hok ok eq_refl). subst ok.
      rewrite <- (reported_snoc before rs p _
                    (if bool_decide (is_Some (values_ c !! p_name p)) then [] else lit "parameter not declared")) by done.
      apply each_assignment; [by rewrite <- app_assoc|]. rewrite !length_app. simpl. lia.
    + destruct (values_ c !! p_name p); [|done]. rewrite bool_decide_true by eauto. by econstructor.
Qed.

(** A request of thread [i] keeps its progress when a section of any thread runs. *)
Lemma progress_step (P : list (bytes * ParameterValue) -> activity -> Prop) i j log chs c ts c' ts' t :
  store_step j chs (c, ts) (c', ts') -> ts !! i = Some t ->
  (forall o, section t c = (o, c') -> finished t = false ->
     P (made_by i log ++ changes_of t c) (match o with Ok t' => t' | Throw e => Failed e | Undefined => t end)) ->
  P (made_by i log) t ->
  exists t', ts' !! i = Some t' /\ P (made_by i (log ++ map (pair j) chs)) t'.
Proof.
  intros Hst Hi Hown Hother. rewrite made_by_step. pose proof (lookup_lt_Some _ _ _ Hi) as Hlt.
  inversion Hst as [? ? t0 t1 ? Hj Hf Es|? ? t0 e ? Hj Hf Es]; subst;
    (destruct (Nat.eqb_spec j i) as [->|Hne];
     [rewrite Hi in Hj; injection Hj as ->; rewrite list_lookup_insert_eq by done;
      eexists; split; [done|]; by apply (Hown _ Es)
     |rewrite list_lookup_insert_ne by done; rewrite app_nil_r; eauto]).
Qed.

(** C33: the store under concurrency.  However the sections of any number of
    threads interleave, the values of the store are those of the changes made,
    in order, and the events went out in the same order, as the lock is held
    while an event is published; no declared parameter disappears.  A request for
    atomic assignment that passed its check finds every parameter still declared,
    so that answering without looking at the results of [set] is right: it has
    made the changes of a prefix of its request, all of them when it answers
    success, none when it refuses.  A request of [handle_set] has made exactly
    the changes it reports. *)
Theorem concurrent_store c0 ts0 log c ts :
  run (c0, ts0) log (c, ts) ->
  values_ c = foldl write (values_ c0) (map snd log) /\
  (exists evs, events_pub c = publish_all evs (events_pub c0) /\
     concat (map subjects evs) = List.filter announced (map snd log)) /\
  dom (values_ c0) ⊆ dom (values_ c) /\
  (forall i ps, ts0 !! i = Some (Checking ps) ->
     exists t, ts !! i = Some t /\ atomic_progress ps (dom (values_ c)) (made_by i log) t) /\
  (forall i ps, ts0 !! i = Some (Assigning ps []) ->
     exists t, ts !! i = Some t /\ each_progress ps (made_by i log) t).
Proof.
  intros Hr. remember (c0, ts0) as s0 eqn:E0. remember (c, ts) as s eqn:E. revert c ts E.
  induction Hr as [|log j chs [c1 ts1] s' Hr IH Hst]; intros c ts E; subst.
  - injection E as <- <-. split_and!; [done|by exists []|done| |]; intros i ps Hi; eexists; (split; [done|]).
    + constructor.
    + apply (each_assignment ps [] ps []); done.
  - destruct (IH c1 ts1 eq_refl) as (Hv & (evs & Hw & Hev) & Hd & Ha & He).
    assert (exists t o, changes_of t c1 = chs /\ section t c1 = (o, c)) as (t & o & Hc & Es).
    { inversion Hst; subst; eauto. }
    pose proof (section_makes t c1) as (_ & Hv1 & evs1 & Hw1 & Hev1). rewrite Es, Hc in *. simpl in Hv1, Hw1.
    pose proof (write_grows chs (values_ c1)) as Hg. rewrite <- Hv1 in Hg.
    split_and!.
    + by rewrite map_app, map_map, map_id, foldl_app, <- Hv.
    + exists (evs ++ evs1). unfold publish_all in *.
      rewrite foldl_app, <- Hw, map_app, concat_app, Hev, Hev1, map_app, List.filter_app, map_map, map_id. done.
    + by etrans.
    + intros i ps Hi. destruct (Ha i ps Hi) as (ti & Hti & Hp).
      apply (progress_step (atomic_progress ps (dom (values_ c))) i j log chs _ _ _ _ ti Hst Hti).
      * intros o1 Es1 Hf. by apply (atomic_section ps c1).
      * by eapply atomic_progress_mono.
    + intros i ps Hi. destruct (He i ps Hi) as (ti & Hti & Hp).
      apply (progress_step (each_progress ps) i j log chs _ _ _ _ ti Hst Hti); [|done].
      intros o1 Es1 Hf. by eapply each_section.
Qed.

(** No interleaving gets stuck or undefined: a call that has not returned can
    run its next section. *)
Lemma store_progress c ts i t :
  ts !! i = Some t -> finished t = false -> exists chs s', store_step i chs (c, ts) s'.
Proof.
  intros Hi Hf. pose proof (section_makes t c) as [Hu _].
  destruct (section t c) as [[t'|e|] c'] eqn:E; [| |done]; do 2 eexists; [by eapply step_section|by eapply step_throw].
Qed.

(** The steps in the order of a schedule. *)
Definition step_of (i : nat) (s : system) : option (list (bytes * ParameterValue) * system) :=
  match s.2 !! i with
  | None => None
  | Some t =>
      if finished t then None
      else match section t s.1 with
           | (Ok t', c') => Some (changes_of t s.1, (c', <[i := t']> s.2))
           | (Throw e, c') => Some (changes_of t s.1, (c', <[i := Failed e]> s.2))
           | (Undefined, _) => None
           end
  end.

Fixpoint scheduled (schedule : list nat) (log : list (nat * (bytes * ParameterValue))) (s : system)
  : option (list (nat * (bytes * ParameterValue)) * system) :=
  match schedule with
  | [] => Some (log, s)
  | i :: schedule =>
      match step_of i s with
      | None => None
      | Some (chs, s') => scheduled schedule (log ++ map (pair i) chs) s'
      end
  end.

Lemma scheduled_run start schedule : forall log s log' s',
  run start log s -> scheduled schedule log s = Some (log', s') -> run start log' s'.
Proof.
  induction schedule as [|i schedule IH]; intros log s log' s' Hr E; simpl in E; [by injection E as <- <-|].
  destruct (step_of i s) as [[chs s1]|] eqn:E1; [|done]. eapply IH; [|exact E].
  apply (run_step start log i chs s s1 Hr). destruct s as [c ts]. unfold step_of in E1. simpl in E1.
  destruct (ts !! i) as [t|] eqn:Hi; [|done]. destruct (finished t) eqn:Hf; [done|].
  destruct (section t c) as [[t'|e|] c'] eqn:Es; [| |done]; injection E1 as <- <-;
    [by apply step_section|by apply step_throw].
Qed.
End threads.

(* ------------------------------------------------------------------ *)
(** * Two requests for atomic assignment *)

Module ThreadsDemo.
#[local] Existing Instance ParamDemo.event_codec.
#[local] Existing Instance mock_writer.

Definition both (v : Z) : list RclParameter :=
  [ParamDemo.p (lit "a") (to_value_int64 v); ParamDemo.p (lit "b") (to_value_int64 v)].
Definition start : ParameterCore WriterState * list activity :=
  (ParamDemo.good, [Checking (both 7); Checking (both 8)]).
(** The second request sets both parameters between the two assignments of the
    first. *)
Definition interleaved : list nat := [0; 1; 0; 1; 1; 0; 0; 1].
Definition outcome_of (schedule : list nat) :=
  scheduled 64 (lit "/n") (fun _ => 0%Z) schedule [] start.
Definition final (schedule : list nat) : ParameterCore WriterState * list activity :=
  from_option snd start (outcome_of schedule).
Definition log_of (schedule : list nat) := from_option fst [] (outcome_of schedule).
End ThreadsDemo.

#[local] Existing Instance ParamDemo.event_codec.
#[local] Existing Instance mock_writer.

(** Both requests are answered with success, yet the store holds [a] of one and
    [b] of the other: neither was atomic. *)
Theorem atomic_requests_interleave :
  run 64 (lit "/n") (fun _ => 0%Z) ThreadsDemo.start (ThreadsDemo.log_of ThreadsDemo.interleaved)
    (ThreadsDemo.final ThreadsDemo.interleaved) /\
  snd (ThreadsDemo.final ThreadsDemo.interleaved) =
    [Applied (mk_result true []); Applied (mk_result true [])] /\
  values_ (fst (ThreadsDemo.final ThreadsDemo.interleaved)) =
    {[ lit "a" := to_value_int64 8; lit "b" := to_value_int64 7 ]}.
Proof.
  split; [|split; vm_compute; reflexivity].
  apply (scheduled_run 64 (lit "/n") (fun _ => 0%Z) _ ThreadsDemo.interleaved [] ThreadsDemo.start);
    [constructor|vm_compute; reflexivity].
Qed.

Lemma concurrent_store_witness :
  atomic_progress (ThreadsDemo.both 7) {[ lit "a"; lit "b" ]}
    (made_by 0 (ThreadsDemo.log_of ThreadsDemo.interleaved)) (Applied (mk_result true [])) /\
  made_by 0 (ThreadsDemo.log_of ThreadsDemo.interleaved) = [(lit "a", to_value_int64 7); (lit "b", to_value_int64 7)].
Proof.
  destruct (concurrent_store 64 (lit "/n") (fun _ => 0%Z) ParamDemo.good (snd ThreadsDemo.start)
              (ThreadsDemo.log_of ThreadsDemo.interleaved)
              (fst (ThreadsDemo.final ThreadsDemo.interleaved)) (snd (ThreadsDemo.final ThreadsDemo.interleaved)))
    as (_ & _ & _ & Ha & _).
  - apply (scheduled_run 64 (lit "/n") (fun _ => 0%Z) _ ThreadsDemo.interleaved [] ThreadsDemo.start);
      [constructor|vm_compute; reflexivity].
  - split; [|vm_compute; reflexivity].
    destruct (Ha 0 (ThreadsDemo.both 7) eq_refl) as (t & Ht & Hp).
    assert (t = Applied (mk_result true [])) as -> by (vm_compute in Ht; congruence).
    replace {[ lit "a"; lit "b" ]} with (dom (values_ (fst (ThreadsDemo.final ThreadsDemo.interleaved)))); [exact Hp|].
    vm_compute. reflexivity.
Defined.
