(* ===== verification/Executor.v ===== *)
(** The executor (src/src/rcllite/executor.hpp and executor.cpp) and the part of
    Node it drives: entity lists, epochs and change guards (src/src/rcllite/node.cpp).

    The DDS waitset and guard conditions are the class [DdsWaitset]; node objects
    live in a heap shared with the code that adds and removes entities.
    Dispatching an entity runs arbitrary code on the whole executor state, since
    callbacks may add entities, add nodes or cancel. *)
From Stdlib Require Import ZArith Lia Strings.Byte.
From stdpp Require Import base tactics list numbers gmap fin_maps sorting functions.
From S2P Require Import Prelude Bytes.

(* ------------------------------------------------------------------ *)
(** * Waitset and guard conditions *)

(** [waitset_wait maxs timeout] returns the count of [dds_waitset_wait] and the
    part of the array it stored: at most [maxs] attachment arguments.  The count
    is that of the triggered attachments and may exceed [maxs]. *)
Class DdsWaitset (E : Type) := {
  waitset_attach : Z -> Z -> E -> Z * E;
  waitset_detach : Z -> E -> E;
  waitset_wait : nat -> Z -> E -> (Z * list Z) * E;
  guard_set : Z -> E -> E;
  guard_take : Z -> E -> bool * E
}.

(** [attachments]: the condition handles attached to the waitset, with their
    arguments; [raised]: the conditions that are triggered. *)
Class DdsWaitsetLaws (E : Type) `{DdsWaitset E} := {
  attachments : E -> gmap Z Z;
  raised : E -> Z -> bool;
  is_guard : E -> Z -> Prop;
  attach_spec c x e rc e' :
    waitset_attach c x e = (rc, e') ->
    attachments e' = (if (rc <? 0)%Z then attachments e else <[c := x]> (attachments e));
  attach_raised c x e g : raised (snd (waitset_attach c x e)) g = raised e g;
  detach_spec c e : attachments (waitset_detach c e) = delete c (attachments e);
  detach_raised c e g : raised (waitset_detach c e) g = raised e g;
  wait_spec maxs timeout e n xs e' :
    waitset_wait maxs timeout e = ((n, xs), e') -> (0 <= n)%Z ->
    attachments e' = attachments e /\
    exists ready, NoDup (map fst ready) /\ xs = take maxs (map snd ready) /\
      (Z.of_nat (length xs) <= n <= Z.of_nat (length ready))%Z /\
      (forall c x, (c, x) ∈ ready -> attachments e !! c = Some x) /\
      (forall c x, attachments e !! c = Some x -> raised e c = true -> (c, x) ∈ ready);
  guard_set_spec g e :
    attachments (guard_set g e) = attachments e /\ (is_guard e g -> raised (guard_set g e) g = true);
  guard_take_spec g e :
    attachments (snd (guard_take g e)) = attachments e /\
    (is_guard e g -> raised (snd (guard_take g e)) g = false)
}.

(* ------------------------------------------------------------------ *)
(** * Nodes *)

(** A waitable entity: its identity and its condition handle. *)
Record Entity := mk_entity { ent_id : nat; condition : Z }.

#[global] Instance Entity_eq_dec : EqDecision Entity.
Proof. solve_decision. Defined.

Record Node := mk_node {
  entities_ : list Entity;
  entity_epoch_ : Z;
  change_guard_ : Z
}.

(** The critical sections of [add_entity] and [remove_entity]; the epoch is a
    [uint64_t]. *)
Definition push_entity (e : Entity) (n : Node) : Node :=
  mk_node (entities_ n ++ [e]) (u64 (entity_epoch_ n + 1)) (change_guard_ n).
Definition erase_entity (e : Entity) (n : Node) : Node :=
  mk_node (filter (fun x => x <> e) (entities_ n)) (u64 (entity_epoch_ n + 1)) (change_guard_ n).

(* ------------------------------------------------------------------ *)
(** * The executor *)

Definition kCancelAttachment : Z := 1.
Definition kWakeAttachment : Z := 2.

Record Attached := mk_attached { cond : Z; att_node : nat; entity : option Entity }.

Section executor.
Context {E : Type} `{DdsWaitset E}.

Record Executor := mk_exec {
  env : E;
  heap : nat -> Node;
  cancel_guard_ : Z;
  wake_guard_ : Z;
  cancel_requested_ : bool;
  nodes_ : list nat;
  attached_ : gmap Z Attached;
  node_epochs_ : gmap nat Z;
  next_attach_id_ : Z
}.

Definition set_env (e : E) (s : Executor) : Executor :=
  mk_exec e (heap s) (cancel_guard_ s) (wake_guard_ s) (cancel_requested_ s) (nodes_ s)
    (attached_ s) (node_epochs_ s) (next_attach_id_ s).
Definition set_requested (b : bool) (s : Executor) : Executor :=
  mk_exec (env s) (heap s) (cancel_guard_ s) (wake_guard_ s) b (nodes_ s)
    (attached_ s) (node_epochs_ s) (next_attach_id_ s).
Definition set_nodes (ns : list nat) (epochs : gmap nat Z) (s : Executor) : Executor :=
  mk_exec (env s) (heap s) (cancel_guard_ s) (wake_guard_ s) (cancel_requested_ s) ns
    (attached_ s) epochs (next_attach_id_ s).
Definition set_heap (h : nat -> Node) (s : Executor) : Executor :=
  mk_exec (env s) h (cancel_guard_ s) (wake_guard_ s) (cancel_requested_ s) (nodes_ s)
    (attached_ s) (node_epochs_ s) (next_attach_id_ s).

(** [Executor::Executor], given the handles of the waitset and its guards. *)
Definition Executor_ctor (waitset cancel wake : Z) (h : nat -> Node) (e : E) : outcome Executor * E :=
  if (waitset <? 0)%Z then (Throw InternalError, e)
  else
    let (rc1, e1) := waitset_attach cancel kCancelAttachment e in
    if (rc1 <? 0)%Z then (Throw InternalError, e1)
    else
      let (rc2, e2) := waitset_attach wake kWakeAttachment e1 in
      if (rc2 <? 0)%Z then (Throw InternalError, e2)
      else (Ok (mk_exec e2 h cancel wake false [] ∅ ∅ 2), e2).

(** [Node::add_entity] and [Node::remove_entity] of node [n]. *)
Definition add_entity (n : nat) (e : Entity) (s : Executor) : Executor :=
  let s := set_heap (<[n := push_entity e (heap s n)]> (heap s)) s in
  set_env (guard_set (change_guard_ (heap s n)) (env s)) s.
Definition remove_entity (n : nat) (e : Entity) (s : Executor) : Executor :=
  let s := set_heap (<[n := erase_entity e (heap s n)]> (heap s)) s in
  set_env (guard_set (change_guard_ (heap s n)) (env s)) s.

(** The desired attachments of one node, and of all nodes. *)
Definition desired_node (h : nat -> Node) (d : gmap Z Attached) (n : nat) : gmap Z Attached :=
  foldl (fun d e => <[condition e := mk_attached (condition e) n (Some e)]> d)
    (<[change_guard_ (h n) := mk_attached (change_guard_ (h n)) n None]> d)
    (entities_ (h n)).
Definition desired_of (h : nat -> Node) (ns : list nat) : gmap Z Attached :=
  foldl (desired_node h) ∅ ns.
Definition epochs_of (h : nat -> Node) (ns : list nat) (m : gmap nat Z) : gmap nat Z :=
  foldl (fun m n => <[n := entity_epoch_ (h n)]> m) m ns.

(** The conditions of a map in the order of [std::map]. *)
Definition map_keys (d : gmap Z Attached) : list Z := merge_sort Z.le (elements (dom d)).

(** The attach loop: the environment, [attached_], [next_attach_id_] and
    [current]. *)
Definition attach_one (desired : gmap Z Attached)
  (st : E * gmap Z Attached * Z * gset Z) (c : Z) : E * gmap Z Attached * Z * gset Z :=
  let '(e, attached, next, current) := st in
  if decide (c ∈ current) then st
  else
    match desired !! c with
    | None => st
    | Some att =>
        let next := u64 (next + 1) in
        let (rc, e) := waitset_attach c next e in
        if (rc <? 0)%Z then (e, attached, next, current)
        else (e, <[next := att]> attached, next, current ∪ {[ c ]})
    end.

Definition current_of (attached : gmap Z Attached) : gset Z :=
  list_to_set (map (fun p => cond (snd p)) (map_to_list attached)).

Definition is_stale (desired : gmap Z Attached) (p : Z * Attached) : Prop :=
  desired !! cond (snd p) = None.
#[global] Instance is_stale_dec desired p : Decision (is_stale desired p).
Proof. unfold is_stale. apply _. Defined.

Definition reconcile_with (desired : gmap Z Attached) (s : Executor) : Executor :=
  let current := current_of (attached_ s) in
  let stale := filter (is_stale desired) (map_to_list (attached_ s)) in
  let e := foldl (fun e p => waitset_detach (cond (snd p)) e) (env s) stale in
  let attached := foldl (fun m p => delete (fst p) m) (attached_ s) stale in
  let '(e, attached, next, _) :=
    foldl (attach_one desired) (e, attached, next_attach_id_ s, current) (map_keys desired) in
  mk_exec e (heap s) (cancel_guard_ s) (wake_guard_ s) (cancel_requested_ s) (nodes_ s)
    attached (node_epochs_ s) next.

Definition reconcile_locked (s : Executor) : Executor :=
  let desired := desired_of (heap s) (nodes_ s) in
  let s := set_nodes (nodes_ s) (epochs_of (heap s) (nodes_ s) (node_epochs_ s)) s in
  reconcile_with desired s.

Definition trigger (g : Z) (s : Executor) : Executor := set_env (guard_set g (env s)) s.

(** The changes of [nodes_] in [add_node] and [remove_node]. *)
Definition enlist (n : nat) (s : Executor) : Executor :=
  if decide (n ∈ nodes_ s) then s
  else set_nodes (nodes_ s ++ [n]) (delete n (node_epochs_ s)) s.
Definition delist (n : nat) (s : Executor) : Executor :=
  set_nodes (filter (fun m => m <> n) (nodes_ s)) (delete n (node_epochs_ s)) s.

Definition add_node (n : nat) (s : Executor) : Executor :=
  trigger (wake_guard_ s) (reconcile_locked (enlist n s)).

Definition remove_node (n : nat) (s : Executor) : Executor :=
  trigger (wake_guard_ s) (reconcile_locked (delist n s)).

(** The test under the lock at the start of [wait_and_process]. *)
Definition changed (s : Executor) : bool :=
  (bool_decide (attached_ s = ∅) && negb (bool_decide (nodes_ s = []))) ||
  existsb (fun n => match node_epochs_ s !! n with
                    | None => true
                    | Some ep => negb (ep =? entity_epoch_ (heap s n))%Z
                    end) (nodes_ s).

Definition sync (s : Executor) : Executor := if changed s then reconcile_locked s else s.

Definition MAX_TRIGGERS : nat := 64.

Variable dispatch : Entity -> stM Executor unit.

Definition take_guard (g : Z) (s : Executor) : Executor := set_env (snd (guard_take g (env s))) s.

(** The body of the loop over the triggered attachments, with [did_work]. *)
Definition process_one (id : Z) (did_work : bool) : stM Executor bool :=
  if (id =? kCancelAttachment)%Z then
    let* _ := st_modify (fun s => set_requested true (take_guard (cancel_guard_ s) s)) in
    mret did_work
  else if (id =? kWakeAttachment)%Z then
    let* _ := st_modify (fun s => take_guard (wake_guard_ s) s) in
    mret did_work
  else
    let* s := st_get in
    match attached_ s !! id with
    | Some (mk_attached _ _ (Some e)) =>
        let* _ := st_try (dispatch e) (fun _ => mret tt) in
        mret true
    | _ => mret did_work
    end.

(** [triggered[i]] for [i] up to [n]; beyond what was stored the array holds no
    value. *)
Fixpoint process_all (xs : list Z) (n : nat) (did_work : bool) : stM Executor bool :=
  match n with
  | O => mret did_work
  | S n =>
      match xs with
      | [] => fun s => (Undefined, s)
      | id :: xs =>
          let* did_work := process_one id did_work in
          process_all xs n did_work
      end
  end.

Definition absorb (s : Executor) : Executor :=
  foldl (fun s n => take_guard (change_guard_ (heap s n)) s) s (nodes_ s).

Definition wait (timeout : Z) (s : Executor) : (Z * list Z) * Executor :=
  let (r, e) := waitset_wait MAX_TRIGGERS timeout (env s) in (r, set_env e s).

Definition wait_and_process (timeout : Z) : stM Executor bool :=
  let* _ := st_modify sync in
  let* r := st_run (wait timeout) in
  let (n, xs) := r : Z * list Z in
  if (n <? 0)%Z then st_throw InternalError
  else if (n =? 0)%Z then mret false
  else
    let* did_work := process_all xs (Z.to_nat n) false in
    let* _ := st_modify absorb in
    mret did_work.

Definition DDS_INFINITE : Z := 2 ^ 63 - 1.

(** [spin]; [None] when the fuel is used up. *)
Fixpoint spin_loop (fuel : nat) : stM Executor (option unit) :=
  match fuel with
  | O => mret None
  | S fuel =>
      let* s := st_get in
      if negb (cancel_requested_ s) then
        let* _ := wait_and_process DDS_INFINITE in spin_loop fuel
      else mret (Some tt)
  end.
Definition spin (fuel : nat) : stM Executor (option unit) :=
  let* _ := st_modify (set_requested false) in spin_loop fuel.

Definition spin_once (timeout : Z) : stM Executor bool :=
  wait_and_process (if (timeout <? 0)%Z then DDS_INFINITE else timeout).

Fixpoint spin_some (fuel : nat) (did_work : bool) : stM Executor (option bool) :=
  match fuel with
  | O => mret None
  | S fuel =>
      let* w := wait_and_process 0 in
      if w : bool then spin_some fuel true else mret (Some did_work)
  end.

Definition cancel (s : Executor) : Executor := trigger (cancel_guard_ s) (set_requested true s).
End executor.
Arguments Executor : clear implicits.

(* ------------------------------------------------------------------ *)
(** * The desired attachments *)

Lemma lookup_foldl_delete {K A B} `{Countable K} (f : A -> K) (l : list A) (m : gmap K B) k :
  foldl (fun m p => delete (f p) m) m l !! k = if decide (k ∈ map f l) then None else m !! k.
Proof.
  revert m. induction l as [|p l IH]; intros m; simpl; [done|].
  rewrite IH. destruct (decide (k ∈ map f l)); [by rewrite decide_True by set_solver|].
  destruct (decide (f p = k)) as [<-|].
  - by rewrite lookup_delete_eq, decide_True by set_solver.
  - by rewrite lookup_delete_ne, decide_False by set_solver.
Qed.

(** Every desired entity is in the list of a node. *)
Lemma desired_entities h ns : forall (d : gmap Z Attached) c att e,
  foldl (desired_node h) d ns !! c = Some att -> entity att = Some e ->
  (exists c, d !! c = Some att) \/ exists n, n ∈ ns /\ e ∈ entities_ (h n).
Proof.
  induction ns as [|n ns IH]; intros d c att e; simpl; [eauto|]. intros Hc He.
  destruct (IH _ c att e Hc He) as [[c' Hc']|(m & Hm & Hin)]; [|right; exists m; set_solver].
  unfold desired_node in Hc'.
  enough (Hes : forall es (d0 : gmap Z Attached), foldl (fun d e => <[condition e := mk_attached (condition e) n (Some e)]> d) d0 es !! c' = Some att ->
    d0 !! c' = Some att \/ e ∈ es).
  { destruct (Hes _ _ Hc') as [H0|Hin]; [|right; exists n; set_solver].
    apply lookup_insert_Some in H0 as [[_ <-]|[_ H0]]; [done|eauto]. }
  induction es as [|e1 es IHe]; intros d0; simpl; [by left|]. intros H1.
  destruct (IHe _ H1) as [H0|Hin]; [|right; set_solver].
  apply lookup_insert_Some in H0 as [[_ <-]|[_ H0]]; [|by left]. simpl in He. simplify_eq. right. set_solver.
Qed.

(** What a reconciliation attaches to was attached or is in the list of a node. *)
Lemma reconcile_entities {E} `{DdsWaitset E} (s : Executor E) id att e :
  attached_ (reconcile_locked s) !! id = Some att -> entity att = Some e ->
  attached_ s !! id = Some att \/ exists n, n ∈ nodes_ s /\ e ∈ entities_ (heap s n).
Proof.
  unfold reconcile_locked, reconcile_with. cbn [set_nodes attached_ env next_attach_id_ nodes_ heap].
  set (desired := desired_of (heap s) (nodes_ s)). intros Ha He.
  assert (Hall : forall cs st, (snd (fst (fst (foldl (attach_one desired) st cs)))) !! id = Some att ->
    snd (fst (fst st)) !! id = Some att \/ exists c, desired !! c = Some att).
  { induction cs as [|c cs IH]; intros st; simpl; [by left|]. intros Hf. apply IH in Hf as [Hf|]; [|by right].
    destruct st as [[[e0 m] next] cur]. simpl in *. case_decide; [by left|].
    destruct (desired !! c) as [a|] eqn:Ed; [|by left].
    destruct (waitset_attach c (u64 (next + 1)) e0) as [rc e1]. destruct (rc <? 0)%Z; simpl in Hf; [by left|].
    apply lookup_insert_Some in Hf as [[_ <-]|[_ Hf]]; [right; eauto|by left]. }
  set (e0 := foldl (fun e p => waitset_detach (cond (snd p)) e) (env s) _) in Ha.
  set (m0 := foldl (fun m p => delete (fst p) m) (attached_ s) _) in Ha.
  specialize (Hall (map_keys desired) (e0, m0, next_attach_id_ s, current_of (attached_ s))).
  destruct (foldl (attach_one desired) _ (map_keys desired)) as [[[e1 m1] next1] cur1]. simpl in *.
  destruct (Hall Ha) as [Hm|[c Hd]].
  - left. unfold m0 in Hm. rewrite lookup_foldl_delete in Hm. by case_decide.
  - right. destruct (desired_entities _ _ _ _ _ _ Hd He) as [[c' Hc]|]; [|done]. by rewrite lookup_empty in Hc.
Qed.

(** The conditions of the nodes [ns]. *)
Definition member (h : nat -> Node) (ns : list nat) (c : Z) : Prop :=
  exists n, n ∈ ns /\ (c = change_guard_ (h n) \/ exists e, e ∈ entities_ (h n) /\ c = condition e).

Lemma member_cons h n ns c : member h (n :: ns) c <-> member h [n] c \/ member h ns c.
Proof.
  unfold member. split.
  - intros (m & [->|Hm]%elem_of_cons & Hc); [left; exists n|right; exists m]; (split; [|done]);
      [by apply list_elem_of_singleton|done].
  - intros [(m & ->%list_elem_of_singleton & Hc)|(m & Hm & Hc)];
      [exists n|exists m]; (split; [apply elem_of_cons; auto|done]).
Qed.

Section desired.
Variable h : nat -> Node.
Variable owner : Z -> nat * option Entity.

Definition owned (c : Z) : Attached := mk_attached c (fst (owner c)) (snd (owner c)).

(** Handles identify their object: no two conditions share one. *)
Definition handles_owned (ns : list nat) : Prop :=
  forall n, n ∈ ns -> owner (change_guard_ (h n)) = (n, None) /\
    forall e, e ∈ entities_ (h n) -> owner (condition e) = (n, Some e).

Lemma desired_entities_spec n es (d : gmap Z Attached) :
  (forall e, e ∈ es -> owner (condition e) = (n, Some e)) ->
  (forall c att, d !! c = Some att -> att = owned c) ->
  let d' := foldl (fun d e => <[condition e := mk_attached (condition e) n (Some e)]> d) d es in
  (forall c att, d' !! c = Some att -> att = owned c) /\
  (forall c, is_Some (d' !! c) <-> is_Some (d !! c) \/ exists e, e ∈ es /\ c = condition e).
Proof.
  revert d. induction es as [|e es IH]; intros d Ho Hd; simpl; [set_solver|].
  destruct (IH (<[condition e := mk_attached (condition e) n (Some e)]> d)) as [IH1 IH2]; [set_solver| |].
  - intros c att. destruct (decide (condition e = c)) as [<-|].
    + rewrite lookup_insert_eq. intros [= <-]. unfold owned. by rewrite Ho by set_solver.
    + rewrite lookup_insert_ne by done. apply Hd.
  - split; [exact IH1|]. intros c. rewrite IH2, lookup_insert_is_Some'. set_solver.
Qed.

Lemma desired_node_spec n (d : gmap Z Attached) :
  handles_owned [n] -> (forall c att, d !! c = Some att -> att = owned c) ->
  (forall c att, desired_node h d n !! c = Some att -> att = owned c) /\
  (forall c, is_Some (desired_node h d n !! c) <-> is_Some (d !! c) \/ member h [n] c).
Proof.
  intros Ho Hd. destruct (Ho n) as [Hg He]; [set_solver|].
  destruct (desired_entities_spec n (entities_ (h n))
              (<[change_guard_ (h n) := mk_attached (change_guard_ (h n)) n None]> d)) as [H1 H2].
  - done.
  - intros c att. destruct (decide (change_guard_ (h n) = c)) as [<-|].
    + rewrite lookup_insert_eq. intros [= <-]. unfold owned. by rewrite Hg.
    + rewrite lookup_insert_ne by done. apply Hd.
  - split; [exact H1|]. intros c. unfold desired_node. rewrite H2, lookup_insert_is_Some'.
    unfold member. set_solver.
Qed.

Lemma desired_of_spec ns (d : gmap Z Attached) :
  handles_owned ns -> (forall c att, d !! c = Some att -> att = owned c) ->
  (forall c att, foldl (desired_node h) d ns !! c = Some att -> att = owned c) /\
  (forall c, is_Some (foldl (desired_node h) d ns !! c) <-> is_Some (d !! c) \/ member h ns c).
Proof.
  revert d. induction ns as [|n ns IH]; intros d Ho Hd; simpl; [unfold member; set_solver|].
  destruct (desired_node_spec n d) as [H1 H2]; [|done|].
  { intros m Hm. apply Ho. set_solver. }
  destruct (IH (desired_node h d n)) as [IH1 IH2]; [|done|].
  { intros m Hm. apply Ho. set_solver. }
  split; [done|]. intros c. rewrite IH2, H2, (member_cons h n ns). tauto.
Qed.

Lemma desired_lookup ns c :
  handles_owned ns -> desired_of h ns !! c = (if decide (is_Some (desired_of h ns !! c)) then Some (owned c) else None).
Proof.
  intros Ho. destruct (desired_of_spec ns ∅ Ho) as [H1 _]; [done|].
  case_decide as Hd; [|by apply eq_None_not_Some]. destruct Hd as [att Hd].
  rewrite Hd. f_equal. by apply H1.
Qed.

Lemma desired_member ns c : handles_owned ns -> is_Some (desired_of h ns !! c) <-> member h ns c.
Proof.
  intros Ho. destruct (desired_of_spec ns ∅ Ho) as [_ H2]; [done|].
  unfold desired_of. rewrite H2, lookup_empty. split; [intros [[? ?]|?]; done|auto].
Qed.
End desired.

(* ------------------------------------------------------------------ *)
(** * The attachment bookkeeping *)

Section book.
Context {E : Type} `{DdsWaitsetLaws E}.
Variable owner : Z -> nat * option Entity.
Variables cancel_h wake_h : Z.

(** The waitset holds the two guards under their reserved ids and exactly the
    conditions of [attached_], each under its id; ids above 2 have been handed
    out up to [next]. *)
Record book (a : gmap Z Z) (m : gmap Z Attached) (next : Z) : Prop := {
  book_att c x : a !! c = Some x <->
    (c = cancel_h /\ x = kCancelAttachment) \/ (c = wake_h /\ x = kWakeAttachment) \/
    (exists att, m !! x = Some att /\ cond att = c);
  book_ids id att : m !! id = Some att -> (2 < id <= next)%Z /\ att = owned owner (cond att);
  book_next : (2 <= next)%Z
}.

Definition is_attached (m : gmap Z Attached) (c : Z) : Prop :=
  exists id att, m !! id = Some att /\ cond att = c.

Lemma book_unique a m next i j ai aj :
  book a m next -> m !! i = Some ai -> m !! j = Some aj -> cond ai = cond aj -> i = j.
Proof.
  intros [Ha _ _] Hi Hj Hc.
  assert (a !! cond ai = Some i) by (apply Ha; eauto 10).
  assert (a !! cond ai = Some j) by (apply Ha; eauto 10). congruence.
Qed.

Lemma book_not_guard a m next id att :
  book a m next -> m !! id = Some att -> cond att <> cancel_h /\ cond att <> wake_h.
Proof.
  intros [Ha Hi _] Hm. pose proof (Hi _ _ Hm) as [Hr _].
  assert (a !! cond att = Some id) by (apply Ha; eauto 10).
  split; intros Hc; rewrite Hc in *;
    [assert (a !! cancel_h = Some kCancelAttachment) by (apply Ha; auto)|
     assert (a !! wake_h = Some kWakeAttachment) by (apply Ha; auto)];
    unfold kCancelAttachment, kWakeAttachment in *; simplify_eq; lia.
Qed.

(** Detaching what is not desired. *)
Lemma detach_book (desired : gmap Z Attached) (e : E) m next :
  book (attachments e) m next ->
  let stale := filter (is_stale desired) (map_to_list m) in
  let e' := foldl (fun e p => waitset_detach (cond (snd p)) e) e stale in
  let m' := foldl (fun m p => delete (fst p) m) m stale in
  book (attachments e') m' next /\
  (forall id att, m' !! id = Some att <-> m !! id = Some att /\ is_Some (desired !! cond att)).
Proof.
  intros Hb stale e' m'.
  assert (Hst : forall id att, (id, att) ∈ stale <-> m !! id = Some att /\ desired !! cond att = None).
  { intros id att. unfold stale. rewrite list_elem_of_filter, elem_of_map_to_list.
    unfold is_stale. simpl. tauto. }
  assert (Ha' : attachments e' = foldl (fun a p => delete (cond (snd p)) a) (attachments e) stale).
  { unfold e'. generalize stale. intros l. clear. revert e. induction l as [|p l IH]; intros e; simpl; [done|].
    by rewrite IH, detach_spec. }
  assert (Hm' : forall id att, m' !! id = Some att <-> m !! id = Some att /\ is_Some (desired !! cond att)).
  { intros id att. unfold m'. rewrite lookup_foldl_delete. case_decide as Hd.
    - apply list_elem_of_fmap in Hd as ([id' att'] & -> & Hin). apply Hst in Hin as [Hm Hn]. simpl.
      split; [done|]. intros [Hm2 [? ?]]. by simplify_eq.
    - split; [|tauto]. intros Hm. split; [done|].
      destruct (desired !! cond att) eqn:Ed; [eauto|]. destruct Hd.
      apply list_elem_of_fmap. exists (id, att). split; [done|]. by apply Hst. }
  split; [|exact Hm'].
  assert (Hs : forall c, c ∈ map (fun p => cond (snd p)) stale <-> exists id att, m !! id = Some att /\ cond att = c /\ desired !! c = None).
  { intros c. rewrite list_elem_of_fmap. split.
    - intros ([id att] & -> & Hin). apply Hst in Hin as [? ?]. by exists id, att.
    - intros (id & att & Hm & <- & Hd). exists (id, att). split; [done|]. by apply Hst. }
  split.
  - intros c x. rewrite Ha', lookup_foldl_delete. case_decide as Hd.
    + apply Hs in Hd as (id & att & Hm & <- & Hd). split; [done|].
      pose proof (book_not_guard _ _ _ _ _ Hb Hm) as [? ?].
      intros [[? _]|[[? _]|(att' & Hm2 & Hc)]]; [done..|].
      apply Hm' in Hm2 as [_ [? Hx]]. rewrite Hc in Hx. congruence.
    + rewrite (book_att _ _ _ Hb). split; (intros [?|[?|(att & Hm & Hc)]]; [by auto..|]); right; right; exists att.
      * split; [|done]. apply Hm'. split; [done|].
        destruct (desired !! cond att) eqn:Ed; [eauto|]. destruct Hd. apply Hs. exists x, att. by rewrite <- Hc.
      * by apply Hm' in Hm as [? _].
  - intros id att Hm. apply Hm' in Hm as [Hm _]. by apply (book_ids _ _ _ Hb).
  - apply (book_next _ _ _ Hb).
Qed.

(** Attaching what is desired and not attached yet. *)
Definition attach_state : Type := E * gmap Z Attached * Z * gset Z.

Definition attach_inv (desired : gmap Z Attached) (st : attach_state) : Prop :=
  let '(e, m, next, cur) := st in
  book (attachments e) m next /\
  (forall c, is_attached m c -> c ∈ cur /\ is_Some (desired !! c)) /\
  (forall c, c ∈ cur -> is_Some (desired !! c) -> is_attached m c).

Definition extends (st st' : attach_state) : Prop :=
  let '(_, m, next, cur) := st in let '(_, m', next', cur') := st' in
  (forall id att, m !! id = Some att -> m' !! id = Some att) /\
  (forall id att, m' !! id = Some att -> m !! id = Some att \/ (next < id <= next')%Z) /\
  (next <= next')%Z /\ cur ⊆ cur'.

Lemma extends_refl st : extends st st.
Proof. destruct st as [[[e m] next] cur]. unfold extends. split_and!; auto with lia. Qed.

Lemma extends_trans st1 st2 st3 : extends st1 st2 -> extends st2 st3 -> extends st1 st3.
Proof.
  destruct st1 as [[[e1 m1] n1] c1], st2 as [[[e2 m2] n2] c2], st3 as [[[e3 m3] n3] c3].
  intros (A1 & A2 & A3 & A4) (B1 & B2 & B3 & B4). split_and!; [auto| |lia|set_solver].
  intros id att Hm. destruct (B2 id att Hm) as [Hm2|]; [|right; lia].
  destruct (A2 id att Hm2); [by left|right; lia].
Qed.

Definition next_of (st : attach_state) : Z := snd (fst st).
Definition cur_of (st : attach_state) : gset Z := snd st.

Lemma attach_one_inv desired st c :
  (forall c att, desired !! c = Some att -> att = owned owner c) ->
  is_Some (desired !! c) -> c <> cancel_h -> c <> wake_h ->
  (next_of st < 2 ^ 64 - 1)%Z -> attach_inv desired st ->
  let st' := attach_one desired st c in
  attach_inv desired st' /\ extends st st' /\ (next_of st' <= next_of st + 1)%Z /\
  ((forall c x e, (0 <= fst (waitset_attach c x e))%Z) -> c ∈ cur_of st').
Proof.
  intros Hown [att Hd] Hc1 Hc2 Hn Hi. destruct st as [[[e m] next] cur].
  unfold next_of, cur_of in *. cbn [attach_one fst snd] in *.
  case_decide as Hcur.
  { split_and!; [done|apply extends_refl|simpl; lia|by intros]. }
  rewrite Hd. destruct Hi as (Hb & Ha1 & Ha2).
  pose proof (book_next _ _ _ Hb) as Hnx.
  assert (Hu : u64 (next + 1) = (next + 1)%Z) by (apply uwrap_small; unfold in_u; lia). rewrite Hu.
  assert (Hfresh : m !! (next + 1)%Z = None).
  { destruct (m !! (next + 1)%Z) eqn:Em; [|done]. apply (book_ids _ _ _ Hb) in Em. lia. }
  destruct (waitset_attach c (next + 1) e) as [rc e'] eqn:Ea.
  pose proof (attach_spec _ _ _ _ _ Ea) as Hs.
  assert (Hids : forall id att, m !! id = Some att -> (2 < id <= next + 1)%Z /\ att = owned owner (cond att)).
  { intros id att' Hm. apply (book_ids _ _ _ Hb) in Hm as [? ?]. split; [lia|done]. }
  destruct (Z.ltb_spec rc 0); simpl.
  - rewrite <- Hs in Hb. split_and!; try done; try lia; [|by auto|].
    + split; [exact (book_att _ _ _ Hb)|exact Hids|lia].
    + intros Hok. specialize (Hok c (next + 1)%Z e). rewrite Ea in Hok. simpl in Hok. lia.
  - assert (Hnone : attachments e !! c = None).
    { destruct (attachments e !! c) as [x|] eqn:Ex; [|done]. apply (book_att _ _ _ Hb) in Ex.
      destruct Ex as [[? _]|[[? _]|(att' & Hm & Hc)]]; [done..|].
      destruct (Ha1 c) as [? _]; [by exists x, att'|]. done. }
    pose proof (Hown c att Hd) as Hatt.
    assert (Hcond : cond att = c) by (by rewrite Hatt).
    split_and!; try lia.
    + split; [|intros id att'|lia].
      -- intros c' x. rewrite Hs. destruct (decide (c = c')) as [<-|Hne].
         ++ rewrite lookup_insert_eq. split.
            ** intros [= <-]. right. right. exists att. by rewrite lookup_insert_eq.
            ** intros [[? _]|[[? _]|(att' & Hm & Hc)]]; [done..|].
               destruct (decide (x = (next + 1)%Z)) as [->|Hx]; [done|].
               rewrite lookup_insert_ne in Hm by done.
               destruct (Ha1 c) as [? _]; [by exists x, att'|]. done.
         ++ rewrite lookup_insert_ne by done. rewrite (book_att _ _ _ Hb). clear Hu.
            split; (intros [?|[?|(att' & Hm & Hc)]]; [by auto..|]); right; right; exists att'.
            ** split; [|done]. rewrite lookup_insert_ne; [done|]. congruence.
            ** split; [|done]. destruct (decide (x = (next + 1)%Z)) as [->|Hx].
               --- rewrite lookup_insert_eq in Hm. congruence.
               --- by rewrite lookup_insert_ne in Hm.
      -- destruct (decide (id = (next + 1)%Z)) as [->|Hx].
         ++ rewrite lookup_insert_eq. intros [= <-]. rewrite Hcond. split; [lia|done].
         ++ rewrite lookup_insert_ne by done. apply Hids.
    + intros c' (id & att' & Hm & Hc). destruct (decide (id = (next + 1)%Z)) as [->|Hx].
      -- rewrite lookup_insert_eq in Hm. simplify_eq. split; [set_solver|eauto].
      -- rewrite lookup_insert_ne in Hm by done.
         destruct (Ha1 c') as [? ?]; [by exists id, att'|]. split; [set_solver|done].
    + intros c' [Hc'|Hc']%elem_of_union Hd'.
      -- destruct (Ha2 c' Hc' Hd') as (id & att' & Hm & Hc). exists id, att'. split; [|done].
         rewrite lookup_insert_ne; [done|]. congruence.
      -- apply elem_of_singleton in Hc' as ->. exists (next + 1)%Z, att. by rewrite lookup_insert_eq.
    + intros id att' Hm. rewrite lookup_insert_ne; [done|]. congruence.
    + intros id att' Hm. destruct (decide (id = (next + 1)%Z)) as [->|Hx]; [right; lia|].
      rewrite lookup_insert_ne in Hm by done. by left.
    + set_solver.
    + set_solver.
Qed.

Lemma attach_all_inv desired cs : forall st,
  (forall c att, desired !! c = Some att -> att = owned owner c) ->
  (forall c, c ∈ cs -> is_Some (desired !! c) /\ c <> cancel_h /\ c <> wake_h) ->
  (next_of st + Z.of_nat (length cs) < 2 ^ 64)%Z -> attach_inv desired st ->
  let st' := foldl (attach_one desired) st cs in
  attach_inv desired st' /\ extends st st' /\ (next_of st' <= next_of st + Z.of_nat (length cs))%Z /\
  ((forall c x e, (0 <= fst (waitset_attach c x e))%Z) -> forall c, c ∈ cs -> c ∈ cur_of st').
Proof.
  induction cs as [|c cs IH]; intros st Hown Hcs Hn Hi; simpl in *.
  - split_and!; [done|apply extends_refl|lia|set_solver].
  - destruct (Hcs c) as (Hd & Hc1 & Hc2); [set_solver|].
    destruct (attach_one_inv desired st c Hown Hd Hc1 Hc2 ltac:(lia) Hi) as (H1 & H2 & H3 & H4).
    destruct (IH (attach_one desired st c) Hown) as (J1 & J2 & J3 & J4); [set_solver|lia|done|].
    split_and!; [done|by eapply extends_trans|lia|].
    intros Hok c' [->|Hc']%elem_of_cons; [|by apply J4].
    specialize (H4 Hok).
    destruct (attach_one desired st c) as [[[? ?] ?] ?],
      (foldl (attach_one desired) _ cs) as [[[? ?] ?] ?]. destruct J2 as (_ & _ & _ & J2).
    simpl in *. set_solver.
Qed.
End book.

(* ------------------------------------------------------------------ *)
(** * Reconciliation *)

Lemma epochs_of_lookup h ns m n :
  epochs_of h ns m !! n = if decide (n ∈ ns) then Some (entity_epoch_ (h n)) else m !! n.
Proof.
  unfold epochs_of. revert m. induction ns as [|k ns IH]; intros m; simpl; [done|].
  rewrite IH. destruct (decide (n ∈ ns)); [by rewrite decide_True by set_solver|].
  destruct (decide (k = n)) as [->|].
  - by rewrite lookup_insert_eq, decide_True by set_solver.
  - by rewrite lookup_insert_ne, decide_False by set_solver.
Qed.

Section reconcile.
Context {E : Type} `{DdsWaitsetLaws E}.
Variable owner : Z -> nat * option Entity.
Implicit Types s : Executor E.

Definition exec_inv s : Prop :=
  book owner (cancel_guard_ s) (wake_guard_ s) (attachments (env s)) (attached_ s) (next_attach_id_ s).

(** Handles identify their object, and the guards of the executor are no
    condition of a node. *)
Definition well_owned s : Prop :=
  handles_owned (heap s) owner (nodes_ s) /\
  forall c, member (heap s) (nodes_ s) c -> c <> cancel_guard_ s /\ c <> wake_guard_ s.

(** The ids do not run out. *)
Definition ids_left s : Prop :=
  (next_attach_id_ s + Z.of_nat (length (map_keys (desired_of (heap s) (nodes_ s)))) < 2 ^ 64)%Z.

Definition attach_succeeds : Prop := forall c x (e : E), (0 <= fst (waitset_attach c x e))%Z.

Lemma map_keys_spec (d : gmap Z Attached) c : c ∈ map_keys d <-> is_Some (d !! c).
Proof. unfold map_keys. rewrite merge_sort_Permutation, elem_of_elements. apply elem_of_dom. Qed.

Lemma current_of_spec (m : gmap Z Attached) c : c ∈ current_of m <-> is_attached m c.
Proof.
  unfold current_of, is_attached. rewrite elem_of_list_to_set, list_elem_of_fmap. split.
  - intros ([id att] & -> & Hm%elem_of_map_to_list). by exists id, att.
  - intros (id & att & Hm & <-). exists (id, att). split; [done|]. by apply elem_of_map_to_list.
Qed.

Lemma reconcile_with_spec s desired :
  exec_inv s -> (forall c att, desired !! c = Some att -> att = owned owner c) ->
  (forall c, is_Some (desired !! c) -> c <> cancel_guard_ s /\ c <> wake_guard_ s) ->
  (next_attach_id_ s + Z.of_nat (length (map_keys desired)) < 2 ^ 64)%Z ->
  let s' := reconcile_with desired s in
  exec_inv s' /\
  (forall id att, attached_ s' !! id = Some att -> is_Some (desired !! cond att)) /\
  (forall id att, attached_ s !! id = Some att -> is_Some (desired !! cond att) -> attached_ s' !! id = Some att) /\
  (forall id att, attached_ s' !! id = Some att ->
     attached_ s !! id = Some att \/ (next_attach_id_ s < id)%Z) /\
  (attach_succeeds -> forall c, is_Some (desired !! c) -> is_attached (attached_ s') c) /\
  (next_attach_id_ s <= next_attach_id_ s' <= next_attach_id_ s + Z.of_nat (length (map_keys desired)))%Z.
Proof.
  intros Hb Hown Hg Hn. unfold reconcile_with.
  set (stale := filter (is_stale desired) (map_to_list (attached_ s))).
  destruct (detach_book owner (cancel_guard_ s) (wake_guard_ s) desired (env s) _ _ Hb) as [Hb1 Hm1].
  fold stale in Hb1, Hm1.
  set (e1 := foldl (fun e p => waitset_detach (cond (snd p)) e) (env s) stale) in *.
  set (m1 := foldl (fun m p => delete (fst p) m) (attached_ s) stale) in *.
  set (st := (e1, m1, next_attach_id_ s, current_of (attached_ s))).
  assert (Hst : attach_inv owner (cancel_guard_ s) (wake_guard_ s) desired st).
  { split_and!; [done| |].
    - intros c (id & att & Hm & <-). apply Hm1 in Hm as [Hm Hd]. split; [|done].
      apply current_of_spec. by exists id, att.
    - intros c (id & att & Hm & <-)%current_of_spec Hd. exists id, att. split; [|done]. by apply Hm1. }
  destruct (attach_all_inv owner (cancel_guard_ s) (wake_guard_ s) desired (map_keys desired) st Hown)
    as (J1 & J2 & J3 & J4); [|done|done|].
  { intros c Hc%map_keys_spec. split; [done|by apply Hg]. }
  destruct (foldl (attach_one desired) st (map_keys desired)) as [[[e2 m2] next2] cur2].
  destruct J1 as (K1 & K2 & K3), J2 as (X1 & X2 & X3 & X4). simpl.
  split_and!; try done.
  - intros id att Hm. apply (K2 (cond att)). by exists id, att.
  - intros id att Hm Hd. apply X1, Hm1. done.
  - intros id att Hm. destruct (X2 id att Hm) as [Hm'|?]; [left; by apply Hm1|right; lia].
  - intros Hok c Hd. apply K3; [|done]. apply J4; [done|]. by apply map_keys_spec.
Qed.

Lemma reconcile_spec s :
  exec_inv s -> well_owned s -> ids_left s ->
  let s' := reconcile_locked s in
  exec_inv s' /\
  (forall id att, attached_ s' !! id = Some att -> member (heap s) (nodes_ s) (cond att)) /\
  (forall id att, attached_ s !! id = Some att -> member (heap s) (nodes_ s) (cond att) ->
     attached_ s' !! id = Some att) /\
  (forall id att, attached_ s' !! id = Some att ->
     attached_ s !! id = Some att \/ (next_attach_id_ s < id)%Z) /\
  (attach_succeeds -> forall c, member (heap s) (nodes_ s) c -> is_attached (attached_ s') c).
Proof.
  intros Hi [Ho Hg] Hn. unfold reconcile_locked.
  set (s1 := set_nodes (nodes_ s) (epochs_of (heap s) (nodes_ s) (node_epochs_ s)) s).
  set (desired := desired_of (heap s) (nodes_ s)).
  destruct (desired_of_spec (heap s) owner (nodes_ s) ∅ Ho) as [Hown _]; [done|].
  assert (Hmem : forall c, is_Some (desired !! c) <-> member (heap s) (nodes_ s) c)
    by (intros; by apply (desired_member _ owner)).
  destruct (reconcile_with_spec s1 desired) as (R1 & R2 & R3 & R4 & R5 & R6); [done|done| |done|].
  { intros c Hc. apply Hg. by apply Hmem. }
  split_and!; [done| | |done|].
  - intros id att Hm. apply Hmem. eauto.
  - intros id att Hm Hc. apply R3; [done|]. by apply Hmem.
  - intros Hok c Hc. apply R5; [done|]. by apply Hmem.
Qed.

(** With nothing to detach and nothing to attach, reconciling does nothing. *)
Lemma reconcile_with_noop s desired :
  (forall id att, attached_ s !! id = Some att -> is_Some (desired !! cond att)) ->
  (forall c, is_Some (desired !! c) -> is_attached (attached_ s) c) ->
  reconcile_with desired s = s.
Proof.
  intros H1 H2. unfold reconcile_with.
  assert (Hs : filter (is_stale desired) (map_to_list (attached_ s)) = []).
  { destruct (filter (is_stale desired) (map_to_list (attached_ s))) as [|[id att] l] eqn:El; [done|].
    assert (Hin : (id, att) ∈ filter (is_stale desired) (map_to_list (attached_ s))) by (rewrite El; set_solver).
    apply list_elem_of_filter in Hin as [Hn Hin%elem_of_map_to_list]. apply H1 in Hin.
    unfold is_stale in Hn. simpl in Hn. rewrite Hn in Hin. by destruct Hin. }
  rewrite Hs. simpl.
  assert (Hf : forall cs, (forall c, c ∈ cs -> c ∈ current_of (attached_ s)) ->
            foldl (attach_one desired) (env s, attached_ s, next_attach_id_ s, current_of (attached_ s)) cs =
            (env s, attached_ s, next_attach_id_ s, current_of (attached_ s))).
  { induction cs as [|c cs IH]; intros Hcs; [done|]. cbn [foldl attach_one].
    rewrite decide_True by (apply Hcs; set_solver). apply IH. set_solver. }
  rewrite Hf; [by destruct s|]. intros c Hc%map_keys_spec. apply current_of_spec. auto.
Qed.
End reconcile.

(** C19: reconciling keeps the books: the waitset holds exactly the two guards
    of the executor and the recorded attachments; everything attached belongs to
    a node of the executor; an attachment whose condition is still wanted keeps
    its id, every new one gets an id that was never used; and unless the waitset
    refuses an attachment every condition of every node is attached, after which
    reconciling again changes nothing. *)
Theorem reconcile_attaches {E} `{DdsWaitsetLaws E} (owner : Z -> nat * option Entity) (s : Executor E) :
  exec_inv owner s -> well_owned owner s -> ids_left s ->
  let s' := reconcile_locked s in
  exec_inv owner s' /\
  (forall id att, attached_ s' !! id = Some att -> member (heap s) (nodes_ s) (cond att)) /\
  (forall id att, attached_ s !! id = Some att -> member (heap s) (nodes_ s) (cond att) ->
     attached_ s' !! id = Some att) /\
  (forall id att, attached_ s' !! id = Some att ->
     attached_ s !! id = Some att \/ (next_attach_id_ s < id)%Z) /\
  (attach_succeeds (E := E) ->
     (forall c, member (heap s) (nodes_ s) c -> is_attached (attached_ s') c) /\
     reconcile_locked s' = s').
Proof.
  intros Hi Hw Hn s'. destruct (reconcile_spec owner s Hi Hw Hn) as (R1 & R2 & R3 & R4 & R5).
  fold s' in R1, R2, R3, R4, R5. split_and!; try done. intros Hok. split; [auto|].
  assert (Hh : heap s' = heap s /\ nodes_ s' = nodes_ s /\
               node_epochs_ s' = epochs_of (heap s) (nodes_ s) (node_epochs_ s)).
  { unfold s', reconcile_locked, reconcile_with. cbn zeta.
    by destruct (foldl (attach_one _) _ _) as [[[? ?] ?] ?]. }
  clearbody s'. destruct Hh as (Hh1 & Hh2 & Hh3). unfold reconcile_locked. rewrite Hh1, Hh2.
  assert (He : epochs_of (heap s) (nodes_ s) (node_epochs_ s') = node_epochs_ s').
  { rewrite Hh3. apply map_eq. intros n. rewrite !epochs_of_lookup. by case_decide. }
  rewrite He. destruct Hw as [Ho Hg].
  assert (Hs : set_nodes (nodes_ s) (node_epochs_ s') s' = s') by (rewrite <- Hh2; by destruct s').
  rewrite Hs. apply (reconcile_with_noop owner s').
  - intros id att Hm. apply (desired_member _ owner); [done|eauto].
  - intros c Hc. apply R5; [done|]. by apply (desired_member _ owner) in Hc.
Qed.

(* ------------------------------------------------------------------ *)
(** * No entity is lost *)

Section liveness.
Context {E : Type} `{DdsWaitsetLaws E}.
Variable owner : Z -> nat * option Entity.
Implicit Types s : Executor E.
Hypothesis attach_ok : attach_succeeds (E := E).

(** Handles are not shared, ids are left, epochs do not wrap. *)
Definition good s : Prop :=
  well_owned owner s /\ ids_left s /\ forall n, (0 <= entity_epoch_ (heap s n) < 2 ^ 64 - 1)%Z.

(** What happens to an executor: entities come and go on any thread, nodes are
    added and removed, [wait_and_process] synchronizes, and the environment
    changes in ways that leave the attachments alone. *)
Inductive exec_op : Executor E -> Executor E -> Prop :=
| op_add_entity n e s : exec_op s (add_entity n e s)
| op_remove_entity n e s : exec_op s (remove_entity n e s)
| op_add_node n s : good (enlist n s) -> exec_op s (add_node n s)
| op_remove_node n s : good (delist n s) -> exec_op s (remove_node n s)
| op_sync s : exec_op s (sync s)
| op_env e s : attachments e = attachments (env s) -> exec_op s (set_env e s)
| op_request b s : exec_op s (set_requested b s).

Definition exec_step s s' : Prop := exec_op s s' /\ good s /\ good s'.

(** An up-to-date epoch means that the node's conditions are attached. *)
Definition covered s : Prop :=
  forall n ep, n ∈ nodes_ s -> node_epochs_ s !! n = Some ep ->
    (ep <= entity_epoch_ (heap s n))%Z /\
    (ep = entity_epoch_ (heap s n) -> forall c, member (heap s) [n] c -> is_attached (attached_ s) c).

Lemma reconcile_frame s :
  let s' := reconcile_locked s in
  heap s' = heap s /\ nodes_ s' = nodes_ s /\ cancel_guard_ s' = cancel_guard_ s /\
  wake_guard_ s' = wake_guard_ s /\ node_epochs_ s' = epochs_of (heap s) (nodes_ s) (node_epochs_ s) /\
  cancel_requested_ s' = cancel_requested_ s.
Proof.
  unfold reconcile_locked, reconcile_with. cbn zeta.
  by destruct (foldl (attach_one _) _ _) as [[[? ?] ?] ?].
Qed.

Lemma member_in h ns n c : n ∈ ns -> member h [n] c -> member h ns c.
Proof. intros Hn (m & ->%list_elem_of_singleton & Hc). by exists n. Qed.

(** What a reconciliation establishes. *)
Lemma reconcile_covers s :
  exec_inv owner s -> well_owned owner s -> ids_left s ->
  exec_inv owner (reconcile_locked s) /\ covered (reconcile_locked s) /\
  (forall c, member (heap s) (nodes_ s) c -> is_attached (attached_ (reconcile_locked s)) c).
Proof.
  intros Hi Hw Hn. destruct (reconcile_spec owner s Hi Hw Hn) as (R1 & _ & _ & _ & R5).
  destruct (reconcile_frame s) as (F1 & F2 & _ & _ & F5 & _).
  split_and!; [done| |auto]. intros n ep. rewrite F1, F2, F5, epochs_of_lookup.
  intros Hin. rewrite decide_True by done. intros [= <-]. split; [done|].
  intros _ c Hc. apply R5; [done|]. by eapply member_in.
Qed.

(** Operations that change neither the nodes, the heap nor the books. *)
Lemma set_env_inv e s :
  attachments e = attachments (env s) -> exec_inv owner s -> covered s ->
  exec_inv owner (set_env e s) /\ covered (set_env e s).
Proof. intros Ha Hi Hc. split; [|done]. unfold exec_inv in *. simpl. by rewrite Ha. Qed.

Lemma guard_set_attachments g (e : E) : attachments (guard_set g e) = attachments e.
Proof. apply guard_set_spec. Qed.
Lemma guard_take_attachments g (e : E) : attachments (snd (guard_take g e)) = attachments e.
Proof. apply guard_take_spec. Qed.

Lemma entity_change_inv n (nd : Node) s :
  entity_epoch_ nd = (entity_epoch_ (heap s n) + 1)%Z ->
  exec_inv owner s -> covered s ->
  exec_inv owner (set_heap (<[n := nd]> (heap s)) s) /\ covered (set_heap (<[n := nd]> (heap s)) s).
Proof.
  intros He Hi Hc. split; [done|]. intros m ep. simpl. intros Hm Hep.
  destruct (Hc m ep Hm Hep) as [Hle Heq]. destruct (decide (n = m)) as [->|Hne].
  - rewrite fn_lookup_insert. rewrite He. split; [lia|]. lia.
  - rewrite fn_lookup_insert_ne by done. split; [done|]. intros Hq c (k & ->%list_elem_of_singleton & Hk).
    rewrite fn_lookup_insert_ne in Hk by done. apply Heq; [done|]. exists m. split; [set_solver|done].
Qed.

Lemma reconcile_step_inv g s :
  exec_inv owner s -> good s ->
  exec_inv owner (trigger g (reconcile_locked s)) /\ covered (trigger g (reconcile_locked s)).
Proof.
  intros Hi (Hw & Hn & _). destruct (reconcile_covers s Hi Hw Hn) as (R1 & R2 & _).
  apply set_env_inv; [apply guard_set_attachments|done|done].
Qed.

Lemma exec_step_inv s s' :
  exec_step s s' -> exec_inv owner s /\ covered s -> exec_inv owner s' /\ covered s'.
Proof.
  intros (Hop & Hg & Hg') [Hi Hc]. destruct Hop as [n e s|n e s|n s Hm|n s Hm|s|e s Ha|b s].
  - destruct Hg as (_ & _ & He). specialize (He n).
    destruct (entity_change_inv n (push_entity e (heap s n)) s) as [Hi' Hc']; [|done|done|].
    { apply uwrap_small. unfold in_u. lia. }
    apply set_env_inv; [apply guard_set_attachments|done|done].
  - destruct Hg as (_ & _ & He). specialize (He n).
    destruct (entity_change_inv n (erase_entity e (heap s n)) s) as [Hi' Hc']; [|done|done|].
    { apply uwrap_small. unfold in_u. lia. }
    apply set_env_inv; [apply guard_set_attachments|done|done].
  - apply reconcile_step_inv; [|done]. unfold enlist. by case_decide.
  - by apply reconcile_step_inv.
  - unfold sync. destruct (changed s); [|done].
    destruct Hg as (Hw & Hn & _). by destruct (reconcile_covers s Hi Hw Hn) as (R1 & R2 & _).
  - by apply set_env_inv.
  - done.
Qed.

Lemma sync_complete s :
  exec_inv owner s -> covered s -> good s ->
  forall c, member (heap s) (nodes_ s) c -> is_attached (attached_ (sync s)) c.
Proof.
  intros Hi Hc (Hw & Hn & _) c Hm. unfold sync. destruct (changed s) eqn:Ech.
  - by apply reconcile_covers.
  - unfold changed in Ech. apply orb_false_iff in Ech as [_ Hex].
    destruct Hm as (n & Hn' & Hcn).
    assert (Hne : match node_epochs_ s !! n with
                  | None => true | Some ep => negb (ep =? entity_epoch_ (heap s n))%Z end = false).
    { destruct (match node_epochs_ s !! n with None => true | Some ep => _ end) eqn:Eb; [|done].
      exfalso. assert (Ht : existsb (fun n => match node_epochs_ s !! n with
                    | None => true | Some ep => negb (ep =? entity_epoch_ (heap s n))%Z end) (nodes_ s) = true).
      { apply existsb_exists. exists n. split; [by apply list_elem_of_In|done]. }
      congruence. }
    destruct (node_epochs_ s !! n) as [ep|] eqn:Eep; [|done].
    apply negb_false_iff, Z.eqb_eq in Hne.
    destruct (Hc n ep Hn' Eep) as [_ Hcov]. apply (Hcov Hne). exists n. split; [set_solver|done].
Qed.
End liveness.

(** A fresh executor keeps the books. *)
Lemma ctor_inv {E} `{DdsWaitsetLaws E} owner waitset cancel_h wake_h h (e e0 : E) s0 :
  attachments e = ∅ -> cancel_h <> wake_h ->
  Executor_ctor waitset cancel_h wake_h h e = (Ok s0, e0) -> exec_inv owner s0 /\ covered s0.
Proof.
  intros He Hne Hctor. unfold Executor_ctor in Hctor. destruct (waitset <? 0)%Z; [done|].
  destruct (waitset_attach cancel_h kCancelAttachment e) as [rc1 e1] eqn:E1.
  destruct (rc1 <? 0)%Z eqn:R1; [done|].
  destruct (waitset_attach wake_h kWakeAttachment e1) as [rc2 e2] eqn:E2.
  destruct (rc2 <? 0)%Z eqn:R2; [done|]. injection Hctor as <- <-. split; [|by intros ? ? []%not_elem_of_nil].
  pose proof (attach_spec _ _ _ _ _ E1) as A1. pose proof (attach_spec _ _ _ _ _ E2) as A2.
  rewrite R1 in A1. rewrite R2, A1, He in A2. split; simpl; [|done|lia].
  intros c x. rewrite A2, lookup_insert_Some, lookup_insert_Some, lookup_empty.
  split.
  - intros [[<- <-]|[_ [[<- <-]|[_ ?]]]]; auto. done.
  - intros [[-> ->]|[[-> ->]|(att & ? & _)]]; auto. done.
Qed.

(** C18: no entity is lost: from a fresh executor on, whatever entities and
    nodes are added and removed in whatever order between its rounds, the
    synchronization at the start of the next [wait_and_process] leaves every
    condition of every node of the executor attached to the waitset, under an id
    of its own that leads back to the entity. *)
Theorem no_entity_lost {E} `{DdsWaitsetLaws E} (owner : Z -> nat * option Entity)
    (waitset cancel_h wake_h : Z) (h : nat -> Node) (e e0 : E) (s0 s : Executor E) :
  attach_succeeds (E := E) -> attachments e = ∅ -> cancel_h <> wake_h ->
  Executor_ctor waitset cancel_h wake_h h e = (Ok s0, e0) ->
  star (exec_step owner) s0 s -> good owner s ->
  exec_inv owner (sync s) /\
  forall n ent, n ∈ nodes_ s -> ent ∈ entities_ (heap s n) ->
    exists id, attachments (env (sync s)) !! condition ent = Some id /\
      attached_ (sync s) !! id = Some (mk_attached (condition ent) n (Some ent)).
Proof.
  intros Hok He Hne Hctor Hrun Hg.
  pose proof (ctor_inv owner _ _ _ _ _ _ _ He Hne Hctor) as Hi0.
  assert (Hi : exec_inv owner s /\ covered s).
  { apply (star_invariant (exec_step owner) (fun s => exec_inv owner s /\ covered s)) with (s := s0); [|done|done].
    intros s1 s2. apply (exec_step_inv owner Hok). }
  destruct Hi as [Hi Hc].
  assert (His : exec_inv owner (sync s)).
  { unfold sync. destruct (changed s); [|done]. destruct Hg as (Hw & Hn & _).
    by destruct (reconcile_covers owner Hok s Hi Hw Hn). }
  split; [done|]. intros n ent Hn Hent.
  destruct (sync_complete owner Hok s Hi Hc Hg (condition ent)) as (id & att & Hatt & Hcond).
  { exists n. split; [done|]. right. eauto. }
  exists id. split.
  - apply (book_att _ _ _ _ _ _ His). right. right. eauto.
  - rewrite Hatt. apply (book_ids _ _ _ _ _ _ His) in Hatt as [_ ->]. rewrite Hcond.
    destruct Hg as ([Ho _] & _). unfold owned. destruct (Ho n Hn) as [_ Hent'].
    by rewrite (Hent' ent Hent).
Qed.
