(* ===== verification/ExecutorRun.v ===== *)
(** Running the executor of Executor.v: one round of [wait_and_process], the
    loops around it, cancellation, and the interleaving of a reconciliation with
    a thread that adds an entity.  The waitset of the repository's test double
    (src/tests/mock/mock_ddsc.cc) is the instance the witnesses run on. *)
From Stdlib Require Import ZArith Lia Strings.Byte.
From stdpp Require Import base tactics list numbers gmap fin_maps sorting functions.
From S2P Require Import Prelude Bytes Executor.

(* ------------------------------------------------------------------ *)
(** * The waitset of the test double *)

(** [WaitsetState], [GuardState] of the guards, and the read conditions whose
    reader has queued samples. *)
Record MockWaitset := mk_waitset {
  m_attached : gmap Z Z;
  m_guards : gmap Z bool;
  m_queued : gset Z
}.

Definition m_ready (e : MockWaitset) (c : Z) : bool :=
  match m_guards e !! c with Some flag => flag | None => bool_decide (c ∈ m_queued e) end.

Definition m_keys (e : MockWaitset) : list Z := merge_sort Z.le (elements (dom (m_attached e))).

Definition m_triggered (e : MockWaitset) : list (Z * Z) :=
  omap (fun c => if m_ready e c then (fun x => (c, x)) <$> m_attached e !! c else None) (m_keys e).

Definition mock_waitset_wait (nxs : nat) (_ : Z) (e : MockWaitset) : (Z * list Z) * MockWaitset :=
  let xs := take nxs (map snd (m_triggered e)) in ((Z.of_nat (length xs), xs), e).

Definition mock_guard_set (g : Z) (e : MockWaitset) : MockWaitset :=
  match m_guards e !! g with
  | Some _ => mk_waitset (m_attached e) (<[g := true]> (m_guards e)) (m_queued e)
  | None => e
  end.
Definition mock_guard_take (g : Z) (e : MockWaitset) : bool * MockWaitset :=
  match m_guards e !! g with
  | Some flag => (flag, mk_waitset (m_attached e) (<[g := false]> (m_guards e)) (m_queued e))
  | None => (false, e)
  end.

#[export] Instance mock_waitset : DdsWaitset MockWaitset := {|
  waitset_attach c x e := (0%Z, mk_waitset (<[c := x]> (m_attached e)) (m_guards e) (m_queued e));
  waitset_detach c e := mk_waitset (delete c (m_attached e)) (m_guards e) (m_queued e);
  waitset_wait := mock_waitset_wait;
  guard_set := mock_guard_set;
  guard_take := mock_guard_take
|}.

Lemma m_triggered_spec e c x : (c, x) ∈ m_triggered e <-> m_attached e !! c = Some x /\ m_ready e c = true.
Proof.
  unfold m_triggered. rewrite list_elem_of_omap. split.
  - intros (c' & _ & Hc). destruct (m_ready e c') eqn:Er; [|done].
    destruct (m_attached e !! c') eqn:Ea; simplify_eq/=. done.
  - intros [Ha Hr]. exists c. split; [|by rewrite Hr, Ha].
    unfold m_keys. rewrite merge_sort_Permutation, elem_of_elements. by apply elem_of_dom.
Qed.

Lemma NoDup_omap_fst (f : Z -> option (Z * Z)) (l : list Z) :
  (forall c p, f c = Some p -> fst p = c) -> NoDup l -> NoDup (map fst (omap f l)).
Proof.
  intros Hf. induction 1 as [|c l Hc Hl IH]; [constructor|].
  change (omap f (c :: l)) with (match f c with Some p => p :: omap f l | None => omap f l end).
  destruct (f c) as [p|] eqn:Ec; [|done]. simpl. constructor; [|done].
  rewrite (Hf _ _ Ec). intros Hin. apply list_elem_of_fmap in Hin as (q & -> & Hq).
  apply list_elem_of_omap in Hq as (c' & Hc' & Eq). rewrite (Hf _ _ Eq) in Hc. done.
Qed.

#[export] Instance mock_waitset_laws : DdsWaitsetLaws MockWaitset.
Proof.
  refine {| attachments := m_attached; raised := m_ready; is_guard e g := is_Some (m_guards e !! g) |};
    try done.
  - intros c x e rc e'. simpl. by intros [= <- <-].
  - intros maxs timeout e n xs e' E _. simpl in E. unfold mock_waitset_wait in E. injection E as <- <- <-.
    split; [done|]. exists (m_triggered e). split_and!; [|done|lia| | |].
    + apply NoDup_omap_fst.
      * intros c p. destruct (m_ready e c); [|done]. destruct (m_attached e !! c); by intros [= <-].
      * unfold m_keys. rewrite merge_sort_Permutation. apply NoDup_elements.
    + rewrite length_take, length_map. lia.
    + intros c x Hc. by apply m_triggered_spec in Hc as [? _].
    + intros c x Ha Hr. by apply m_triggered_spec.
  - intros g e. simpl. unfold mock_guard_set. destruct (m_guards e !! g) eqn:Eg; simpl.
    + split; [done|]. intros _. unfold m_ready. simpl. by rewrite lookup_insert_eq.
    + split; [done|]. by intros [? ?].
  - intros g e. simpl. unfold mock_guard_take. destruct (m_guards e !! g) eqn:Eg; simpl.
    + split; [done|]. intros _. unfold m_ready. simpl. by rewrite lookup_insert_eq.
    + split; [done|]. by intros [? ?].
Defined.

(* ------------------------------------------------------------------ *)
(** * One round *)

Section round.
Context {E : Type} `{DdsWaitsetLaws E}.
Variable owner : Z -> nat * option Entity.
Variable dispatch : Entity -> stM (Executor E) unit.
Implicit Types s : Executor E.

(** Callbacks may throw, and may change the executor as they like, but are
    themselves free of undefined behaviour. *)
Definition dispatch_defined : Prop := forall e s, fst (dispatch e s) <> Undefined.

Definition entity_at (id : Z) s : option Entity := attached_ s !! id ≫= entity.

(** What one triggered attachment does to the executor and to [did_work]. *)
Definition handled (p : Executor E * bool) (id : Z) : Executor E * bool :=
  let (s, w) := p in
  if (id =? kCancelAttachment)%Z then (set_requested true (take_guard (cancel_guard_ s) s), w)
  else if (id =? kWakeAttachment)%Z then (take_guard (wake_guard_ s) s, w)
  else match entity_at id s with Some e => (snd (dispatch e s), true) | None => (s, w) end.

(** The dispatches of a round are defined on the states in which it comes to
    them. *)
Definition dispatch_defined_at (id : Z) s : Prop := forall e, entity_at id s = Some e -> fst (dispatch e s) <> Undefined.
Fixpoint round_defined (p : Executor E * bool) (xs : list Z) : Prop :=
  match xs with
  | [] => True
  | id :: xs => dispatch_defined_at id (fst p) /\ round_defined (handled p id) xs
  end.

Lemma dispatch_round_defined xs : dispatch_defined -> forall p, round_defined p xs.
Proof. intros Hd. induction xs as [|id xs IH]; intros p; [done|]. split; [intros e _; apply Hd|apply IH]. Qed.

Lemma process_one_spec id w s :
  dispatch_defined_at id s ->
  process_one dispatch id w s = (Ok (snd (handled (s, w) id)), fst (handled (s, w) id)).
Proof.
  intros Hd. unfold dispatch_defined_at, entity_at in Hd. unfold process_one, handled, entity_at.
  destruct (id =? kCancelAttachment)%Z; [done|]. destruct (id =? kWakeAttachment)%Z; [done|].
  rewrite (st_bind_Ok _ _ _ s s) by done.
  destruct (attached_ s !! id) as [[? ? [e|]]|]; [|done..]. simpl in *.
  unfold mbind, stM_bind, st_try. specialize (Hd e eq_refl).
  by destruct (dispatch e s) as [[[]|x|] s'].
Qed.

Lemma process_all_spec xs : forall w s,
  round_defined (s, w) xs ->
  process_all dispatch xs (length xs) w s =
    (Ok (snd (foldl handled (s, w) xs)), fst (foldl handled (s, w) xs)).
Proof.
  induction xs as [|id xs IH]; intros w s Hd; [done|]. destruct Hd as [Hd Hds]. simpl in Hds.
  cbn [process_all length foldl].
  rewrite (st_bind_Ok _ _ _ _ _ (process_one_spec id w s Hd)), IH by (by rewrite <- surjective_pairing).
  by rewrite <- surjective_pairing.
Qed.

Lemma process_all_short xs : forall n w s,
  length xs < n -> fst (process_all dispatch xs n w s) = Undefined.
Proof.
  induction xs as [|id xs IH]; intros [|n] w s Hn; simpl in *; try lia; [done|].
  assert (Ho : exists o s', process_one dispatch id w s = (o, s') /\ forall x, o <> Throw x).
  { unfold process_one. destruct (id =? kCancelAttachment)%Z; [eexists _, _; split; [reflexivity|done]|].
    destruct (id =? kWakeAttachment)%Z; [eexists _, _; split; [reflexivity|done]|].
    rewrite (st_bind_Ok _ _ _ s s) by done.
    destruct (attached_ s !! id) as [[? ? [e|]]|]; [|eexists _, _; split; [reflexivity|done]..].
    unfold mbind, stM_bind, st_try. destruct (dispatch e s) as [[[]|x|] s'];
      eexists _, _; (split; [reflexivity|done]). }
  destruct Ho as (o & s' & Ho & Hno). unfold mbind, stM_bind. rewrite Ho.
  destruct o as [w'|x|]; [apply IH; lia|by destruct (Hno x)|done].
Qed.

(** All triggered attachments fit when there are at most [MAX_TRIGGERS]. *)
Lemma ready_length (a : gmap Z Z) (ready : list (Z * Z)) :
  NoDup (map fst ready) -> (forall c x, (c, x) ∈ ready -> a !! c = Some x) -> length ready <= size a.
Proof.
  intros Hnd Ha. rewrite <- size_dom, <- (length_map fst).
  rewrite <- (size_list_to_set (C := gset Z) (map fst ready)) by done.
  apply subseteq_size. intros c. rewrite elem_of_list_to_set, list_elem_of_fmap.
  intros ([c' x] & -> & Hin). apply elem_of_dom. eauto.
Qed.

Lemma ids_nodup (a : gmap Z Z) (ready : list (Z * Z)) :
  NoDup (map fst ready) -> (forall c x, (c, x) ∈ ready -> a !! c = Some x) ->
  (forall c c' x, a !! c = Some x -> a !! c' = Some x -> c = c') -> NoDup (map snd ready).
Proof.
  intros Hnd Ha Hinj. induction ready as [|[c x] ready IH]; [constructor|]. simpl in *.
  apply list.NoDup_cons in Hnd as [Hc Hnd]. constructor; [|apply IH; [done|set_solver]].
  intros Hx. apply list_elem_of_fmap in Hx as ([c' x'] & Hxx & Hin). simpl in Hxx. subst x'.
  assert (c = c') as -> by (apply (Hinj c c' x); apply Ha; set_solver).
  destruct Hc. apply list_elem_of_fmap. by exists (c', x).
Qed.

Lemma book_injective ch wh (a : gmap Z Z) m next c c' x :
  book owner ch wh a m next -> a !! c = Some x -> a !! c' = Some x -> c = c'.
Proof.
  intros Hb Hc Hc'. pose proof (book_ids _ _ _ _ _ _ Hb) as Hi.
  apply (book_att _ _ _ _ _ _ Hb) in Hc, Hc'. unfold kCancelAttachment, kWakeAttachment in *.
  destruct Hc as [[? ?]|[[? ?]|(att & Hm & ?)]], Hc' as [[? ?]|[[? ?]|(att' & Hm' & ?)]]; subst;
    try (apply Hi in Hm; lia); try (apply Hi in Hm'; lia); try lia; try done.
  by rewrite Hm in Hm'; injection Hm' as ->.
Qed.

Lemma wait_ready timeout s n xs s' :
  exec_inv owner s -> size (attachments (env s)) <= MAX_TRIGGERS ->
  wait timeout s = ((n, xs), s') -> (0 <= n)%Z ->
  s' = set_env (env s') s /\ attachments (env s') = attachments (env s) /\
  n = Z.of_nat (length xs) /\ NoDup xs /\
  (forall c id, attachments (env s) !! c = Some id -> raised (env s) c = true -> id ∈ xs).
Proof.
  intros Hi Hsz Hw Hn. unfold wait in Hw.
  destruct (waitset_wait MAX_TRIGGERS timeout (env s)) as [[n' xs'] e] eqn:Ew. injection Hw as -> -> <-.
  destruct (wait_spec _ _ _ _ _ _ Ew Hn) as (Ha & ready & Hnd & Hxs & Hlen & Hin & Hout).
  pose proof (ready_length _ _ Hnd Hin) as Hl.
  rewrite take_ge in Hxs by (rewrite length_map; lia). subst xs. rewrite length_map in *.
  split_and!; [done|done|lia| |].
  - apply (ids_nodup (attachments (env s))); [done|done|]. intros c c' x. by apply (book_injective _ _ _ _ _ _ _ _ Hi).
  - intros c id Hc Hr. apply list_elem_of_fmap. exists (c, id). auto.
Qed.

Lemma round_ok_at timeout n xs s s' :
  round_defined (s', false) xs -> exec_inv owner (sync s) ->
  size (attachments (env (sync s))) <= MAX_TRIGGERS ->
  wait timeout (sync s) = ((n, xs), s') -> (0 <= n)%Z ->
  NoDup xs /\
  (forall c id, attachments (env (sync s)) !! c = Some id -> raised (env (sync s)) c = true -> id ∈ xs) /\
  let (s3, did_work) := foldl handled (s', false) xs in
  wait_and_process dispatch timeout s = (Ok did_work, if decide (xs = []) then s3 else absorb s3).
Proof.
  intros Hd Hi Hsz Hw Hn.
  destruct (wait_ready timeout _ _ _ _ Hi Hsz Hw Hn) as (_ & _ & -> & Hnd & Hall).
  split_and!; [done|done|]. unfold wait_and_process.
  rewrite (st_bind_Ok _ _ _ tt (sync s)) by done.
  rewrite (st_bind_Ok _ _ _ (Z.of_nat (length xs), xs) s') by (unfold st_run; by rewrite Hw).
  destruct (Z.ltb_spec (Z.of_nat (length xs)) 0); [lia|].
  destruct (foldl handled (s', false) xs) as [s3 w] eqn:Ef.
  destruct (decide (xs = [])) as [->|Hne].
  - simpl in Ef. by injection Ef as <- <-.
  - destruct (Z.eqb_spec (Z.of_nat (length xs)) 0); [by destruct xs|].
    rewrite Nat2Z.id.
    erewrite st_bind_Ok by (apply process_all_spec; done). by rewrite Ef.
Qed.

Lemma round_ok timeout n xs s s' :
  dispatch_defined -> exec_inv owner (sync s) ->
  size (attachments (env (sync s))) <= MAX_TRIGGERS ->
  wait timeout (sync s) = ((n, xs), s') -> (0 <= n)%Z ->
  NoDup xs /\
  (forall c id, attachments (env (sync s)) !! c = Some id -> raised (env (sync s)) c = true -> id ∈ xs) /\
  let (s3, did_work) := foldl handled (s', false) xs in
  wait_and_process dispatch timeout s = (Ok did_work, if decide (xs = []) then s3 else absorb s3).
Proof. intros Hd. apply round_ok_at. by apply dispatch_round_defined. Qed.
End round.

(** C20: one round of the executor: with at most 64 attachments a round is free
    of undefined behaviour and lets no exception of a callback out; it throws
    only when the wait fails; otherwise it handles every triggered attachment
    exactly once, in the order reported, and none is missed. *)
Theorem round_handles_ready {E} `{DdsWaitsetLaws E} (owner : Z -> nat * option Entity)
    (dispatch : Entity -> stM (Executor E) unit) (timeout n : Z) (xs : list Z) (s s' : Executor E) :
  dispatch_defined dispatch -> exec_inv owner (sync s) ->
  size (attachments (env (sync s))) <= MAX_TRIGGERS ->
  wait timeout (sync s) = ((n, xs), s') ->
  if (n <? 0)%Z then wait_and_process dispatch timeout s = (Throw InternalError, s')
  else
    NoDup xs /\
    (forall c id, attachments (env (sync s)) !! c = Some id -> raised (env (sync s)) c = true -> id ∈ xs) /\
    let (s3, did_work) := foldl (handled dispatch) (s', false) xs in
    wait_and_process dispatch timeout s = (Ok did_work, if decide (xs = []) then s3 else absorb s3).
Proof.
  intros Hd Hi Hsz Hw. destruct (Z.ltb_spec n 0).
  - unfold wait_and_process. rewrite (st_bind_Ok _ _ _ tt (sync s)) by done.
    rewrite (st_bind_Ok _ _ _ (n, xs) s') by (unfold st_run; by rewrite Hw).
    by destruct (Z.ltb_spec n 0); [|lia].
  - by apply (round_ok owner dispatch timeout n).
Qed.

(* ------------------------------------------------------------------ *)
(** * Cancellation *)

Section cancellation.
Context {E : Type} `{DdsWaitsetLaws E}.
Variable dispatch : Entity -> stM (Executor E) unit.
Implicit Types s : Executor E.

(** No callback runs [spin], the only code that clears the request. *)
Definition dispatch_keeps_request : Prop :=
  forall e s, cancel_requested_ s = true -> cancel_requested_ (snd (dispatch e s)) = true.

Lemma handled_keeps id s w :
  dispatch_keeps_request -> cancel_requested_ s = true ->
  cancel_requested_ (fst (handled dispatch (s, w) id)) = true.
Proof.
  intros Hk Hs. unfold handled. destruct (id =? kCancelAttachment)%Z; [done|].
  destruct (id =? kWakeAttachment)%Z; [done|]. destruct (entity_at id s); [by apply Hk|done].
Qed.

Lemma foldl_handled_keeps xs : forall s w,
  dispatch_keeps_request -> cancel_requested_ s = true ->
  cancel_requested_ (fst (foldl (handled dispatch) (s, w) xs)) = true.
Proof.
  induction xs as [|id xs IH]; intros s w Hk Hs; [done|]. cbn [foldl].
  pose proof (handled_keeps id s w Hk Hs) as Hh.
  destruct (handled dispatch (s, w) id) as [s1 w1]. by apply IH.
Qed.

Lemma foldl_handled_cancels xs : forall s w,
  dispatch_keeps_request -> kCancelAttachment ∈ xs ->
  cancel_requested_ (fst (foldl (handled dispatch) (s, w) xs)) = true.
Proof.
  induction xs as [|id xs IH]; intros s w Hk Hin; [by apply not_elem_of_nil in Hin|]. cbn [foldl].
  apply elem_of_cons in Hin as [<-|Hin].
  - by apply foldl_handled_keeps.
  - destruct (handled dispatch (s, w) id) as [s1 w1]. by apply IH.
Qed.

Lemma absorb_requested s : cancel_requested_ (absorb s) = cancel_requested_ s.
Proof.
  unfold absorb. generalize (nodes_ s). intros ns. revert s.
  induction ns as [|n ns IH]; intros s; simpl; [done|]. by rewrite IH.
Qed.

Lemma attach_one_raised desired cs : forall st g,
  raised (fst (fst (fst (foldl (attach_one desired) st cs)))) g = raised (fst (fst (fst st))) g.
Proof.
  induction cs as [|c cs IH]; intros [[[e m] nx] cur] g; [done|]. cbn [foldl]. rewrite IH.
  unfold attach_one. case_decide; [done|]. destruct (desired !! c); [|done].
  pose proof (attach_raised c (u64 (nx + 1)) e g) as Hr. cbn zeta.
  destruct (waitset_attach c (u64 (nx + 1)) e) as [rc e']. by destruct (rc <? 0)%Z.
Qed.

Lemma reconcile_raised s g : raised (env (reconcile_locked s)) g = raised (env s) g.
Proof.
  unfold reconcile_locked, reconcile_with. cbn zeta.
  match goal with |- context [foldl (attach_one ?d) ?st ?cs] =>
    pose proof (attach_one_raised d cs st g) as Hr; destruct (foldl (attach_one d) st cs) as [[[e2 m2] n2] c2] end.
  cbn [fst snd] in Hr. cbn [env]. rewrite Hr. cbn [set_nodes env attached_].
  generalize (filter (is_stale (desired_of (heap s) (nodes_ s))) (map_to_list (attached_ s))). intros l.
  generalize (env s). clear Hr. induction l as [|p l IH]; intros e; simpl; [done|].
  rewrite IH. apply detach_raised.
Qed.

Lemma sync_raised s g : raised (env (sync s)) g = raised (env s) g.
Proof. unfold sync. destruct (changed s); [apply reconcile_raised|done]. Qed.

Lemma sync_cancel_guard s : cancel_guard_ (sync s) = cancel_guard_ s.
Proof. unfold sync. destruct (changed s); [by destruct (reconcile_frame s) as (_ & _ & -> & _)|done]. Qed.

(** A round that finds the cancel guard raised ends with a request. *)
Lemma cancel_round owner timeout n xs s s' :
  dispatch_defined dispatch -> dispatch_keeps_request -> exec_inv owner (sync s) ->
  size (attachments (env (sync s))) <= MAX_TRIGGERS -> raised (env s) (cancel_guard_ s) = true ->
  wait timeout (sync s) = ((n, xs), s') -> (0 <= n)%Z ->
  exists w s'', wait_and_process dispatch timeout s = (Ok w, s'') /\ cancel_requested_ s'' = true.
Proof.
  intros Hd Hk Hi Hsz Hr Hw Hn.
  destruct (round_ok owner dispatch timeout n xs s s' Hd Hi Hsz Hw Hn) as (_ & Hall & Hround).
  assert (Hin : kCancelAttachment ∈ xs).
  { apply (Hall (cancel_guard_ s)); [|by rewrite sync_raised].
    apply (book_att _ _ _ _ _ _ Hi). left. by rewrite sync_cancel_guard. }
  pose proof (foldl_handled_cancels xs s' false Hk Hin) as Hreq.
  destruct (foldl (handled dispatch) (s', false) xs) as [s3 w].
  eexists _, _. split; [exact Hround|]. case_decide; [done|]. by rewrite absorb_requested.
Qed.
End cancellation.

(** [spin] stops within one round when the cancel guard is raised: neither
    the callbacks of the round, throwing or not, nor the reset of the request at
    the start of [spin] lose a [cancel] that raised it.  The same holds for a
    guard still raised from before [spin] was called. *)
Theorem spin_cancelled {E} `{DdsWaitsetLaws E} (owner : Z -> nat * option Entity)
    (dispatch : Entity -> stM (Executor E) unit) (n : Z) (xs : list Z) (s s' : Executor E) (fuel : nat) :
  dispatch_defined dispatch -> dispatch_keeps_request dispatch ->
  exec_inv owner (sync (set_requested false s)) ->
  size (attachments (env (sync (set_requested false s)))) <= MAX_TRIGGERS ->
  raised (env s) (cancel_guard_ s) = true ->
  wait DDS_INFINITE (sync (set_requested false s)) = ((n, xs), s') -> (0 <= n)%Z -> 2 <= fuel ->
  exists s'', spin dispatch fuel s = (Ok (Some tt), s'') /\ cancel_requested_ s'' = true.
Proof.
  intros Hd Hk Hi Hsz Hr Hw Hn Hf.
  destruct (cancel_round dispatch owner DDS_INFINITE n xs (set_requested false s) s' Hd Hk Hi Hsz Hr Hw Hn)
    as (w & s'' & Hround & Hreq).
  exists s''. split; [|done]. unfold spin.
  rewrite (st_bind_Ok _ _ _ tt (set_requested false s)) by done.
  destruct fuel as [|[|fuel]]; [lia..|]. cbn [spin_loop].
  rewrite (st_bind_Ok _ _ _ _ _ (eq_refl : st_get (set_requested false s) = (Ok _, _))).
  cbn [set_requested cancel_requested_ negb].
  rewrite (st_bind_Ok _ _ _ _ _ Hround).
  rewrite (st_bind_Ok _ _ _ _ _ (eq_refl : st_get s'' = (Ok _, _))). by rewrite Hreq.
Qed.

(* ------------------------------------------------------------------ *)
(** * More triggers than the array holds *)

(** [dds_waitset_wait] reports how many attachments triggered, which is
    more than it stored when they do not fit into the array of 64; the loop of
    [wait_and_process] runs up to the count reported, so such a round reads
    array elements that hold no value, whatever the callbacks do. *)
Theorem too_many_triggers {E} `{DdsWaitset E} (dispatch : Entity -> stM (Executor E) unit)
    (timeout n : Z) (xs : list Z) (s s' : Executor E) :
  wait timeout (sync s) = ((n, xs), s') -> (Z.of_nat (length xs) < n)%Z ->
  fst (wait_and_process dispatch timeout s) = Undefined.
Proof.
  intros Hw Hn. unfold wait_and_process.
  rewrite (st_bind_Ok _ _ _ tt (sync s)) by done.
  rewrite (st_bind_Ok _ _ _ (n, xs) s') by (unfold st_run; by rewrite Hw).
  destruct (Z.ltb_spec n 0); [lia|]. destruct (Z.eqb_spec n 0); [lia|].
  pose proof (process_all_short dispatch xs (Z.to_nat n) false s' ltac:(lia)) as Hu.
  unfold mbind, stM_bind. by destruct (process_all dispatch xs (Z.to_nat n) false s') as [[w|x|] s2].
Qed.

(* ------------------------------------------------------------------ *)
(** * A reconciliation and a concurrent [add_entity] *)

(** [reconcile_locked] holds the lock of the executor, not those of the nodes:
    it sees the entities of the nodes in one heap, [h1], and their epochs in a
    later one, [h2]. *)
Definition reconcile_views {E} `{DdsWaitset E} (h1 h2 : nat -> Node) (s : Executor E) : Executor E :=
  let desired := desired_of h1 (nodes_ s) in
  let s := set_heap h2 (set_nodes (nodes_ s) (epochs_of h2 (nodes_ s) (node_epochs_ s)) s) in
  reconcile_with desired s.

Lemma reconcile_views_same {E} `{DdsWaitset E} (s : Executor E) :
  reconcile_views (heap s) (heap s) s = reconcile_locked s.
Proof. done. Qed.

(** C22: an entity added between the two reads of a node, of its entities and of
    its epoch, is not attached, and the recorded epoch says it is: the node
    counts as up to date, so later rounds leave the attachments as they are
    until the node changes again, and what arrives for the entity is not
    dispatched. *)
Theorem epoch_race {E} `{DdsWaitsetLaws E} (owner : Z -> nat * option Entity)
    (s : Executor E) (n : nat) (ent : Entity) :
  exec_inv owner s -> well_owned owner s -> ids_left s -> attach_succeeds (E := E) ->
  n ∈ nodes_ s -> ~ member (heap s) (nodes_ s) (condition ent) ->
  let h2 := <[n := push_entity ent (heap s n)]> (heap s) in
  let s' := reconcile_views (heap s) h2 s in
  ent ∈ entities_ (heap s' n) /\ n ∈ nodes_ s' /\
  ~ is_attached (attached_ s') (condition ent) /\ sync s' = s'.
Proof.
  intros Hi [Ho Hg] Hids Hok Hn Hnew h2 s'.
  set (s1 := set_heap h2 (set_nodes (nodes_ s) (epochs_of h2 (nodes_ s) (node_epochs_ s)) s)).
  assert (Hmem : forall c, is_Some (desired_of (heap s) (nodes_ s) !! c) <-> member (heap s) (nodes_ s) c)
    by (intros; by apply (desired_member _ owner)).
  destruct (reconcile_with_spec owner s1 (desired_of (heap s) (nodes_ s)))
    as (_ & R2 & _ & _ & R5 & _); [done| |by intros c Hc; apply Hg, Hmem|done|].
  { intros c att. by apply (desired_of_spec (heap s) owner (nodes_ s) ∅ Ho). }
  change (reconcile_with (desired_of (heap s) (nodes_ s)) s1) with s' in R2, R5. specialize (R5 Hok).
  assert (Hf : heap s' = h2 /\ nodes_ s' = nodes_ s /\ node_epochs_ s' = epochs_of h2 (nodes_ s) (node_epochs_ s)).
  { unfold s', reconcile_views, reconcile_with. cbn zeta.
    by destruct (foldl (attach_one _) _ _) as [[[? ?] ?] ?]. }
  clearbody s'. destruct Hf as (F1 & F2 & F3).
  split_and!.
  - rewrite F1. unfold h2. rewrite fn_lookup_insert. simpl. set_solver.
  - by rewrite F2.
  - intros (id & att & Hm & Hc). apply Hnew, Hmem. rewrite <- Hc. by apply (R2 id).
  - unfold sync. assert (Hch : changed s' = false); [|by rewrite Hch].
    unfold changed. apply orb_false_iff. split.
    + destruct (R5 (change_guard_ (heap s n))) as (id & att & Hm & _).
      { apply Hmem. exists n. auto. }
      rewrite bool_decide_eq_false_2; [done|]. intros He. by rewrite He in Hm.
    + destruct (existsb _ (nodes_ s')) eqn:Eex; [|done]. exfalso.
      apply existsb_exists in Eex as (m & Hm & Hb). apply list_elem_of_In in Hm. rewrite F2 in Hm.
      rewrite F1, F3, epochs_of_lookup, decide_True, Z.eqb_refl in Hb by done. done.
Qed.

(* ------------------------------------------------------------------ *)
(** * A small executor *)

(** The guards of the executor are the conditions 1 and 2; node 0 has guard 10;
    the entities are a subscription and a service with conditions 20 and 30. *)
Definition sub_ent : Entity := mk_entity 0 20.
Definition srv_ent : Entity := mk_entity 1 30.
Definition demo_owner (c : Z) : nat * option Entity :=
  (0, if (c =? 20)%Z then Some sub_ent else if (c =? 30)%Z then Some srv_ent else None).
Definition demo_heap (_ : nat) : Node := mk_node [sub_ent] 1 10.
Definition demo_env : MockWaitset :=
  mk_waitset ∅ (<[1%Z := false]> (<[2%Z := false]> (<[10%Z := false]> ∅))) {[ 20%Z ]}.
Definition demo_exec : Executor MockWaitset :=
  mk_exec (mk_waitset (<[2%Z := 2%Z]> (<[1%Z := 1%Z]> ∅)) (m_guards demo_env) (m_queued demo_env))
    demo_heap 1 2 false [] ∅ ∅ 2.
Definition demo_run : Executor MockWaitset := add_node 0 demo_exec.

Lemma demo_ctor : Executor_ctor 7 1 2 demo_heap demo_env = (Ok demo_exec, env demo_exec).
Proof. reflexivity. Qed.

Lemma demo_inv : exec_inv demo_owner demo_exec /\ covered demo_exec.
Proof. apply (ctor_inv demo_owner 7 1 2 demo_heap demo_env (env demo_exec)); [done|done|exact demo_ctor]. Qed.

Lemma mock_attach_succeeds : attach_succeeds (E := MockWaitset).
Proof. by intros c x e. Qed.

(** States of node 0 with these two entities. *)
Definition demo_like {E} (s : Executor E) : Prop :=
  (forall n, n ∈ nodes_ s -> n = 0) /\
  (forall n, change_guard_ (heap s n) = 10%Z /\ (0 <= entity_epoch_ (heap s n) < 100)%Z /\
     forall e, e ∈ entities_ (heap s n) -> e = sub_ent \/ e = srv_ent) /\
  cancel_guard_ s = 1%Z /\ wake_guard_ s = 2%Z /\ ids_left s.

Lemma demo_well_owned {E} (s : Executor E) : demo_like s -> well_owned demo_owner s.
Proof.
  intros (Hn & Hh & Hc & Hw & _). split.
  - intros n Hin. rewrite (Hn n Hin). destruct (Hh 0) as (-> & _ & He). split; [done|].
    intros e [->| ->]%He; done.
  - intros c (n & Hin & Hcn). rewrite Hc, Hw. destruct (Hh n) as (Hg & _ & He).
    destruct Hcn as [->|(e & [->| ->]%He & ->)]; [rewrite Hg|..]; simpl; lia.
Qed.

Lemma demo_good {E} (s : Executor E) : demo_like s -> good demo_owner s.
Proof.
  intros Hd. split_and!; [by apply demo_well_owned|apply Hd|].
  intros n. destruct Hd as (_ & Hh & _). destruct (Hh n) as (_ & ? & _). lia.
Qed.

Ltac demo_like_tac :=
  split_and!; [intros n Hn; vm_compute in Hn; set_solver
              |intros n; destruct n; split_and!; try (vm_compute; done);
               intros e He; vm_compute in He; set_solver
              |done|done|vm_compute; done].

Lemma demo_exec_like : demo_like demo_exec.
Proof. demo_like_tac. Qed.
Lemma demo_enlisted_like : demo_like (enlist 0 demo_exec).
Proof. demo_like_tac. Qed.
Lemma demo_run_like : demo_like demo_run.
Proof. demo_like_tac. Qed.
Lemma demo_added_like : demo_like (add_entity 0 srv_ent demo_run).
Proof. demo_like_tac. Qed.

(* ------------------------------------------------------------------ *)
(** * Witnesses *)

Lemma reconcile_attaches_witness :
  attached_ (reconcile_locked (enlist 0 demo_exec)) !! 4%Z = Some (mk_attached 20 0 (Some sub_ent)) /\
  reconcile_locked (reconcile_locked (enlist 0 demo_exec)) = reconcile_locked (enlist 0 demo_exec).
Proof.
  split; [vm_compute; reflexivity|].
  apply (reconcile_attaches demo_owner (enlist 0 demo_exec)).
  - apply demo_inv.
  - apply demo_well_owned, demo_enlisted_like.
  - apply demo_enlisted_like.
  - apply mock_attach_succeeds.
Defined.

Lemma no_entity_lost_witness :
  star (exec_step demo_owner) demo_exec (add_entity 0 srv_ent demo_run) /\
  exists id, m_attached (env (sync (add_entity 0 srv_ent demo_run))) !! 30%Z = Some id.
Proof.
  assert (Hrun : star (exec_step demo_owner) demo_exec (add_entity 0 srv_ent demo_run)).
  { eapply star_step with (s2 := demo_run).
    - split; [apply op_add_node, demo_good, demo_enlisted_like|].
      split; apply demo_good; [apply demo_exec_like|apply demo_run_like].
    - eapply star_step; [|apply star_refl]. split; [apply op_add_entity|].
      split; apply demo_good; [apply demo_run_like|apply demo_added_like]. }
  split; [exact Hrun|].
  destruct (no_entity_lost demo_owner 7 1 2 demo_heap demo_env (env demo_exec) demo_exec
              (add_entity 0 srv_ent demo_run) mock_attach_succeeds) as [_ Hall];
    [done|done|exact demo_ctor|exact Hrun|apply demo_good, demo_added_like|].
  destruct (Hall 0 srv_ent) as (id & Hid & _); [vm_compute; set_solver|vm_compute; set_solver|].
  exists id. exact Hid.
Defined.

(** A callback that throws. *)
Definition throwing_dispatch (_ : Entity) : stM (Executor MockWaitset) unit := st_throw UserException.

Lemma throwing_defined : dispatch_defined throwing_dispatch.
Proof. by intros e s. Qed.

Lemma demo_run_inv : exec_inv demo_owner (sync demo_run).
Proof.
  destruct (exec_step_inv demo_owner mock_attach_succeeds demo_exec demo_run) as [Hi _]; [|apply demo_inv|].
  - split; [apply op_add_node, demo_good, demo_enlisted_like|].
    split; apply demo_good; [apply demo_exec_like|apply demo_run_like].
  - exact Hi.
Qed.

Lemma round_handles_ready_witness :
  wait 0 (sync demo_run) = ((2%Z, [2%Z; 4%Z]), demo_run) /\
  fst (wait_and_process throwing_dispatch 0 demo_run) = Ok true.
Proof.
  assert (Hw : wait 0 (sync demo_run) = ((2%Z, [2%Z; 4%Z]), demo_run)) by reflexivity.
  split; [exact Hw|].
  destruct (round_handles_ready demo_owner throwing_dispatch 0 2 [2%Z; 4%Z] demo_run demo_run)
    as (_ & _ & Hround);
    [apply throwing_defined|apply demo_run_inv|vm_compute; lia|exact Hw|].
  rewrite Hround. reflexivity.
Defined.

Lemma spin_cancelled_witness :
  exists s'', spin throwing_dispatch 5 (cancel demo_run) = (Ok (Some tt), s'') /\ cancel_requested_ s'' = true.
Proof.
  apply (spin_cancelled demo_owner throwing_dispatch 3 [1%Z; 2%Z; 4%Z] (cancel demo_run)
           (set_requested false (cancel demo_run)) 5).
  - apply throwing_defined.
  - by intros e s.
  - exact demo_run_inv.
  - vm_compute. lia.
  - reflexivity.
  - reflexivity.
  - lia.
  - lia.
Defined.

(** A waitset that reports the count of [dds_waitset_wait]: all that triggered. *)
Definition counting_wait (nxs : nat) (_ : Z) (e : MockWaitset) : (Z * list Z) * MockWaitset :=
  ((Z.of_nat (length (m_triggered e)), take nxs (map snd (m_triggered e))), e).
Definition counting_waitset : DdsWaitset MockWaitset := {|
  waitset_attach := @waitset_attach _ mock_waitset;
  waitset_detach := @waitset_detach _ mock_waitset;
  waitset_wait := counting_wait;
  guard_set := mock_guard_set;
  guard_take := mock_guard_take
|}.

(** 65 subscriptions with data, attached under the ids from 3 on. *)
Definition crowd : list Z := map Z.of_nat (seq 100 65).
Definition crowded : Executor MockWaitset :=
  mk_exec (mk_waitset (list_to_map (map (fun c => (c, (c - 97)%Z)) crowd)) ∅ (list_to_set crowd))
    demo_heap 1 2 false [] ∅ ∅ 68.

Lemma counting_laws : @DdsWaitsetLaws MockWaitset counting_waitset.
Proof.
  refine (@Build_DdsWaitsetLaws _ counting_waitset m_attached m_ready (fun e g => is_Some (m_guards e !! g))
    attach_spec attach_raised detach_spec detach_raised _ guard_set_spec guard_take_spec).
  intros maxs timeout e n xs e' E _. simpl in E. unfold counting_wait in E. injection E as <- <- <-.
  split; [done|]. exists (m_triggered e). split_and!; [|done| |done| |].
  - apply NoDup_omap_fst; [|unfold m_keys; rewrite merge_sort_Permutation; apply NoDup_elements].
    intros c p. destruct (m_ready e c); [|done]. destruct (m_attached e !! c); by intros [= <-].
  - rewrite length_take, length_map. lia.
  - intros c x Hc. by apply m_triggered_spec in Hc as [? _].
  - intros c x Ha Hr. by apply m_triggered_spec.
Qed.

Lemma too_many_triggers_witness :
  fst (@wait_and_process _ counting_waitset throwing_dispatch 0 crowded) = Undefined.
Proof.
  apply (@too_many_triggers _ counting_waitset throwing_dispatch 0 65
           (map (fun c => (c - 97)%Z) (take 64 crowd)) crowded crowded).
  - vm_compute. reflexivity.
  - vm_compute. reflexivity.
Defined.

Lemma epoch_race_witness :
  let s' := reconcile_views demo_heap (<[0 := push_entity srv_ent (demo_heap 0)]> demo_heap) demo_run in
  srv_ent ∈ entities_ (heap s' 0) /\ 0 ∈ nodes_ s' /\ ~ is_attached (attached_ s') (condition srv_ent) /\ sync s' = s'.
Proof.
  apply (epoch_race demo_owner demo_run 0 srv_ent).
  - exact demo_run_inv.
  - apply demo_well_owned, demo_run_like.
  - apply demo_run_like.
  - apply mock_attach_succeeds.
  - vm_compute. set_solver.
  - intros (n & _ & [Hc|(e & He & Hc)]); [done|]. vm_compute in He.
    apply list_elem_of_singleton in He as ->. done.
Defined.

(** A callback that cancels the executor it runs on. *)
Definition cancelling_dispatch (_ : Entity) : stM (Executor MockWaitset) unit := st_modify cancel.

(** [cancel] from a callback ends the [spin] it runs in, but its guard stays
    raised: the next [spin], with nothing to do and no [cancel] since, ends after
    one round instead of processing events. *)
Example stale_cancel :
  let s1 := snd (spin cancelling_dispatch 5 demo_run) in
  let drained := set_env (mk_waitset (m_attached (env s1)) (m_guards (env s1)) ∅) s1 in
  fst (spin cancelling_dispatch 5 demo_run) = Ok (Some tt) /\
  m_guards (env s1) !! 1%Z = Some true /\
  fst (spin cancelling_dispatch 5 drained) = Ok (Some tt).
Proof. vm_compute. done. Qed.
