(* ===== verification/ExecutorCancel.v ===== *)
(** Cancelling a spin from another thread (src/src/rcllite/executor.cpp): [spin],
    its rounds and [cancel] divided at the points where other threads can get in
    between, as a step relation; a cancel ends the spin whenever it comes.  Also
    the free function [spin], whose executor nobody can cancel. *)
From Stdlib Require Import ZArith Lia Strings.Byte.
From stdpp Require Import base tactics list numbers gmap fin_maps sorting functions.
From S2P Require Import Prelude Bytes Executor ExecutorRun.

(** Guard conditions are independent: triggering or taking one leaves the others
    as they are; and a wait reports only what is triggered. *)
Class DdsGuardLaws (E : Type) `{DdsWaitsetLaws E} := {
  guard_set_keeps g g' (e : E) : raised e g' = true -> raised (guard_set g e) g' = true;
  guard_set_others g g' (e : E) : g <> g' -> raised (guard_set g e) g' = raised e g';
  guard_take_others g g' (e : E) : g <> g' -> raised (snd (guard_take g e)) g' = raised e g';
  wait_reports_raised maxs timeout (e : E) n xs e' x :
    waitset_wait maxs timeout e = ((n, xs), e') -> x ∈ xs ->
    exists c, attachments e !! c = Some x /\ raised e c = true
}.

(** Where the spinning thread is. *)
Inductive spin_pc : Type :=
| AtStart                       (* entering [spin] *)
| AtTest                        (* at the condition of the loop *)
| AtSync                        (* entering [wait_and_process] *)
| AtWait                        (* before [dds_waitset_wait] *)
| AtTrigger (ids : list Z)      (* in the loop over the triggered attachments *)
| AtTaken (ids : list Z)        (* the cancel guard is taken, the request not yet recorded *)
| AtOverrun                     (* about to read past the triggered attachments *)
| AtReturn
| AtThrow.

(** Where the cancelling thread is: [cancel] sets the flag, then triggers the
    guard. *)
Inductive cancel_pc : Type := CancelIdle | CancelFlagged | CancelDone.

Section threads.
Context {E : Type} `{DdsGuardLaws E}.
Variable owner : Z -> nat * option Entity.
Variable dispatch : Entity -> stM (Executor E) unit.
Hypothesis attach_ok : attach_succeeds (E := E).
Implicit Types s : Executor E.

Record spinning := mk_spinning { ex : Executor E; spinner : spin_pc; canceller : cancel_pc }.

(** A section of the spinning thread. *)
Inductive spin_section : Executor E * spin_pc -> Executor E * spin_pc -> Prop :=
| sec_clear s : spin_section (s, AtStart) (set_requested false s, AtTest)
| sec_enter s : cancel_requested_ s = false -> spin_section (s, AtTest) (s, AtSync)
| sec_return s : cancel_requested_ s = true -> spin_section (s, AtTest) (s, AtReturn)
| sec_sync s : spin_section (s, AtSync) (sync s, AtWait)
| sec_wait_failed s n xs s' :
    wait DDS_INFINITE s = ((n, xs), s') -> (n < 0)%Z -> spin_section (s, AtWait) (s', AtThrow)
| sec_timeout s xs s' : wait DDS_INFINITE s = ((0%Z, xs), s') -> spin_section (s, AtWait) (s', AtTest)
| sec_wait s n xs s' :
    wait DDS_INFINITE s = ((n, xs), s') -> (0 < n <= Z.of_nat (length xs))%Z ->
    spin_section (s, AtWait) (s', AtTrigger (take (Z.to_nat n) xs))
| sec_overrun s n xs s' :
    wait DDS_INFINITE s = ((n, xs), s') -> (Z.of_nat (length xs) < n)%Z -> spin_section (s, AtWait) (s', AtOverrun)
| sec_cancel_taken s ids :
    spin_section (s, AtTrigger (kCancelAttachment :: ids)) (take_guard (cancel_guard_ s) s, AtTaken ids)
| sec_cancel_recorded s ids : spin_section (s, AtTaken ids) (set_requested true s, AtTrigger ids)
| sec_triggered s id ids w w' s' :
    id <> kCancelAttachment -> process_one dispatch id w s = (Ok w', s') ->
    spin_section (s, AtTrigger (id :: ids)) (s', AtTrigger ids)
| sec_absorb s : spin_section (s, AtTrigger []) (absorb s, AtTest).

(** What other threads, and callbacks, may do to the executor meanwhile. *)
Inductive interferes : Executor E -> Executor E -> Prop :=
| int_add_entity n e s : interferes s (add_entity n e s)
| int_remove_entity n e s : interferes s (remove_entity n e s)
| int_add_node n s : good owner (enlist n s) -> interferes s (add_node n s)
| int_remove_node n s : good owner (delist n s) -> interferes s (remove_node n s)
| int_request s : interferes s (set_requested true s)
| int_env e s :
    attachments e = attachments (env s) ->
    (raised (env s) (cancel_guard_ s) = true -> raised e (cancel_guard_ s) = true) ->
    interferes s (set_env e s).

Definition interferes_good s s' : Prop := interferes s s' /\ good owner s /\ good owner s'.

(** Callbacks throw as they like, and do to the executor what other threads may. *)
Definition callbacks_interfere : Prop :=
  forall e s, good owner s -> star interferes_good s (snd (dispatch e s)).

(** One step of the whole; [true] marks those of the spinning thread. *)
Inductive spin_step : bool -> spinning -> spinning -> Prop :=
| step_spinner s pc c s' pc' :
    spin_section (s, pc) (s', pc') -> spin_step true (mk_spinning s pc c) (mk_spinning s' pc' c)
| step_cancel_flag s pc :
    spin_step false (mk_spinning s pc CancelIdle) (mk_spinning (set_requested true s) pc CancelFlagged)
| step_cancel_trigger s pc :
    is_guard (env s) (cancel_guard_ s) ->
    spin_step false (mk_spinning s pc CancelFlagged) (mk_spinning (trigger (cancel_guard_ s) s) pc CancelDone)
| step_interferes s s' pc c :
    interferes s s' -> spin_step false (mk_spinning s pc c) (mk_spinning s' pc c).

(** Handles are not shared and at most 64 conditions are attached. *)
Definition sane (x : spinning) : Prop :=
  good owner (ex x) /\ size (attachments (env (ex x))) <= MAX_TRIGGERS.

(** [n] counts the steps of the spinning thread. *)
Inductive spin_run (start : spinning) : nat -> spinning -> Prop :=
| spin_run_start : spin_run start 0 start
| spin_run_step n b x y :
    spin_run start n x -> spin_step b x y -> sane x -> sane y -> spin_run start ((if b then 1 else 0) + n) y.

(* ------------------------------------------------------------------ *)
(** * What steps keep *)

Lemma interferes_exec s s' : interferes_good s s' -> exec_step owner s s'.
Proof. intros [Hi Hg]. split; [|done]. destruct Hi; by constructor. Qed.

(** [s'] has the guard of [s] and takes none of its cancels back. *)
Definition keeps s s' : Prop :=
  cancel_guard_ s' = cancel_guard_ s /\
  (cancel_requested_ s = true -> cancel_requested_ s' = true) /\
  (raised (env s) (cancel_guard_ s) = true -> raised (env s') (cancel_guard_ s) = true).

Lemma keeps_trans s1 s2 s3 : keeps s1 s2 -> keeps s2 s3 -> keeps s1 s3.
Proof. intros (Hg1 & Hr1 & Hc1) (Hg2 & Hr2 & Hc2). unfold keeps. rewrite Hg1 in *. naive_solver. Qed.

Lemma keeps_trigger g s : keeps s (trigger g s).
Proof. split_and!; [done|done|apply guard_set_keeps]. Qed.

Lemma keeps_reconcile s : keeps s (reconcile_locked s).
Proof.
  destruct (reconcile_frame s) as (_ & _ & Hc & _ & _ & Hq). unfold keeps. by rewrite Hc, Hq, reconcile_raised.
Qed.

Lemma keeps_sync s : keeps s (sync s).
Proof. unfold sync. destruct (changed s); [apply keeps_reconcile|done]. Qed.

Lemma keeps_take g s : g <> cancel_guard_ s -> keeps s (take_guard g s).
Proof. intros Hg. split_and!; [done|done|]. simpl. by rewrite guard_take_others. Qed.

Lemma keeps_interferes s s' : interferes s s' -> keeps s s'.
Proof.
  destruct 1 as [n e s|n e s|n s _|n s _|s|e s Ha Hk].
  - split_and!; [done|done|apply guard_set_keeps].
  - split_and!; [done|done|apply guard_set_keeps].
  - eapply keeps_trans; [|apply keeps_trigger]. eapply keeps_trans; [|apply keeps_reconcile].
    unfold enlist. by case_decide.
  - eapply keeps_trans; [|apply keeps_trigger]. by eapply keeps_trans; [|apply keeps_reconcile].
  - done.
  - done.
Qed.

Lemma keeps_interference s s' : star interferes_good s s' -> keeps s s'.
Proof.
  induction 1 as [s|s1 s2 s3 [Hi _] _ IH]; [done|]. eapply keeps_trans; [by apply keeps_interferes|done].
Qed.

Lemma keeps_absorb s : (forall n, n ∈ nodes_ s -> change_guard_ (heap s n) <> cancel_guard_ s) -> keeps s (absorb s).
Proof.
  intros Hn. unfold absorb. assert (Hin : forall n, n ∈ nodes_ s -> change_guard_ (heap s n) <> cancel_guard_ s) by done.
  clear Hn. revert Hin. generalize (nodes_ s). intros ns.
  assert (Hgen : forall s0, heap s0 = heap s -> cancel_guard_ s0 = cancel_guard_ s ->
     (forall n, n ∈ ns -> change_guard_ (heap s n) <> cancel_guard_ s) ->
     keeps s0 (foldl (fun s n => take_guard (change_guard_ (heap s n)) s) s0 ns)).
  { induction ns as [|n ns IH]; intros s0 Hh Hc Hin; [done|]. simpl.
    eapply keeps_trans; [apply keeps_take|apply IH]; [|done|done|].
    - rewrite Hh, Hc. apply Hin. set_solver.
    - intros m Hm. apply Hin. set_solver. }
  intros Hin. by apply Hgen.
Qed.

Lemma exec_inv_guards s : exec_inv owner s -> wake_guard_ s <> cancel_guard_ s.
Proof.
  intros Hb Hne. pose proof (book_att _ _ _ _ _ _ Hb) as Ha.
  assert (Hc : attachments (env s) !! cancel_guard_ s = Some kCancelAttachment) by (apply Ha; auto).
  assert (Hw : attachments (env s) !! wake_guard_ s = Some kWakeAttachment) by (apply Ha; auto).
  rewrite Hne, Hc in Hw. discriminate Hw.
Qed.

(** Handling an attachment other than the cancel guard's. *)
Lemma keeps_process_one id w s o s' :
  callbacks_interfere -> exec_inv owner s -> good owner s -> id <> kCancelAttachment ->
  process_one dispatch id w s = (o, s') ->
  keeps s s' /\ (exec_inv owner s /\ covered s -> exec_inv owner s' /\ covered s').
Proof.
  intros Hcb Hi Hg Hid Hp. unfold process_one in Hp. rewrite (proj2 (Z.eqb_neq _ _) Hid) in Hp.
  destruct (id =? kWakeAttachment)%Z.
  - injection Hp as _ <-. split; [by apply keeps_take, exec_inv_guards|].
    intros [Hi' Hc]. apply set_env_inv; [apply guard_take_attachments|done|done].
  - rewrite (st_bind_Ok st_get _ s s s eq_refl) in Hp.
    destruct (attached_ s !! id) as [[? ? [e|]]|]; [|by injection Hp as _ <-..].
    assert (Hs : s' = snd (dispatch e s)).
    { unfold mbind, stM_bind, st_try in Hp. by destruct (dispatch e s) as [[[]|x|] s1]; injection Hp as _ <-. }
    specialize (Hcb e s Hg). rewrite <- Hs in Hcb. split; [by apply keeps_interference|].
    apply (star_invariant interferes_good (fun s => exec_inv owner s /\ covered s)) with (s := s); [|done].
    intros s1 s2 Hst%interferes_exec. by apply (exec_step_inv owner attach_ok).
Qed.

(* ------------------------------------------------------------------ *)
(** * The cancel is not lost *)

Definition requested s : bool := cancel_requested_ s.
Definition guard_raised s : bool := raised (env s) (cancel_guard_ s).

(** The cancel is still on its way to the spinning thread, or has arrived. *)
Definition cancel_coming (s : Executor E) (pc : spin_pc) : Prop :=
  match pc with
  | AtStart | AtSync | AtWait => guard_raised s = true
  | AtTest => guard_raised s = true \/ requested s = true
  | AtTrigger ids => guard_raised s = true \/ requested s = true \/ kCancelAttachment ∈ ids
  | AtTaken _ | AtReturn | AtThrow => True
  | AtOverrun => False
  end.

(** The triggered attachments still to be handled. *)
Definition ids_of (pc : spin_pc) : list Z :=
  match pc with AtTrigger ids | AtTaken ids => ids | _ => [] end.

Definition spin_inv (x : spinning) : Prop :=
  spinner x = AtThrow \/
  ((exec_inv owner (ex x) /\ covered (ex x)) /\ spinner x <> AtOverrun /\
   length (ids_of (spinner x)) <= MAX_TRIGGERS /\
   (canceller x = CancelDone -> cancel_coming (ex x) (spinner x))).

Lemma cancel_coming_keeps s s' pc : keeps s s' -> cancel_coming s pc -> cancel_coming s' pc.
Proof.
  intros (Hg & Hq & Hr). unfold cancel_coming, guard_raised, requested. rewrite Hg. destruct pc; naive_solver.
Qed.

(** What a wait does: the executor keeps everything but its environment, and a
    raised cancel guard is among what is reported. *)
Lemma wait_inv s n xs s' :
  exec_inv owner s -> covered s -> size (attachments (env s)) <= MAX_TRIGGERS ->
  wait DDS_INFINITE s = ((n, xs), s') -> (0 <= n)%Z ->
  exec_inv owner s' /\ covered s' /\ n = Z.of_nat (length xs) /\ length xs <= MAX_TRIGGERS /\
  (guard_raised s = true -> kCancelAttachment ∈ xs).
Proof.
  intros Hi Hc Hsz Hw Hn. destruct (wait_ready owner _ _ _ _ _ Hi Hsz Hw Hn) as (Hs & Ha & Hl & _ & Hall).
  rewrite Hs. destruct (set_env_inv owner (env s') s Ha Hi Hc) as [Hi' Hc'].
  split_and!; [done|done|done| |].
  - unfold wait in Hw. destruct (waitset_wait MAX_TRIGGERS DDS_INFINITE (env s)) as [[n' xs'] e] eqn:Ew.
    injection Hw as -> -> <-. destruct (wait_spec _ _ _ _ _ _ Ew Hn) as (_ & ready & _ & -> & _).
    rewrite length_take. lia.
  - intros Hr. apply (Hall (cancel_guard_ s)); [|done]. apply (book_att _ _ _ _ _ _ Hi). by left.
Qed.

(** How many steps of the spinning thread are left once the cancel is done. *)
Definition round : nat := 2 * MAX_TRIGGERS + 2.
Definition steps_left (s : Executor E) (pc : spin_pc) : nat :=
  match pc with
  | AtStart => 4 + round
  | AtTest => if requested s then 1 else 3 + round
  | AtSync => 2 + round
  | AtWait => 1 + round
  | AtTrigger ids =>
      2 * length ids + 1 + (if requested s || bool_decide (kCancelAttachment ∈ ids) then 1 else 3 + round)
  | AtTaken ids => 2 * length ids + 3
  | AtOverrun | AtReturn | AtThrow => 0
  end.

Lemma steps_left_keeps s s' pc : keeps s s' -> steps_left s' pc <= steps_left s pc.
Proof.
  intros (_ & Hq & _). unfold steps_left, requested. destruct pc; try done.
  - destruct (cancel_requested_ s); [by rewrite Hq|]. destruct (cancel_requested_ s'); lia.
  - destruct (cancel_requested_ s); [by rewrite Hq|]. destruct (cancel_requested_ s'); simpl; [|done].
    case_bool_decide; lia.
Qed.

(** Synchronizing and absorbing keep the books. *)
Lemma sync_complete_inv s :
  exec_inv owner s -> covered s -> good owner s -> exec_inv owner (sync s) /\ covered (sync s).
Proof.
  intros Hi Hc (Hw & Hn & _). unfold sync. destruct (changed s); [|done].
  by destruct (reconcile_covers owner attach_ok s Hi Hw Hn) as (R1 & R2 & _).
Qed.

Lemma absorb_inv s : exec_inv owner s -> covered s -> exec_inv owner (absorb s) /\ covered (absorb s).
Proof.
  intros Hi Hc. unfold absorb. generalize (nodes_ s). intros ns. revert s Hi Hc.
  induction ns as [|n ns IH]; intros s Hi Hc; [done|]. simpl.
  destruct (set_env_inv owner (snd (guard_take (change_guard_ (heap s n)) (env s))) s) as [Hi' Hc'];
    [apply guard_take_attachments|done|done|]. by apply IH.
Qed.

Hypothesis callbacks_ok : callbacks_interfere.

(** A section of the spinning thread: the invariant is kept and, once the cancel
    is done, the steps that are left decrease. *)
Lemma section_inv s pc s' pc' c :
  spin_section (s, pc) (s', pc') -> sane (mk_spinning s pc c) -> spin_inv (mk_spinning s pc c) ->
  spin_inv (mk_spinning s' pc' c) /\ (c = CancelDone -> S (steps_left s' pc') <= steps_left s pc).
Proof.
  intros Hsec [Hg Hsz] [Ht|((Hi & Hc) & Ho & Hids & Hcome)]; simpl in *.
  { rewrite Ht in Hsec. inversion Hsec. }
  unfold spin_inv. simpl.
  inversion Hsec as [s0|s0 Hq|s0 Hq|s0|s0 n xs s0' Hw Hn|s0 xs s0' Hw|s0 n xs s0' Hw Hn|s0 n xs s0' Hw Hn
                    |s0 ids|s0 ids|s0 id ids w w' s0' Hid Hp|s0]; subst; simpl in *; unfold requested in *.
  - split; [right; split_and!; [done|done|done|lia|tauto]|lia].
  - rewrite Hq in *. split; [right; split_and!; [done|done|done|lia|naive_solver]|lia].
  - rewrite Hq. split; [right; split_and!; [done|done|done|lia|done]|lia].
  - destruct (sync_complete_inv s Hi Hc Hg) as [Hi' Hc'].
    split; [right; split_and!; [done|done|done|lia|]|lia].
    intros Hd. by apply (cancel_coming_keeps s (sync s) AtWait (keeps_sync s)), Hcome.
  - split; [by left|]. unfold round. lia.
  - destruct (wait_inv s 0 xs s' Hi Hc Hsz Hw ltac:(lia)) as (Hi' & Hc' & Hl & _ & Hin).
    assert (xs = []) as -> by (destruct xs; [done|simpl in Hl; lia]).
    assert (Hno : c <> CancelDone) by (intros Hd; by apply not_elem_of_nil in Hin; [|apply Hcome]).
    split; [right; split_and!; [done|done|done|simpl; lia|done]|done].
  - destruct (wait_inv s n xs s' Hi Hc Hsz Hw ltac:(lia)) as (Hi' & Hc' & -> & Hl & Hin).
    rewrite Nat2Z.id, take_ge by lia.
    split; [right; split_and!; [done|done|done|done|naive_solver]|].
    intros Hd. rewrite (bool_decide_true _ (Hin (Hcome Hd))), orb_true_r. unfold round. lia.
  - destruct (wait_inv s n xs s' Hi Hc Hsz Hw ltac:(lia)) as (_ & _ & -> & _). lia.
  - destruct (set_env_inv owner (snd (guard_take (cancel_guard_ s) (env s))) s) as [Hi' Hc'];
      [apply guard_take_attachments|done|done|].
    split; [right; split_and!; [done|done|done|lia|done]|].
    + intros _. rewrite orb_true_r. lia.
  - split; [right; split_and!; [done|done|done|done|naive_solver]|lia].
  - destruct (keeps_process_one id w s (Ok w') s' callbacks_ok Hi Hg Hid Hp) as [Hk Hinv].
    destruct (Hinv (conj Hi Hc)) as [Hi' Hc'].
    split; [right; split_and!; [done|done|done|lia|]|].
    + intros Hd. apply (cancel_coming_keeps s s' (AtTrigger ids) Hk). simpl. specialize (Hcome Hd).
      rewrite elem_of_cons in Hcome. naive_solver.
    + intros _. pose proof (steps_left_keeps s s' (AtTrigger ids) Hk) as Hl. simpl in Hl. unfold requested in Hl.
      assert (Hb : bool_decide (kCancelAttachment ∈ id :: ids) = bool_decide (kCancelAttachment ∈ ids)).
      { apply bool_decide_ext. rewrite elem_of_cons. naive_solver. }
      rewrite Hb. lia.
  - assert (Hk : keeps s (absorb s)).
    { apply keeps_absorb. intros n Hn. apply Hg. exists n. by split; [|left]. }
    assert (Habs : exec_inv owner (absorb s) /\ covered (absorb s)) by by apply absorb_inv.
    split; [right; split_and!; [apply Habs|apply Habs|done|lia|]|].
    + intros Hd. apply (cancel_coming_keeps s (absorb s) AtTest Hk). simpl. specialize (Hcome Hd). set_solver.
    + intros _. rewrite absorb_requested, orb_false_r.
      destruct (cancel_requested_ s); lia.
Qed.
(** Any step. *)
Lemma spin_step_inv b x y :
  spin_step b x y -> sane x -> sane y -> spin_inv x ->
  spin_inv y /\ (canceller x = CancelDone ->
    canceller y = CancelDone /\ (if b then 1 else 0) + steps_left (ex y) (spinner y) <= steps_left (ex x) (spinner x)).
Proof.
  intros Hst Hx Hy Hinv. destruct Hst as [s pc c s' pc' Hsec|s pc|s pc Hg|s s' pc c Hi].
  - destruct (section_inv s pc s' pc' c Hsec Hx Hinv) as [Hinv' Hl]. split; [done|].
    intros Hc. simpl in *. auto.
  - split; [|done]. destruct Hinv as [|(Hb & Ho & Hl & _)]; [by left|]. right. simpl in *.
    split_and!; [apply Hb|apply Hb|done|done|done].
  - split; [|done]. destruct Hinv as [|((Hi & Hc) & Ho & Hl & _)]; [by left|]. right. simpl in *.
    destruct (set_env_inv owner (guard_set (cancel_guard_ s) (env s)) s (guard_set_attachments _ _) Hi Hc) as [Hi' Hc'].
    split_and!; [done|done|done|done|]. intros _.
    assert (Hr : guard_raised (trigger (cancel_guard_ s) s) = true) by by apply guard_set_spec.
    destruct pc; simpl; auto.
  - pose proof (keeps_interferes s s' Hi) as Hk. split.
    + destruct Hinv as [|((Hinv & Hc) & Ho & Hl & Hcome)]; [by left|]. right. simpl in *.
      destruct (exec_step_inv owner attach_ok s s') as [Hi' Hc'];
        [apply interferes_exec; split; [done|split; [apply Hx|apply Hy]]|done|].
      split_and!; [done|done|done|done|]. intros Hd. by apply (cancel_coming_keeps s), Hcome.
    + intros Hc. split; [done|]. by apply steps_left_keeps.
Qed.

Lemma spin_run_inv x n y :
  spin_run x n y -> spin_inv x ->
  spin_inv y /\ (canceller x = CancelDone ->
    canceller y = CancelDone /\ n + steps_left (ex y) (spinner y) <= steps_left (ex x) (spinner x)).
Proof.
  induction 1 as [|n b z y Hr IH Hst Hx Hy]; intros Hinv; [by split; [|split]|].
  destruct (IH Hinv) as [Hi Hl]. destruct (spin_step_inv b z y Hst Hx Hy Hi) as [Hi' Hl'].
  split; [done|]. intros Hc. destruct (Hl Hc) as [Hc' Hle]. destruct (Hl' Hc') as [Hc'' Hle']. split; [done|]. lia.
Qed.

Definition ended (pc : spin_pc) : bool := match pc with AtReturn | AtThrow => true | _ => false end.

(** The spinning thread can always go on. *)
Lemma section_progress s pc :
  dispatch_defined dispatch -> pc <> AtOverrun -> ended pc = false -> exists r, spin_section (s, pc) r.
Proof.
  intros Hd Ho He. destruct pc as [| | | |[|id ids]|ids| | |]; try done; try (eexists; by constructor).
  - destruct (cancel_requested_ s) eqn:Hq; eexists; by constructor.
  - destruct (wait DDS_INFINITE s) as [[n xs] s'] eqn:Hw.
    destruct (Z.ltb_spec n 0); [eexists; by eapply sec_wait_failed|].
    destruct (Z.eqb_spec n 0) as [->|]; [eexists; by eapply sec_timeout|].
    destruct (Z.ltb_spec (Z.of_nat (length xs)) n); [eexists; by eapply sec_overrun|].
    eexists. eapply sec_wait; [done|]. lia.
  - destruct (decide (id = kCancelAttachment)) as [->|Hid]; [eexists; by constructor|].
    eexists. eapply (sec_triggered s id ids false); [done|]. apply process_one_spec. intros ? _. done.
Qed.

(** C21: a cancel ends the spin, whenever it comes: another thread may call
    [cancel] at any point of the spin, its flag set even before [spin] clears it,
    while further threads and the callbacks add and remove entities and nodes,
    trigger other conditions or cancel as well.  From the moment it has triggered
    the guard, the spinning thread takes at most 262 more sections; until it has
    left [spin] it can take one; whenever it gets to wait the guard is raised, so
    that the wait does not block; and it never reads past the triggered
    attachments. *)
Theorem cancel_ends_spin s0 n x m y :
  dispatch_defined dispatch -> exec_inv owner s0 -> covered s0 ->
  spin_run (mk_spinning s0 AtStart CancelIdle) n x -> canceller x = CancelDone ->
  spin_run x m y ->
  m <= 262 /\ spinner y <> AtOverrun /\
  (ended (spinner y) = true \/ exists r, spin_section (ex y, spinner y) r) /\
  (spinner y = AtWait -> raised (env (ex y)) (cancel_guard_ (ex y)) = true).
Proof.
  intros Hd Hi Hc Hx Hdone Hy.
  assert (Hs : spin_inv (mk_spinning s0 AtStart CancelIdle)) by (right; split_and!; [done|done|done|simpl; lia|done]).
  destruct (spin_run_inv _ _ _ Hx Hs) as [Hix _]. destruct (spin_run_inv _ _ _ Hy Hix) as [Hiy Hl].
  destruct (Hl Hdone) as [Hdy Hle].
  assert (Hb : steps_left (ex x) (spinner x) <= 262).
  { destruct Hix as [->|(_ & _ & Hids & _)]; [simpl; lia|].
    unfold steps_left, round, MAX_TRIGGERS in *. destruct (spinner x); simpl in Hids; repeat case_match; lia. }
  assert (Ho : spinner y <> AtOverrun) by (destruct Hiy as [->|(_ & Ho & _)]; done).
  split_and!; [lia|done| |].
  - destruct (ended (spinner y)) eqn:He; [by left|]. right. by apply section_progress.
  - intros Hw. destruct Hiy as [Ht|(_ & _ & _ & Hcome)]; [by rewrite Ht in Hw|].
    specialize (Hcome Hdy). by rewrite Hw in Hcome.
Qed.

(* ------------------------------------------------------------------ *)
(** * A spin that nothing interrupts *)

Lemma process_sections ids : forall n w s w' s',
  process_all dispatch ids n w s = (Ok w', s') ->
  star spin_section (s, AtTrigger (take n ids)) (s', AtTrigger []).
Proof.
  induction ids as [|id ids IH]; intros [|n] w s w' s' Hp; simpl in Hp;
    [by injection Hp as _ <-; apply star_refl|done|by injection Hp as _ <-; apply star_refl|].
  apply st_bind_inv_Ok in Hp as (w1 & s1 & Hone & Hp). apply IH in Hp. simpl.
  destruct (decide (id = kCancelAttachment)) as [->|Hid].
  - injection Hone as _ <-. eapply star_step; [apply sec_cancel_taken|]. eapply star_step; [apply sec_cancel_recorded|done].
  - eapply star_step; [by eapply sec_triggered|done].
Qed.

Lemma process_all_never_throws ids : forall n w s e s',
  process_all dispatch ids n w s <> (Throw e, s').
Proof.
  induction ids as [|id ids IH]; intros [|n] w s e s'; simpl; try done.
  intros [(w1 & s1 & _ & Hp)|[(x & Hp & _)|[_ ?]]]%st_bind_inv; [by eapply IH| |done].
  unfold process_one in Hp. destruct (id =? kCancelAttachment)%Z; [done|]. destruct (id =? kWakeAttachment)%Z; [done|].
  rewrite (st_bind_Ok st_get _ s s s eq_refl) in Hp. destruct (attached_ s !! id) as [[? ? [ent|]]|]; [|done..].
  unfold mbind, stM_bind, st_try in Hp. by destruct (dispatch ent s) as [[[]|?|] s2].
Qed.

Lemma round_sections s o s' :
  wait_and_process dispatch DDS_INFINITE s = (o, s') ->
  match o with
  | Ok _ => star spin_section (s, AtSync) (s', AtTest)
  | Throw _ => star spin_section (s, AtSync) (s', AtThrow)
  | Undefined => True
  end.
Proof.
  unfold wait_and_process. rewrite (st_bind_Ok _ _ _ tt (sync s)) by done.
  destruct (wait DDS_INFINITE (sync s)) as [[n xs] s1] eqn:Hw.
  rewrite (st_bind_Ok _ _ _ (n, xs) s1) by (unfold st_run; by rewrite Hw).
  destruct (Z.ltb_spec n 0).
  { intros [= <- <-]. eapply star_step; [apply sec_sync|]. eapply star_step; [by eapply sec_wait_failed|constructor]. }
  destruct (Z.eqb_spec n 0) as [->|Hn].
  { intros [= <- <-]. eapply star_step; [apply sec_sync|]. eapply star_step; [by eapply sec_timeout|constructor]. }
  intros Hr. apply st_bind_inv in Hr as [(w & s2 & Hp & Hr)|[(e & Hp & _)|[_ ->]]];
    [|by exfalso; eapply process_all_never_throws|done].
  injection Hr as <- <-. destruct (Nat.le_gt_cases (Z.to_nat n) (length xs)) as [Hl|Hl].
  - eapply star_step; [apply sec_sync|]. eapply star_step; [apply (sec_wait _ n xs); [done|lia]|].
    eapply star_trans; [by eapply process_sections|]. eapply star_step; [apply sec_absorb|constructor].
  - pose proof (process_all_short dispatch xs (Z.to_nat n) false s1 Hl) as Hu. by rewrite Hp in Hu.
Qed.

(** [spin] is its sections: what it returns or throws they arrive at. *)
Theorem spin_is_its_sections fuel s o s' :
  spin dispatch fuel s = (o, s') ->
  match o with
  | Ok (Some _) => star spin_section (s, AtStart) (s', AtReturn)
  | Ok None => star spin_section (s, AtStart) (s', AtTest)
  | Throw _ => star spin_section (s, AtStart) (s', AtThrow)
  | Undefined => True
  end.
Proof.
  unfold spin. rewrite (st_bind_Ok _ _ _ tt (set_requested false s)) by done. intros Hs.
  enough (Hloop : match o with
    | Ok (Some _) => star spin_section (set_requested false s, AtTest) (s', AtReturn)
    | Ok None => star spin_section (set_requested false s, AtTest) (s', AtTest)
    | Throw _ => star spin_section (set_requested false s, AtTest) (s', AtThrow)
    | Undefined => True end).
  { destruct o as [[]| |]; try done; (eapply star_step; [apply sec_clear|done]). }
  revert Hs. generalize (set_requested false s) as t. intros t. revert t o s'.
  induction fuel as [|fuel IH]; intros t o s' Hs; [injection Hs as <- <-; constructor|].
  cbn [spin_loop] in Hs. rewrite (st_bind_Ok st_get _ t t t eq_refl) in Hs.
  destruct (cancel_requested_ t) eqn:Hq; simpl in Hs.
  { injection Hs as <- <-. eapply star_step; [by apply sec_return|constructor]. }
  apply st_bind_inv in Hs as [(w & t1 & Hone & Hs)|[(e & Hone & ->)|[_ ->]]]; [| |done].
  - apply round_sections in Hone. apply IH in Hs.
    assert (Hround : star spin_section (t, AtTest) (t1, AtTest)) by (eapply star_step; [by apply sec_enter|done]).
    destruct o as [[]| |]; try done; by eapply star_trans.
  - apply round_sections in Hone. eapply star_step; [by apply sec_enter|done].
Qed.
End threads.

(* ------------------------------------------------------------------ *)
(** * The free function [spin] *)

Section free.
Context {E : Type} `{DdsGuardLaws E}.
Variable owner : Z -> nat * option Entity.
Variable dispatch : Entity -> stM (Executor E) unit.
Hypothesis attach_ok : attach_succeeds (E := E).
Implicit Types s : Executor E.

(** [rcl::spin]: an executor of its own, given the handles of the waitset and
    its guards, with one node.  Its destructor runs whether [spin] returns or
    throws and is not part of the state. *)
Definition spin_node (waitset cancel wake : Z) (h : nat -> Node) (node fuel : nat) (e : E) : outcome (option unit) :=
  match Executor_ctor waitset cancel wake h e with
  | (Ok exec, _) => fst (spin dispatch fuel (add_node node exec))
  | (Throw x, _) => Throw x
  | (Undefined, _) => Undefined
  end.

(** What others can do to an executor they cannot name: the nodes get and lose
    entities and the environment changes, but nobody has its cancel guard. *)
Inductive bystander : Executor E -> Executor E -> Prop :=
| by_add_entity n e s : change_guard_ (heap s n) <> cancel_guard_ s -> bystander s (add_entity n e s)
| by_remove_entity n e s : change_guard_ (heap s n) <> cancel_guard_ s -> bystander s (remove_entity n e s)
| by_env e s :
    attachments e = attachments (env s) -> raised e (cancel_guard_ s) = raised (env s) (cancel_guard_ s) ->
    bystander s (set_env e s).

Definition bystander_good s s' : Prop := bystander s s' /\ good owner s /\ good owner s'.

(** The callbacks, and the waits, during which time passes, do no more. *)
Hypothesis callbacks_stand_by : forall ent s, good owner s -> star bystander_good s (snd (dispatch ent s)).
Variable cancel_h : Z.
Hypothesis waits_quiet : forall maxs timeout (e : E),
  raised (snd (waitset_wait maxs timeout e)) cancel_h = raised e cancel_h.

(** One step: a section of the spinning thread, or a bystander's. *)
Inductive free_step : Executor E * spin_pc -> Executor E * spin_pc -> Prop :=
| free_section x y : spin_section dispatch x y -> good owner (fst x) -> good owner (fst y) ->
    size (attachments (env (fst x))) <= MAX_TRIGGERS -> free_step x y
| free_bystander s s' pc : bystander_good s s' -> free_step (s, pc) (s', pc).

Definition quiet s : Prop :=
  cancel_guard_ s = cancel_h /\ cancel_requested_ s = false /\ raised (env s) cancel_h = false.

Definition uncancelled (x : Executor E * spin_pc) : Prop :=
  snd x = AtThrow \/
  ((exec_inv owner (fst x) /\ covered (fst x)) /\ quiet (fst x) /\ kCancelAttachment ∉ ids_of (snd x) /\
   match snd x with AtReturn | AtTaken _ | AtOverrun => False | _ => True end).

Lemma bystander_inv s s' :
  bystander_good s s' -> (exec_inv owner s /\ covered s) /\ quiet s -> (exec_inv owner s' /\ covered s') /\ quiet s'.
Proof.
  intros [Hb Hg] [Hi (Hc & Hq & Hr)]. split.
  - apply (exec_step_inv owner attach_ok s); [|done]. split; [|done]. destruct Hb; by constructor.
  - destruct Hb as [n e s Hn|n e s Hn|e s Ha He]; (split; [done|split; [done|]]); simpl;
      [..|by rewrite <- Hc, He, Hc]; rewrite fn_lookup_insert, guard_set_others; [done|simpl; congruence|done|simpl; congruence].
Qed.

Lemma bystanders_inv s s' :
  star bystander_good s s' -> (exec_inv owner s /\ covered s) /\ quiet s -> (exec_inv owner s' /\ covered s') /\ quiet s'.
Proof.
  intros Hs. apply (star_invariant bystander_good (fun s => (exec_inv owner s /\ covered s) /\ quiet s)) with (s := s); [|done].
  intros s1 s2. apply bystander_inv.
Qed.

Lemma wait_quiet s n xs s' :
  exec_inv owner s -> quiet s -> wait DDS_INFINITE s = ((n, xs), s') -> quiet s' /\ kCancelAttachment ∉ xs.
Proof.
  intros Hi (Hc & Hq & Hr) Hw. unfold wait in Hw.
  destruct (waitset_wait MAX_TRIGGERS DDS_INFINITE (env s)) as [[n' xs'] e] eqn:Ew. injection Hw as -> -> <-.
  pose proof (waits_quiet MAX_TRIGGERS DDS_INFINITE (env s)) as Hw. rewrite Ew in Hw.
  split; [by split_and!; [| |rewrite <- Hr]|]. intros Hin.
  destruct (wait_reports_raised _ _ _ _ _ _ _ Ew Hin) as (c & Ha & Hca).
  assert (c = cancel_guard_ s) as ->; [|congruence].
  apply (book_injective owner _ _ _ _ _ c (cancel_guard_ s) kCancelAttachment Hi Ha).
  apply (book_att _ _ _ _ _ _ Hi). by left.
Qed.

Lemma quiet_take g s : g <> cancel_h -> quiet s -> quiet (take_guard g s).
Proof. intros Hg (Hc & Hq & Hr). split_and!; [done|done|]. simpl. by rewrite guard_take_others. Qed.

Lemma quiet_absorb s : (forall n, n ∈ nodes_ s -> change_guard_ (heap s n) <> cancel_h) -> quiet s -> quiet (absorb s).
Proof.
  unfold absorb. generalize (nodes_ s). intros ns. revert s. induction ns as [|n ns IH]; intros s Hn Hq; [done|].
  simpl. apply IH; [intros m Hm; apply (Hn m); set_solver|]. apply quiet_take; [apply Hn; set_solver|done].
Qed.

Lemma quiet_sync s : quiet s -> quiet (sync s).
Proof.
  intros (Hc & Hq & Hr). unfold quiet. rewrite sync_cancel_guard, sync_raised. split_and!; [done| |done].
  unfold sync. destruct (changed s); [|done]. by destruct (reconcile_frame s) as (_ & _ & _ & _ & _ & ->).
Qed.

Lemma free_step_inv x y : free_step x y -> uncancelled x -> uncancelled y.
Proof.
  destruct 1 as [[s pc] [s' pc'] Hsec Hg Hg' Hsz|s s' pc Hb]; simpl in *.
  2: { intros [?|(Hi & Hq & Hrest)]; [by left|]. right. simpl in *.
       destruct (bystander_inv s s' Hb (conj Hi Hq)) as [Hi' Hq']. split; [exact Hi'|]. by split. }
  intros [Ht|((Hi & Hc) & Hq & Hids & Hpc)]; simpl in *; [rewrite Ht in Hsec; inversion Hsec|].
  unfold uncancelled. simpl.
  inversion Hsec as [s0|s0 Hr|s0 Hr|s0|s0 n xs s0' Hw Hn|s0 xs s0' Hw|s0 n xs s0' Hw Hn|s0 n xs s0' Hw Hn
                    |s0 ids|s0 ids|s0 id ids w w' s0' Hid Hp|s0]; subst; simpl in *; try done.
  - right. destruct Hq as (? & ? & ?). by split; [|split].
  - right. by split; [|split].
  - destruct Hq as (_ & Hq & _). congruence.
  - right. destruct (sync_complete_inv owner attach_ok s Hi Hc Hg) as [Hi' Hc'].
    split; [done|]. split; [by apply quiet_sync|done].
  - by left.
  - right. destruct (wait_inv owner s 0 xs s' Hi Hc Hsz Hw ltac:(lia)) as (Hi' & Hc' & _).
    destruct (wait_quiet s 0 xs s' Hi Hq Hw) as [Hq' _]. by split; [|split].
  - right. destruct (wait_inv owner s n xs s' Hi Hc Hsz Hw ltac:(lia)) as (Hi' & Hc' & _).
    destruct (wait_quiet s n xs s' Hi Hq Hw) as [Hq' Hx]. split; [done|]. split; [done|]. split; [|done].
    intros Hin. apply Hx. by eapply subseteq_take.
  - destruct (wait_inv owner s n xs s' Hi Hc Hsz Hw ltac:(lia)) as (_ & _ & -> & _). lia.
  - destruct Hids. set_solver.
  - right. assert (Hrest : kCancelAttachment ∉ ids) by set_solver.
    unfold process_one in Hp. rewrite (proj2 (Z.eqb_neq _ _) Hid) in Hp.
    destruct (id =? kWakeAttachment)%Z.
    + injection Hp as _ <-.
      destruct (set_env_inv owner (snd (guard_take (wake_guard_ s) (env s))) s) as [Hi' Hc'];
        [apply guard_take_attachments|done|done|].
      split; [done|]. split; [|done]. apply quiet_take; [|done].
      pose proof (exec_inv_guards owner s Hi). destruct Hq as (<- & _). done.
    + rewrite (st_bind_Ok st_get _ s s s eq_refl) in Hp.
      destruct (attached_ s !! id) as [[? ? [e|]]|]; [|by injection Hp as _ <-..].
      assert (Hs : s' = snd (dispatch e s)).
      { unfold mbind, stM_bind, st_try in Hp. by destruct (dispatch e s) as [[[]|x|] s1]; injection Hp as _ <-. }
      pose proof (callbacks_stand_by e s Hg) as Hcb. rewrite <- Hs in Hcb.
      destruct (bystanders_inv s s' Hcb (conj (conj Hi Hc) Hq)). done.
  - right. destruct (absorb_inv owner s Hi Hc) as [Hi' Hc']. split; [done|]. split; [|done].
    apply quiet_absorb; [|done]. intros n Hn. destruct Hq as (<- & _). apply Hg. exists n. by split; [|left].
Qed.

Lemma quiet_started waitset wake n h (e e0 : E) s0 :
  cancel_h <> wake -> raised e cancel_h = false ->
  Executor_ctor waitset cancel_h wake h e = (Ok s0, e0) -> quiet (add_node n s0).
Proof.
  intros Hne Hr Hctor. unfold Executor_ctor in Hctor. destruct (waitset <? 0)%Z; [done|].
  pose proof (attach_raised cancel_h kCancelAttachment e cancel_h) as Hr1.
  destruct (waitset_attach cancel_h kCancelAttachment e) as [rc1 e1]. destruct (rc1 <? 0)%Z; [done|].
  pose proof (attach_raised wake kWakeAttachment e1 cancel_h) as Hr2.
  destruct (waitset_attach wake kWakeAttachment e1) as [rc2 e2]. destruct (rc2 <? 0)%Z; [done|].
  injection Hctor as <- <-. simpl in Hr1, Hr2. rewrite Hr1, Hr in Hr2. unfold add_node, quiet. simpl.
  set (s1 := enlist n _).
  assert (Hs1 : cancel_guard_ s1 = cancel_h /\ cancel_requested_ s1 = false /\ env s1 = e2 ) by (unfold s1, enlist; by case_decide).
  destruct Hs1 as (Hc & Hq & He2).
  destruct (reconcile_frame s1) as (_ & _ & -> & _ & _ & ->). split_and!; [done|done|].
  rewrite guard_set_others by done. by rewrite reconcile_raised, He2.
Qed.

(** The free function [spin] is documented to spin until cancelled, but nobody
    can cancel its executor: whatever others do to the node and the environment,
    it never returns, and it ends only by an exception, when a wait fails. *)
Theorem free_spin_never_returns (waitset wake node : Z) h e e0 s0 n x :
  attachments e = ∅ -> cancel_h <> wake -> raised e cancel_h = false ->
  Executor_ctor waitset cancel_h wake h e = (Ok s0, e0) -> good owner (enlist n s0) ->
  (forall fuel r, spin_node waitset cancel_h wake h n fuel e = Ok (Some r) ->
     exists s, star (spin_section dispatch) (add_node n s0, AtStart) (s, AtReturn)) /\
  (star free_step (add_node n s0, AtStart) x ->
   snd x <> AtReturn /\ (ended (snd x) = true -> snd x = AtThrow)).
Proof.
  intros He Hne Hr Hctor Hg. split.
  { intros fuel r Hs. unfold spin_node in Hs. rewrite Hctor in Hs.
    destruct (spin dispatch fuel (add_node n s0)) as [o s] eqn:Ho. simpl in Hs. subst o.
    exists s. exact (spin_is_its_sections dispatch fuel _ _ _ Ho). }
  intros Hrun.
  assert (Hx : uncancelled x).
  { apply (star_invariant free_step uncancelled) with (s := (add_node n s0, AtStart)); [|done|].
    - intros y z. apply free_step_inv.
    - right. split; [|split; [|by split; [apply not_elem_of_nil|]]].
      + apply (reconcile_step_inv owner attach_ok); [|done].
        destruct (ctor_inv owner _ _ _ _ _ _ _ He Hne Hctor) as [Hi _]. unfold enlist. by case_decide.
      + by eapply quiet_started. }
  destruct Hx as [Ht|(_ & _ & _ & Hx)]; [by rewrite Ht|]. by destruct (snd x).
Qed.
End free.

(* ------------------------------------------------------------------ *)
(** * On the test double *)

#[export] Instance mock_guard_laws : DdsGuardLaws MockWaitset.
Proof.
  split; simpl.
  - intros g g' e Hr. unfold mock_guard_set, m_ready in *. destruct (m_guards e !! g) eqn:Hg; [|done]. simpl.
    destruct (decide (g = g')) as [->|]; [by rewrite lookup_insert_eq|by rewrite lookup_insert_ne].
  - intros g g' e Hne. unfold mock_guard_set, m_ready. destruct (m_guards e !! g) eqn:Hg; [|done]. simpl.
    by rewrite lookup_insert_ne.
  - intros g g' e Hne. unfold mock_guard_take, m_ready. destruct (m_guards e !! g) eqn:Hg; [|done]. simpl.
    by rewrite lookup_insert_ne.
  - intros maxs timeout e n xs e' x Hw Hx. unfold mock_waitset_wait in Hw. injection Hw as <- <- <-.
    apply subseteq_take, list_elem_of_fmap in Hx as ([c y] & -> & Hin). exists c. by apply m_triggered_spec.
Qed.

(** The node of the demo executor; another thread sets the flag before the spin
    clears it and triggers the guard afterwards; the callback throws. *)
Lemma demo_run_books : exec_inv demo_owner demo_run /\ covered demo_run.
Proof.
  apply (reconcile_step_inv demo_owner mock_attach_succeeds 2 (enlist 0 demo_exec));
    [apply demo_inv|apply demo_good, demo_enlisted_like].
Qed.

Lemma throwing_interferes : callbacks_interfere demo_owner throwing_dispatch.
Proof. intros e s _. apply star_refl. Qed.

Ltac demo_sane := split; [apply demo_good; demo_like_tac|vm_compute; lia].
Lemma spin_run_section x n (s s' : Executor MockWaitset) pc pc' c :
  spin_run demo_owner throwing_dispatch x n (mk_spinning s pc c) ->
  spin_section throwing_dispatch (s, pc) (s', pc') ->
  sane demo_owner (mk_spinning s pc c) -> sane demo_owner (mk_spinning s' pc' c) ->
  spin_run demo_owner throwing_dispatch x (S n) (mk_spinning s' pc' c).
Proof. intros Hr Hs Hx Hy. by apply (spin_run_step _ _ _ n true (mk_spinning s pc c)); [|apply step_spinner|..]. Qed.

Definition cancelled_spin : spinning :=
  mk_spinning (trigger 1 (set_requested false (set_requested true demo_run))) AtTest CancelDone.
Lemma cancelled_spin_run : spin_run demo_owner throwing_dispatch (mk_spinning demo_run AtStart CancelIdle) 1 cancelled_spin.
Proof.
  apply (spin_run_step _ _ _ 1 false (mk_spinning (set_requested false (set_requested true demo_run)) AtTest CancelFlagged));
    [|apply step_cancel_trigger; vm_compute; by eexists|demo_sane|demo_sane].
  apply (spin_run_step _ _ _ 0 true (mk_spinning (set_requested true demo_run) AtStart CancelFlagged));
    [|apply step_spinner, sec_clear|demo_sane|demo_sane].
  apply (spin_run_step _ _ _ 0 false (mk_spinning demo_run AtStart CancelIdle));
    [apply spin_run_start|apply step_cancel_flag|demo_sane|demo_sane].
Qed.

Definition after_wait : Executor MockWaitset := sync (ex cancelled_spin).
Definition after_cancel : Executor MockWaitset := set_requested true (take_guard 1 after_wait).
Definition after_round : Executor MockWaitset := absorb (take_guard 2 after_cancel).

(** Nine sections later the spin has returned. *)
Lemma returned_run :
  spin_run demo_owner throwing_dispatch cancelled_spin 9 (mk_spinning after_round AtReturn CancelDone).
Proof.
  eapply spin_run_section; [|by apply sec_return|demo_sane|demo_sane].
  eapply spin_run_section; [|by apply sec_absorb|demo_sane|demo_sane].
  eapply spin_run_section; [|by apply (sec_triggered _ (take_guard 2 after_cancel) 4 [] false true)|demo_sane|demo_sane].
  eapply spin_run_section; [|by apply (sec_triggered _ after_cancel 2 [4%Z] false false)|demo_sane|demo_sane].
  eapply spin_run_section; [|by apply (sec_cancel_recorded _ (take_guard 1 after_wait))|demo_sane|demo_sane].
  eapply spin_run_section; [|by apply (sec_cancel_taken _ after_wait)|demo_sane|demo_sane].
  eapply spin_run_section; [|by apply (sec_wait _ after_wait 3 [1; 2; 4]%Z after_wait); [vm_compute; reflexivity|simpl; lia]|demo_sane|demo_sane].
  eapply spin_run_section; [|by apply sec_sync|demo_sane|demo_sane].
  eapply spin_run_section; [|by apply sec_enter|demo_sane|demo_sane].
  apply spin_run_start.
Qed.

Lemma cancel_ends_spin_witness :
  9 <= 262 /\ AtReturn <> AtOverrun /\
  (ended AtReturn = true \/ exists r, spin_section throwing_dispatch (after_round, AtReturn) r) /\
  (AtReturn = AtWait -> raised (env after_round) (cancel_guard_ after_round) = true).
Proof.
  destruct demo_run_books as [Hi Hc].
  apply (cancel_ends_spin demo_owner throwing_dispatch mock_attach_succeeds throwing_interferes demo_run 1 cancelled_spin 9
           (mk_spinning after_round AtReturn CancelDone));
    [apply throwing_defined|exact Hi|exact Hc|exact cancelled_spin_run|reflexivity|exact returned_run].
Defined.

(** The free [spin] with the same node, after its first round. *)
Lemma free_spin_never_returns_witness :
  snd (demo_run, AtSync) <> AtReturn /\ (ended AtSync = true -> AtSync = AtThrow).
Proof.
  refine (proj2 (free_spin_never_returns demo_owner throwing_dispatch mock_attach_succeeds (fun e s _ => star_refl s) 1
           (fun maxs timeout e => eq_refl) 7 2 0 demo_heap demo_env (env demo_exec) demo_exec 0 (demo_run, AtSync)
           eq_refl _ eq_refl demo_ctor (demo_good _ demo_enlisted_like)) _); [lia|].
  assert (Hg : good demo_owner demo_run) by apply demo_good, demo_run_like.
  eapply star_step; [apply free_section; [apply sec_clear|exact Hg|apply demo_good; demo_like_tac|vm_compute; lia]|].
  eapply star_step; [apply free_section; [by apply sec_enter|apply demo_good; demo_like_tac|apply demo_good; demo_like_tac|vm_compute; lia]|].
  apply star_refl.
Defined.
