(* ===== verification/ExecutorWake.v ===== *)
(** Entities that come while the executor waits (src/src/rcllite/executor.cpp,
    [add_entity] and [remove_entity] of node.cpp): another thread changes the list
    of a node and its epoch under the lock of the node, and triggers the change
    guard afterwards; whatever the spinning thread does in between, it does not
    sleep over the change. *)
From Stdlib Require Import ZArith Lia Strings.Byte.
From stdpp Require Import base tactics list numbers gmap fin_maps sorting functions.
From S2P Require Import Prelude Bytes Executor ExecutorRun ExecutorCancel.

Section wake.
Context {E : Type} `{DdsGuardLaws E}.
Variable owner : Z -> nat * option Entity.
Variable dispatch : Entity -> stM (Executor E) unit.
Hypothesis attach_ok : attach_succeeds (E := E).
Hypothesis callbacks_ok : callbacks_interfere owner dispatch.
Implicit Types s : Executor E.

(** [untriggered]: the nodes whose list was changed and whose guard the changing
    thread has not triggered yet. *)
Record waking := mk_waking { wex : Executor E; wpc : spin_pc; untriggered : list nat }.

(** Is the new list [nd] what [add_entity] or [remove_entity] makes of [old]? *)
Definition list_change (old nd : Node) : Prop := exists e, nd = push_entity e old \/ nd = erase_entity e old.

Inductive wake_step : waking -> waking -> Prop :=
| wk_section s pc s' pc' l : spin_section dispatch (s, pc) (s', pc') -> wake_step (mk_waking s pc l) (mk_waking s' pc' l)
| wk_change s pc l n nd :
    list_change (heap s n) nd ->
    wake_step (mk_waking s pc l) (mk_waking (set_heap (<[n := nd]> (heap s)) s) pc (n :: l))
| wk_trigger s pc l1 n l2 :
    is_guard (env s) (change_guard_ (heap s n)) ->
    wake_step (mk_waking s pc (l1 ++ n :: l2)) (mk_waking (trigger (change_guard_ (heap s n)) s) pc (l1 ++ l2))
| wk_add_node s pc l n : good owner (enlist n s) -> wake_step (mk_waking s pc l) (mk_waking (add_node n s) pc l)
| wk_remove_node s pc l n : good owner (delist n s) -> wake_step (mk_waking s pc l) (mk_waking (remove_node n s) pc l)
| wk_cancel s pc l : wake_step (mk_waking s pc l) (mk_waking (cancel s) pc l)
| wk_env s pc l e :
    attachments e = attachments (env s) ->
    (forall n, raised (env s) (change_guard_ (heap s n)) = true -> raised e (change_guard_ (heap s n)) = true) ->
    wake_step (mk_waking s pc l) (mk_waking (set_env e s) pc l).

Definition wake_good (x y : waking) : Prop :=
  wake_step x y /\ (good owner (wex x) /\ size (attachments (env (wex x))) <= MAX_TRIGGERS) /\
  (good owner (wex y) /\ size (attachments (env (wex y))) <= MAX_TRIGGERS).

(** The spinning thread knows the list of [n], or its change guard is attached
    and raised, or about to be. *)
Definition aware (l : list nat) s (n : nat) : Prop :=
  node_epochs_ s !! n = Some (entity_epoch_ (heap s n)) \/
  (is_attached (attached_ s) (change_guard_ (heap s n)) /\
   (raised (env s) (change_guard_ (heap s n)) = true \/ n ∈ l)).

Definition all_aware (l : list nat) s : Prop := forall n, n ∈ nodes_ s -> aware l s n.

Definition wake_inv (x : waking) : Prop :=
  wpc x = AtThrow \/
  (spin_inv owner (mk_spinning (wex x) (wpc x) CancelIdle) /\ (wpc x = AtWait -> all_aware (untriggered x) (wex x))).

(** After a reconciliation, and after the synchronization of a round, the epochs
    are the nodes'. *)
Lemma reconcile_aware s l : all_aware l (reconcile_locked s).
Proof.
  intros n Hn. left. destruct (reconcile_frame s) as (Hh & Hns & _ & _ & He & _).
  rewrite Hns in Hn. by rewrite He, Hh, epochs_of_lookup, decide_True.
Qed.

Lemma sync_aware s l : all_aware l (sync s).
Proof.
  unfold sync. destruct (changed s) eqn:Hc; [apply reconcile_aware|]. intros n Hn. left.
  unfold changed in Hc. apply orb_false_iff in Hc as [_ Hex].
  destruct (node_epochs_ s !! n) as [ep|] eqn:Ep.
  - f_equal. apply Z.eqb_eq, negb_false_iff, not_true_is_false. intros Hne.
    apply not_true_iff_false in Hex. apply Hex, existsb_exists. exists n. rewrite <- list_elem_of_In, Ep. done.
  - exfalso. apply not_true_iff_false in Hex. apply Hex, existsb_exists. exists n. rewrite <- list_elem_of_In, Ep. done.
Qed.

Lemma aware_trigger g l s n : aware l s n -> aware l (trigger g s) n.
Proof. intros [He|(Ha & [Hr|Hl])]; [by left|right..]; (split; [done|]); [left; by apply guard_set_keeps|by right]. Qed.

(** A changed list makes its node one whose guard is to be triggered. *)
Lemma aware_change s l n nd m :
  covered s -> m ∈ nodes_ s -> list_change (heap s n) nd -> aware l s m ->
  aware (n :: l) (set_heap (<[n := nd]> (heap s)) s) m.
Proof.
  intros Hc Hm (e & Hnd) Ha. unfold aware. simpl. destruct (decide (n = m)) as [->|Hne].
  - right. rewrite fn_lookup_insert.
    assert (Hg : change_guard_ nd = change_guard_ (heap s m)) by (by destruct Hnd as [-> | ->]). rewrite Hg.
    split; [|right; set_solver]. destruct Ha as [He|[Ha _]]; [|done].
    apply (Hc m _ Hm He); [done|]. exists m. split; [set_solver|by left].
  - rewrite fn_lookup_insert_ne by done. destruct Ha as [He|(Ha & [Hr|Hl])]; [by left|right..];
      (split; [done|]); [by left|right; set_solver].
Qed.

Lemma aware_triggered s l1 l2 n m :
  is_guard (env s) (change_guard_ (heap s n)) -> aware (l1 ++ n :: l2) s m ->
  aware (l1 ++ l2) (trigger (change_guard_ (heap s n)) s) m.
Proof.
  intros Hg [He|(Ha & Hr)]; [by left|]. right. split; [done|]. simpl.
  destruct Hr as [Hr|Hl]; [left; by apply guard_set_keeps|].
  destruct (decide (m = n)) as [->|Hne]; [left; by apply guard_set_spec|right; set_solver].
Qed.

(** The books are kept while others change the executor. *)
Lemma books_kept s s' pc :
  (exec_inv owner s /\ covered s -> exec_inv owner s' /\ covered s') ->
  spin_inv owner (mk_spinning s pc CancelIdle) -> spin_inv owner (mk_spinning s' pc CancelIdle).
Proof. intros Hb [Ht|(Hi & Ho & Hl & _)]; [by left|right]. simpl in *. destruct (Hb Hi). by split_and!. Qed.

Lemma wake_step_inv x y : wake_good x y -> wake_inv x -> wake_inv y.
Proof.
  intros (Hst & Hx & Hy) [Ht|[Hs Ha]].
  { destruct Hst as [s pc s' pc' l Hsec|s pc l n nd Hc|s pc l1 n l2 Hg|s pc l n Hg|s pc l n Hg|s pc l|s pc l e He Hk];
      simpl in Ht; subst pc; [inversion Hsec|by left..]. }
  destruct Hst as [s pc s' pc' l Hsec|s pc l n nd Hc|s pc l1 n l2 Hg|s pc l n Hg|s pc l n Hg|s pc l|s pc l e He Hk];
    simpl in *; right; simpl.
  - split; [by apply (section_inv owner dispatch attach_ok callbacks_ok s pc s' pc' CancelIdle)|].
    intros ->. inversion Hsec; subst. apply sync_aware.
  - assert (Hep : entity_epoch_ nd = (entity_epoch_ (heap s n) + 1)%Z).
    { destruct Hx as [(_ & _ & Hep) _]. specialize (Hep n). destruct Hc as (e & [-> | ->]); simpl;
        apply uwrap_small; unfold in_u; lia. }
    split; [apply (books_kept s); [|done]; intros [Hi Hc']; by apply entity_change_inv|].
    intros Hpc m Hm. destruct Hs as [Ht|((Hi & Hcov) & _)]; [simpl in Ht; congruence|].
    apply aware_change; [done|done|done|by apply Ha].
  - split; [apply (books_kept s); [|done]; intros [Hi Hc']; apply set_env_inv; [apply guard_set_attachments|done|done]|].
    intros Hpc m Hm. apply aware_triggered; [done|by apply Ha].
  - split; [apply (books_kept s); [|done]; intros [Hi Hc']; apply reconcile_step_inv;
      [done|unfold enlist; by case_decide|done]|].
    intros Hpc m Hm. apply aware_trigger. by apply reconcile_aware.
  - split; [apply (books_kept s); [|done]; intros [Hi Hc']; by apply reconcile_step_inv|].
    intros Hpc m Hm. apply aware_trigger. by apply reconcile_aware.
  - split; [apply (books_kept s); [|done]; intros [Hi Hc']; apply set_env_inv; [apply guard_set_attachments|done|done]|].
    intros Hpc m Hm. apply (aware_trigger (cancel_guard_ s) l (set_requested true s)). by apply Ha.
  - split; [apply (books_kept s); [|done]; intros [Hi Hc']; by apply set_env_inv|].
    intros Hpc m Hm. destruct (Ha Hpc m Hm) as [Hep|(Hat & [Hr|Hl])]; [by left|right..]; (split; [done|]);
      [left; by apply Hk|by right].
Qed.

End wake.

(** The service of the demo executor comes while the executor is about to wait. *)
Definition waiting_run : waking :=
  mk_waking (trigger 10 (set_heap (<[0 := push_entity srv_ent (heap (sync demo_run) 0)]> (heap (sync demo_run))) (sync demo_run))) AtWait [].

Ltac wake_demo c :=
  eapply star_step; [split; [c|split; (split; [apply demo_good; demo_like_tac|vm_compute; lia])]|].

