(* ===== verification/SpinDelivery.v ===== *)
(** From a publisher through the executor to a callback: a round of the executor
    (executor.cpp) runs the dispatch of a subscription (subscription.hpp) on its
    reader (dds/entities.hpp), and what was published has reached the callback
    when [spin_once] returns. *)
From Stdlib Require Import ZArith Lia Strings.Byte.
From stdpp Require Import base tactics list numbers gmap fin_maps sorting functions.
From S2P Require Import Prelude Bytes Message RawSerdata Dds MockDds Pubsub Executor ExecutorRun.

(** The objects behind the read conditions: the reader of a condition, with the
    state of the code that its dispatch runs. *)
Class DdsReaders (E R U : Type) := {
  object_at : Z -> E -> taking R U;
  put_object : Z -> taking R U -> E -> E
}.

(** A read condition is triggered when its reader holds samples; readers are
    independent of each other, of the attachments and of the guards. *)
Class DdsReadersLaws (E R U : Type) `{DdsWaitsetLaws E} `{DdsReaderLaws R} `{!DdsReaders E R U} := {
  is_reader : E -> Z -> Prop;
  object_put c w (e : E) : object_at c (put_object c w e) = w;
  object_put_other c c' w (e : E) : c <> c' -> object_at c' (put_object c w e) = object_at c' e;
  put_attachments c w (e : E) : attachments (put_object c w e) = attachments e;
  object_attach c c' x (e : E) : object_at c (snd (waitset_attach c' x e)) = object_at c e;
  object_detach c c' (e : E) : object_at c (waitset_detach c' e) = object_at c e;
  object_take c g (e : E) : object_at c (snd (guard_take g e)) = object_at c e;
  data_raises c (e : E) : is_reader e c -> pending (rd_ (object_at c e)) <> [] -> raised e c = true;
  reader_attach c c' x (e : E) : is_reader e c -> is_reader (snd (waitset_attach c' x e)) c;
  reader_detach c c' (e : E) : is_reader e c -> is_reader (waitset_detach c' e) c
}.

Section delivery.
Context {E R U : Type} `{DdsReadersLaws E R U}.
Variable owner : Z -> nat * option Entity.
(** The [dispatch] member of every entity, on its reader and its own state. *)
Variable dispatch_of : Entity -> stM (taking R U) (option Z).
Implicit Types s : Executor E.

(** [EntityBase::dispatch] as the executor calls it: on the reader behind
    [EntityBase::condition]. *)
Definition entity_dispatch (ent : Entity) : stM (Executor E) unit := fun s =>
  let (o, w) := dispatch_of ent (object_at (condition ent) (env s)) in
  (let* _ := o in Ok tt, set_env (put_object (condition ent) w (env s)) s).

(** Handles identify their object. *)
Hypothesis owner_condition : forall c ent, snd (owner c) = Some ent -> condition ent = c.

Definition entity_defined ent s : Prop := fst (dispatch_of ent (object_at (condition ent) (env s))) <> Undefined.

Lemma entity_dispatch_defined ent s : entity_defined ent s -> fst (entity_dispatch ent s) <> Undefined.
Proof. unfold entity_defined, entity_dispatch. by destruct (dispatch_of ent _) as [[]]. Qed.

Lemma attached_condition s id att ent :
  exec_inv owner s -> attached_ s !! id = Some att -> entity att = Some ent -> condition ent = cond att.
Proof.
  intros Hi Ha He. destruct (book_ids _ _ _ _ _ _ Hi id att Ha) as [_ Hatt]. apply owner_condition.
  rewrite <- He. by rewrite Hatt at 2.
Qed.

(** Handling one attachment: the entity behind it is dispatched, no other object
    changes, and the books stay as they are. *)
Lemma handled_object s w id c :
  exec_inv owner s ->
  let s' := fst (handled entity_dispatch (s, w) id) in
  exec_inv owner s' /\ attached_ s' = attached_ s /\
  object_at c (env s') =
    match entity_at id s with
    | Some ent =>
        if decide (id <> kCancelAttachment /\ id <> kWakeAttachment /\ condition ent = c)
        then snd (dispatch_of ent (object_at c (env s))) else object_at c (env s)
    | None => object_at c (env s)
    end.
Proof.
  intros Hi. unfold handled.
  assert (Hg : forall g, exec_inv owner (take_guard g s)).
  { intros g. unfold exec_inv in *. simpl. by rewrite guard_take_attachments. }
  destruct (Z.eqb_spec id kCancelAttachment) as [->|Hc]; [|destruct (Z.eqb_spec id kWakeAttachment) as [->|Hw]]; cbn [fst].
  - split; [apply Hg|]. split; [done|]. etrans; [apply object_take|].
    destruct (entity_at _ s); [|done]. rewrite decide_False; [done|naive_solver].
  - split; [apply Hg|]. split; [done|]. etrans; [apply object_take|].
    destruct (entity_at _ s); [|done]. rewrite decide_False; [done|naive_solver].
  - destruct (entity_at id s) as [ent|]; cbn [fst]; [|done]. unfold entity_dispatch.
    destruct (dispatch_of ent (object_at (condition ent) (env s))) as [o w'] eqn:Ed. cbn [snd].
    split; [|split; [done|]].
    + unfold exec_inv in *. simpl. by rewrite put_attachments.
    + cbn [env set_env]. destruct (decide (condition ent = c)) as [<-|Hne].
      * rewrite decide_True by done. by rewrite object_put, Ed.
      * rewrite decide_False by naive_solver. by rewrite object_put_other.
Qed.

(** What is behind another attachment is not touched. *)
Lemma handled_other s w x id att ent :
  exec_inv owner s -> attached_ s !! id = Some att -> entity att = Some ent -> x <> id ->
  object_at (condition ent) (env (fst (handled entity_dispatch (s, w) x))) = object_at (condition ent) (env s).
Proof.
  intros Hi Ha He Hne. destruct (handled_object s w x (condition ent) Hi) as (_ & _ & ->).
  unfold entity_at. destruct (attached_ s !! x) as [att'|] eqn:Ex; simpl; [|done].
  destruct (entity att') as [ent'|] eqn:Ee; [|done]. rewrite decide_False; [done|]. intros (_ & _ & Hcond).
  apply Hne, (book_unique owner _ _ _ _ _ x id att' att Hi Ex Ha).
  by rewrite <- (attached_condition s x att' ent'), <- (attached_condition s id att ent).
Qed.

(** Handling all that triggered dispatches an attached entity exactly when its id
    is among them, on the object as it was. *)
Lemma handled_all_object xs : forall s w id att ent,
  exec_inv owner s -> NoDup xs -> attached_ s !! id = Some att -> entity att = Some ent ->
  object_at (condition ent) (env (fst (foldl (handled entity_dispatch) (s, w) xs))) =
  if decide (id ∈ xs) then snd (dispatch_of ent (object_at (condition ent) (env s)))
  else object_at (condition ent) (env s).
Proof.
  induction xs as [|x xs IH]; intros s w id att ent Hi Hnd Ha He; [done|].
  apply list.NoDup_cons in Hnd as [Hx Hnd]. cbn [foldl].
  destruct (handled_object s w x (condition ent) Hi) as (Hi' & Ha' & Ho).
  pose proof (handled_other s w x id att ent Hi Ha He) as Hother.
  destruct (handled entity_dispatch (s, w) x) as [s1 w1]. simpl in *.
  rewrite (IH s1 w1 id att ent) by (done || by rewrite Ha'). clear IH.
  pose proof (book_ids _ _ _ _ _ _ Hi id att Ha) as [Hid _].
  destruct (decide (x = id)) as [->|Hne].
  - rewrite Ho, (decide_False (P := id ∈ xs)) by done. rewrite (decide_True (P := id ∈ id :: xs)) by set_solver.
    unfold entity_at. rewrite Ha. simpl. rewrite He. unfold kCancelAttachment, kWakeAttachment.
    by rewrite decide_True by (split_and!; [lia|lia|done]).
  - rewrite Hother by done. by destruct (decide (id ∈ xs)), (decide (id ∈ x :: xs)); set_solver.
Qed.

(** Each is dispatched once, so a round is defined when the dispatches are on the
    objects as the wait left them. *)
Lemma entities_round_defined xs : forall s w,
  exec_inv owner s -> NoDup xs ->
  (forall id att ent, attached_ s !! id = Some att -> entity att = Some ent -> id ∈ xs -> entity_defined ent s) ->
  round_defined entity_dispatch (s, w) xs.
Proof.
  induction xs as [|x xs IH]; intros s w Hi Hnd Hd; [done|].
  apply list.NoDup_cons in Hnd as [Hx Hnd]. split.
  - intros ent He. apply entity_dispatch_defined. unfold entity_at in He. simpl in He.
    destruct (attached_ s !! x) as [att|] eqn:Ex; [|done]. apply (Hd x att ent Ex He). set_solver.
  - destruct (handled_object s w x 0 Hi) as (Hi' & Ha' & _).
    assert (Hkeep : forall id att ent, attached_ s !! id = Some att -> entity att = Some ent -> x <> id ->
      object_at (condition ent) (env (fst (handled entity_dispatch (s, w) x))) = object_at (condition ent) (env s))
      by (intros; by apply (handled_other s w x id att)).
    destruct (handled entity_dispatch (s, w) x) as [s1 w1]. simpl in *. apply IH; [done|done|].
    intros id att ent Ha He Hin. rewrite Ha' in Ha. unfold entity_defined.
    rewrite (Hkeep id att ent Ha He) by (by intros ->). apply (Hd id att ent Ha He). set_solver.
Qed.

(** Reconciling attaches and detaches, and touches no reader. *)
Lemma attach_all_keeps (P : E -> Prop) desired cs :
  (forall c x e, P e -> P (snd (waitset_attach c x e))) ->
  forall st, P (fst (fst (fst st))) -> P (fst (fst (fst (foldl (attach_one desired) st cs)))).
Proof.
  intros Hp. induction cs as [|c cs IH]; intros [[[e m] nx] cur] He; [done|]. cbn [foldl]. apply IH.
  unfold attach_one. case_decide; [done|]. destruct (desired !! c); [|done]. cbn zeta.
  pose proof (Hp c (u64 (nx + 1)) e He) as Ha. destruct (waitset_attach c (u64 (nx + 1)) e) as [rc e'].
  by destruct (rc <? 0)%Z.
Qed.

Lemma sync_keeps (P : E -> Prop) s :
  (forall c x e, P e -> P (snd (waitset_attach c x e))) -> (forall c e, P e -> P (waitset_detach c e)) ->
  P (env s) -> P (env (sync s)).
Proof.
  intros Ha Hd Hs. unfold sync. destruct (changed s); [|done]. unfold reconcile_locked, reconcile_with. cbn zeta.
  cbn [set_nodes env attached_]. set (l := filter _ _).
  assert (Hl : P (foldl (fun e p => waitset_detach (cond (snd p)) e) (env s) l)).
  { clearbody l. revert Hs. generalize (env s) as e. induction l as [|p l IH]; intros e He; [done|].
    simpl. apply IH. by apply Hd. }
  match goal with |- context [foldl (attach_one ?d) ?st ?cs] =>
    pose proof (attach_all_keeps P d cs Ha st Hl) as Hr; destruct (foldl (attach_one d) st cs) as [[[e2 m2] n2] c2] end.
  exact Hr.
Qed.

Lemma sync_object s c : object_at c (env (sync s)) = object_at c (env s) /\ (is_reader (env s) c -> is_reader (env (sync s)) c).
Proof.
  split.
  - apply (sync_keeps (fun e => object_at c e = object_at c (env s))); [|intros c' e He; by rewrite object_detach|done].
    intros c' x e He. by rewrite object_attach.
  - apply (sync_keeps (fun e => is_reader e c)); [intros c' x e; apply reader_attach|intros c' e; apply reader_detach].
Qed.

Lemma absorb_object s c : object_at c (env (absorb s)) = object_at c (env s).
Proof.
  unfold absorb. generalize (nodes_ s). intros ns. revert s. induction ns as [|n ns IH]; intros s; [done|].
  simpl. rewrite IH. simpl. apply object_take.
Qed.

Hypothesis attach_ok : attach_succeeds (E := E).

(** One round dispatches every entity of every node whose reader held samples
    when it came to wait, added just before or long ago, exactly once, on its
    object as the wait left it. *)
Lemma round_dispatches s timeout k xs s1 n ent :
  exec_inv owner s -> covered s -> good owner s ->
  size (attachments (env (sync s))) <= MAX_TRIGGERS ->
  wait timeout (sync s) = ((k, xs), s1) -> (0 <= k)%Z ->
  n ∈ nodes_ s -> ent ∈ entities_ (heap s n) ->
  is_reader (env s) (condition ent) -> pending (rd_ (object_at (condition ent) (env s))) <> [] ->
  (forall ent, snd (owner (condition ent)) = Some ent -> entity_defined ent s1) ->
  exists did s', wait_and_process entity_dispatch timeout s = (Ok did, s') /\
    object_at (condition ent) (env s') = snd (dispatch_of ent (object_at (condition ent) (env s1))).
Proof.
  intros Hi Hc Hg Hsz Hw Hk Hn He Hrd Hq Hdef.
  assert (His : exec_inv owner (sync s)).
  { unfold sync. destruct (changed s); [|done]. destruct Hg as (Hwo & Hids & _).
    by destruct (reconcile_covers owner attach_ok s Hi Hwo Hids). }
  destruct (wait_ready owner _ _ _ _ _ His Hsz Hw Hk) as (Hs1 & Hatts & _ & Hnd & _).
  assert (Hi1 : exec_inv owner s1).
  { rewrite Hs1. unfold exec_inv in *. simpl. by rewrite Hatts. }
  destruct (round_ok_at owner entity_dispatch timeout k xs s s1) as (_ & Hall & Hround); [|done..|].
  { apply entities_round_defined; [done|done|]. intros id' att' ent' Ha' He' _. apply Hdef.
    rewrite (attached_condition s1 id' att' ent' Hi1 Ha' He').
    destruct (book_ids _ _ _ _ _ _ Hi1 id' att' Ha') as [_ Hatt]. rewrite Hatt in He'. exact He'. }
  destruct (sync_complete owner attach_ok s Hi Hc Hg (condition ent)) as (id & att & Hatt & Hcond).
  { exists n. split; [done|]. right. eauto. }
  assert (Hent : entity att = Some ent).
  { destruct (book_ids _ _ _ _ _ _ His id att Hatt) as [_ ->]. rewrite Hcond. simpl.
    destruct Hg as ([Ho _] & _). destruct (Ho n Hn) as [_ Ho']. by rewrite (Ho' ent He). }
  destruct (sync_object s (condition ent)) as [Hobj Hrs].
  assert (Hin : id ∈ xs).
  { apply (Hall (condition ent)); [apply (book_att _ _ _ _ _ _ His); right; right; eauto|].
    apply data_raises; [by apply Hrs|by rewrite Hobj]. }
  assert (Hatt1 : attached_ s1 !! id = Some att) by (rewrite Hs1; done).
  pose proof (handled_all_object xs s1 false id att ent Hi1 Hnd Hatt1 Hent) as Hh. rewrite decide_True in Hh by done.
  destruct (foldl (handled entity_dispatch) (s1, false) xs) as [s3 did]. eexists _, _. split; [exact Hround|].
  case_decide; [exact Hh|]. by rewrite absorb_object.
Qed.
End delivery.

(** C14: end to end: messages published on a writer that accepts them, and
    delivered in order by the transport to a subscription of a node that is in an
    executor, have arrived at its callback when [spin_once] returns: each exactly
    once, in the order of publication, callbacks that throw included, and the
    reader is empty.  The subscription may have been added just before; other
    entities of any kind may be dispatched in the same round. *)
Theorem published_reaches_spinning_node {M W E R U} `{MessageLaws M} `{DdsWriterLaws W} `{DdsReadersLaws E R U}
    (owner : Z -> nat * option Entity) (dispatch_of : Entity -> stM (taking R U) (option Z))
    (bits : Z) (callback : M -> stM U unit) (ms : list M) (w w' : W)
    (s s1 : Executor E) (timeout k : Z) (xs : list Z) (n : nat) (ent : Entity) (fuel : nat) (r : R) (u : U) :
  (forall c ent, snd (owner c) = Some ent -> condition ent = c) ->
  attach_succeeds (E := E) ->
  Forall msg_valid ms -> Forall (payload_fits bits) ms -> callback_defined callback ->
  st_iter (publish bits) ms w = (Ok tt, w') ->
  exec_inv owner s -> covered s -> good owner s ->
  size (attachments (env (sync s))) <= MAX_TRIGGERS ->
  n ∈ nodes_ s -> ent ∈ entities_ (heap s n) -> is_reader (env s) (condition ent) ->
  dispatch_of ent = Subscription_dispatch callback fuel ->
  pending (rd_ (object_at (condition ent) (env s))) <> [] ->
  wait (if (timeout <? 0)%Z then DDS_INFINITE else timeout) (sync s) = ((k, xs), s1) -> (0 <= k)%Z ->
  object_at (condition ent) (env s1) = mk_taking r u 0 -> reader_ok r -> length ms / 16 < fuel ->
  pending r = map (fun d => (d, mk_info true)) (drop (length (written w)) (written w')) ->
  (forall other, other <> ent -> snd (owner (condition other)) = Some other -> entity_defined dispatch_of other s1) ->
  exists did s' r' u', spin_once (entity_dispatch dispatch_of) timeout s = (Ok did, s') /\
    object_at (condition ent) (env s') = mk_taking r' u' (length ms) /\
    call_each callback ms u = (Ok tt, u') /\ pending r' = [].
Proof.
  intros Hoc Hok Hv Hf Hcb Ep Hi Hc Hg Hsz Hn He Hrd Hdisp Hq Hw Hk Hobj Hr Hfu Hp Hothers.
  rewrite (publish_all_written _ _ _ _ Hf Ep), drop_app_length, map_map in Hp.
  destruct (dispatch_transported bits callback ms r u fuel Hv Hf Hcb Hr Hfu Hp) as (r' & u' & Ed & Hcall & Hp').
  destruct (round_dispatches owner dispatch_of Hoc Hok s _ k xs s1 n ent Hi Hc Hg Hsz Hw Hk Hn He Hrd Hq)
    as (did & s' & Hround & Ho).
  { intros ent' Howner. destruct (decide (ent' = ent)) as [->|Hne]; [|by apply Hothers].
    unfold entity_defined. by rewrite Hdisp, Hobj, Ed. }
  exists did, s', r', u'. rewrite Hdisp, Hobj, Ed in Ho. by split_and!.
Qed.

(* ------------------------------------------------------------------ *)
(** * A bus of readers *)

(** The waitset of the test double, with its readers: their read conditions are
    the triggered ones. *)
Record Bus := mk_bus {
  b_attached : gmap Z Z;
  b_guards : gmap Z bool;
  b_readers : Z -> taking ReaderState (list bytes);
  b_conditions : gset Z
}.

Definition has_samples (b : Bus) (c : Z) : Prop := queue (rd_ (b_readers b c)) <> [].
#[global] Instance has_samples_dec b c : Decision (has_samples b c).
Proof. unfold has_samples. apply _. Defined.

Definition view (b : Bus) : MockWaitset :=
  mk_waitset (b_attached b) (b_guards b) (filter (has_samples b) (b_conditions b)).
Definition set_view (b : Bus) (e : MockWaitset) : Bus :=
  mk_bus (m_attached e) (m_guards e) (b_readers b) (b_conditions b).

#[export] Instance bus_waitset : DdsWaitset Bus := {|
  waitset_attach c x b := let (rc, e) := waitset_attach c x (view b) in (rc, set_view b e);
  waitset_detach c b := set_view b (waitset_detach c (view b));
  waitset_wait maxs timeout b := let (r, e) := waitset_wait maxs timeout (view b) in (r, set_view b e);
  guard_set g b := set_view b (guard_set g (view b));
  guard_take g b := let (flag, e) := guard_take g (view b) in (flag, set_view b e)
|}.

Lemma view_guard_set g b : view (set_view b (mock_guard_set g (view b))) = mock_guard_set g (view b).
Proof. unfold mock_guard_set. simpl. by destruct (b_guards b !! g). Qed.

Lemma view_guard_take g b :
  view (set_view b (snd (mock_guard_take g (view b)))) = snd (mock_guard_take g (view b)).
Proof. unfold mock_guard_take. simpl. by destruct (b_guards b !! g). Qed.

Lemma bus_guard_take g b :
  snd (guard_take g b) = set_view b (snd (mock_guard_take g (view b))).
Proof. simpl. by destruct (mock_guard_take g (view b)). Qed.

#[export] Instance bus_waitset_laws : DdsWaitsetLaws Bus.
Proof.
  refine {| attachments b := m_attached (view b); raised b := m_ready (view b);
            is_guard b g := is_Some (b_guards b !! g) |}; try done.
  - intros c x b rc b'. simpl. by intros [= <- <-].
  - intros maxs timeout b n xs b' E0 Hn. cbn [waitset_wait bus_waitset mock_waitset] in E0.
    destruct (mock_waitset_wait maxs timeout (view b)) as [r e] eqn:Ew. injection E0 as -> <-.
    exact (wait_spec maxs timeout (view b) n xs e Ew Hn).
  - intros g b. cbn [guard_set bus_waitset mock_waitset]. rewrite view_guard_set.
    exact (guard_set_spec g (view b)).
  - intros g b. rewrite bus_guard_take, view_guard_take. exact (guard_take_spec g (view b)).
Defined.

#[export] Instance bus_readers : DdsReaders Bus ReaderState (list bytes) := {|
  object_at c b := b_readers b c;
  put_object c w b := mk_bus (b_attached b) (b_guards b) (<[c := w]> (b_readers b)) (b_conditions b)
|}.

#[export] Instance bus_readers_laws : DdsReadersLaws Bus ReaderState (list bytes).
Proof.
  refine {| is_reader b c := b_guards b !! c = None /\ c ∈ b_conditions b |}; try done.
  - intros c w b. simpl. by rewrite fn_lookup_insert.
  - intros c c' w b Hne. simpl. by rewrite fn_lookup_insert_ne.
  - intros c g b. by rewrite bus_guard_take.
  - intros c b [Hg Hc] Hq. simpl. unfold m_ready. simpl. rewrite Hg. apply bool_decide_eq_true.
    apply elem_of_filter. split; [|done]. unfold has_samples. intros Hnil. apply Hq. simpl. by rewrite Hnil.
Defined.

(* ------------------------------------------------------------------ *)
(** * Witness *)

(** Two messages are published; the executor has node 0 with its subscription
    (condition 20); a service (condition 30), whose dispatch throws, is added to
    the node afterwards and has a request waiting as well. *)
Definition bus_written : WriterState :=
  mk_writer_state (map (@serdata_of bytes String_msg) [lit "a"; lit "bcd"]) 1 0.
Definition bus_reader : ReaderState :=
  mk_reader_state true (map payload (mock_written bus_written)) (create_raw_sertype (lit "std_msgs::msg::dds_::String_")).
Definition bus_env : Bus :=
  mk_bus ∅ (<[1%Z := false]> (<[2%Z := false]> (<[10%Z := false]> ∅))) (fun _ => mk_taking bus_reader [] 0) {[ 20%Z; 30%Z ]}.
Definition bus_exec : Executor Bus :=
  mk_exec (snd (waitset_attach 2 2 (snd (waitset_attach 1 1 bus_env)))) demo_heap 1 2 false [] ∅ ∅ 2.
Definition bus_node : Executor Bus := add_node 0 bus_exec.
Definition bus_run : Executor Bus := add_entity 0 srv_ent bus_node.

Definition bus_dispatch (ent : Entity) : stM (taking ReaderState (list bytes)) (option Z) :=
  if decide (ent = sub_ent) then @Subscription_dispatch bytes ReaderState (list bytes) String_msg mock_reader log_nonempty 1
  else st_throw UserException.

Lemma bus_attach_succeeds : attach_succeeds (E := Bus).
Proof. by intros c x e. Qed.

Lemma bus_ctor : Executor_ctor 7 1 2 demo_heap bus_env = (Ok bus_exec, env bus_exec).
Proof. reflexivity. Qed.

Lemma bus_books : exec_inv demo_owner bus_run /\ covered bus_run.
Proof.
  assert (Hrun : star (exec_step demo_owner) bus_exec bus_run).
  { eapply star_step with (s2 := bus_node).
    - split; [apply op_add_node, demo_good; demo_like_tac|]. split; apply demo_good; demo_like_tac.
    - eapply star_step; [|apply star_refl]. split; [apply op_add_entity|].
      split; apply demo_good; demo_like_tac. }
  assert (H0 : exec_inv demo_owner bus_exec /\ covered bus_exec).
  { apply (ctor_inv demo_owner 7 1 2 demo_heap bus_env (env bus_exec)); [done|done|exact bus_ctor]. }
  revert H0. induction Hrun as [|s1 s2 s3 Hst _ IH]; intros Hi; [done|].
  apply IH. by apply (exec_step_inv demo_owner bus_attach_succeeds s1 s2).
Qed.

Lemma published_reaches_spinning_node_witness :
  exists did s' r' u', spin_once (entity_dispatch bus_dispatch) (-1) bus_run = (Ok did, s') /\
    object_at 20 (env s') = mk_taking r' u' 2 /\
    call_each log_nonempty [lit "a"; lit "bcd"] [] = (Ok tt, u') /\ pending r' = [].
Proof.
  pose (w := wait DDS_INFINITE (sync bus_run)).
  apply (@published_reaches_spinning_node bytes WriterState Bus ReaderState (list bytes) String_msg String_laws
           mock_writer mock_writer_laws bus_waitset bus_waitset_laws mock_reader mock_reader_laws bus_readers bus_readers_laws
           demo_owner bus_dispatch 64 log_nonempty [lit "a"; lit "bcd"] (mk_writer_state [] 1 0) bus_written
           bus_run (snd w) (-1) (fst (fst w)) (snd (fst w)) 0 sub_ent 1 bus_reader []).
  - intros c ent. unfold demo_owner. simpl.
    destruct (Z.eqb_spec c 20) as [->|]; [by intros [= <-]|]. destruct (Z.eqb_spec c 30) as [->|]; [by intros [= <-]|done].
  - exact bus_attach_succeeds.
  - repeat constructor; simpl; lia.
  - repeat constructor; simpl; lia.
  - exact log_nonempty_defined.
  - vm_compute. reflexivity.
  - apply bus_books.
  - apply bus_books.
  - apply demo_good. demo_like_tac.
  - vm_compute. lia.
  - vm_compute. set_solver.
  - vm_compute. set_solver.
  - split; [reflexivity|]. change (20%Z ∈ ({[ 20%Z; 30%Z ]} : gset Z)). set_solver.
  - reflexivity.
  - vm_compute. done.
  - reflexivity.
  - vm_compute. done.
  - vm_compute. reflexivity.
  - reflexivity.
  - vm_compute. lia.
  - vm_compute. reflexivity.
  - intros other Hne _. unfold entity_defined, bus_dispatch. by rewrite decide_False by done.
Defined.
