(* ===== verification/Json.v ===== *)
(** JSON output (src/src/rcllite/json_writer.hpp) and the reference the
    hand-built documents of graph.cpp and graph_executor.cpp are checked
    against: a document type, its compact rendering and a parser that reads the
    rendering back. *)
From Stdlib Require Import Ascii String DecimalString DecimalZ Decimal.
From stdpp Require Import base tactics list numbers sets.
From Stdlib Require Import ZArith Lia Strings.Byte.
From S2P Require Import Prelude Bytes.

(* ------------------------------------------------------------------ *)
(** * The writer *)

Definition hex_digits : bytes := lit "0123456789abcdef".
Definition hex_digit (n : Z) : byte := nth (Z.to_nat n) hex_digits x00.

(** One iteration of the loop of [json_escape_string]: what it appends. *)
Definition json_escape_char (c : byte) : bytes :=
  let uc := Z_of_byte c in
  match c with
  | x22 => [x5c; x22]
  | x5c => [x5c; x5c]
  | x08 => [x5c; x62]
  | x0c => [x5c; x66]
  | x0a => [x5c; x6e]
  | x0d => [x5c; x72]
  | x09 => [x5c; x74]
  | _ =>
      if (uc <? 0x20)%Z
      then lit "\u00" ++ [hex_digit (Z.shiftr uc 4)] ++ [hex_digit (Z.land uc 0xf)]
      else [c]
  end.

Definition json_escape_string (s : bytes) : bytes :=
  foldl (fun out c => out ++ json_escape_char c) [x22] s ++ [x22].

(* ------------------------------------------------------------------ *)
(** * Reading JSON back *)

Definition hex_value (c : byte) : option Z :=
  let z := Z_of_byte c in
  if (48 <=? z)%Z && (z <=? 57)%Z then Some (z - 48)%Z
  else if (97 <=? z)%Z && (z <=? 102)%Z then Some (z - 97 + 10)%Z
  else if (65 <=? z)%Z && (z <=? 70)%Z then Some (z - 65 + 10)%Z
  else None.

(** The rest of a string literal, up to its closing quote.  Of the [\u] escapes
    those below U+0080 are read; the writer emits no other. *)
Fixpoint parse_chars (s : bytes) : option (bytes * bytes) :=
  match s with
  | [] => None
  | x22 :: r => Some ([], r)
  | x5c :: x22 :: r => (fun p => (x22 :: fst p, snd p)) <$> parse_chars r
  | x5c :: x5c :: r => (fun p => (x5c :: fst p, snd p)) <$> parse_chars r
  | x5c :: x2f :: r => (fun p => (x2f :: fst p, snd p)) <$> parse_chars r
  | x5c :: x62 :: r => (fun p => (x08 :: fst p, snd p)) <$> parse_chars r
  | x5c :: x66 :: r => (fun p => (x0c :: fst p, snd p)) <$> parse_chars r
  | x5c :: x6e :: r => (fun p => (x0a :: fst p, snd p)) <$> parse_chars r
  | x5c :: x72 :: r => (fun p => (x0d :: fst p, snd p)) <$> parse_chars r
  | x5c :: x74 :: r => (fun p => (x09 :: fst p, snd p)) <$> parse_chars r
  | x5c :: x75 :: h3 :: h2 :: h1 :: h0 :: r =>
      match hex_value h3, hex_value h2, hex_value h1, hex_value h0 with
      | Some 0%Z, Some 0%Z, Some a, Some b =>
          if (a <? 8)%Z then (fun p => (byte_of_Z (16 * a + b) :: fst p, snd p)) <$> parse_chars r else None
      | _, _, _, _ => None
      end
  | x5c :: _ => None
  | c :: r => if (Z_of_byte c <? 0x20)%Z then None
              else (fun p => (c :: fst p, snd p)) <$> parse_chars r
  end.

Definition parse_string (s : bytes) : option (bytes * bytes) :=
  match s with x22 :: r => parse_chars r | _ => None end.

(** The digits a number starts with. *)
Fixpoint parse_uint (s : bytes) : Decimal.uint * bytes :=
  match s with
  | x30 :: r => (fun p => (Decimal.D0 (fst p), snd p)) (parse_uint r)
  | x31 :: r => (fun p => (Decimal.D1 (fst p), snd p)) (parse_uint r)
  | x32 :: r => (fun p => (Decimal.D2 (fst p), snd p)) (parse_uint r)
  | x33 :: r => (fun p => (Decimal.D3 (fst p), snd p)) (parse_uint r)
  | x34 :: r => (fun p => (Decimal.D4 (fst p), snd p)) (parse_uint r)
  | x35 :: r => (fun p => (Decimal.D5 (fst p), snd p)) (parse_uint r)
  | x36 :: r => (fun p => (Decimal.D6 (fst p), snd p)) (parse_uint r)
  | x37 :: r => (fun p => (Decimal.D7 (fst p), snd p)) (parse_uint r)
  | x38 :: r => (fun p => (Decimal.D8 (fst p), snd p)) (parse_uint r)
  | x39 :: r => (fun p => (Decimal.D9 (fst p), snd p)) (parse_uint r)
  | _ => (Decimal.Nil, s)
  end.

Definition is_digit (c : byte) : bool := (48 <=? Z_of_byte c)%Z && (Z_of_byte c <=? 57)%Z.

Definition parse_number (s : bytes) : option (Z * bytes) :=
  let neg := bool_decide (head s = Some x2d) in
  let s := if neg then tail s else s in
  match head s with
  | Some c =>
      if is_digit c then
        let (u, r) := parse_uint s in
        Some (Z.of_int (if neg then Decimal.Neg u else Decimal.Pos u), r)
      else None
  | None => None
  end.

(** Documents. *)
Inductive json :=
| JStr (s : bytes)
| JNum (z : Z)
| JArr (l : list json)
| JObj (fs : list (bytes * json)).

(** Elements separated by commas, up to the closing byte. *)
Fixpoint parse_items {A} (p : bytes -> option (A * bytes)) (close : byte) (fuel : nat) (s : bytes)
  : option (list A * bytes) :=
  match fuel with
  | O => None
  | S fuel =>
      match p s with
      | None => None
      | Some (a, []) => None
      | Some (a, c :: r) =>
          if decide (c = x2c) then (fun p => (a :: fst p, snd p)) <$> parse_items p close fuel r
          else if decide (c = close) then Some ([a], r) else None
      end
  end.

Definition parse_field (p : bytes -> option (json * bytes)) (s : bytes) : option ((bytes * json) * bytes) :=
  match parse_string s with
  | Some (k, x3a :: r) => (fun q => ((k, fst q), snd q)) <$> p r
  | _ => None
  end.

Fixpoint parse (fuel : nat) (s : bytes) : option (json * bytes) :=
  match fuel with
  | O => None
  | S fuel =>
      match s with
      | x22 :: _ => (fun p => (JStr (fst p), snd p)) <$> parse_string s
      | x5b :: x5d :: r => Some (JArr [], r)
      | x5b :: r => (fun p => (JArr (fst p), snd p)) <$> parse_items (parse fuel) x5d fuel r
      | x7b :: x7d :: r => Some (JObj [], r)
      | x7b :: r => (fun p => (JObj (fst p), snd p)) <$> parse_items (parse_field (parse fuel)) x7d fuel r
      | _ => (fun p => (JNum (fst p), snd p)) <$> parse_number s
      end
  end.

(** A whole document: the fuel bounds its nesting and its number of elements. *)
Definition json_parse (s : bytes) : option json :=
  match parse (S (length s)) s with Some (j, []) => Some j | _ => None end.

(* ------------------------------------------------------------------ *)
(** * The compact rendering *)

Fixpoint commas (l : list bytes) : bytes :=
  match l with
  | [] => []
  | [x] => x
  | x :: l => x ++ [x2c] ++ commas l
  end.

Fixpoint render (j : json) : bytes :=
  match j with
  | JStr s => json_escape_string s
  | JNum z => to_string z
  | JArr l => [x5b] ++ commas (map render l) ++ [x5d]
  | JObj fs =>
      [x7b] ++ commas (map (fun f => match f with (k, v) => json_escape_string k ++ [x3a] ++ render v end) fs) ++ [x7d]
  end.

Definition render_field (f : bytes * json) : bytes := json_escape_string (fst f) ++ [x3a] ++ render (snd f).

Fixpoint jsize (j : json) : nat :=
  match j with
  | JStr _ | JNum _ => 1
  | JArr l => S (list_sum (map (fun j => S (jsize j)) l))
  | JObj fs => S (list_sum (map (fun f => match f with (_, v) => S (jsize v) end) fs))
  end.

(** A literal of the sources between (escaped) quotes. *)
Definition quoted (s : String.string) : bytes := [x22] ++ lit s ++ [x22].
Arguments quoted _%_string.

Example parse_nested :
  json_parse (lit "{" ++ quoted "a" ++ lit ":[1,-20,{}]," ++ quoted "b" ++ lit ":" ++ quoted "x\u0001\n" ++ lit "}") =
  Some (JObj [(lit "a", JArr [JNum 1; JNum (-20); JObj []]); (lit "b", JStr [x78; x01; x0a])]).
Proof. vm_compute. reflexivity. Qed.

(* ------------------------------------------------------------------ *)
(** * Strings *)

Lemma json_escape_string_concat s :
  json_escape_string s = [x22] ++ concat (map json_escape_char s) ++ [x22].
Proof. unfold json_escape_string. by rewrite (foldl_app_acc _ json_escape_char), <- app_assoc. Qed.

Lemma parse_chars_escape c r :
  parse_chars (json_escape_char c ++ r) = (fun p => (c :: fst p, snd p)) <$> parse_chars r.
Proof. destruct c; reflexivity. Qed.

Lemma parse_chars_concat s rest :
  parse_chars (concat (map json_escape_char s) ++ [x22] ++ rest) = Some (s, rest).
Proof.
  induction s as [|c s IH]; [done|]. cbn [map concat].
  by rewrite <- app_assoc, parse_chars_escape, IH.
Qed.

Lemma parse_string_escape s rest : parse_string (json_escape_string s ++ rest) = Some (s, rest).
Proof. rewrite json_escape_string_concat, <- !app_assoc. apply parse_chars_concat. Qed.

Lemma json_escape_char_printable c : Forall (fun b => (0x20 <= Z_of_byte b)%Z) (json_escape_char c).
Proof.
  assert (H : forallb (fun b => 0x20 <=? Z_of_byte b)%Z (json_escape_char c) = true) by (by destruct c).
  apply Forall_forall. intros b Hb. rewrite forallb_forall in H. apply list_elem_of_In, H in Hb. lia.
Qed.

(* ------------------------------------------------------------------ *)
(** * Numbers *)

Definition no_digit (rest : bytes) : Prop := match rest with [] => True | c :: _ => is_digit c = false end.

Lemma parse_uint_string u rest :
  no_digit rest -> parse_uint (lit (NilEmpty.string_of_uint u) ++ rest) = (u, rest).
Proof.
  intros Hr. unfold lit, String.list_byte_of_string. induction u as [|u IH|u IH|u IH|u IH|u IH|u IH|u IH|u IH|u IH|u IH];
    [|simpl; by rewrite IH..].
  simpl. destruct rest as [|c rest]; [done|]. simpl in Hr. by destruct c.
Qed.

Lemma uint_head u :
  u <> Decimal.Nil -> exists c t, lit (NilEmpty.string_of_uint u) = c :: t /\ is_digit c = true.
Proof. destruct u; [done|..]; by eexists _, _. Qed.

Lemma to_int_nonnil z : match Z.to_int z with Decimal.Pos u | Decimal.Neg u => u <> Decimal.Nil end.
Proof. destruct z as [|p|p]; simpl; [done|apply DecimalPos.Unsigned.to_uint_nonnil..]. Qed.

Lemma to_string_head z :
  exists c t, to_string z = c :: t /\ (c = x2d \/ is_digit c = true).
Proof.
  unfold to_string. pose proof (to_int_nonnil z) as Hn. destruct (Z.to_int z) as [u|u].
  - destruct (uint_head u Hn) as (c & t & E & Hc). exists c, t. auto.
  - eexists _, _. split; [reflexivity|by left].
Qed.

Lemma parse_number_to_string z rest :
  no_digit rest -> parse_number (to_string z ++ rest) = Some (z, rest).
Proof.
  intros Hr. pose proof (DecimalZ.of_to z) as Hz. pose proof (to_int_nonnil z) as Hn.
  unfold parse_number, to_string.
  destruct (Z.to_int z) as [u|u]; cbn [NilEmpty.string_of_int];
    destruct (uint_head u Hn) as (c & t & E & Hc); pose proof (parse_uint_string u rest Hr) as Hp.
  - rewrite bool_decide_false by (rewrite E; intros [= ->]; done).
    assert (Hh : head (lit (NilEmpty.string_of_uint u) ++ rest) = Some c) by (by rewrite E).
    by rewrite Hh, Hc, Hp, Hz.
  - change (lit (String.String "-"%char (NilEmpty.string_of_uint u))) with (x2d :: lit (NilEmpty.string_of_uint u)).
    rewrite bool_decide_true by done. cbn [app tail].
    assert (Hh : head (lit (NilEmpty.string_of_uint u) ++ rest) = Some c) by (by rewrite E).
    by rewrite Hh, Hc, Hp, Hz.
Qed.

(* ------------------------------------------------------------------ *)
(** * Documents *)

Lemma parse_items_commas {A} (p : bytes -> option (A * bytes)) (pr : A -> bytes) close rest l :
  forall fuel, l <> [] -> length l <= fuel -> close <> x2c -> is_digit close = false ->
  (forall a r, a ∈ l -> no_digit r -> p (pr a ++ r) = Some (a, r)) ->
  parse_items p close fuel (commas (map pr l) ++ close :: rest) = Some (l, rest).
Proof.
  induction l as [|a l IH]; intros fuel Hne Hf Hc Hd Hp; [done|].
  destruct fuel as [|fuel]; [simpl in Hf; lia|]. cbn [parse_items].
  destruct l as [|b l].
  - simpl. rewrite Hp; [|set_solver|done]. cbn. by rewrite decide_False, decide_True.
  - cbn [map commas]. rewrite <- !app_assoc. rewrite Hp; [|set_solver|done]. cbn [app].
    rewrite decide_True by done.
    change (pr b :: map pr l) with (map pr (b :: l)).
    rewrite IH; [done|done|simpl in *; lia|done|done|]. intros a' r Ha. apply Hp. set_solver.
Qed.

Section json_ind.
Variable P : json -> Prop.
Hypothesis PStr : forall s, P (JStr s).
Hypothesis PNum : forall z, P (JNum z).
Hypothesis PArr : forall l, (forall j, j ∈ l -> P j) -> P (JArr l).
Hypothesis PObj : forall fs, (forall k v, (k, v) ∈ fs -> P v) -> P (JObj fs).

Lemma fields_forall fs : Forall (fun f : bytes * json => P (snd f)) fs -> forall k v, (k, v) ∈ fs -> P v.
Proof. intros Hf k v Hin. rewrite Forall_forall in Hf. apply (Hf (k, v) Hin). Qed.

Fixpoint json_nested_ind (j : json) : P j :=
  match j with
  | JStr s => PStr s
  | JNum z => PNum z
  | JArr l =>
      PArr l (proj1 (Forall_forall P l)
        ((fix go l : Forall P l :=
            match l with
            | [] => Forall_nil_2 P
            | j :: l => Forall_cons_2 P j l (json_nested_ind j) (go l)
            end) l))
  | JObj fs =>
      PObj fs (fields_forall fs
        ((fix go fs : Forall (fun f : bytes * json => P (snd f)) fs :=
            match fs with
            | [] => Forall_nil_2 _
            | (k, v) :: fs => Forall_cons_2 _ (k, v) fs (json_nested_ind v) (go fs)
            end) fs))
  end.
End json_ind.

Lemma render_head j : exists c t, render j = c :: t /\ c <> x5d.
Proof.
  destruct j as [s|z|l|fs]; simpl; [|destruct (to_string_head z) as (c & t & -> & Hc)|..].
  - rewrite json_escape_string_concat. by eexists _, _.
  - exists c, t. split; [done|]. by destruct Hc as [->|Hc]; [|intros ->].
  - by eexists _, _.
  - by eexists _, _.
Qed.

Lemma list_sum_elem {A} (f : A -> nat) l a :
  a ∈ l -> f a < list_sum (map (fun a => S (f a)) l) /\ length l <= list_sum (map (fun a => S (f a)) l).
Proof.
  intros Ha. split.
  - induction Ha; simpl; lia.
  - clear Ha. induction l; simpl; lia.
Qed.

Lemma parse_render j : forall fuel rest,
  jsize j <= fuel -> (forall z, j = JNum z -> no_digit rest) ->
  parse fuel (render j ++ rest) = Some (j, rest).
Proof.
  induction j as [s|z|l IH|fs IH] using json_nested_ind; intros fuel rest Hf Hr;
    (destruct fuel as [|fuel]; [simpl in Hf; lia|]).
  - cbn [render]. pose proof (parse_string_escape s rest) as Hs.
    rewrite json_escape_string_concat in *. cbn in Hs |- *. by rewrite Hs.
  - cbn [render]. pose proof (parse_number_to_string z rest (Hr z eq_refl)) as Hn.
    destruct (to_string_head z) as (c & t & E & Hc). rewrite E in *. cbn [app] in *.
    destruct Hc as [->|Hc]; [cbn [parse]; by rewrite Hn|].
    destruct c; try discriminate Hc; cbn [parse]; by rewrite Hn.
  - destruct l as [|j l]; [done|]. cbn [jsize] in Hf.
    assert (Hl : parse_items (parse fuel) x5d fuel (commas (map render (j :: l)) ++ x5d :: rest) = Some (j :: l, rest)).
    { destruct (list_sum_elem jsize (j :: l) j) as [_ Hlen]; [set_solver|].
      apply parse_items_commas; [done|lia|done|done|]. intros a r Ha Hd. apply IH; [done| |done].
      destruct (list_sum_elem jsize (j :: l) a Ha). lia. }
    cbn [render]. rewrite <- !app_assoc. cbn [app].
    destruct (render_head j) as (c & t & E & Hc).
    assert (Hhd : exists t', commas (map render (j :: l)) ++ x5d :: rest = c :: t').
    { cbn [map commas]. rewrite E. destruct (map render l); by eexists. }
    destruct Hhd as [t' Ht]. rewrite Ht in Hl |- *. cbn [parse]. rewrite Hl.
    by destruct c.
  - destruct fs as [|[k v] fs]; [done|]. cbn [jsize] in Hf.
    set (pr := fun f : bytes * json => match f with (k, v) => json_escape_string k ++ [x3a] ++ render v end) in *.
    set (sz := fun f : bytes * json => jsize (snd f)).
    assert (Hsz : list_sum (map (fun f => S (sz f)) ((k, v) :: fs)) <= fuel).
    { etrans; [|apply le_S_n, Hf]. apply Nat.eq_le_incl. f_equal. apply map_ext. by intros [? ?]. }
    assert (Hl : parse_items (parse_field (parse fuel)) x7d fuel (commas (map pr ((k, v) :: fs)) ++ x7d :: rest) = Some ((k, v) :: fs, rest)).
    { destruct (list_sum_elem sz ((k, v) :: fs) (k, v)) as [_ Hlen]; [set_solver|].
      apply parse_items_commas; [done|lia|done|done|]. intros [k' v'] r Ha Hd.
      unfold parse_field, pr. rewrite <- !app_assoc, parse_string_escape. cbn [app].
      rewrite (IH k' v'); [done|done| |done].
      pose proof (proj1 (list_sum_elem sz _ (k', v') Ha)) as Hx. change (sz (k', v')) with (jsize v') in Hx. lia. }
    cbn [render]. fold pr. rewrite <- !app_assoc. cbn [app].
    assert (Hhd : exists t', commas (map pr ((k, v) :: fs)) ++ x7d :: rest = x22 :: t').
    { cbn [map commas]. change (pr (k, v)) with (json_escape_string k ++ [x3a] ++ render v). rewrite json_escape_string_concat. destruct (map pr fs); by eexists. }
    destruct Hhd as [t' Ht]. rewrite Ht in Hl |- *. cbn [parse]. by rewrite Hl.
Qed.

Lemma length_commas l : list_sum (map (fun x => S (length x)) l) <= S (length (commas l)).
Proof.
  induction l as [|x l IH]; simpl; [lia|]. destruct l as [|y l]; simpl in *; [lia|].
  rewrite length_app. simpl. lia.
Qed.

Lemma list_sum_le {A} (f g : A -> nat) l :
  (forall a, a ∈ l -> f a <= g a) -> list_sum (map f l) <= list_sum (map g l).
Proof.
  induction l as [|a l IH]; intros Hfg; simpl; [lia|].
  specialize (IH ltac:(intros; apply Hfg; set_solver)). specialize (Hfg a ltac:(set_solver)). lia.
Qed.

Lemma jsize_render j : jsize j <= length (render j).
Proof.
  induction j as [s|z|l IH|fs IH] using json_nested_ind; cbn [jsize render].
  - rewrite json_escape_string_concat, !length_app. simpl. lia.
  - destruct (to_string_head z) as (c & t & -> & _). simpl. lia.
  - rewrite !length_app. simpl.
    pose proof (length_commas (map render l)) as Hc. rewrite map_map in Hc.
    pose proof (list_sum_le (fun j => S (jsize j)) (fun x => S (length (render x))) l) as Hle.
    etrans; [apply le_n_S, Hle|lia]. intros a Ha. specialize (IH a Ha). lia.
  - rewrite !length_app. simpl.
    match goal with |- context [commas ?x] => pose proof (length_commas x) as Hc end.
    rewrite map_map in Hc.
    etrans; [apply le_n_S, list_sum_le with (g := fun x => S (length (match x with (k, v) => json_escape_string k ++ [x3a] ++ render v end)))|simpl in *; lia].
    intros [k v] Hin. specialize (IH k v Hin). rewrite !length_app. simpl. lia.
Qed.

Lemma json_parse_render j : json_parse (render j) = Some j.
Proof.
  unfold json_parse. pose proof (parse_render j (S (length (render j))) []) as H.
  rewrite app_nil_r in H. rewrite H; [done| |by intros].
  pose proof (jsize_render j). lia.
Qed.

(** A string literal written by [json_escape_string] is read back as the
    string it was written from, whatever follows it and whatever bytes the string
    holds, and contains no control character. *)
Theorem json_escape_roundtrip (s rest : bytes) :
  parse_string (json_escape_string s ++ rest) = Some (s, rest) /\
  Forall (fun b => (0x20 <= Z_of_byte b)%Z) (json_escape_string s).
Proof.
  split; [apply parse_string_escape|]. rewrite json_escape_string_concat.
  apply Forall_app; split; [by constructor|]. apply Forall_app; split; [|by constructor].
  apply Forall_concat, Forall_map, Forall_forall. intros c _. apply json_escape_char_printable.
Qed.

(* ------------------------------------------------------------------ *)
(** * The loops that write arrays *)

(** [for (x : l) { out += first ? "" : ","; out += element(x); first = false; }],
    from an empty or a non-empty [out]. *)
Definition comma_step {A} (element : A -> bytes) (st : bytes * bool) (x : A) : bytes * bool :=
  let (out, first) := st in (out ++ (if first then [] else [x2c]) ++ element x, false).
Definition comma_loop {A} (element : A -> bytes) (l : list A) (out : bytes) : bytes :=
  fst (foldl (comma_step element) (out, true) l).

Lemma comma_loop_commas {A} (element : A -> bytes) (l : list A) out :
  comma_loop element l out = out ++ commas (map element l).
Proof.
  assert (Hf : forall l out, fst (foldl (comma_step element) (out, false) l) =
            out ++ concat (map (fun x => [x2c] ++ element x) l)).
  { induction l0 as [|x l0 IH]; intros out0; simpl; [by rewrite app_nil_r|].
    by rewrite IH, <- app_assoc. }
  assert (Hc : forall x l, commas (element x :: map element l) =
            element x ++ concat (map (fun x => [x2c] ++ element x) l)).
  { intros x l0. revert x. induction l0 as [|y l0 IH]; intros x; simpl; [by rewrite app_nil_r|].
    f_equal. f_equal. apply IH. }
  unfold comma_loop. destruct l as [|x l]; [simpl; by rewrite app_nil_r|].
  cbn [foldl comma_step map]. rewrite Hf, Hc. by rewrite <- !app_assoc.
Qed.
