(* ===== verification/Graph.v ===== *)
(** The passive observer of the ROS graph (src/src/rcllite/graph.hpp and
    graph.cpp): the discovery state, the poll thread that maintains it, and the
    snapshot document.

    The built-in readers, the waitset and the stop guard are the class
    [GraphDds]; the two data readers are [DdsReader]s and their samples are
    decoded through the message interface.  A GUID is its 16 bytes. *)
From Stdlib Require Import ZArith Lia Strings.Byte.
From stdpp Require Import base tactics list numbers gmap fin_maps sorting sets.
From S2P Require Import Prelude Bytes Cdr Message Names RawSerdata Dds Json.

(* ------------------------------------------------------------------ *)
(** * Names and identifiers *)

Definition kMaxLogs : nat := 512.

(** [std::memcmp] of two arrays of the same length: its sign, by the first
    different byte, unsigned. *)
Fixpoint memcmp (a b : bytes) : Z :=
  match a, b with
  | x :: a, y :: b => if decide (x = y) then memcmp a b else (Z_of_byte x - Z_of_byte y)%Z
  | _, _ => 0%Z
  end.

Definition GuidLess (a b : bytes) : bool := (memcmp a b <? 0)%Z.
Definition guid_eq (a b : bytes) : bool := (memcmp a b =? 0)%Z.

Definition guid_hex (g : bytes) : bytes :=
  foldl (fun out b => (out ++ [hex_digit (Z.shiftr (Z_of_byte b) 4)]) ++ [hex_digit (Z.land (Z_of_byte b) 0xf)]) [] g.

(** A GID holds at least the 16 bytes of a GUID. *)
Definition gid_matches (gid g : bytes) : bool :=
  (16 <=? length gid)%nat && bool_decide (take 16 gid = g).

Definition parse_enclave (user_data : bytes) : bytes :=
  let prefix := lit "enclave=" in
  match find_sub prefix user_data with
  | None => []
  | Some begin =>
      let name_start := begin + length prefix in
      let name_end := match find_char_from x3b name_start user_data with
                      | None => length user_data
                      | Some semi => semi
                      end in
      substr name_start (name_end - name_start) user_data
  end.

Definition is_plumbing_topic (dds_topic : bytes) : bool :=
  bool_decide (dds_topic = lit "ros_discovery_info") || bool_decide (dds_topic = lit "rt/rosout") ||
  bool_decide (dds_topic = lit "rt/parameter_events") || starts_with (lit "DCPS") dds_topic ||
  starts_with (lit "d*") dds_topic.

(* ------------------------------------------------------------------ *)
(** * The discovery state *)

Record NodeEntitiesInfo := mk_node_info {
  node_namespace : bytes;
  node_name : bytes;
  reader_gid_seq : list bytes;
  writer_gid_seq : list bytes
}.
Record ParticipantEntitiesInfo := mk_entities_info {
  gid : bytes;
  node_entities_info_seq : list NodeEntitiesInfo
}.
Record Log := mk_log {
  stamp_sec : Z; stamp_nanosec : Z; level : Z;
  log_name : bytes; msg : bytes; file : bytes; function : bytes; line : Z
}.

Record EndpointInfo := mk_endpoint { participant : bytes; topic : bytes; type : bytes; writer : bool }.

Record Maps := mk_maps {
  participants : gmap bytes bytes;
  endpoints : gmap bytes EndpointInfo;
  discovery : gmap bytes ParticipantEntitiesInfo;
  logs : list Log
}.

(** The samples of the built-in topics; a null pointer is [None]. *)
Record participant_sample := mk_psample { p_key : bytes; p_alive : bool; p_userdata : option bytes }.
Record endpoint_sample := mk_esample {
  e_key : bytes; e_alive : bool; participant_key : bytes;
  topic_name : option bytes; type_name : option bytes
}.

Definition on_participant (m : Maps) (s : participant_sample) : Maps :=
  if p_alive s then
    let enclave := match p_userdata s with Some value => parse_enclave value | None => [] end in
    mk_maps (<[p_key s := enclave]> (participants m)) (endpoints m) (discovery m) (logs m)
  else
    mk_maps (delete (p_key s) (participants m))
      (filter (fun e => participant (snd e) <> p_key s) (endpoints m))
      (delete (p_key s) (discovery m)) (logs m).

Definition on_endpoint (is_writer : bool) (m : Maps) (s : endpoint_sample) : Maps :=
  mk_maps (participants m)
    (if e_alive s
     then <[e_key s := mk_endpoint (participant_key s) (default [] (topic_name s)) (default [] (type_name s)) is_writer]>
            (endpoints m)
     else delete (e_key s) (endpoints m))
    (discovery m) (logs m).

(** What [dds_take] returned, applied to the maps. *)
Definition poll_participants (t : Z * list participant_sample) (m : Maps) : Maps :=
  if (fst t <=? 0)%Z then m else foldl on_participant m (snd t).
Definition poll_builtin (is_writer : bool) (t : Z * list endpoint_sample) (m : Maps) : Maps :=
  if (fst t <=? 0)%Z then m else foldl (on_endpoint is_writer) m (snd t).

(** [while (logs.size() > kMaxLogs) logs.pop_front();] *)
Fixpoint pop_excess (l : list Log) : list Log :=
  match l with
  | [] => []
  | _ :: rest => if (kMaxLogs <? length l)%nat then pop_excess rest else l
  end.

Section handlers.
Context `{Message ParticipantEntitiesInfo, Message Log}.

(** The handlers that [poll_discovery] and [poll_rosout] give to [take]. *)
Definition on_discovery (payload : bytes) (_ : dds_sample_info) : stM Maps unit :=
  let* d := st_lift (decode_payload (M := ParticipantEntitiesInfo) payload) in
  match fst d with
  | None => mret tt
  | Some info =>
      match slice 0 16 (gid info) with
      | None => fun m => (Undefined, m)
      | Some key => st_modify (fun m => mk_maps (participants m) (endpoints m) (<[key := info]> (discovery m)) (logs m))
      end
  end.

Definition on_rosout (payload : bytes) (_ : dds_sample_info) : stM Maps unit :=
  let* d := st_lift (decode_payload (M := Log) payload) in
  match fst d with
  | None => mret tt
  | Some record =>
      st_modify (fun m => mk_maps (participants m) (endpoints m) (discovery m) (pop_excess (logs m ++ [record])))
  end.
End handlers.

(* ------------------------------------------------------------------ *)
(** * The poll thread *)

(** [graph_wait] returns the count and the attachment slots that triggered, at
    most six of an array of eight. *)
Class GraphDds (D : Type) := {
  graph_running : D -> bool;
  graph_wait : D -> (Z * list Z) * D;
  stop_guard_take : D -> bool * D;
  take_participants : D -> (Z * list participant_sample) * D;
  take_endpoints : bool -> D -> (Z * list endpoint_sample) * D
}.

Definition kStopSlot : Z := 1.
Definition kBiPartSlot : Z := 2.
Definition kBiPubSlot : Z := 3.
Definition kBiSubSlot : Z := 4.
Definition kDiscoverySlot : Z := 5.
Definition kRosoutSlot : Z := 6.

Section thread.
Context {D R : Type} `{GraphDds D} `{DdsReader R} `{Message ParticipantEntitiesInfo, Message Log}.
Variable fuel : nat.

Record Monitor := mk_monitor {
  dds : D; discovery_rd : R; rosout_rd : R; maps : Maps; graph_unrefs : nat
}.

Definition on_dds {A} (f : D -> A * D) : stM Monitor A := fun s =>
  let (a, d) := f (dds s) in (Ok a, mk_monitor d (discovery_rd s) (rosout_rd s) (maps s) (graph_unrefs s)).
Definition on_maps (f : Maps -> Maps) : stM Monitor unit :=
  st_modify (fun s => mk_monitor (dds s) (discovery_rd s) (rosout_rd s) (f (maps s)) (graph_unrefs s)).

Definition poll_discovery : stM Monitor (option Z) := fun s =>
  let (o, t) := Reader_take on_discovery fuel 0 (mk_taking (discovery_rd s) (maps s) (graph_unrefs s)) in
  (o, mk_monitor (dds s) (rd_ t) (rosout_rd s) (user t) (unrefs t)).
Definition poll_rosout : stM Monitor (option Z) := fun s =>
  let (o, t) := Reader_take on_rosout fuel 0 (mk_taking (rosout_rd s) (maps s) (graph_unrefs s)) in
  (o, mk_monitor (dds s) (discovery_rd s) (rd_ t) (user t) (unrefs t)).

(** One [switch]; [true] where [run] returns. *)
Definition run_slot (slot : Z) : stM Monitor bool :=
  if (slot =? kStopSlot)%Z then on_dds stop_guard_take
  else if (slot =? kBiPartSlot)%Z then
    let* t := on_dds take_participants in let* _ := on_maps (poll_participants t) in mret false
  else if (slot =? kBiPubSlot)%Z then
    let* t := on_dds (take_endpoints true) in let* _ := on_maps (poll_builtin true t) in mret false
  else if (slot =? kBiSubSlot)%Z then
    let* t := on_dds (take_endpoints false) in let* _ := on_maps (poll_builtin false t) in mret false
  else if (slot =? kDiscoverySlot)%Z then let* _ := poll_discovery in mret false
  else if (slot =? kRosoutSlot)%Z then let* _ := poll_rosout in mret false
  else mret false.

Fixpoint run_slots (slots : list Z) : stM Monitor bool :=
  match slots with
  | [] => mret false
  | slot :: slots =>
      let* stop := run_slot slot in
      if stop : bool then mret true else run_slots slots
  end.

(** [run], for at most [rounds] rounds; [None] when they are used up.  Nothing
    catches what it throws: an exception leaves the function of a [std::thread]. *)
Fixpoint run (rounds : nat) : stM Monitor (option unit) :=
  match rounds with
  | O => mret None
  | S rounds =>
      let* s := st_get in
      if negb (graph_running (dds s)) then mret (Some tt)
      else
        let* r := on_dds graph_wait in
        let (n, slots) := r : Z * list Z in
        if (n <? 0)%Z then mret (Some tt)
        else
          let* stop := run_slots (take (Z.to_nat n) slots) in
          if stop : bool then mret (Some tt) else run rounds
  end.
End thread.
Arguments Monitor : clear implicits.

(* ------------------------------------------------------------------ *)
(** * The snapshot *)

(** Where the name of a node comes from, with its rank. *)
Inductive Source := SDiscovery | SUserData | SAnonymous.

#[global] Instance Source_eq_dec : EqDecision Source.
Proof. solve_decision. Defined.

Definition source_text (s : Source) : bytes :=
  match s with SDiscovery => lit "discovery" | SUserData => lit "user_data" | SAnonymous => lit "anonymous" end.
Definition rank (s : Source) : Z := match s with SDiscovery => 3 | SUserData => 2 | SAnonymous => 1 end.

Definition owns (endpoint : bytes) (gids : list bytes) : bool := existsb (fun g => gid_matches g endpoint) gids.

Definition node_owning (endpoint : bytes) (infos : list NodeEntitiesInfo) : option NodeEntitiesInfo :=
  List.find (fun i => owns endpoint (writer_gid_seq i) || owns endpoint (reader_gid_seq i)) infos.

Definition resolve_node (m : Maps) (part endpoint : bytes) : outcome (bytes * Source) :=
  match discovery m !! part ≫= (fun info => node_owning endpoint (node_entities_info_seq info)) with
  | Some i => let* name := make_fq_node_name (node_namespace i) (node_name i) in Ok (name, SDiscovery)
  | None =>
      match participants m !! part with
      | Some (c :: enclave) => Ok (c :: enclave, SUserData)
      | _ => Ok (lit "participant:" ++ guid_hex part, SAnonymous)
      end
  end.

(** [note_node]. *)
Definition note_node (name : bytes) (source : Source) (nodes : gmap bytes Source) : gmap bytes Source :=
  match nodes !! name with
  | Some s => if (rank s <? rank source)%Z then <[name := source]> nodes else nodes
  | None => <[name := source]> nodes
  end.

(** A [std::map] in its order. *)
Definition sorted {V} (m : gmap bytes V) : list (bytes * V) :=
  omap (fun k => (fun v => (k, v)) <$> m !! k) (merge_sort bytes_le (elements (dom m))).

Definition live_endpoint : Type := bytes * (EndpointInfo * (bytes * Source)).

Fixpoint note_endpoints (m : Maps) (self_guid : bytes) (es : list (bytes * EndpointInfo))
  (nodes : gmap bytes Source) : outcome (list live_endpoint * gmap bytes Source) :=
  match es with
  | [] => Ok ([], nodes)
  | (guid, info) :: es =>
      if decide (participant info = self_guid) then note_endpoints m self_guid es nodes
      else
        let* owner := resolve_node m (participant info) guid in
        let* r := note_endpoints m self_guid es (note_node (fst owner) (snd owner) nodes) in
        Ok ((guid, (info, owner)) :: fst r, snd r)
  end.

Fixpoint note_infos (infos : list NodeEntitiesInfo) (nodes : gmap bytes Source) : outcome (gmap bytes Source) :=
  match infos with
  | [] => Ok nodes
  | i :: infos =>
      let* name := make_fq_node_name (node_namespace i) (node_name i) in
      note_infos infos (note_node name SDiscovery nodes)
  end.

Fixpoint note_discovery (self_guid : bytes) (ds : list (bytes * ParticipantEntitiesInfo))
  (nodes : gmap bytes Source) : outcome (gmap bytes Source) :=
  match ds with
  | [] => Ok nodes
  | (guid, info) :: ds =>
      if decide (guid = self_guid) then note_discovery self_guid ds nodes
      else let* nodes := note_infos (node_entities_info_seq info) nodes in note_discovery self_guid ds nodes
  end.

Definition note_participants (self_guid : bytes) (ps : list (bytes * bytes)) (nodes : gmap bytes Source)
  : gmap bytes Source :=
  foldl (fun nodes p => if bool_decide (fst p = self_guid) || bool_decide (snd p = []) then nodes
                        else note_node (snd p) SUserData nodes) nodes ps.

Record TopicAgg := mk_agg { agg_type : bytes; writers : gset bytes; readers : gset bytes }.

Definition add_endpoint (topics : gmap bytes TopicAgg) (e : live_endpoint) : gmap bytes TopicAgg :=
  let '(_, (info, (node, _))) := e in
  let agg := default (mk_agg [] ∅ ∅) (topics !! topic info) in
  <[topic info := if writer info then mk_agg (type info) (writers agg ∪ {[node]}) (readers agg)
                  else mk_agg (type info) (writers agg) (readers agg ∪ {[node]})]> topics.

Definition aggregate (live : list live_endpoint) : gmap bytes TopicAgg := foldl add_endpoint ∅ live.

(** An edge: source, target, name, and whether it is of kind service. *)
Definition edge : Type := bytes * bytes * bytes * bool.

Definition is_request_topic (t : bytes) : bool :=
  starts_with (lit "rq/") t && (10 <? length t)%nat && ends_with (lit "Request") t.
Definition service_of (t : bytes) : bytes := lit "/" ++ substr 3 (length t - 3 - 7) t.
Definition is_data_topic (t : bytes) : bool := starts_with (lit "rt/") t && (3 <? length t)%nat.
Definition topic_of (t : bytes) : bytes := lit "/" ++ drop 3 t.

Definition cross (ws rs : gset bytes) (name : bytes) (service : bool) : gset edge :=
  list_to_set (flat_map (fun w => map (fun r => (w, r, name, service)) (elements rs)) (elements ws)).

Definition edges_of_topic (t : bytes) (agg : TopicAgg) : gset edge :=
  if is_plumbing_topic t then ∅
  else if is_request_topic t then cross (writers agg) (readers agg) (service_of t) true
  else if is_data_topic t then cross (writers agg) (readers agg) (topic_of t) false
  else ∅.

Definition edges_of (topics : list (bytes * TopicAgg)) : gset edge :=
  foldl (fun es t => es ∪ edges_of_topic (fst t) (snd t)) ∅ topics.

Record Snapshot := mk_snapshot {
  s_nodes : gmap bytes Source;
  s_live : list live_endpoint;
  s_topics : gmap bytes TopicAgg;
  s_edges : gset edge;
  s_logs : list Log
}.

Definition snapshot (m : Maps) (self_guid : bytes) : outcome Snapshot :=
  let* r := note_endpoints m self_guid (sorted (endpoints m)) ∅ in
  let (live, nodes) := r : list live_endpoint * gmap bytes Source in
  let* nodes := note_discovery self_guid (sorted (discovery m)) nodes in
  let nodes := note_participants self_guid (sorted (participants m)) nodes in
  let topics := aggregate live in
  Ok (mk_snapshot nodes live topics (edges_of (sorted topics)) (logs m)).

(* ------------------------------------------------------------------ *)
(** * The document *)

(** [std::set] of edges in its order; the last component compares the addresses
    of two string literals. *)
Section document.
Variable service_first : bool.

Definition edge_key (e : edge) : bytes * bytes * bytes := fst e.
Definition lex (c1 c2 : bytes) (rest : bool) : bool := if decide (c1 = c2) then rest else bytes_leb c1 c2.
Definition edge_leb (e1 e2 : edge) : bool :=
  let '(s1, t1, n1, k1) := e1 in
  let '(s2, t2, n2, k2) := e2 in
  lex s1 s2 (lex t1 t2 (lex n1 n2 (Bool.eqb k1 k2 || Bool.eqb k1 service_first))).
Definition edge_le (e1 e2 : edge) : Prop := edge_leb e1 e2 = true.
#[local] Instance edge_le_dec : RelDecision edge_le.
Proof. intros e1 e2. unfold edge_le. apply _. Defined.

Definition dump_names (names : gset bytes) : bytes :=
  comma_loop json_escape_string (merge_sort bytes_le (elements names)) (lit "[") ++ lit "]".

Definition node_element (n : bytes * Source) : bytes :=
  lit "{" ++ quoted "name" ++ lit ":" ++ json_escape_string (fst n)
  ++ lit "," ++ quoted "source" ++ lit ":" ++ json_escape_string (source_text (snd n)) ++ lit "}".

Definition topic_element (t : bytes * TopicAgg) : bytes :=
  lit "{" ++ quoted "topic" ++ lit ":" ++ json_escape_string (topic_of (fst t))
  ++ lit "," ++ quoted "type" ++ lit ":" ++ json_escape_string (agg_type (snd t))
  ++ lit "," ++ quoted "publishers" ++ lit ":" ++ dump_names (writers (snd t))
  ++ lit "," ++ quoted "subscriptions" ++ lit ":" ++ dump_names (readers (snd t)) ++ lit "}".

Definition service_element (t : bytes * TopicAgg) : bytes :=
  lit "{" ++ quoted "service" ++ lit ":" ++ json_escape_string (service_of (fst t))
  ++ lit "," ++ quoted "type" ++ lit ":" ++ json_escape_string (agg_type (snd t))
  ++ lit "," ++ quoted "servers" ++ lit ":" ++ dump_names (readers (snd t))
  ++ lit "," ++ quoted "clients" ++ lit ":" ++ dump_names (writers (snd t)) ++ lit "}".

Definition edge_element (e : edge) : bytes :=
  let '(source, target, name, service) := e in
  lit "{" ++ quoted "source" ++ lit ":" ++ json_escape_string source
  ++ lit "," ++ quoted "target" ++ lit ":" ++ json_escape_string target
  ++ lit "," ++ quoted "topic" ++ lit ":" ++ json_escape_string name
  ++ lit "," ++ quoted "kind" ++ lit ":" ++ json_escape_string (if service : bool then lit "service" else lit "topic")
  ++ lit "}".

Definition endpoint_element (e : live_endpoint) : bytes :=
  let '(guid, (info, (node, _))) := e in
  lit "{" ++ quoted "gid" ++ lit ":" ++ [x22] ++ guid_hex guid ++ [x22]
  ++ lit "," ++ quoted "participant" ++ lit ":" ++ [x22] ++ guid_hex (participant info) ++ [x22]
  ++ lit "," ++ quoted "node" ++ lit ":" ++ json_escape_string node
  ++ lit "," ++ quoted "topic" ++ lit ":" ++ json_escape_string (topic info)
  ++ lit "," ++ quoted "type" ++ lit ":" ++ json_escape_string (type info)
  ++ lit "," ++ quoted "kind" ++ lit ":"
  ++ json_escape_string (if writer info then lit "publisher" else lit "subscription") ++ lit "}".

Definition log_element (l : Log) : bytes :=
  lit "{" ++ quoted "stamp" ++ lit ":" ++ to_string (stamp_sec l * 1000000000 + stamp_nanosec l)
  ++ lit "," ++ quoted "level" ++ lit ":" ++ to_string (level l)
  ++ lit "," ++ quoted "name" ++ lit ":" ++ json_escape_string (log_name l)
  ++ lit "," ++ quoted "msg" ++ lit ":" ++ json_escape_string (msg l)
  ++ lit "," ++ quoted "file" ++ lit ":" ++ json_escape_string (file l)
  ++ lit "," ++ quoted "function" ++ lit ":" ++ json_escape_string (function l)
  ++ lit "," ++ quoted "line" ++ lit ":" ++ to_string (line l) ++ lit "}".

(** The topics and the services of the document. *)
Definition shown_topics (topics : list (bytes * TopicAgg)) : list (bytes * TopicAgg) :=
  filter (fun t => is_data_topic (fst t) && negb (is_plumbing_topic (fst t)) = true) topics.
Definition shown_services (topics : list (bytes * TopicAgg)) : list (bytes * TopicAgg) :=
  filter (fun t => is_request_topic (fst t) = true) topics.

Definition write_snapshot (s : Snapshot) : bytes :=
  let out := lit "{" ++ quoted "nodes" ++ lit ":[" in
  let out := comma_loop node_element (sorted (s_nodes s)) out in
  let out := out ++ lit "]," ++ quoted "topics" ++ lit ":[" in
  let out := comma_loop topic_element (shown_topics (sorted (s_topics s))) out in
  let out := out ++ lit "]," ++ quoted "services" ++ lit ":[" in
  let out := comma_loop service_element (shown_services (sorted (s_topics s))) out in
  let out := out ++ lit "]," ++ quoted "edges" ++ lit ":[" in
  let out := comma_loop edge_element (merge_sort edge_le (elements (s_edges s))) out in
  let out := out ++ lit "]," ++ quoted "endpoints" ++ lit ":[" in
  let out := comma_loop endpoint_element (s_live s) out in
  let out := out ++ lit "]," ++ quoted "logs" ++ lit ":[" in
  let out := comma_loop log_element (s_logs s) out in
  out ++ lit "]}".

Definition snapshot_json (m : Maps) (self_guid : bytes) : outcome bytes :=
  let* s := snapshot m self_guid in Ok (write_snapshot s).

(** The document that [write_snapshot] spells out. *)
Definition names_doc (names : gset bytes) : json := JArr (map JStr (merge_sort bytes_le (elements names))).
Definition node_doc (n : bytes * Source) : json :=
  JObj [(lit "name", JStr (fst n)); (lit "source", JStr (source_text (snd n)))].
Definition topic_doc (t : bytes * TopicAgg) : json :=
  JObj [(lit "topic", JStr (topic_of (fst t))); (lit "type", JStr (agg_type (snd t)));
        (lit "publishers", names_doc (writers (snd t))); (lit "subscriptions", names_doc (readers (snd t)))].
Definition service_doc (t : bytes * TopicAgg) : json :=
  JObj [(lit "service", JStr (service_of (fst t))); (lit "type", JStr (agg_type (snd t)));
        (lit "servers", names_doc (readers (snd t))); (lit "clients", names_doc (writers (snd t)))].
Definition edge_doc (e : edge) : json :=
  let '(source, target, name, service) := e in
  JObj [(lit "source", JStr source); (lit "target", JStr target); (lit "topic", JStr name);
        (lit "kind", JStr (if service : bool then lit "service" else lit "topic"))].
Definition endpoint_doc (e : live_endpoint) : json :=
  let '(guid, (info, (node, _))) := e in
  JObj [(lit "gid", JStr (guid_hex guid)); (lit "participant", JStr (guid_hex (participant info)));
        (lit "node", JStr node); (lit "topic", JStr (topic info)); (lit "type", JStr (type info));
        (lit "kind", JStr (if writer info then lit "publisher" else lit "subscription"))].
Definition log_doc (l : Log) : json :=
  JObj [(lit "stamp", JNum (stamp_sec l * 1000000000 + stamp_nanosec l)); (lit "level", JNum (level l));
        (lit "name", JStr (log_name l)); (lit "msg", JStr (msg l)); (lit "file", JStr (file l));
        (lit "function", JStr (function l)); (lit "line", JNum (line l))].
Definition snapshot_doc (s : Snapshot) : json :=
  JObj [(lit "nodes", JArr (map node_doc (sorted (s_nodes s))));
        (lit "topics", JArr (map topic_doc (shown_topics (sorted (s_topics s)))));
        (lit "services", JArr (map service_doc (shown_services (sorted (s_topics s)))));
        (lit "edges", JArr (map edge_doc (merge_sort edge_le (elements (s_edges s)))));
        (lit "endpoints", JArr (map endpoint_doc (s_live s)));
        (lit "logs", JArr (map log_doc (s_logs s)))].
End document.

(* ------------------------------------------------------------------ *)
(** * Writing the document *)

Lemma hex_digit_plain n : (0 <= n < 16)%Z -> json_escape_char (hex_digit n) = [hex_digit n].
Proof.
  intros Hn.
  assert (Ha : forallb (fun n => bool_decide (json_escape_char (hex_digit n) = [hex_digit n]))
            (map Z.of_nat (seq 0 16)) = true) by (vm_compute; reflexivity).
  rewrite forallb_forall in Ha. specialize (Ha n). rewrite bool_decide_eq_true in Ha. apply Ha.
  apply in_map_iff. exists (Z.to_nat n). split; [lia|]. apply in_seq. lia.
Qed.

Lemma guid_hex_concat g :
  guid_hex g = concat (map (fun b => [hex_digit (Z.shiftr (Z_of_byte b) 4); hex_digit (Z.land (Z_of_byte b) 0xf)]) g).
Proof.
  unfold guid_hex.
  rewrite (foldl_app_acc _ (fun b => [hex_digit (Z.shiftr (Z_of_byte b) 4); hex_digit (Z.land (Z_of_byte b) 0xf)])); [done|].
  intros acc b. by rewrite <- app_assoc.
Qed.

Lemma guid_hex_plain g : json_escape_string (guid_hex g) = [x22] ++ guid_hex g ++ [x22].
Proof.
  rewrite json_escape_string_concat. f_equal. f_equal. rewrite guid_hex_concat.
  induction g as [|b g IH]; [done|]. cbn [map concat app].
  pose proof (Z_of_byte_range b) as Hb. unfold in_u in Hb.
  assert (Hl : (0 <= Z.land (Z_of_byte b) 0xf < 16)%Z).
  { change 0xf%Z with (Z.ones 4). rewrite Z.land_ones by lia. apply Z.mod_pos_bound. lia. }
  assert (Hs : (0 <= Z.shiftr (Z_of_byte b) 4 < 16)%Z).
  { rewrite Z.shiftr_div_pow2 by lia. split; [apply Z.div_pos; lia|apply Z.div_lt_upper_bound; lia]. }
  rewrite !hex_digit_plain by done. cbn [app]. by rewrite IH.
Qed.

Ltac element_tac :=
  cbn [render map commas]; rewrite <- ?app_assoc; reflexivity.

Section writing.
Variable service_first : bool.

Lemma dump_names_render names : dump_names names = render (names_doc names).
Proof. unfold dump_names, names_doc. cbn [render]. rewrite comma_loop_commas, map_map, <- app_assoc. done. Qed.

Lemma node_element_render n : node_element n = render (node_doc n).
Proof. unfold node_element, node_doc. element_tac. Qed.
Lemma topic_element_render t : topic_element t = render (topic_doc t).
Proof. unfold topic_element, topic_doc. rewrite !dump_names_render. element_tac. Qed.
Lemma service_element_render t : service_element t = render (service_doc t).
Proof. unfold service_element, service_doc. rewrite !dump_names_render. element_tac. Qed.
Lemma edge_element_render e : edge_element e = render (edge_doc e).
Proof. destruct e as [[[source target] name] service]. unfold edge_element, edge_doc. element_tac. Qed.
Lemma endpoint_element_render e : endpoint_element e = render (endpoint_doc e).
Proof.
  destruct e as [guid [info [node s]]]. unfold endpoint_element, endpoint_doc.
  cbn [render map commas]. rewrite !guid_hex_plain, <- ?app_assoc. reflexivity.
Qed.
Lemma log_element_render l : log_element l = render (log_doc l).
Proof. unfold log_element, log_doc. element_tac. Qed.

Lemma write_snapshot_render s : write_snapshot service_first s = render (snapshot_doc service_first s).
Proof.
  unfold write_snapshot, snapshot_doc. rewrite !comma_loop_commas. cbn [render map commas]. rewrite !map_map.
  rewrite (map_ext _ _ node_element_render), (map_ext _ _ topic_element_render),
    (map_ext _ _ service_element_render), (map_ext _ _ edge_element_render),
    (map_ext _ _ endpoint_element_render), (map_ext _ _ log_element_render).
  rewrite <- ?app_assoc. reflexivity.
Qed.
End writing.

(* ------------------------------------------------------------------ *)
(** * What the snapshot contains *)

Lemma sorted_elem {V} (m : gmap bytes V) k v : (k, v) ∈ sorted m <-> m !! k = Some v.
Proof.
  unfold sorted. rewrite list_elem_of_omap. split.
  - intros (k' & _ & Hk). by destruct (m !! k') eqn:E; simplify_eq/=.
  - intros Hk. exists k. rewrite Hk. split; [|done].
    rewrite merge_sort_Permutation, elem_of_elements. apply elem_of_dom. eauto.
Qed.

Lemma memcmp_leb a : forall b, length a = length b -> bytes_leb a b = (memcmp a b <=? 0)%Z.
Proof.
  induction a as [|x a IH]; intros [|y b] Hl; try done. rewrite bytes_leb_cons. simpl.
  case_decide as Hxy; [by apply IH; injection Hl|].
  assert (Z_of_byte x <> Z_of_byte y) by (intros ?%(inj Z_of_byte); done).
  destruct (Z.ltb_spec (Z_of_byte x) (Z_of_byte y)), (Z.leb_spec (Z_of_byte x - Z_of_byte y) 0); done || lia.
Qed.

(** On GUIDs, the comparisons of the code are the ones of the model: equality,
    and the strict part of the order of [sorted]. *)
Lemma guid_eq_spec a : forall b, length a = length b -> guid_eq a b = bool_decide (a = b).
Proof.
  unfold guid_eq. induction a as [|x a IH]; intros [|y b] Hl; try done. simpl. case_decide as Hxy.
  - subst y. rewrite IH by (by injection Hl). apply bool_decide_ext. naive_solver.
  - rewrite bool_decide_eq_false_2 by naive_solver. apply Z.eqb_neq.
    assert (Z_of_byte x <> Z_of_byte y) by (intros ?%(inj Z_of_byte); done). lia.
Qed.

Lemma GuidLess_spec a b : length a = length b -> GuidLess a b = true <-> bytes_le a b /\ a <> b.
Proof.
  intros Hl. pose proof (guid_eq_spec a b Hl) as He. unfold GuidLess, guid_eq, bytes_le in *.
  rewrite (memcmp_leb a b Hl), Z.ltb_lt, Z.leb_le. destruct (decide (a = b)) as [Hab|Hab].
  - rewrite bool_decide_eq_true_2 in He by done. apply Z.eqb_eq in He. naive_solver lia.
  - rewrite bool_decide_eq_false_2 in He by done. apply Z.eqb_neq in He. naive_solver lia.
Qed.

Lemma sorted_keys {V} (m : gmap bytes V) : map fst (sorted m) = merge_sort bytes_le (elements (dom m)).
Proof.
  unfold sorted. assert (Hd : forall k, k ∈ merge_sort bytes_le (elements (dom m)) -> is_Some (m !! k)).
  { intros k. rewrite merge_sort_Permutation, elem_of_elements. apply elem_of_dom. }
  revert Hd. generalize (merge_sort bytes_le (elements (dom m))). intros l.
  induction l as [|k l IH]; intros Hd; [done|]. destruct (Hd k ltac:(set_solver)) as [v Hv].
  simpl. rewrite Hv. simpl. f_equal. apply IH. set_solver.
Qed.

(** A map keyed by GUIDs is walked in the strict order of [GuidLess], and the walk
    meets exactly its entries. *)
Lemma guid_map_order {V} (m : gmap bytes V) :
  (forall g, g ∈ dom m -> length g = 16) ->
  StronglySorted (fun a b => GuidLess a b = true) (map fst (sorted m)) /\
  forall g v, (g, v) ∈ sorted m <-> m !! g = Some v.
Proof.
  intros Hg. split; [|intros; apply sorted_elem]. rewrite sorted_keys.
  pose proof (StronglySorted_merge_sort bytes_le (elements (dom m))) as Hs.
  assert (Hnd : NoDup (merge_sort bytes_le (elements (dom m)))) by (rewrite merge_sort_Permutation; apply NoDup_elements).
  assert (Hl : forall g, g ∈ merge_sort bytes_le (elements (dom m)) -> length g = 16).
  { intros g. rewrite merge_sort_Permutation, elem_of_elements. apply Hg. }
  revert Hs Hnd Hl. generalize (merge_sort bytes_le (elements (dom m))). intros l Hs Hnd Hl.
  induction Hs as [|a l Hs IH Ha]; [constructor|]. apply list.NoDup_cons in Hnd as [Hna Hnd].
  constructor; [by apply IH; [|set_solver]|]. rewrite list.Forall_forall in Ha |- *. intros b Hb.
  apply GuidLess_spec; [rewrite !Hl by set_solver; done|]. split; [by apply Ha|]. by intros ->.
Qed.

(** [nodes] holds, for every name, the best of the sources that [P] gives it. *)
Definition noted (P : bytes -> Source -> Prop) (nodes : gmap bytes Source) : Prop :=
  forall name, match nodes !! name with
               | Some s => P name s /\ forall s', P name s' -> (rank s' <= rank s)%Z
               | None => forall s, ~ P name s
               end.

Lemma noted_ext (P Q : bytes -> Source -> Prop) nodes :
  (forall n s, P n s <-> Q n s) -> noted P nodes -> noted Q nodes.
Proof.
  intros He Hn name. specialize (Hn name). destruct (nodes !! name) as [s|].
  - destruct Hn as [H1 H2]. split; [by apply He|]. intros s' ?. by apply H2, He.
  - intros s Hq. by apply (Hn s), He.
Qed.

Lemma noted_empty : noted (fun _ _ => False) ∅.
Proof. intros name. rewrite lookup_empty. auto. Qed.

Lemma note_node_noted P name source nodes :
  noted P nodes ->
  noted (fun n s => P n s \/ (n = name /\ s = source)) (note_node name source nodes).
Proof.
  intros Hn n. unfold note_node. pose proof (Hn n) as H1. pose proof (Hn name) as H2.
  assert (Hins : (forall s, P name s -> (rank s <= rank source)%Z) ->
            match <[name := source]> nodes !! n with
            | Some s => (P n s \/ n = name /\ s = source) /\
                (forall s', P n s' \/ n = name /\ s' = source -> (rank s' <= rank s)%Z)
            | None => forall s, ~ (P n s \/ n = name /\ s = source)
            end).
  { intros Hb. destruct (decide (name = n)) as [->|Hne].
    - rewrite lookup_insert_eq. split; [auto|]. intros s' [Hs|[_ ->]]; [by apply Hb|lia].
    - rewrite lookup_insert_ne by done. destruct (nodes !! n) as [s|].
      + destruct H1 as [? Hm]. split; [auto|]. intros s' [?|[? _]]; [by apply Hm|congruence].
      + intros s [?|[? _]]; [by apply (H1 s)|congruence]. }
  destruct (nodes !! name) as [s|] eqn:E.
  - destruct H2 as [H2 H3]. destruct (Z.ltb_spec (rank s) (rank source)).
    + apply Hins. intros s' Hs'. specialize (H3 s' Hs'). lia.
    + destruct (nodes !! n) as [s'|] eqn:E'.
      * destruct H1 as [? Hm]. split; [auto|]. intros s2 [?|[-> ->]]; [by apply Hm|].
        rewrite E in E'. injection E' as <-. lia.
      * intros s2 [?|[-> _]]; [by apply (H1 s2)|congruence].
  - apply Hins. intros s' Hs'. by destruct (H2 s').
Qed.

(** The sources of a name: endpoints, discovery entries, participants. *)
Definition from_endpoint (m : Maps) (self_guid name : bytes) (s : Source) : Prop :=
  exists guid info, endpoints m !! guid = Some info /\ participant info <> self_guid /\
    resolve_node m (participant info) guid = Ok (name, s).
Definition from_discovery (m : Maps) (self_guid name : bytes) (s : Source) : Prop :=
  s = SDiscovery /\ exists guid info i, discovery m !! guid = Some info /\ guid <> self_guid /\
    i ∈ node_entities_info_seq info /\ make_fq_node_name (node_namespace i) (node_name i) = Ok name.
Definition from_participant (m : Maps) (self_guid name : bytes) (s : Source) : Prop :=
  s = SUserData /\ name <> [] /\ exists guid, participants m !! guid = Some name /\ guid <> self_guid.

Definition is_live (m : Maps) (self_guid guid : bytes) (info : EndpointInfo) (owner : bytes * Source) : Prop :=
  endpoints m !! guid = Some info /\ participant info <> self_guid /\
  resolve_node m (participant info) guid = Ok owner.

Lemma note_endpoints_spec m self_guid es : forall nodes live nodes' P,
  note_endpoints m self_guid es nodes = Ok (live, nodes') -> noted P nodes ->
  noted (fun n s => P n s \/ exists guid info, (guid, info) ∈ es /\ participant info <> self_guid /\
           resolve_node m (participant info) guid = Ok (n, s)) nodes' /\
  (forall guid info owner, (guid, (info, owner)) ∈ live <->
     (guid, info) ∈ es /\ participant info <> self_guid /\ resolve_node m (participant info) guid = Ok owner).
Proof.
  induction es as [|[g i] es IH]; intros nodes live nodes' P E Hn; simpl in E.
  - injection E as <- <-. split; [|set_solver]. eapply noted_ext; [|exact Hn]. set_solver.
  - case_decide as Hs.
    + destruct (IH _ _ _ _ E Hn) as [H1 H2]. split.
      * eapply noted_ext; [|exact H1]. intros n s. simpl. set_solver.
      * intros guid info owner. rewrite H2. set_solver.
    + inv_ok E. inv_ok E. destruct a as [name src], a0 as [live0 nodes0]. injection E as <- <-. simpl in *.
      destruct (IH _ _ _ _ Hm0 (note_node_noted _ name src _ Hn)) as [H1 H2]. split.
      * eapply noted_ext; [|exact H1]. intros n s. simpl. split.
        -- intros [[?|[-> ->]]|(guid & info & ? & ? & ?)]; [by left|right; exists g, i; set_solver|].
           right. exists guid, info. set_solver.
        -- intros [?|(guid & info & [[= -> ->]|?]%elem_of_cons & ? & Hr)]; [by auto| |right; eauto].
           rewrite Hm in Hr. injection Hr as -> ->. auto.
      * intros guid info owner. split.
        -- intros [[= -> -> ->]|[? ?]%H2]%elem_of_cons; set_solver.
        -- intros ([[= -> ->]|?]%elem_of_cons & ? & Hr); apply elem_of_cons; [left|right; by apply H2].
           rewrite Hm in Hr. by injection Hr as <-.
Qed.

Lemma note_infos_spec infos : forall nodes nodes' P,
  note_infos infos nodes = Ok nodes' -> noted P nodes ->
  noted (fun n s => P n s \/ (s = SDiscovery /\ exists i, i ∈ infos /\
           make_fq_node_name (node_namespace i) (node_name i) = Ok n)) nodes'.
Proof.
  induction infos as [|i infos IH]; intros nodes nodes' P E Hn; simpl in E.
  - injection E as <-. eapply noted_ext; [|exact Hn]. set_solver.
  - inv_ok E. eapply noted_ext; [|exact (IH _ _ _ E (note_node_noted _ a SDiscovery _ Hn))].
    intros n s. simpl. split.
    + intros [[?|[-> ->]]|(? & j & ? & ?)]; [by left|right; set_solver|right; set_solver].
    + intros [?|(-> & j & [->|?]%elem_of_cons & Hj)]; [by auto| |right; set_solver].
      rewrite Hm in Hj. injection Hj as ->. auto.
Qed.

Lemma note_discovery_spec self_guid ds : forall nodes nodes' P,
  note_discovery self_guid ds nodes = Ok nodes' -> noted P nodes ->
  noted (fun n s => P n s \/ (s = SDiscovery /\ exists guid info i, (guid, info) ∈ ds /\ guid <> self_guid /\
           i ∈ node_entities_info_seq info /\ make_fq_node_name (node_namespace i) (node_name i) = Ok n)) nodes'.
Proof.
  induction ds as [|[g d] ds IH]; intros nodes nodes' P E Hn; simpl in E.
  - injection E as <-. eapply noted_ext; [|exact Hn]. set_solver.
  - case_decide as Hs.
    + eapply noted_ext; [|exact (IH _ _ _ E Hn)]. intros n s. simpl. set_solver.
    + inv_ok E. eapply noted_ext; [|exact (IH _ _ _ E (note_infos_spec _ _ _ _ Hm Hn))].
      intros n s. simpl. split.
      * intros [[?|(-> & i & ? & ?)]|(-> & g' & d' & i & ? & ? & ? & ?)]; [by left|..]; right.
        -- split; [done|]. exists g, d, i. set_solver.
        -- split; [done|]. exists g', d', i. set_solver.
      * intros [?|(-> & g' & d' & i & [[= -> ->]|?]%elem_of_cons & ? & ? & ?)]; [by auto|..].
        -- left. right. eauto.
        -- right. split; [done|]. exists g', d', i. done.
Qed.

Lemma note_participants_spec self_guid ps : forall nodes P,
  noted P nodes ->
  noted (fun n s => P n s \/ (s = SUserData /\ n <> [] /\ exists guid, (guid, n) ∈ ps /\ guid <> self_guid))
    (note_participants self_guid ps nodes).
Proof.
  unfold note_participants. induction ps as [|[g e] ps IH]; intros nodes P Hn; simpl.
  - eapply noted_ext; [|exact Hn]. set_solver.
  - do 2 case_bool_decide; simpl; subst.
    1-3: eapply noted_ext; [|exact (IH _ _ Hn)]; intros n s; simpl; set_solver.
    eapply noted_ext; [|exact (IH _ _ (note_node_noted _ e SUserData _ Hn))]. intros n s. simpl. split.
    + intros [[?|[-> ->]]|(-> & ? & g' & ? & ?)]; [by left|..]; right; (split; [done|]; split; [done|]);
        [exists g|exists g']; set_solver.
    + intros [?|(-> & ? & g' & [[= -> ->]|?]%elem_of_cons & ?)]; [by auto|by auto|].
      right. split; [done|]. split; [done|]. by exists g'.
Qed.

Lemma cross_elem ws rs name k e :
  e ∈ cross ws rs name k <-> exists w r, w ∈ ws /\ r ∈ rs /\ e = (w, r, name, k).
Proof.
  unfold cross. rewrite elem_of_list_to_set, list_elem_of_In, in_flat_map. split.
  - intros (w & Hw & He). apply in_map_iff in He as (r & <- & Hr).
    apply list_elem_of_In, elem_of_elements in Hw, Hr. by exists w, r.
  - intros (w & r & Hw & Hr & ->). exists w.
    split; [by apply list_elem_of_In, elem_of_elements|].
    apply in_map_iff. exists r. split; [done|]. by apply list_elem_of_In, elem_of_elements.
Qed.

Lemma edges_of_elem ts e : e ∈ edges_of ts <-> exists t agg, (t, agg) ∈ ts /\ e ∈ edges_of_topic t agg.
Proof.
  unfold edges_of.
  assert (Hg : forall ts es, e ∈ foldl (fun es t => es ∪ edges_of_topic (fst t) (snd t)) es ts <->
            e ∈ es \/ exists t agg, (t, agg) ∈ ts /\ e ∈ edges_of_topic t agg).
  { induction ts0 as [|[t agg] ts0 IH]; intros es; simpl.
    - split; [auto|]. intros [?|(? & ? & []%not_elem_of_nil & _)]; done.
    - rewrite IH, elem_of_union. simpl. split.
      + intros [[?|?]|(t' & agg' & ? & ?)]; [by left|right; exists t, agg; by rewrite elem_of_cons; auto|].
        right. exists t', agg'. rewrite elem_of_cons. auto.
      + intros [?|(t' & agg' & [[= -> ->]|?]%elem_of_cons & ?)]; eauto 10. }
  rewrite Hg. split; [intros [?%not_elem_of_empty|?]; done|auto].
Qed.

(** The live endpoint [e] of topic [t] on node [node]. *)
Definition endpoint_on (live : list live_endpoint) (t node : bytes) (is_writer : bool) : Prop :=
  exists guid info s, (guid, (info, (node, s))) ∈ live /\ topic info = t /\ writer info = is_writer.

Lemma aggregate_spec live t :
  (forall agg, aggregate live !! t = Some agg ->
     (forall node, node ∈ writers agg <-> endpoint_on live t node true) /\
     (forall node, node ∈ readers agg <-> endpoint_on live t node false) /\
     exists guid info o, (guid, (info, o)) ∈ live /\ topic info = t /\ agg_type agg = type info) /\
  (aggregate live !! t = None -> forall node b, ~ endpoint_on live t node b).
Proof.
  unfold aggregate. induction live as [|[guid [info [node s]]] live IH] using rev_ind.
  { split; [done|]. intros _ node b (? & ? & ? & []%not_elem_of_nil & _). }
  rewrite foldl_app. cbn [foldl]. set (ts := foldl add_endpoint ∅ live) in *. destruct IH as [IH1 IH2].
  assert (Hon : forall n b, endpoint_on (live ++ [(guid, (info, (node, s)))]) t n b <->
            endpoint_on live t n b \/ (topic info = t /\ writer info = b /\ n = node)).
  { intros n b. unfold endpoint_on. split.
    - intros (g & i & s' & [?|[= -> -> -> ->]%list_elem_of_singleton]%elem_of_app & ? & ?); [left; eauto 10|auto].
    - intros [(g & i & s' & ? & ? & ?)|(? & ? & ->)]; [exists g, i, s'|exists guid, info, s];
        rewrite elem_of_app, list_elem_of_singleton; auto. }
  unfold add_endpoint. destruct (decide (topic info = t)) as [Ht|Ht].
  - rewrite Ht, lookup_insert_eq. split; [|done]. intros agg [= <-].
    assert (Hold : (forall n, n ∈ writers (default (mk_agg [] ∅ ∅) (ts !! t)) <-> endpoint_on live t n true) /\
                   (forall n, n ∈ readers (default (mk_agg [] ∅ ∅) (ts !! t)) <-> endpoint_on live t n false)).
    { destruct (ts !! t) as [agg|]; simpl.
      - destruct (IH1 agg eq_refl) as (? & ? & _). done.
      - split; intros n; (split; [by intros ?%not_elem_of_empty|by intros ?%(IH2 eq_refl)]). }
    destruct Hold as [Hw Hr]. split_and!.
    + intros n. rewrite Hon. destruct (writer info); simpl; rewrite ?elem_of_union, ?elem_of_singleton, Hw; naive_solver.
    + intros n. rewrite Hon. destruct (writer info); simpl; rewrite ?elem_of_union, ?elem_of_singleton, Hr; naive_solver.
    + exists guid, info, (node, s). rewrite elem_of_app, list_elem_of_singleton. by destruct (writer info); auto.
  - rewrite lookup_insert_ne by done. split.
    + intros agg Ha. destruct (IH1 agg Ha) as (Hw & Hr & (g & i & o & ? & ? & ?)). split_and!.
      * intros n. rewrite Hw, Hon. naive_solver.
      * intros n. rewrite Hr, Hon. naive_solver.
      * exists g, i, o. rewrite elem_of_app. auto.
    + intros Hn n b [?%(IH2 Hn)|[? _]]%Hon; done.
Qed.

(** What the edges say: [w] sends to [r] under the ROS name [name]. *)
Definition flows (m : Maps) (self_guid w r name : bytes) (service : bool) : Prop :=
  exists t, is_plumbing_topic t = false /\
    (if service then is_request_topic t = true /\ name = service_of t
     else is_data_topic t = true /\ name = topic_of t) /\
    (exists guid info s, is_live m self_guid guid info (w, s) /\ topic info = t /\ writer info = true) /\
    (exists guid info s, is_live m self_guid guid info (r, s) /\ topic info = t /\ writer info = false).

Lemma request_not_data t : is_request_topic t = true -> is_data_topic t = false.
Proof.
  unfold is_request_topic, is_data_topic. rewrite !andb_true_iff.
  intros [[[q ->]%starts_with_spec _] _]. done.
Qed.

Lemma edges_flow m self_guid live w r name k :
  (forall guid info owner, (guid, (info, owner)) ∈ live <-> is_live m self_guid guid info owner) ->
  (w, r, name, k) ∈ edges_of (sorted (aggregate live)) <-> flows m self_guid w r name k.
Proof.
  intros Hl. rewrite edges_of_elem.
  assert (Hon : forall t n b, endpoint_on live t n b <->
            exists guid info s, is_live m self_guid guid info (n, s) /\ topic info = t /\ writer info = b).
  { intros t n b. unfold endpoint_on. by setoid_rewrite Hl. }
  split.
  - intros (t & agg & Ha%sorted_elem & He). destruct (proj1 (aggregate_spec live t) agg Ha) as (Hw & Hr & _).
    unfold edges_of_topic in He. destruct (is_plumbing_topic t) eqn:Ep; [by apply not_elem_of_empty in He|].
    exists t. split; [done|]. setoid_rewrite <- Hon. setoid_rewrite <- Hw. setoid_rewrite <- Hr.
    destruct (is_request_topic t) eqn:Eq; [|destruct (is_data_topic t) eqn:Ed; [|by apply not_elem_of_empty in He]];
      apply cross_elem in He as (w' & r' & ? & ? & [= -> -> -> ->]); done.
  - intros (t & Hp & Hk & Hw & Hr). apply Hon in Hw, Hr.
    destruct (aggregate live !! t) as [agg|] eqn:Ea; [|by destruct (proj2 (aggregate_spec live t) Ea w true)].
    destruct (proj1 (aggregate_spec live t) agg Ea) as (Hw' & Hr' & _). apply Hw' in Hw. apply Hr' in Hr.
    exists t, agg. split; [by apply sorted_elem|]. unfold edges_of_topic. rewrite Hp.
    destruct k, Hk as [Hk ->]; [rewrite Hk|].
    + apply cross_elem. eauto.
    + destruct (is_request_topic t) eqn:Eq; [apply request_not_data in Eq; congruence|]. rewrite Hk.
      apply cross_elem. eauto.
Qed.

(* ------------------------------------------------------------------ *)
(** * The snapshot is faithful *)

Definition sources (m : Maps) (self_guid name : bytes) (s : Source) : Prop :=
  from_endpoint m self_guid name s \/ from_discovery m self_guid name s \/ from_participant m self_guid name s.

(** Every node announced over ros_discovery_info has a valid name. *)
Definition names_valid (m : Maps) : Prop :=
  forall guid info i, discovery m !! guid = Some info -> i ∈ node_entities_info_seq info ->
    exists name, make_fq_node_name (node_namespace i) (node_name i) = Ok name.

Lemma resolve_node_Ok m part ep : names_valid m -> exists owner, resolve_node m part ep = Ok owner.
Proof.
  intros Hv. unfold resolve_node. destruct (discovery m !! part) as [info|] eqn:Ed; simpl.
  - unfold node_owning. destruct (List.find _ _) as [i|] eqn:Ef.
    + apply List.find_some in Ef as [Hin _]. apply list_elem_of_In in Hin.
      destruct (Hv part info i Ed Hin) as [name ->]. simpl. eauto.
    + destruct (participants m !! part) as [[|c e]|]; eauto.
  - destruct (participants m !! part) as [[|c e]|]; eauto.
Qed.

Lemma note_endpoints_Ok m self_guid es : forall nodes,
  names_valid m -> exists r, note_endpoints m self_guid es nodes = Ok r.
Proof.
  induction es as [|[g i] es IH]; intros nodes Hv; simpl; [eauto|].
  case_decide; [by apply IH|]. destruct (resolve_node_Ok m (participant i) g Hv) as [o ->]. simpl.
  destruct (IH (note_node (fst o) (snd o) nodes) Hv) as [r ->]. simpl. eauto.
Qed.

Lemma note_infos_Ok infos : forall nodes,
  (forall i, i ∈ infos -> exists name, make_fq_node_name (node_namespace i) (node_name i) = Ok name) ->
  exists r, note_infos infos nodes = Ok r.
Proof.
  induction infos as [|i infos IH]; intros nodes Hv; simpl; [eauto|].
  destruct (Hv i) as [n ->]; [set_solver|]. simpl. apply IH. set_solver.
Qed.

Lemma note_discovery_Ok self_guid ds : forall nodes,
  (forall g d i, (g, d) ∈ ds -> i ∈ node_entities_info_seq d ->
     exists name, make_fq_node_name (node_namespace i) (node_name i) = Ok name) ->
  exists r, note_discovery self_guid ds nodes = Ok r.
Proof.
  induction ds as [|[g d] ds IH]; intros nodes Hv; simpl; [eauto|].
  case_decide; [apply IH; set_solver|].
  destruct (note_infos_Ok (node_entities_info_seq d) nodes) as [r ->]; [intros i Hi; apply (Hv g d); set_solver|].
  simpl. apply IH. set_solver.
Qed.

Lemma snapshot_Ok m self_guid : names_valid m -> exists s, snapshot m self_guid = Ok s.
Proof.
  intros Hv. unfold snapshot.
  destruct (note_endpoints_Ok m self_guid (sorted (endpoints m)) ∅ Hv) as [[live nodes] ->]. simpl.
  destruct (note_discovery_Ok self_guid (sorted (discovery m)) nodes) as [r ->]; [|simpl; eauto].
  intros g d i Hd%sorted_elem. by apply (Hv g d).
Qed.

Lemma snapshot_spec m self_guid s :
  snapshot m self_guid = Ok s ->
  (forall guid info owner, (guid, (info, owner)) ∈ s_live s <-> is_live m self_guid guid info owner) /\
  noted (sources m self_guid) (s_nodes s) /\ s_topics s = aggregate (s_live s) /\
  s_edges s = edges_of (sorted (aggregate (s_live s))) /\ s_logs s = logs m.
Proof.
  unfold snapshot. intros E. inv_ok E. destruct a as [live nodes]. inv_ok E. injection E as <-. simpl.
  destruct (note_endpoints_spec _ _ _ _ _ _ _ Hm noted_empty) as [H1 H2].
  split_and!; [|eapply noted_ext; [|exact (note_participants_spec _ _ _ _ (note_discovery_spec _ _ _ _ _ Hm0 H1))]|done..].
  - intros guid info owner. rewrite H2, sorted_elem. done.
  - intros n src. unfold sources, from_endpoint, from_discovery, from_participant. simpl.
    setoid_rewrite sorted_elem. naive_solver.
Qed.

Lemma rank_inj s1 s2 : rank s1 = rank s2 -> s1 = s2.
Proof. by destruct s1, s2. Qed.

(** C34: when every announced node name is valid, a snapshot is produced and is
    JSON that reads back as the document it was written from; that document
    lists exactly the endpoints of other participants, each with the node it
    resolves to; a node is listed exactly when an endpoint, a discovery entry or
    a participant's user data names it, with its best source; and there is an
    edge exactly where a writer and a reader of the same topic (or of the same
    request topic) meet outside the plumbing topics. *)
Theorem snapshot_faithful (service_first : bool) (m : Maps) (self_guid : bytes) :
  names_valid m ->
  exists s out, snapshot_json service_first m self_guid = Ok out /\
    json_parse out = Some (snapshot_doc service_first s) /\
    (forall guid info owner, (guid, (info, owner)) ∈ s_live s <-> is_live m self_guid guid info owner) /\
    (forall name src, s_nodes s !! name = Some src <->
       sources m self_guid name src /\ forall src', sources m self_guid name src' -> (rank src' <= rank src)%Z) /\
    (forall w r name service, (w, r, name, service) ∈ s_edges s <-> flows m self_guid w r name service) /\
    s_logs s = logs m.
Proof.
  intros Hv. destruct (snapshot_Ok m self_guid Hv) as [s Es].
  destruct (snapshot_spec m self_guid s Es) as (H1 & H2 & _ & H4 & H5).
  exists s, (write_snapshot service_first s). split_and!; [|..|done].
  - unfold snapshot_json. by rewrite Es.
  - rewrite write_snapshot_render. apply json_parse_render.
  - exact H1.
  - intros name src. specialize (H2 name). split.
    + intros E. by rewrite E in H2.
    + intros [Hs Hb]. destruct (s_nodes s !! name) as [src0|] eqn:E; [|by destruct (H2 src)].
      destruct H2 as [Hs0 Hb0]. f_equal. apply rank_inj. specialize (Hb src0 Hs0). specialize (Hb0 src Hs). lia.
  - intros w r name k. rewrite H4. by apply edges_flow.
Qed.

(** Everything the snapshot computes succeeds or throws InvalidArguments. *)
Definition ok_or_invalid {A} (o : outcome A) : Prop := (exists a, o = Ok a) \/ o = Throw InvalidArguments.

Lemma ok_or_invalid_bind {A B} (f : A -> outcome B) (o : outcome A) :
  ok_or_invalid o -> (forall a, ok_or_invalid (f a)) -> ok_or_invalid (mbind f o).
Proof. intros [[a ->]| ->] Hf; [apply Hf|by right]. Qed.

Lemma fq_ok_or_invalid ns n : ok_or_invalid (make_fq_node_name ns n).
Proof. unfold ok_or_invalid, make_fq_node_name. repeat case_match; eauto. Qed.

Lemma ok_is_ok_or_invalid {A} (a : A) : ok_or_invalid (Ok a).
Proof. left. eauto. Qed.

#[local] Hint Resolve ok_or_invalid_bind fq_ok_or_invalid ok_is_ok_or_invalid : core.

Lemma note_endpoints_ok_or_invalid m self_guid es : forall nodes, ok_or_invalid (note_endpoints m self_guid es nodes).
Proof.
  induction es as [|[g e] es IH]; intros nodes; simpl; [auto|]. case_decide; [auto|].
  apply ok_or_invalid_bind; [|auto]. unfold resolve_node. repeat case_match; auto.
Qed.

Lemma note_infos_ok_or_invalid infos : forall nodes, ok_or_invalid (note_infos infos nodes).
Proof. induction infos as [|i infos IH]; intros nodes; simpl; auto. Qed.

Lemma note_discovery_ok_or_invalid self_guid ds : forall nodes, ok_or_invalid (note_discovery self_guid ds nodes).
Proof.
  induction ds as [|[g d] ds IH]; intros nodes; simpl; [auto|]. case_decide; [auto|].
  apply ok_or_invalid_bind; [apply note_infos_ok_or_invalid|auto].
Qed.

Lemma note_infos_names infos i : forall nodes r,
  note_infos infos nodes = Ok r -> i ∈ infos -> is_Ok (make_fq_node_name (node_namespace i) (node_name i)).
Proof.
  induction infos as [|j infos IH]; intros nodes r E Hi; [by apply not_elem_of_nil in Hi|].
  simpl in E. inv_ok E. apply elem_of_cons in Hi as [->|Hi]; [by rewrite Hm|by eapply IH].
Qed.

Lemma note_discovery_names self_guid ds guid info i : forall nodes r,
  note_discovery self_guid ds nodes = Ok r -> (guid, info) ∈ ds -> guid <> self_guid ->
  i ∈ node_entities_info_seq info -> is_Ok (make_fq_node_name (node_namespace i) (node_name i)).
Proof.
  induction ds as [|[g d] ds IH]; intros nodes r E Hin Hg Hi; [by apply not_elem_of_nil in Hin|].
  simpl in E. apply elem_of_cons in Hin as [[= <- <-]|Hin].
  - rewrite decide_False in E by done. inv_ok E. by eapply note_infos_names.
  - case_decide; [by eapply IH|]. inv_ok E. by eapply IH.
Qed.

(** A single announced node with an invalid name, of whatever participant,
    makes every snapshot throw until the participant departs or announces
    itself anew. *)
Theorem snapshot_poisoned (service_first : bool) (m : Maps) (self_guid guid : bytes)
    (info : ParticipantEntitiesInfo) (i : NodeEntitiesInfo) :
  discovery m !! guid = Some info -> guid <> self_guid -> i ∈ node_entities_info_seq info ->
  ~ is_Ok (make_fq_node_name (node_namespace i) (node_name i)) ->
  snapshot_json service_first m self_guid = Throw InvalidArguments.
Proof.
  intros Hd Hg Hi Hbad. unfold snapshot_json, snapshot.
  destruct (note_endpoints_ok_or_invalid m self_guid (sorted (endpoints m)) ∅) as [[[live nodes] ->]| ->]; [|done].
  simpl. destruct (note_discovery_ok_or_invalid self_guid (sorted (discovery m)) nodes) as [[r Er]| ->]; [|done].
  destruct Hbad. eapply note_discovery_names; [exact Er|by apply sorted_elem|done|done].
Qed.
