(* ===== verification/GraphRun.v ===== *)
(** The poll thread of Graph.v at work: how a batch of participant samples
    changes the discovery state, the ring of log records, what a malformed
    sample does to the thread; and the witnesses of the graph theorems, on the
    readers of the test double. *)
From Stdlib Require Import ZArith Lia Strings.Byte.
From stdpp Require Import base tactics list numbers gmap fin_maps sorting sets.
From S2P Require Import Prelude Bytes Cdr Message Names RawSerdata DdsConfig Dds MockDds Json Graph.

(* ------------------------------------------------------------------ *)
(** * The poll thread keeps the state *)

(** The last sample of [k] in a batch. *)
Definition last_sample (k : bytes) (l : list participant_sample) : option participant_sample :=
  last (filter (fun s => p_key s = k) l).

Lemma last_sample_snoc k l s :
  last_sample k (l ++ [s]) = if decide (p_key s = k) then Some s else last_sample k l.
Proof.
  unfold last_sample. rewrite filter_app. case_decide as Hk.
  - rewrite filter_cons_True by done. by rewrite filter_nil, last_snoc.
  - rewrite filter_cons_False by done. by rewrite filter_nil, app_nil_r.
Qed.

Lemma on_participant_logs l m : logs (foldl on_participant m l) = logs m.
Proof.
  revert m. induction l as [|s l IH]; intros m; simpl; [done|]. rewrite IH.
  unfold on_participant. by destruct (p_alive s).
Qed.

(** The user data a participant of this library announces. *)
Lemma parse_enclave_user_data enclave :
  x3b ∉ enclave -> parse_enclave (participant_user_data enclave) = enclave.
Proof.
  intros He. unfold parse_enclave, participant_user_data.
  assert (Hf : find_sub (lit "enclave=") (lit "enclave=" ++ enclave ++ lit ";") = Some 0).
  { by cbn [find_sub app lit]. }
  rewrite Hf. change (0 + length (lit "enclave=")) with (length (lit "enclave=")).
  unfold find_char_from, substr. rewrite drop_app_length.
  pose proof (find_char_aux_spec x3b (enclave ++ lit ";") (length (lit "enclave="))) as Hs.
  destruct (find_char_aux x3b (enclave ++ lit ";") (length (lit "enclave="))) as [j|].
  - destruct Hs as (p & q & E & Hp & ->). rewrite Nat.add_comm, Nat.add_sub.
    assert (p = enclave) as ->; [|by rewrite take_app_length].
    change (lit ";") with [x3b] in E.
    pose proof (find_char_app x3b p q Hp) as H1. rewrite <- E in H1.
    rewrite (find_char_app x3b enclave [] He) in H1. injection H1 as H1.
    by apply app_inj_1 in E as [-> _].
  - destruct Hs. apply elem_of_app. right. by apply list_elem_of_singleton.
Qed.

(** What a batch of participant samples does to the discovery state: for
    every participant the last sample counts.  If it is alive the participant is
    known by the enclave of its user data, which for the user data this library
    writes is the node's name (without a semicolon); if not, the participant,
    its discovery entry and its endpoints are gone; and whatever belongs to a
    participant without a sample is as before. *)
Theorem participant_batch (l : list participant_sample) (m : Maps) (k : bytes) :
  let m' := poll_participants (Z.of_nat (length l), l) m in
  match last_sample k l with
  | None => participants m' !! k = participants m !! k /\ discovery m' !! k = discovery m !! k
  | Some s =>
      if p_alive s then
        participants m' !! k = Some (match p_userdata s with Some v => parse_enclave v | None => [] end) /\
        forall enclave, x3b ∉ enclave -> p_userdata s = Some (participant_user_data enclave) ->
          participants m' !! k = Some enclave
      else participants m' !! k = None /\ discovery m' !! k = None /\
        forall e info, endpoints m' !! e = Some info -> participant info <> k
  end /\
  (forall e info, endpoints m' !! e = Some info -> endpoints m !! e = Some info) /\
  (forall e info, endpoints m !! e = Some info -> last_sample (participant info) l = None ->
     endpoints m' !! e = Some info) /\
  logs m' = logs m.
Proof.
  assert (Hp : poll_participants (Z.of_nat (length l), l) m = foldl on_participant m l).
  { unfold poll_participants. destruct l; [done|]. simpl fst. by rewrite (proj2 (Z.leb_gt _ 0)) by (simpl; lia). }
  cbn zeta. rewrite Hp. clear Hp.
  induction l as [|s l IH] using rev_ind; [done|]. rewrite foldl_app, last_sample_snoc. cbn [foldl].
  set (m1 := foldl on_participant m l) in *. destruct IH as (IH1 & IH2 & IH3 & IH4).
  unfold on_participant. destruct (p_alive s) eqn:Ea; simpl; (split; [|split_and!; [| |done]]).
  - case_decide as Hk.
    + subst k. rewrite Ea, lookup_insert_eq. split; [done|]. intros enclave He ->. by rewrite parse_enclave_user_data.
    + rewrite lookup_insert_ne by done. exact IH1.
  - exact IH2.
  - intros e info He. rewrite last_sample_snoc. case_decide; [done|]. by apply IH3.
  - case_decide as Hk.
    + subst k. rewrite Ea, !lookup_delete_eq. split_and!; [done|done|].
      intros e info [_ He]%map_lookup_filter_Some. exact He.
    + rewrite !lookup_delete_ne by done. destruct (last_sample k l) as [s'|]; [|exact IH1].
      destruct (p_alive s'); [exact IH1|]. destruct IH1 as (? & ? & Hep). split_and!; [done|done|].
      intros e info [He _]%map_lookup_filter_Some. by apply (Hep e).
  - intros e info [He _]%map_lookup_filter_Some. by apply IH2.
  - intros e info He. rewrite last_sample_snoc. case_decide as Hk; [done|]. intros Hl.
    apply map_lookup_filter_Some. split; [by apply IH3|]. simpl. congruence.
Qed.

(* ------------------------------------------------------------------ *)
(** * The log ring and malformed samples *)

Lemma pop_excess_drop l : pop_excess l = drop (length l - kMaxLogs) l.
Proof.
  induction l as [|r l IH]; [done|]. cbn [pop_excess].
  destruct (Nat.ltb_spec kMaxLogs (length (r :: l))) as [Hl|Hl].
  - rewrite IH. simpl length in *. by replace (S (length l) - kMaxLogs) with (S (length l - kMaxLogs)) by lia.
  - by replace (length (r :: l) - kMaxLogs) with 0 by lia.
Qed.

Lemma pop_excess_app l k : pop_excess (pop_excess l ++ k) = pop_excess (l ++ k).
Proof.
  rewrite !pop_excess_drop, !length_app, length_drop.
  destruct (decide (length l <= kMaxLogs)) as [Hl|Hl].
  - replace (length l - kMaxLogs) with 0 by lia. by rewrite drop_0, Nat.sub_0_r.
  - replace (length l - (length l - kMaxLogs) + length k - kMaxLogs) with (length k) by lia.
    rewrite <- drop_app_le by lia. rewrite drop_drop. f_equal. lia.
Qed.

Section thread_facts.
Context {D R : Type} `{GraphDds D} `{DdsReaderLaws R} `{Message ParticipantEntitiesInfo, Message Log}.

(** The samples decode to the records. *)
Definition decodes_to (x : sample) (r : Log) : Prop :=
  valid_data (snd x) = true /\
  exists st, decode_payload (M := Log) (raw_serdata_payload (fst x)) = Ok (Some r, st).

Lemma on_rosout_all xs records : forall m,
  Forall2 decodes_to xs records ->
  st_iter (deliver on_rosout) xs m =
    (Ok tt, mk_maps (participants m) (endpoints m) (discovery m)
              (match records with [] => logs m | _ => pop_excess (logs m ++ records) end)).
Proof.
  intros m Hf. revert m. induction Hf as [|x r xs records [Hv [st Hd]] Hf IH]; intros m; [by destruct m|].
  cbn [st_iter].
  assert (Hone : deliver on_rosout x m =
            (Ok tt, mk_maps (participants m) (endpoints m) (discovery m) (pop_excess (logs m ++ [r])))).
  { unfold deliver, on_rosout, mbind, stM_bind, st_lift. by rewrite Hv, Hd. }
  rewrite (st_bind_Ok _ _ _ _ _ Hone), IH. do 2 f_equal. simpl.
  destruct records as [|r2 records]; [done|]. by rewrite pop_excess_app, <- app_assoc.
Qed.
End thread_facts.

(** C35: polling rosout empties its reader and appends the decoded records to
    the ring in order, keeping the last 512; nothing else changes. *)
Theorem rosout_ring {D R} `{GraphDds D} `{DdsReaderLaws R} `{Message ParticipantEntitiesInfo, Message Log}
    (fuel : nat) (s : Monitor D R) (records : list Log) :
  reader_ok (rosout_rd s) -> length (pending (rosout_rd s)) / 16 < fuel ->
  Forall2 decodes_to (pending (rosout_rd s)) records -> length (logs (maps s)) <= kMaxLogs ->
  exists s', poll_rosout fuel s = (Ok (Some (Z.of_nat (length records))), s') /\
    pending (rosout_rd s') = [] /\ dds s' = dds s /\ discovery_rd s' = discovery_rd s /\
    participants (maps s') = participants (maps s) /\ endpoints (maps s') = endpoints (maps s) /\
    discovery (maps s') = discovery (maps s) /\ length (logs (maps s')) <= kMaxLogs /\
    logs (maps s') = drop (length (logs (maps s) ++ records) - kMaxLogs) (logs (maps s) ++ records).
Proof.
  intros Hr Hf Hd Hl.
  destruct (Reader_take_all on_rosout fuel 0 (mk_taking (rosout_rd s) (maps s) (graph_unrefs s)) _ Hr Hf
              (on_rosout_all _ _ (maps s) Hd)) as (r' & E & Hp & _).
  unfold poll_rosout. rewrite E. simpl in *. pose proof (Forall2_length _ _ _ Hd) as Hlen.
  eexists. split; [by rewrite Hlen, Z.add_0_l|]. simpl.
  assert (Hlogs : match records with [] => logs (maps s) | _ => pop_excess (logs (maps s) ++ records) end =
            drop (length (logs (maps s) ++ records) - kMaxLogs) (logs (maps s) ++ records)).
  { destruct records as [|r records]; [|apply pop_excess_drop].
    rewrite app_nil_r. by replace (length (logs (maps s)) - kMaxLogs) with 0 by lia. }
  rewrite Hlogs. split_and!; try done. rewrite length_drop. lia.
Qed.

(** C36: the poll thread does not survive a malformed sample: when a sample of
    ros_discovery_info or rosout makes the decoder throw, as every truncated one
    does, the exception leaves the function of the thread, which ends the
    process. *)
Theorem malformed_sample_ends_thread {D R} `{GraphDds D} `{DdsReaderLaws R}
    `{Message ParticipantEntitiesInfo, Message Log} (fuel rounds : nat) (s : Monitor D R)
    (slot : Z) (rest : list Z) (n : Z) (d' : D) (l1 l2 : list sample) (x : sample) (m1 : Maps) (e : exn) :
  graph_running (dds s) = true -> graph_wait (dds s) = ((n, slot :: rest), d') -> (0 < n)%Z ->
  (slot = kDiscoverySlot /\ pending (discovery_rd s) = l1 ++ x :: l2 /\ reader_ok (discovery_rd s) /\
     st_iter (deliver on_discovery) l1 (maps s) = (Ok tt, m1) /\
     decode_payload (M := ParticipantEntitiesInfo) (raw_serdata_payload (fst x)) = Throw e) \/
  (slot = kRosoutSlot /\ pending (rosout_rd s) = l1 ++ x :: l2 /\ reader_ok (rosout_rd s) /\
     st_iter (deliver on_rosout) l1 (maps s) = (Ok tt, m1) /\
     decode_payload (M := Log) (raw_serdata_payload (fst x)) = Throw e) ->
  valid_data (snd x) = true -> length l1 / 16 < fuel ->
  fst (run fuel (S rounds) s) = Throw e.
Proof.
  intros Hrun Hwait Hn Hslot Hv Hf. cbn [run].
  rewrite (st_bind_Ok _ _ _ _ _ (eq_refl : st_get s = (Ok s, s))). rewrite Hrun. cbn [negb].
  rewrite (st_bind_Ok _ _ _ (n, slot :: rest) (mk_monitor d' (discovery_rd s) (rosout_rd s) (maps s) (graph_unrefs s)))
    by (unfold on_dds; by rewrite Hwait).
  rewrite (proj2 (Z.ltb_ge n 0)) by lia.
  destruct (Z.to_nat n) as [|k] eqn:Ek; [lia|]. cbn [take run_slots].
  assert (Hs : exists s', run_slot fuel slot (mk_monitor d' (discovery_rd s) (rosout_rd s) (maps s) (graph_unrefs s)) =
            (Throw e, s')).
  { destruct Hslot as [(-> & Hq & Hr & E & Hd)|(-> & Hq & Hr & E & Hd)]; unfold run_slot; simpl.
    - assert (Ex : deliver on_discovery x m1 = (Throw e, m1)).
      { unfold deliver, on_discovery, mbind, stM_bind, st_lift. by rewrite Hv, Hd. }
      destruct (Reader_take_throwing on_discovery fuel 0 (mk_taking (discovery_rd s) (maps s) (graph_unrefs s))
                  l1 x l2 m1 m1 e Hr Hf Hq E Ex) as (r' & Et & _).
      eexists. apply st_bind_Throw. unfold poll_discovery. simpl. by rewrite Et.
    - assert (Ex : deliver on_rosout x m1 = (Throw e, m1)).
      { unfold deliver, on_rosout, mbind, stM_bind, st_lift. by rewrite Hv, Hd. }
      destruct (Reader_take_throwing on_rosout fuel 0 (mk_taking (rosout_rd s) (maps s) (graph_unrefs s))
                  l1 x l2 m1 m1 e Hr Hf Hq E Ex) as (r' & Et & _).
      eexists. apply st_bind_Throw. unfold poll_rosout. simpl. by rewrite Et. }
  destruct Hs as [s' Hs].
  rewrite (st_bind_Throw _ _ _ e s'); [done|]. by rewrite (st_bind_Throw _ _ _ _ _ Hs).
Qed.

(* ------------------------------------------------------------------ *)
(** * A small graph *)

Module GraphDemo.
(** The participants "a..." (known by its user data) and "b..." (known by its
    discovery entry, which names the reader "r..."). *)
Definition guid_of (c : byte) : bytes := replicate 16 c.
Definition talker : participant_sample :=
  mk_psample (guid_of x61) true (Some (participant_user_data (lit "/talker"))).
Definition departed : participant_sample := mk_psample (guid_of x61) false None.
Definition listener : ParticipantEntitiesInfo :=
  mk_entities_info (guid_of x62 ++ replicate 8 x00)
    [mk_node_info (lit "/") (lit "listener") [guid_of x72 ++ replicate 8 x00] []].
Definition nameless : ParticipantEntitiesInfo :=
  mk_entities_info (guid_of x62 ++ replicate 8 x00) [mk_node_info (lit "/") [] [] []].
Definition chatter (c p : byte) (w : bool) : bytes * EndpointInfo :=
  (guid_of c, mk_endpoint (guid_of p) (lit "rt/chatter") (lit "std_msgs::msg::dds_::String_") w).
Definition eps : gmap bytes EndpointInfo := list_to_map [chatter x77 x61 true; chatter x72 x62 false].
Definition maps_with (d : ParticipantEntitiesInfo) : Maps :=
  on_participant (mk_maps ∅ eps {[ guid_of x62 := d ]} []) talker.

(** A codec that reads every well-formed payload as one record. *)
Definition record : Log := mk_log 1 2 20 (lit "n") (lit "m") [] [] 7.
Definition log_codec : Message Log :=
  {| dds_name := lit "rcl_interfaces::msg::dds_::Log_"; serialize _ w := w; deserialize st := Ok (Some record, st) |}.
Definition info_codec : Message ParticipantEntitiesInfo :=
  {| dds_name := lit "rmw_dds_common::msg::dds_::ParticipantEntitiesInfo_"; serialize _ w := w;
     deserialize st := Ok (Some listener, st) |}.
#[export] Existing Instances log_codec info_codec.

Record MockGraph := mk_graph { mg_running : bool; mg_slots : list Z }.
#[export] Instance mock_graph : GraphDds MockGraph := {|
  graph_running := mg_running;
  graph_wait g := ((Z.of_nat (length (mg_slots g)), mg_slots g), g);
  stop_guard_take g := (false, g);
  take_participants g := ((1%Z, [talker]), g);
  take_endpoints _ g := ((0%Z, []), g)
|}.
#[export] Existing Instances mock_reader mock_reader_laws.

Definition log_payload : bytes := CdrWriter.init ++ replicate 4 x00.
Definition graph_sertype : ddsi_sertype := mk_sertype (lit "rcl_interfaces::msg::dds_::Log_").
Definition monitor (q : list bytes) (slot : Z) : Monitor MockGraph ReaderState :=
  mk_monitor (mk_graph true [slot]) (mk_reader_state true q graph_sertype) (mk_reader_state true q graph_sertype)
    (maps_with listener) 0.
End GraphDemo.
Import GraphDemo.

Lemma demo_names_valid : names_valid (maps_with listener).
Proof.
  intros guid info i Hd Hi. change (discovery (maps_with listener)) with ({[ guid_of x62 := listener ]} : gmap bytes _) in Hd.
  apply lookup_singleton_Some in Hd as [<- <-]. apply list_elem_of_singleton in Hi as ->.
  exists (lit "/listener"). reflexivity.
Qed.

Lemma snapshot_faithful_witness :
  exists s out, snapshot_json true (maps_with listener) [] = Ok out /\
    json_parse out = Some (snapshot_doc true s) /\
    s_nodes s !! lit "/listener" = Some SDiscovery /\
    (lit "/talker", lit "/listener", lit "/chatter", false) ∈ s_edges s.
Proof.
  destruct (snapshot_faithful true (maps_with listener) [] demo_names_valid)
    as (s & out & E & Hp & _ & Hn & He & _).
  exists s, out. split_and!; [exact E|exact Hp| |].
  - apply Hn. split; [right; left|intros []; simpl; lia]. split; [done|].
    exists (guid_of x62), listener. eexists. split_and!; [vm_compute; reflexivity|done|by left|reflexivity].
  - apply He. exists (lit "rt/chatter"). split_and!; [reflexivity|reflexivity|reflexivity|..].
    + exists (guid_of x77). do 2 eexists. split_and!; [split_and!; [vm_compute; reflexivity|done|vm_compute; reflexivity]|done|done].
    + exists (guid_of x72). do 2 eexists. split_and!; [split_and!; [vm_compute; reflexivity|done|vm_compute; reflexivity]|done|done].
Defined.

Lemma snapshot_poisoned_witness :
  snapshot_json true (maps_with nameless) [] = Throw InvalidArguments.
Proof.
  apply (snapshot_poisoned true (maps_with nameless) [] (guid_of x62) nameless (mk_node_info (lit "/") [] [] [])).
  - vm_compute. reflexivity.
  - done.
  - by left.
  - intros Hok. exact Hok.
Defined.

Lemma rosout_ring_witness :
  exists s', poll_rosout 5 (monitor [log_payload; log_payload] kRosoutSlot) = (Ok (Some 2%Z), s') /\
    logs (maps s') = [record; record].
Proof.
  destruct (rosout_ring 5 (monitor [log_payload; log_payload] kRosoutSlot) [record; record])
    as (s' & E & _ & _ & _ & _ & _ & _ & _ & Hl).
  - reflexivity.
  - vm_compute. lia.
  - change (Forall2 decodes_to (map (mock_sample graph_sertype) [log_payload; log_payload]) [record; record]).
    do 2 (apply Forall2_cons_2; [split; [reflexivity|eexists; reflexivity]|]). apply Forall2_nil_2.
  - vm_compute. lia.
  - exists s'. split; [exact E|exact Hl].
Defined.

Lemma malformed_sample_ends_thread_witness :
  fst (run 5 3 (monitor [log_payload; lit "x"] kDiscoverySlot)) = Throw InvalidArguments.
Proof.
  eapply (malformed_sample_ends_thread 5 2 (monitor [log_payload; lit "x"] kDiscoverySlot) kDiscoverySlot [] 1
           (mk_graph true [kDiscoverySlot]) [mock_sample graph_sertype log_payload] []
           (mock_sample graph_sertype (lit "x"))).
  - reflexivity.
  - reflexivity.
  - lia.
  - left. split_and!; [reflexivity|reflexivity|reflexivity|reflexivity|reflexivity].
  - reflexivity.
  - vm_compute. lia.
Defined.

Lemma participant_batch_witness :
  participants (poll_participants (1%Z, [talker]) (maps_with listener)) !! guid_of x61 = Some (lit "/talker") /\
  participants (poll_participants (2%Z, [talker; departed]) (maps_with listener)) !! guid_of x61 = None.
Proof.
  split.
  - destruct (participant_batch [talker] (maps_with listener) (guid_of x61)) as [Hlast _].
    apply (proj2 Hlast); [vm_compute; set_solver|reflexivity].
  - destruct (participant_batch [talker; departed] (maps_with listener) (guid_of x61)) as [Hlast _].
    exact (proj1 Hlast).
Defined.
