(* ===== verification/NodeCtor.v ===== *)
(** Nodes (src/src/rcllite/node.hpp, node.cpp and node_impl.hpp): construction
    and what a failing construction takes back, the announcement on
    ros_discovery_info, the creation of publishers, subscriptions, services and
    clients, and the registration of the parameter services (parameter.cpp).

    The entity list of a node is the [Node] of Executor.v.  CycloneDDS is the
    class [DdsFactory] with the further calls [DdsNodes]. *)
From Stdlib Require Import ZArith Lia Strings.Byte.
From stdpp Require Import base tactics list numbers sets.
From S2P Require Import Prelude Bytes Cdr Message Names Qos RawSerdata DdsConfig Dds MockDds Pubsub.
From S2P Require Executor Graph.

(** [dds_get_guid], [dds_writecdr] on the writer of a handle with its matched
    status, and [dds_set_guardcondition]. *)
Class DdsNodes (F : Type) := {
  dds_get_guid : Z -> F -> Z * bytes;
  write_on : Z -> RawSerdata -> F -> Z * F;
  matched_on : Z -> F -> Z * Z;
  set_guardcondition : Z -> F -> F
}.

(** [created]: the entities created so far, in order; [written_on]: what each
    writer has accepted. *)
Class DdsNodesLaws (F : Type) `{DdsFactoryLaws F} `{!DdsNodes F} := {
  created : F -> list dds_kind;
  written_on : F -> Z -> list RawSerdata;
  create_trace k f h f' :
    dds_create k f = (Ok h, f') ->
    created f' = (if (0 <=? h)%Z then created f ++ [k] else created f);
  delete_trace h f o f' : dds_delete h f = (o, f') -> created f' = created f;
  write_on_spec h d f rc f' :
    write_on h d f = (rc, f') ->
    live f' = live f /\
    written_on f' h = (if (rc =? 0)%Z then written_on f h ++ [d] else written_on f h);
  get_guid_spec h f : length (snd (dds_get_guid h f)) = 16;
  set_guard_spec h f : live (set_guardcondition h f) = live f /\ created (set_guardcondition h f) = created f
}.

(** Destructors of the members built so far, run when the rest throws. *)
Definition cleanup {S A} (d : stM S unit) (m : stM S A) : stM S A :=
  st_try m (fun e => let* _ := d in st_throw e).

(* ------------------------------------------------------------------ *)
(** * Endpoints *)

Section endpoints.
Context {F : Type} `{DdsFactory F}.
Variable qos_created : bool.

Definition Publisher_ctor (ros_topic type : bytes) (qos : QoS) (raw_dds_topic : bool) : stM F Z :=
  let* topic := st_lift (publisher_topic ros_to_dds_topic_name ros_topic raw_dds_topic) in
  Writer_ctor (Some (create_raw_sertype type)) qos_created topic qos.

Definition Subscription_ctor (ros_topic type : bytes) (qos : QoS) : stM F (Z * Z) :=
  let* topic := st_lift (ros_to_dds_topic_name ros_topic) in
  Reader_ctor (Some (create_raw_sertype type)) qos_created topic qos.

(** The request reader and the reply writer. *)
Definition Service_ctor (ros_service request response : bytes) (qos : QoS) : stM F ((Z * Z) * Z) :=
  let* topic := st_lift (ros_to_dds_request_topic_name ros_service) in
  let* rd := Reader_ctor (Some (create_raw_sertype request)) qos_created topic qos in
  let* wr := cleanup (Reader_dtor rd)
    (let* topic := st_lift (ros_to_dds_reply_topic_name ros_service) in
     Writer_ctor (Some (create_raw_sertype response)) qos_created topic qos) in
  mret (rd, wr).

(** The request writer and the response reader. *)
Definition Client_ctor (ros_service request response : bytes) (qos : QoS) : stM F (Z * (Z * Z)) :=
  let* topic := st_lift (ros_to_dds_request_topic_name ros_service) in
  let* wr := Writer_ctor (Some (create_raw_sertype request)) qos_created topic qos in
  let* rd := cleanup (Writer_dtor wr)
    (let* topic := st_lift (ros_to_dds_reply_topic_name ros_service) in
     Reader_ctor (Some (create_raw_sertype response)) qos_created topic qos) in
  mret (wr, rd).
End endpoints.

(* ------------------------------------------------------------------ *)
(** * The node *)

Section node.
Context {F : Type} `{DdsFactory F} `{!DdsNodes F} `{Message Graph.ParticipantEntitiesInfo}.
Variable iov_len_bits : Z.
Variable qos_created : bool.

Record NodeObj := mk_node_obj {
  name_ : bytes;
  ns_ : bytes;
  fq_name_ : bytes;
  domain_id_ : Z;
  ppant_ : Participant;
  change_guard_ : Z;
  discovery_ : Z
}.

Definition writer_at (h : Z) : DdsWriter F := {| dds_writecdr := write_on h; publication_matched := matched_on h |}.

(** The GID of the wire type has 24 bytes, of which the GUID fills 16. *)
Definition announcement (guid ns name : bytes) : Graph.ParticipantEntitiesInfo :=
  Graph.mk_entities_info (guid ++ replicate 8 x00) [Graph.mk_node_info ns name [] []].

(** The writer it returns is the one [discovery_] keeps. *)
Definition announce_to_ros_graph (ppant : Participant) (ns name : bytes) : stM F Z :=
  let* g := st_run (fun f => (dds_get_guid (pp_ ppant) f, f)) in
  let (rc, guid) := g : Z * bytes in
  if (rc <? 0)%Z then st_throw InternalError
  else
    let* wr := Publisher_ctor qos_created (lit "ros_discovery_info") (dds_name Graph.ParticipantEntitiesInfo)
                 (keep_last 1 (set_transient_local QoS_default)) true in
    let* _ := cleanup (Writer_dtor wr)
      (publish (W := F) (H0 := writer_at wr) iov_len_bits (announcement guid ns name)) in
    mret wr.

(** [domain_id] is what [Context::instance().domain_id()] gave. *)
Definition Node_ctor (name namespace_ : bytes) (domain_id : Z) : stM F NodeObj :=
  let ns := if bool_decide (namespace_ = []) then lit "/" else namespace_ in
  let* fq_name := st_lift (make_fq_node_name ns name) in
  let* change_guard := GuardCondition_ctor in
  let* ppant := cleanup (GuardCondition_dtor change_guard)
    (if bool_decide (name = []) || bool_decide (find_char x2f name <> None)
     then st_throw InvalidArguments
     else Participant_ctor qos_created) in
  let* wr := cleanup (let* _ := GuardCondition_dtor change_guard in Participant_dtor ppant)
    (announce_to_ros_graph ppant ns name) in
  mret (mk_node_obj name ns fq_name domain_id ppant change_guard wr).
End node.

(* ------------------------------------------------------------------ *)
(** * Creating endpoints on a node *)

Section create.
Context {F : Type} `{DdsFactory F} `{!DdsNodes F}.
Variable qos_created : bool.

(** CycloneDDS and the entity list, epoch and change guard of one node. *)
Record World := mk_world { fac : F; plumbing : Executor.Node }.

Definition on_fac {A} (m : stM F A) : stM World A := fun w =>
  let (o, f) := m (fac w) in (o, mk_world f (plumbing w)).

Definition add_entity (e : Executor.Entity) : stM World unit :=
  st_modify (fun w => mk_world (set_guardcondition (Executor.change_guard_ (plumbing w)) (fac w))
                        (Executor.push_entity e (plumbing w))).

(** [self] is the identity of the object the [shared_ptr] points to. *)
Definition create_publisher (ns topic type : bytes) (qos : QoS) : stM World Z :=
  let* fqn := st_lift (expand_topic_name topic ns) in
  on_fac (Publisher_ctor qos_created fqn type qos false).

Definition create_subscription (ns topic type : bytes) (qos : QoS) (self : nat) : stM World (Z * Z) :=
  let* fqn := st_lift (expand_topic_name topic ns) in
  let* sub := on_fac (Subscription_ctor qos_created fqn type qos) in
  let* _ := add_entity (Executor.mk_entity self (snd sub)) in
  mret sub.

Definition create_service (ns service request response : bytes) (qos : QoS) (self : nat)
  : stM World ((Z * Z) * Z) :=
  let* fqn := st_lift (expand_topic_name service ns) in
  let* srv := on_fac (Service_ctor qos_created fqn request response qos) in
  let* _ := add_entity (Executor.mk_entity self (snd (fst srv))) in
  mret srv.

Definition create_client (ns service request response : bytes) (qos : QoS) (self : nat)
  : stM World (Z * (Z * Z)) :=
  let* fqn := st_lift (expand_topic_name service ns) in
  let* cli := on_fac (Client_ctor qos_created fqn request response qos) in
  let* _ := add_entity (Executor.mk_entity self (snd (snd cli))) in
  mret cli.

(** The services of [ParameterCore::Impl], in the order it creates them. *)
Definition parameter_services : list bytes :=
  [lit "describe_parameters"; lit "get_parameter_types"; lit "get_parameters";
   lit "list_parameters"; lit "set_parameters"; lit "set_parameters_atomically"].

(** A service registered with the node: its entity, its request reader and its
    reply writer. *)
Definition ServiceObj : Type := Executor.Entity * ((Z * Z) * Z).

Definition register_service (prefix : bytes) (types : bytes -> bytes * bytes) (s : nat * bytes) : stM World ServiceObj :=
  let* srv := on_fac (Service_ctor qos_created (prefix ++ snd s) (fst (types (snd s))) (snd (types (snd s))) Parameters) in
  let e := Executor.mk_entity (fst s) (snd (fst srv)) in
  let* _ := add_entity e in
  mret (e, srv).

(** The constructor of [ParameterCore::Impl]: the events publisher, then the
    six services, which the node owns; [first] numbers the service objects. *)
Definition ParameterCore_ctor (fq_name : bytes) (types : bytes -> bytes * bytes) (event_type : bytes) (first : nat)
  : stM World (Z * list ServiceObj) :=
  let* events_pub := on_fac (Publisher_ctor qos_created (lit "/parameter_events") event_type ParameterEvents false) in
  let prefix := fq_name ++ lit "/" in
  let* services := cleanup (on_fac (Writer_dtor events_pub))
    (st_map (register_service prefix types) (combine (seq first (length parameter_services)) parameter_services)) in
  mret (events_pub, services).

(** [Node::params]: [params_] is created on the first use. *)
Definition params (params_ : option (Z * list ServiceObj)) (fq_name : bytes) (types : bytes -> bytes * bytes)
  (event_type : bytes) (first : nat) : stM World (Z * list ServiceObj) :=
  match params_ with
  | Some p => mret p
  | None => ParameterCore_ctor fq_name types event_type first
  end.
End create.
Arguments World : clear implicits.

Lemma cleanup_Ok {S A} (d : stM S unit) (m : stM S A) s a s' :
  m s = (Ok a, s') -> cleanup d m s = (Ok a, s').
Proof. intros E. unfold cleanup, st_try. by rewrite E. Qed.

Lemma cleanup_Throw {S A} (d : stM S unit) (m : stM S A) s e s' s'' :
  m s = (Throw e, s') -> d s' = (Ok tt, s'') -> cleanup d m s = (Throw e, s'').
Proof. intros E Ed. unfold cleanup, st_try. rewrite E. by rewrite (st_bind_Ok _ _ _ _ _ Ed). Qed.

(* ------------------------------------------------------------------ *)
(** * What constructors create *)

Section makes.
Context {F : Type} `{DdsNodesLaws F}.

(** [m] creates the entities of [plan] in order, or throws part of the way; it
    deletes nothing when it succeeds. *)
Definition makes {A} (m : stM F A) (plan : list dds_kind) : Prop := forall f,
  match m f with
  | (Ok _, f') => created f' = created f ++ plan /\ live f ⊆ live f'
  | (Throw e, f') =>
      (e = InvalidArguments \/ e = InternalError) /\
      exists k, created f' = created f ++ take k plan
  | (Undefined, _) => False
  end.

Lemma makes_ret {A} (a : A) : makes (mret a) [].
Proof. intros f. simpl. by rewrite app_nil_r. Qed.

Lemma makes_throw {A} e plan : e = InvalidArguments \/ e = InternalError -> makes (A := A) (st_throw e) plan.
Proof. intros He f. simpl. split; [done|]. exists 0. by rewrite take_0, app_nil_r. Qed.

Lemma makes_bind {A B} (m : stM F A) (k : A -> stM F B) p q :
  makes m p -> (forall a, makes (k a) q) -> makes (mbind k m) (p ++ q).
Proof.
  intros Hm Hk f. specialize (Hm f). unfold mbind, stM_bind. destruct (m f) as [[a|e|] f1]; [|..|done].
  - destruct Hm as [Hc Hl]. specialize (Hk a f1). destruct (k a f1) as [[b|e|] f2]; [|..|done].
    + destruct Hk as [Hc2 Hl2]. rewrite Hc2, Hc, <- app_assoc. split; [done|by etrans].
    + destruct Hk as [He [j Hj]]. split; [done|]. exists (length p + j).
      by rewrite Hj, Hc, <- app_assoc, take_app_add.
  - destruct Hm as [He [j Hj]]. split; [done|]. exists (min j (length p)).
    by rewrite Hj, take_app_le, <- take_take, firstn_all by lia.
Qed.

Lemma makes_lift {A B} (o : outcome A) (k : A -> stM F B) plan :
  match o with Throw e => e = InvalidArguments \/ e = InternalError | Undefined => False | Ok _ => True end ->
  (forall a, o = Ok a -> makes (k a) plan) -> makes (mbind k (st_lift o)) plan.
Proof.
  intros Ho Hk f. unfold mbind, stM_bind, st_lift. destruct o as [a|e|]; [by apply Hk| |done].
  by apply (makes_throw (A := B) e plan Ho).
Qed.

Lemma makes_create {B} (k : dds_kind) (c : Z -> stM F B) plan :
  (forall h, (0 <= h)%Z -> makes (c h) plan) ->
  makes (let* h := dds_create k in if (h <? 0)%Z then st_throw InternalError else c h) (k :: plan).
Proof.
  intros Hc f. destruct (create_spec k f) as (h & f1 & E & L). rewrite (st_bind_Ok _ _ _ _ _ E).
  pose proof (create_trace _ _ _ _ E) as T. destruct (Z.ltb_spec h 0).
  - rewrite (proj2 (Z.leb_gt 0 h)) in T by done. split; [auto|]. exists 0. by rewrite take_0, app_nil_r.
  - rewrite (proj2 (Z.leb_le 0 h)) in T, L by done. specialize (Hc h ltac:(done) f1).
    destruct (c h f1) as [[b|e|] f2]; [..|done].
    + destruct Hc as [Hc Hl]. rewrite Hc, T, <- app_assoc. rewrite L in Hl. split; [done|set_solver].
    + destruct Hc as [He [j Hj]]. split; [done|]. exists (S j). by rewrite Hj, T, <- app_assoc.
Qed.

Lemma makes_cleanup {A} (d : stM F unit) (m : stM F A) plan :
  (forall f, exists f', d f = (Ok tt, f') /\ created f' = created f) -> makes m plan -> makes (cleanup d m) plan.
Proof.
  intros Hd Hm f. specialize (Hm f). unfold cleanup, st_try. destruct (m f) as [[a|e|] f1]; [done| |done].
  destruct Hm as [He [j Hj]]. destruct (Hd f1) as (f2 & E & T). rewrite (st_bind_Ok _ _ _ _ _ E). simpl.
  split; [done|]. exists j. by rewrite T.
Qed.

Lemma delete_ok h (f : F) : exists f', dds_delete h f = (Ok tt, f') /\ created f' = created f.
Proof. destruct (delete_spec h f) as (f' & E & _). exists f'. split; [done|by eapply delete_trace]. Qed.

Lemma Writer_dtor_ok wr (f : F) : exists f', Writer_dtor wr f = (Ok tt, f') /\ created f' = created f.
Proof. unfold Writer_dtor. destruct (0 <=? wr)%Z; [apply delete_ok|by exists f]. Qed.

Lemma Reader_dtor_ok r (f : F) : exists f', Reader_dtor r f = (Ok tt, f') /\ created f' = created f.
Proof.
  unfold Reader_dtor.
  assert (Hr : exists f1, (if (0 <=? snd r)%Z then dds_delete (snd r) else mret tt) f = (Ok tt, f1) /\ created f1 = created f).
  { destruct (0 <=? snd r)%Z; [apply delete_ok|by exists f]. }
  destruct Hr as (f1 & E1 & T1). rewrite (st_bind_Ok _ _ _ _ _ E1), <- T1.
  destruct (0 <=? fst r)%Z; [apply delete_ok|by exists f1].
Qed.

Lemma qos_outcome c q : match make_dds_qos c q with
  | Throw e => e = InvalidArguments \/ e = InternalError | Undefined => False | Ok _ => True end.
Proof. unfold make_dds_qos, base_dds_qos. destruct c; simpl; auto. Qed.

Lemma validate_outcome {A} (k : unit -> outcome A) fqn :
  (forall u, match k u with Throw e => e = InvalidArguments \/ e = InternalError | Undefined => False | Ok _ => True end) ->
  match mbind k (validate_fqn fqn) with
  | Throw e => e = InvalidArguments \/ e = InternalError | Undefined => False | Ok _ => True end.
Proof.
  intros Hk. assert (Hv : validate_fqn fqn = Ok tt \/ validate_fqn fqn = Throw InvalidArguments).
  { unfold validate_fqn. repeat case_match; auto. }
  destruct Hv as [-> | ->]; [apply Hk|by left].
Qed.

Lemma expand_outcome t ns : match expand_topic_name t ns with
  | Throw e => e = InvalidArguments \/ e = InternalError | Undefined => False | Ok _ => True end.
Proof. unfold expand_topic_name. repeat case_match; simplify_eq; auto. Qed.

Variable c : bool.

Lemma Writer_ctor_makes s topic q : makes (Writer_ctor (Some s) c topic q) [KTopic topic; KWriter].
Proof.
  unfold Writer_ctor. apply makes_lift; [apply qos_outcome|]. intros dq _.
  apply makes_create. intros tp _. apply makes_create. intros wr _. apply makes_ret.
Qed.

Lemma Reader_ctor_makes s topic q : makes (Reader_ctor (Some s) c topic q) [KTopic topic; KReader; KReadCondition].
Proof.
  unfold Reader_ctor. apply makes_lift; [apply qos_outcome|]. intros dq _.
  apply makes_create. intros tp _. apply makes_create. intros rd _. apply makes_create. intros rc _. apply makes_ret.
Qed.

Definition publisher_plan (fqn : bytes) : list dds_kind := [KTopic (lit "rt" ++ fqn); KWriter].
Definition subscription_plan (fqn : bytes) : list dds_kind := [KTopic (lit "rt" ++ fqn); KReader; KReadCondition].
Definition service_plan (fqn : bytes) : list dds_kind :=
  [KTopic (lit "rq" ++ fqn ++ lit "Request"); KReader; KReadCondition; KTopic (lit "rr" ++ fqn ++ lit "Reply"); KWriter].
Definition client_plan (fqn : bytes) : list dds_kind :=
  [KTopic (lit "rq" ++ fqn ++ lit "Request"); KWriter; KTopic (lit "rr" ++ fqn ++ lit "Reply"); KReader; KReadCondition].

Ltac topic_tac :=
  apply makes_lift; [apply validate_outcome; auto|];
  let t := fresh "t" in let E := fresh "E" in intros t E; inv_ok E; injection E as <-.

Lemma Publisher_ctor_makes fqn type q : makes (Publisher_ctor c fqn type q false) (publisher_plan fqn).
Proof. unfold Publisher_ctor, publisher_topic. topic_tac. apply Writer_ctor_makes. Qed.

Lemma Subscription_ctor_makes fqn type q : makes (Subscription_ctor c fqn type q) (subscription_plan fqn).
Proof. unfold Subscription_ctor. topic_tac. apply Reader_ctor_makes. Qed.

Lemma Service_ctor_makes fqn rq rs q : makes (Service_ctor c fqn rq rs q) (service_plan fqn).
Proof.
  unfold Service_ctor. topic_tac.
  apply (makes_bind _ _ [_; _; _] [_; _]); [apply Reader_ctor_makes|]. intros rd.
  apply (makes_bind _ _ [_; _] []); [|intros; apply makes_ret].
  apply makes_cleanup; [intros; apply Reader_dtor_ok|]. topic_tac. apply Writer_ctor_makes.
Qed.

Lemma Client_ctor_makes fqn rq rs q : makes (Client_ctor c fqn rq rs q) (client_plan fqn).
Proof.
  unfold Client_ctor. topic_tac.
  apply (makes_bind _ _ [_; _] [_; _; _]); [apply Writer_ctor_makes|]. intros wr.
  apply (makes_bind _ _ [_; _; _] []); [|intros; apply makes_ret].
  apply makes_cleanup; [intros; apply Writer_dtor_ok|]. topic_tac. apply Reader_ctor_makes.
Qed.
End makes.

(* ------------------------------------------------------------------ *)
(** * Endpoints of a node *)

Section creates.
Context {F : Type} `{DdsNodesLaws F}.

(** [m] creates the entities of [plan] for the expanded name and registers
    [entity]; when it throws, the node has no new entity. *)
Definition creates {A} (m : stM (World F) A) (names : outcome bytes) (plan : bytes -> list dds_kind)
  (entity : A -> option Executor.Entity) (w : World F) : Prop :=
  match m w with
  | (Ok a, w') =>
      exists fqn, names = Ok fqn /\ created (fac w') = created (fac w) ++ plan fqn /\
        live (fac w) ⊆ live (fac w') /\
        plumbing w' = match entity a with Some e => Executor.push_entity e (plumbing w) | None => plumbing w end
  | (Throw e, w') =>
      (e = InvalidArguments \/ e = InternalError) /\ plumbing w' = plumbing w /\
      match names with
      | Ok fqn => exists k, created (fac w') = created (fac w) ++ take k (plan fqn)
      | _ => w' = w
      end
  | (Undefined, _) => False
  end.

Lemma on_fac_eq {A} (m : stM F A) (w : World F) o f : m (fac w) = (o, f) -> on_fac m w = (o, mk_world f (plumbing w)).
Proof. intros E. unfold on_fac. by rewrite E. Qed.

Lemma creates_waitable {A} t ns (con : bytes -> stM F A) (plan : bytes -> list dds_kind)
    (ent : A -> Executor.Entity) (w : World F) :
  (forall fqn, makes (con fqn) (plan fqn)) ->
  creates (let* fqn := st_lift (expand_topic_name t ns) in
           let* a := on_fac (con fqn) in let* _ := add_entity (ent a) in mret a)
    (expand_topic_name t ns) plan (fun a => Some (ent a)) w.
Proof.
  intros Hc. unfold creates. pose proof (expand_outcome t ns) as Hn. unfold mbind at 1, stM_bind at 1, st_lift.
  destruct (expand_topic_name t ns) as [fqn|e|]; [|done|done].
  specialize (Hc fqn (fac w)). destruct (con fqn (fac w)) as [[a|e|] f] eqn:E; [..|done];
    pose proof (on_fac_eq _ _ _ _ E) as E'.
  - rewrite (st_bind_Ok _ _ _ _ _ E'). simpl. exists fqn.
    destruct (set_guard_spec (Executor.change_guard_ (plumbing w)) f) as [-> ->]. destruct Hc. done.
  - rewrite (st_bind_Throw _ _ _ _ _ E'). simpl. destruct Hc as [He Hk]. done.
Qed.
End creates.

(** C39: [create_publisher], [create_subscription], [create_service] and
    [create_client] of a node create exactly the DDS topics the name mapping
    gives for the name expanded in the node's namespace, with their reader,
    writer and condition: a client and a service of the same name share their
    request and their reply topic.  The waitable ones are registered with the
    node once, which changes its epoch; when any of them throws, because of the
    name or because CycloneDDS refuses an entity, the node has no new entity,
    and nothing is created at all for a name that cannot be expanded. *)
Theorem endpoints_created {F} `{DdsNodesLaws F} (c : bool) (ns name type type2 : bytes) (qos : QoS) (self : nat)
    (w : World F) :
  creates (create_publisher c ns name type qos) (expand_topic_name name ns) publisher_plan (fun _ => None) w /\
  creates (create_subscription c ns name type qos self) (expand_topic_name name ns) subscription_plan
    (fun s => Some (Executor.mk_entity self (snd s))) w /\
  creates (create_service c ns name type type2 qos self) (expand_topic_name name ns) service_plan
    (fun s => Some (Executor.mk_entity self (snd (fst s)))) w /\
  creates (create_client c ns name type type2 qos self) (expand_topic_name name ns) client_plan
    (fun s => Some (Executor.mk_entity self (snd (snd s)))) w /\
  (forall fqn t, KTopic t ∈ client_plan fqn <-> KTopic t ∈ service_plan fqn).
Proof.
  split_and!.
  - unfold creates, create_publisher. pose proof (expand_outcome name ns) as Hn.
    unfold mbind, stM_bind, st_lift. destruct (expand_topic_name name ns) as [fqn|e|]; [|done|done].
    pose proof (Publisher_ctor_makes c fqn type qos (fac w)) as Hc.
    destruct (Publisher_ctor c fqn type qos false (fac w)) as [[a|e|] f] eqn:E; [..|done];
      rewrite (on_fac_eq _ _ _ _ E); simpl; destruct Hc; [by exists fqn|done].
  - apply (creates_waitable name ns (fun fqn => Subscription_ctor c fqn type qos)).
    intros. apply Subscription_ctor_makes.
  - apply (creates_waitable name ns (fun fqn => Service_ctor c fqn type type2 qos)).
    intros. apply Service_ctor_makes.
  - apply (creates_waitable name ns (fun fqn => Client_ctor c fqn type type2 qos)).
    intros. apply Client_ctor_makes.
  - intros fqn t. unfold client_plan, service_plan. rewrite !elem_of_cons. naive_solver.
Qed.

(* ------------------------------------------------------------------ *)
(** * The parameter services *)

Section params.
Context {F : Type} `{DdsNodesLaws F}.
Variable c : bool.
Variable prefix : bytes.
Variable types : bytes -> bytes * bytes.

Lemma register_service_spec s (w : World F) :
  match register_service c prefix types s w with
  | (Ok r, w') => Executor.ent_id (fst r) = fst s /\ Executor.condition (fst r) = snd (fst (snd r)) /\
      plumbing w' = Executor.push_entity (fst r) (plumbing w) /\
      created (fac w') = created (fac w) ++ service_plan (prefix ++ snd s)
  | (Throw e, w') => (e = InvalidArguments \/ e = InternalError) /\ plumbing w' = plumbing w
  | (Undefined, _) => False
  end.
Proof.
  unfold register_service.
  pose proof (Service_ctor_makes c (prefix ++ snd s) (fst (types (snd s))) (snd (types (snd s))) Parameters (fac w)) as Hc.
  destruct (Service_ctor c (prefix ++ snd s) (fst (types (snd s))) (snd (types (snd s))) Parameters (fac w))
    as [[a|e|] f] eqn:E; [..|done]; pose proof (on_fac_eq _ _ _ _ E) as E'.
  - rewrite (st_bind_Ok _ _ _ _ _ E'). simpl. split_and!; [done..|].
    destruct (set_guard_spec (Executor.change_guard_ (plumbing w)) f) as [_ ->]. by destruct Hc.
  - rewrite (st_bind_Throw _ _ _ _ _ E'). simpl. by destruct Hc.
Qed.

Lemma register_services_spec ss : forall (w : World F),
  match st_map (register_service c prefix types) ss w with
  | (Ok rs, w') => map Executor.ent_id (map fst rs) = map fst ss /\
      Forall (fun r => Executor.condition (fst r) = snd (fst (snd r))) rs /\
      Executor.entities_ (plumbing w') = Executor.entities_ (plumbing w) ++ map fst rs /\
      created (fac w') = created (fac w) ++ concat (map (fun s => service_plan (prefix ++ snd s)) ss)
  | (Throw e, w') => (e = InvalidArguments \/ e = InternalError) /\
      exists es k, k < length ss /\ map Executor.ent_id es = map fst (take k ss) /\
        Executor.entities_ (plumbing w') = Executor.entities_ (plumbing w) ++ es
  | (Undefined, _) => False
  end.
Proof.
  induction ss as [|s ss IH]; intros w.
  - simpl. by rewrite !app_nil_r.
  - cbn [st_map]. unfold mbind, stM_bind. pose proof (register_service_spec s w) as Hs.
    destruct (register_service c prefix types s w) as [[r|e|] w1]; [..|done].
    + destruct Hs as (He & Hcond & Hp & Hcr). specialize (IH w1).
      destruct (st_map (register_service c prefix types) ss w1) as [[rs|e'|] w2]; [..|done].
      * destruct IH as (Hes & Hf & Hen & Hc2). cbn [mret stM_ret]. rewrite Hen, Hc2, Hp, Hcr.
        cbn [map concat Executor.push_entity Executor.entities_]. rewrite He, Hes, <- !app_assoc.
        split_and!; [done| |done..]. by constructor.
      * destruct IH as (Hx & es & k & Hk & Hes & Hen). split; [done|]. exists (fst r :: es), (S k).
        simpl. rewrite He, Hes, Hen, Hp. simpl. rewrite <- app_assoc. split_and!; [simpl in *; lia|done|done].
    + destruct Hs as [He Hp]. split; [done|]. exists [], 0. rewrite Hp, app_nil_r. split_and!; [simpl; lia|done|done].
Qed.
End params.

(** The parameter support of a node registers its six services, under the
    node's name, with the node, in a fixed order; a second use creates nothing.
    When one of them cannot be created the constructor throws, but the services
    registered before stay in the node's entity list, although the object their
    handlers refer to is destroyed. *)
Theorem parameter_services_registered {F} `{DdsNodesLaws F} (c : bool) (fq_name : bytes)
    (types : bytes -> bytes * bytes) (event_type : bytes) (first : nat) (p : Z * list ServiceObj) (w : World F) :
  match params c None fq_name types event_type first w with
  | (Ok r, w') => map Executor.ent_id (map fst (snd r)) = seq first 6 /\
      Forall (fun s => Executor.condition (fst s) = snd (fst (snd s))) (snd r) /\
      Executor.entities_ (plumbing w') = Executor.entities_ (plumbing w) ++ map fst (snd r) /\
      created (fac w') = created (fac w) ++ publisher_plan (lit "/parameter_events") ++
        concat (map (fun s => service_plan (fq_name ++ lit "/" ++ s)) parameter_services)
  | (Throw e, w') => (e = InvalidArguments \/ e = InternalError) /\
      exists es k, k < 6 /\ map Executor.ent_id es = seq first k /\
        Executor.entities_ (plumbing w') = Executor.entities_ (plumbing w) ++ es
  | (Undefined, _) => False
  end /\
  params c (Some p) fq_name types event_type first w = (Ok p, w).
Proof.
  split; [|done]. unfold params, ParameterCore_ctor.
  pose proof (Publisher_ctor_makes c (lit "/parameter_events") event_type ParameterEvents (fac w)) as Hp.
  destruct (Publisher_ctor c (lit "/parameter_events") event_type ParameterEvents false (fac w))
    as [[pub|e|] f] eqn:E; [..|done]; pose proof (on_fac_eq _ _ _ _ E) as E'.
  - rewrite (st_bind_Ok _ _ _ _ _ E'). destruct Hp as [Hp _].
    pose proof (register_services_spec c (fq_name ++ lit "/") types
                  (combine (seq first 6) parameter_services) (mk_world f (plumbing w))) as Hs.
    unfold cleanup, st_try. change (length parameter_services) with 6.
    set (reg := st_map (register_service c (fq_name ++ lit "/") types)
                  (combine (seq first 6) parameter_services) (mk_world f (plumbing w))) in *.
    destruct reg as [[rs|e|] w1] eqn:Er; [..|done].
    + unfold mbind, stM_bind. fold reg. rewrite Er. destruct Hs as (Hes & Hf & Hen & Hcr).
      split_and!; [exact Hes|exact Hf|exact Hen|]. rewrite Hcr. simpl fac. rewrite Hp, <- app_assoc.
      do 2 f_equal. simpl. by rewrite <- ?app_assoc.
    + unfold mbind, stM_bind. fold reg. rewrite Er. destruct Hs as (He & es & k & Hk & Hes & Hen).
      destruct (Writer_dtor_ok pub (fac w1)) as (f2 & Ed & _).
      rewrite (on_fac_eq _ _ _ _ Ed). split; [exact He|]. exists es, k.
      split_and!; [exact Hk| |exact Hen]. rewrite Hes.
      do 6 (destruct k as [|k]; [done|]). simpl in Hk. lia.
  - rewrite (st_bind_Throw _ _ _ _ _ E'). destruct Hp as [He _]. split; [done|].
    exists [], 0. rewrite app_nil_r. split_and!; [lia|done|done].
Qed.

(* ------------------------------------------------------------------ *)
(** * Construction *)

Section construction.
Context {F : Type} `{DdsNodesLaws F} `{Message Graph.ParticipantEntitiesInfo}.
Variable bits : Z.
Variable c : bool.

Lemma guard_ctor_spec (f : F) :
  match GuardCondition_ctor f with
  | (Ok g, f') => (0 <= g)%Z /\ g ∈ live f' /\ live f ⊆ live f'
  | (Throw e, f') => e = InternalError
  | (Undefined, _) => False
  end.
Proof.
  unfold GuardCondition_ctor. destruct (create_spec KGuardCondition f) as (h & f1 & E & L).
  rewrite (st_bind_Ok _ _ _ _ _ E). destruct (Z.ltb_spec h 0); [done|].
  rewrite (Zle_imp_le_bool 0 h) in L by done. simpl. rewrite L. split_and!; [done|set_solver|set_solver].
Qed.

Lemma guard_dtor_spec g (f : F) :
  (0 <= g)%Z -> exists f', GuardCondition_dtor g f = (Ok tt, f') /\ g ∉ live f' /\ live f' ⊆ live f.
Proof.
  intros Hg. unfold GuardCondition_dtor. rewrite (Zle_imp_le_bool 0 g) by done. apply delete_spec.
Qed.

(** Announcing writes one sample, or throws; what it deletes it created. *)
Lemma announce_spec (pp : Participant) ns name (f : F) :
  (forall guid, length guid = 16 -> payload_fits bits (announcement guid ns name)) ->
  match announce_to_ros_graph bits c pp ns name f with
  | (Ok wr, f') => live f ⊆ live f' /\ exists guid before,
      written_on f' wr = before ++ [serdata_of (announcement guid ns name)]
  | (Throw e, f') => e = InvalidArguments \/ e = InternalError
  | (Undefined, _) => False
  end.
Proof.
  intros Hfit. unfold announce_to_ros_graph.
  rewrite (st_bind_Ok (st_run (fun f => (dds_get_guid (pp_ pp) f, f))) _ f (dds_get_guid (pp_ pp) f) f) by done.
  pose proof (get_guid_spec (pp_ pp) f) as Hguid.
  destruct (dds_get_guid (pp_ pp) f) as [rc guid]. simpl in Hguid. destruct (rc <? 0)%Z; [by right|].
  pose proof (Writer_ctor_makes c (create_raw_sertype (dds_name Graph.ParticipantEntitiesInfo))
                (lit "ros_discovery_info") (keep_last 1 (set_transient_local QoS_default)) f) as Hw.
  change (Writer_ctor (Some (create_raw_sertype (dds_name Graph.ParticipantEntitiesInfo))) c
            (lit "ros_discovery_info") (keep_last 1 (set_transient_local QoS_default)) f)
    with (Publisher_ctor c (lit "ros_discovery_info") (dds_name Graph.ParticipantEntitiesInfo)
            (keep_last 1 (set_transient_local QoS_default)) true f) in Hw.
  destruct (Publisher_ctor c (lit "ros_discovery_info") (dds_name Graph.ParticipantEntitiesInfo)
            (keep_last 1 (set_transient_local QoS_default)) true f) as [[wr|e|] f1] eqn:E; [..|done].
  2: { rewrite (st_bind_Throw _ _ _ _ _ E). apply Hw. }
  rewrite (st_bind_Ok _ _ _ _ _ E).
  set (m := announcement guid ns name).
  assert (Hpub : exists rc2 f2, write_on wr (serdata_of m) f1 = (rc2, f2) /\
    publish (W := F) (H0 := writer_at wr) bits m f1 = ((if (rc2 =? 0)%Z then Ok tt else Throw InternalError), f2)).
  { destruct (write_on wr (serdata_of m) f1) as [rc2 f2] eqn:Ew. exists rc2, f2. split; [done|].
    unfold publish, Writer_write, st_lift, st_run, mbind, stM_bind. cbn [dds_writecdr writer_at].
    rewrite raw_serdata_from_blob_spec, uwrap_small, Z.eqb_refl by (by apply Hfit).
    unfold serdata_of in Ew. rewrite Ew. simpl. by destruct (rc2 =? 0)%Z. }
  destruct Hpub as (rc2 & f2 & Ew & Ep). destruct (write_on_spec _ _ _ _ _ Ew) as [Hl Hwr].
  destruct (Z.eqb_spec rc2 0).
  - rewrite (st_bind_Ok _ _ _ _ _ (cleanup_Ok _ _ _ _ _ Ep)). simpl. rewrite Hl. split; [apply Hw|].
    exists guid, (written_on f1 wr). exact Hwr.
  - destruct (Writer_dtor_ok wr f2) as (f3 & Ed & _).
    rewrite (st_bind_Throw _ _ _ _ _ (cleanup_Throw _ _ _ _ _ _ Ep Ed)). by right.
Qed.
End construction.


(* ------------------------------------------------------------------ *)
(** * A node on the test double *)

Module NodeDemo.
(** The scripted factory of MockDds.v with a record of what was created and
    written; [nf_result] is what writing returns. *)
Record NodeFactory := mk_node_factory {
  nf : Factory;
  nf_created : list dds_kind;
  nf_written : list (Z * RawSerdata);
  nf_result : Z
}.

Definition nf_create (k : dds_kind) : stM NodeFactory Z := fun f =>
  let (o, g) := mock_create k (nf f) in
  (o, mk_node_factory g (match o with Ok h => if (0 <=? h)%Z then nf_created f ++ [k] else nf_created f | _ => nf_created f end)
        (nf_written f) (nf_result f)).
Definition nf_delete (h : Z) : stM NodeFactory unit := fun f =>
  let (o, g) := mock_delete h (nf f) in (o, mk_node_factory g (nf_created f) (nf_written f) (nf_result f)).
Definition nf_write (h : Z) (d : RawSerdata) (f : NodeFactory) : Z * NodeFactory :=
  (nf_result f, if (nf_result f =? 0)%Z then mk_node_factory (nf f) (nf_created f) (nf_written f ++ [(h, d)]) (nf_result f) else f).

#[export] Instance nf_factory : DdsFactory NodeFactory := {| dds_create := nf_create; dds_delete := nf_delete |}.
#[export] Instance nf_factory_laws : DdsFactoryLaws NodeFactory.
Proof.
  refine {| live f := alive (nf f) |}.
  - intros k f. destruct (create_spec k (nf f)) as (h & g & E & L). simpl in *. unfold nf_create. rewrite E.
    eexists _, _. split; [done|exact L].
  - intros h f. destruct (delete_spec h (nf f)) as (g & E & L). simpl in *. unfold nf_delete. rewrite E.
    eexists. split; [done|exact L].
Defined.
#[export] Instance nf_nodes : DdsNodes NodeFactory := {|
  dds_get_guid h f := (0%Z, replicate 16 x01);
  write_on := nf_write;
  matched_on _ _ := (0%Z, 0%Z);
  set_guardcondition _ f := f
|}.
#[export] Instance nf_nodes_laws : DdsNodesLaws NodeFactory.
Proof.
  refine {| created := nf_created;
            written_on f h := map snd (filter (fun p => fst p = h) (nf_written f)) |}.
  - intros k f h f' E. simpl in E. unfold nf_create in E.
    destruct (mock_create k (nf f)) as [o g]. injection E as -> <-. done.
  - intros h f o f' E. simpl in E. unfold nf_delete in E. by injection E as <- <-.
  - intros h d f rc f' E. simpl in E. unfold nf_write in E. injection E as <- <-.
    destruct (nf_result f =? 0)%Z; simpl; [|done]. split; [done|].
    rewrite filter_app, map_app. by rewrite filter_cons_True.
  - done.
  - done.
Defined.

Definition codec : Message Graph.ParticipantEntitiesInfo := {|
  dds_name := lit "rmw_dds_common::msg::dds_::ParticipantEntitiesInfo_";
  serialize m w := w ++ Graph.gid m;
  deserialize st := Ok (None, st)
|}.
#[export] Existing Instance codec.

Definition fresh (s : list Z) (rc : Z) : NodeFactory := mk_node_factory (mk_factory 100 [] s) [] [] rc.
End NodeDemo.
Import NodeDemo.

Lemma demo_fits guid : length guid = 16 -> payload_fits 64 (announcement guid (lit "/") (lit "talker")).
Proof.
  intros Hg. unfold payload_fits, in_u. simpl. rewrite !length_app, Hg. simpl. lia.
Qed.


Lemma endpoints_created_witness :
  exists srv w', create_service true (lit "/ns") (lit "add") (lit "Req") (lit "Res") Services 7
      (mk_world (fresh [] 0) (Executor.mk_node [] 0 10)) = (Ok srv, w') /\
    nf_created (fac w') = service_plan (lit "/ns/add") /\ length (Executor.entities_ (plumbing w')) = 1.
Proof.
  destruct (endpoints_created true (lit "/ns") (lit "add") (lit "Req") (lit "Res") Services 7
              (mk_world (fresh [] 0) (Executor.mk_node [] 0 10))) as (_ & _ & Hs & _ & _).
  unfold creates in Hs.
  destruct (create_service true (lit "/ns") (lit "add") (lit "Req") (lit "Res") Services 7
      (mk_world (fresh [] 0) (Executor.mk_node [] 0 10))) as [o w'] eqn:E.
  destruct o as [srv|e|]; [|vm_compute in E; discriminate|destruct Hs].
  destruct Hs as (fqn & Hn & Hc & _ & Hp). exists srv, w'. split; [reflexivity|]. split.
  - assert (fqn = lit "/ns/add") as -> by (vm_compute in Hn; by injection Hn as <-). exact Hc.
  - rewrite Hp. reflexivity.
Defined.

(** The reader of the third service cannot be created. *)
Lemma parameter_services_registered_witness :
  exists e w', params true None (lit "/talker") (fun _ => ([], [])) (lit "ParameterEvent") 0
      (mk_world (fresh (replicate 13 0 ++ [-1])%Z 0) (Executor.mk_node [] 0 10)) = (Throw e, w') /\
    length (Executor.entities_ (plumbing w')) < 6 /\
    map Executor.ent_id (Executor.entities_ (plumbing w')) = [0; 1].
Proof.
  destruct (parameter_services_registered true (lit "/talker") (fun _ => ([], [])) (lit "ParameterEvent") 0 (0%Z, [])
              (mk_world (fresh (replicate 13 0 ++ [-1])%Z 0) (Executor.mk_node [] 0 10))) as [Hp _].
  destruct (params true None (lit "/talker") (fun _ => ([], [])) (lit "ParameterEvent") 0
      (mk_world (fresh (replicate 13 0 ++ [-1])%Z 0) (Executor.mk_node [] 0 10))) as [o w'] eqn:E.
  destruct o as [a|e|]; [vm_compute in E; discriminate| |destruct Hp].
  exists e, w'. split; [reflexivity|]. split.
  - destruct Hp as (_ & es & k & Hk & Hes & Hen). rewrite Hen. simpl.
    rewrite <- (length_map Executor.ent_id es), Hes, length_seq. exact Hk.
  - vm_compute in E. injection E as _ <-. reflexivity.
Defined.
