(* ===== verification/GraphCtor.v ===== *)
(** Construction and destruction of the graph monitor (graph.cpp,
    [GraphMonitor::Impl] up to line 138): its participant, readers, conditions,
    guard and waitset, in the order of the code, and what a constructor that
    throws leaves behind. *)
From Stdlib Require Import ZArith Lia Strings.Byte.
From stdpp Require Import base tactics list numbers gmap.
From S2P Require Import Prelude Bytes Message Names Qos RawSerdata Dds NodeCtor.
From S2P Require Executor MockDds.
From S2P Require Import Graph.

(** The handles of the members; [m_env] is the state of the waitset. *)
Record MonitorObj (E : Type) := mk_monitor_obj {
  m_ppant : Participant;
  m_bi : list Z;
  m_rc : list Z;
  m_discovery_rd : Z * Z;
  m_rosout_rd : Z * Z;
  m_stop_guard : Z;
  m_waitset : Z;
  m_self_guid : bytes;
  m_env : E
}.
Arguments mk_monitor_obj {E} _ _ _ _ _ _ _ _ _.
Arguments m_ppant {E} _.
Arguments m_bi {E} _.
Arguments m_rc {E} _.
Arguments m_discovery_rd {E} _.
Arguments m_rosout_rd {E} _.
Arguments m_stop_guard {E} _.
Arguments m_waitset {E} _.
Arguments m_self_guid {E} _.
Arguments m_env {E} _.

Section monitor.
Context {F E : Type} `{DdsFactory F} `{!DdsNodes F} `{Executor.DdsWaitset E}
  `{Message ParticipantEntitiesInfo, Message Log}.
Variable qos_created : bool.
(** The state of a waitset just created. *)
Variable new_waitset : Z -> E.

(** The chain of [dds_waitset_attach(...) < 0 ||]: [true] at the first failure. *)
Fixpoint attach_fails (l : list (Z * Z)) (e : E) : bool * E :=
  match l with
  | [] => (false, e)
  | (condition, slot) :: l =>
      let (rc, e) := Executor.waitset_attach condition slot e in
      if (rc <? 0)%Z then (true, e) else attach_fails l e
  end.

Definition slots (stop_guard : Z) (rc : list Z) (discovery_rd rosout_rd : Z * Z) : list (Z * Z) :=
  combine (stop_guard :: rc ++ [snd discovery_rd; snd rosout_rd])
    [kStopSlot; kBiPartSlot; kBiPubSlot; kBiSubSlot; kDiscoverySlot; kRosoutSlot].

Definition create_discovery_rd : stM F (Z * Z) :=
  Reader_ctor (Some (create_raw_sertype (dds_name ParticipantEntitiesInfo))) qos_created (lit "ros_discovery_info")
    (keep_last 1 (set_transient_local QoS_default)).

Definition create_rosout_rd : stM F (Z * Z) :=
  let* topic := st_lift (ros_to_dds_topic_name (lit "/rosout")) in
  Reader_ctor (Some (create_raw_sertype (dds_name Log))) qos_created topic
    (keep_last (Z.of_nat kMaxLogs) (set_transient_local QoS_default)).

(** The body of the constructor once its readers exist; nothing deletes the
    waitset when attaching fails. *)
Definition create_waitset (ppant : Participant) (stop_guard : Z) (guid : bytes) (bi rc : list Z) (discovery_rd rosout_rd : Z * Z)
  : stM F (MonitorObj E) :=
  let* ws := dds_create KWaitset in
  if (ws <? 0)%Z then st_throw InternalError
  else
    let (failed, e) := attach_fails (slots stop_guard rc discovery_rd rosout_rd) (new_waitset ws) in
    if failed then st_throw InternalError
    else mret (mk_monitor_obj ppant bi rc discovery_rd rosout_rd stop_guard ws guid e).

(** [n] entities in a row, unchecked. *)
Fixpoint create_many (k : dds_kind) (n : nat) : stM F (list Z) :=
  match n with
  | O => mret []
  | S n => let* h := dds_create k in let* hs := create_many k n in mret (h :: hs)
  end.

(** The members that have destructors, in the reverse order of their
    declaration; [readers] are those that exist. *)
Definition destroy_members (stop_guard : Z) (readers : list (Z * Z)) (ppant : Participant) : stM F unit :=
  let* _ := GuardCondition_dtor stop_guard in
  let* _ := st_iter Reader_dtor readers in
  Participant_dtor ppant.

(** The part of the body before the first reader of the library. *)
Definition create_builtin (ppant : Participant) : stM F (bytes * list Z * list Z) :=
  let* guid := st_run (fun f => (dds_get_guid (pp_ ppant) f, f)) in
  let* bi := create_many KReader 3 in
  if existsb (fun h => (h <? 0)%Z) bi then st_throw InternalError
  else let* rc := create_many KReadCondition 3 in mret (snd guid, bi, rc).

(** [Impl::Impl]: what throws destroys the members constructed before it. *)
Definition Impl_ctor : stM F (MonitorObj E) :=
  let* ppant := Participant_ctor qos_created in
  let* stop_guard := cleanup (Participant_dtor ppant) GuardCondition_ctor in
  let* r := cleanup (destroy_members stop_guard [] ppant) (create_builtin ppant) in
  let* discovery_rd := cleanup (destroy_members stop_guard [] ppant) create_discovery_rd in
  let* rosout_rd := cleanup (destroy_members stop_guard [discovery_rd] ppant) create_rosout_rd in
  cleanup (destroy_members stop_guard [rosout_rd; discovery_rd] ppant)
    (create_waitset ppant stop_guard (fst (fst r)) (snd (fst r)) (snd r) discovery_rd rosout_rd).

(** [~Impl], the thread having been joined after the guard was triggered. *)
Definition Impl_dtor (m : MonitorObj E) : stM F unit :=
  let* _ := st_modify (set_guardcondition (m_stop_guard m)) in
  let* _ := dds_delete (m_waitset m) in
  destroy_members (m_stop_guard m) [m_rosout_rd m; m_discovery_rd m] (m_ppant m).
End monitor.

(* ------------------------------------------------------------------ *)
(** * What is live *)

Section live.
Context {F : Type} `{DdsNodesLaws F}.

(** [m] returns with everything alive that was, and what it [owns], or throws
    with the participants and guards in [P] still alive. *)
Definition adds {A} (m : stM F A) (owns : A -> list Z) : Prop := forall f,
  match m f with
  | (Ok a, f') => live f ⊆ live f' /\ Forall (fun h => 0 <= h)%Z (owns a) /\ owns a ⊆ live f'
  | (Throw e, f') => e = InvalidArguments \/ e = InternalError
  | (Undefined, _) => False
  end.

(** [m] only takes away, the handles [gone] included. *)
Definition removes (m : stM F unit) (gone : list Z) : Prop := forall f,
  exists f', m f = (Ok tt, f') /\ live f' ⊆ live f /\ forall h, h ∈ gone -> (0 <= h)%Z -> h ∉ live f'.

Lemma removes_bind m1 m2 l1 l2 : removes m1 l1 -> removes m2 l2 -> removes (let* _ := m1 in m2) (l1 ++ l2).
Proof.
  intros H1' H2' f. destruct (H1' f) as (f1 & E1 & S1 & G1). destruct (H2' f1) as (f2 & E2 & S2 & G2).
  rewrite (st_bind_Ok _ _ _ _ _ E1). exists f2. split; [done|]. split; [by etrans|].
  intros h [Hh|Hh]%elem_of_app Hp; [|by apply G2]. intros Hin. by apply (G1 h Hh Hp), S2.
Qed.

Lemma removes_delete h : removes (if (0 <=? h)%Z then dds_delete h else mret tt) [h].
Proof.
  intros f. destruct (Z.leb_spec 0 h).
  - destruct (delete_spec h f) as (f' & E & Hd & Hl). exists f'. split; [done|]. split; [done|].
    by intros h' ->%list_elem_of_singleton _.
  - exists f. split; [done|]. split; [done|]. intros h' ->%list_elem_of_singleton Hp. lia.
Qed.

Lemma removes_iter {A} (m : A -> stM F unit) (gone : A -> list Z) l :
  (forall a, removes (m a) (gone a)) -> removes (st_iter m l) (concat (map gone l)).
Proof.
  intros Hm. induction l as [|a l IH]; cbn [st_iter map concat]; [|by apply removes_bind].
  intros f. exists f. split; [done|]. split; [done|]. intros h []%not_elem_of_nil.
Qed.

Lemma removes_reader r : removes (Reader_dtor r) [snd r; fst r].
Proof. apply (removes_bind _ _ [_] [_]); apply removes_delete. Qed.

Lemma removes_members g rds (p : Participant) :
  removes (destroy_members g rds p) ([g] ++ concat (map (fun r => [snd r; fst r]) rds) ++ [pp_ p]).
Proof.
  apply removes_bind; [apply removes_delete|]. apply removes_bind; [|apply removes_delete].
  apply removes_iter, removes_reader.
Qed.

Lemma adds_create_many k n : adds (create_many k n) (fun _ => []).
Proof.
  induction n as [|n IH]; intros f; cbn [create_many]; [by split; [|split; [constructor|apply list_subseteq_nil]]|].
  step_create h f1. specialize (IH f1). unfold mbind, stM_bind. destruct (create_many k n f1) as [[hs|e|] f2]; [|done..].
  destruct IH as (Hl & _ & _). split; [|by split; [constructor|apply list_subseteq_nil]].
  rewrite <- Hl, L. case_match; set_solver.
Qed.
End live.

(** A step of the constructor that throws takes down what [d] answers for. *)
Lemma cleanup_step {F} `{DdsNodesLaws F} {A B} (d : stM F unit) (m : stM F A) (k : A -> stM F B) gone owns f
    (G : outcome B * F -> Prop) :
  removes d gone -> adds m owns ->
  (forall a f', live f ⊆ live f' -> Forall (fun h => 0 <= h)%Z (owns a) -> owns a ⊆ live f' -> G (k a f')) ->
  (forall e f', e = InvalidArguments \/ e = InternalError -> (forall h, h ∈ gone -> (0 <= h)%Z -> h ∉ live f') -> G (Throw e, f')) ->
  G ((let* a := cleanup d m in k a) f).
Proof.
  intros Hd Hm Hk Ht. specialize (Hm f). destruct (m f) as [[a|e|] f1] eqn:Em; [..|done].
  - rewrite (st_bind_Ok _ _ _ _ _ (cleanup_Ok d m f a f1 Em)). destruct Hm as (? & ? & ?). by apply Hk.
  - destruct (Hd f1) as (f2 & Ed & _ & Hg). rewrite (st_bind_Throw _ _ _ _ _ (cleanup_Throw d m f e f1 f2 Em Ed)). by apply Ht.
Qed.

Section construction.
Context {F E : Type} `{DdsNodesLaws F} `{Executor.DdsWaitsetLaws E} `{Message ParticipantEntitiesInfo, Message Log}.
Variable qos_created : bool.
Variable new_waitset : Z -> E.

Lemma adds_reader s topic q : adds (F := F) (Reader_ctor (Some s) qos_created topic q) (fun r => [fst r; snd r]).
Proof.
  intros f. unfold Reader_ctor. pose proof (qos_outcome qos_created q) as Hq.
  unfold st_lift. unfold mbind at 1, stM_bind at 1. destruct (make_dds_qos qos_created q) as [dq|e|]; [|done..].
  step_create tp f1. destruct (Z.ltb_spec tp 0); [by right|].
  step_create rd f2. destruct (Z.ltb_spec rd 0); [by right|].
  step_create rc f3. destruct (Z.ltb_spec rc 0); [by right|].
  rewrite (Zle_imp_le_bool 0) in L, L0, L1 by done. simpl. rewrite L1, L0, L.
  split; [set_solver|]. split; [by repeat constructor|set_solver].
Qed.

Lemma adds_rosout : adds (F := F) (create_rosout_rd qos_created) (fun r => [fst r; snd r]).
Proof.
  intros f. unfold create_rosout_rd. assert (Ht : exists t, ros_to_dds_topic_name (lit "/rosout") = Ok t) by (eexists; reflexivity).
  destruct Ht as [t ->]. rewrite (st_bind_Ok (st_lift (Ok t)) _ f t f) by done. apply adds_reader.
Qed.

Lemma adds_builtin (p : Participant) : adds (F := F) (create_builtin p) (fun _ => []).
Proof.
  intros f. unfold create_builtin. unfold st_run. unfold mbind at 1, stM_bind at 1.
  pose proof (adds_create_many KReader 3 f) as Hb. unfold mbind at 1, stM_bind at 1.
  destruct (create_many KReader 3 f) as [[bi|e|] f1]; [|done..]. destruct Hb as (Hl & _).
  destruct (existsb _ bi); [by right|]. pose proof (adds_create_many KReadCondition 3 f1) as Hc.
  unfold mbind at 1, stM_bind at 1. destruct (create_many KReadCondition 3 f1) as [[rc|e|] f2]; [|done..].
  destruct Hc as (Hl2 & _). split; [by etrans|]. split; [constructor|apply list_subseteq_nil].
Qed.

(** What is attached is what the slots say. *)
Lemma attach_fails_spec l : forall e e',
  attach_fails l e = (false, e') -> Executor.attachments e' = foldl (fun m p => <[fst p := snd p]> m) (Executor.attachments e) l.
Proof.
  induction l as [|[c x] l IH]; intros e e' Ha; cbn [attach_fails] in Ha; [by injection Ha as <-|].
  destruct (Executor.waitset_attach c x e) as [rc e1] eqn:Ew. pose proof (Executor.attach_spec _ _ _ _ _ Ew) as Hs.
  destruct (rc <? 0)%Z; [done|]. simpl. rewrite <- Hs. by apply IH.
Qed.

Lemma create_waitset_spec p g guid bi rc d r (f : F) :
  match create_waitset new_waitset p g guid bi rc d r f with
  | (Ok m, f') => live f ⊆ live f' /\ (0 <= m_waitset m)%Z /\ m_waitset m ∈ live f' /\
      (m_ppant m = p /\ m_stop_guard m = g /\ m_discovery_rd m = d /\ m_rosout_rd m = r) /\
      Executor.attachments (m_env m) =
        foldl (fun m p => <[fst p := snd p]> m) (Executor.attachments (new_waitset (m_waitset m))) (slots g (m_rc m) d r)
  | (Throw e, f') => e = InvalidArguments \/ e = InternalError
  | (Undefined, _) => False
  end.
Proof.
  unfold create_waitset. step_create ws f1. destruct (Z.ltb_spec ws 0); [by right|].
  rewrite (Zle_imp_le_bool 0) in L by done.
  destruct (attach_fails (slots g rc d r) (new_waitset ws)) as [[|] e] eqn:Ea; [by right|].
  cbv [mret stM_ret]. cbn [m_waitset m_ppant m_stop_guard m_discovery_rd m_rosout_rd m_env m_rc]. rewrite L.
  split; [set_solver|]. split; [done|]. split; [set_solver|]. split; [done|]. by apply attach_fails_spec.
Qed.

(** The handles of a monitor that its destructor answers for. *)
Definition owned (m : MonitorObj E) : list Z :=
  [pp_ (m_ppant m); m_stop_guard m; fst (m_discovery_rd m); snd (m_discovery_rd m);
   fst (m_rosout_rd m); snd (m_rosout_rd m); m_waitset m].

Lemma adds_guard : adds (F := F) GuardCondition_ctor (fun g => [g]).
Proof.
  intros f. pose proof (guard_ctor_spec f) as Hg. destruct (GuardCondition_ctor f) as [[g|e|] f']; [..|done]; [|by right].
  destruct Hg as (Hp & Hin & Hl). split; [done|]. split; [by repeat constructor|set_solver].
Qed.

Lemma dtor_releases (m : MonitorObj E) f :
  Forall (fun h => 0 <= h)%Z (owned m) ->
  exists f', Impl_dtor m f = (Ok tt, f') /\ live f' ⊆ live f /\ forall h, h ∈ owned m -> h ∉ live f'.
Proof.
  intros Hp. unfold Impl_dtor. rewrite (st_bind_Ok (st_modify _) _ f tt (set_guardcondition (m_stop_guard m) f)) by done.
  destruct (set_guard_spec (m_stop_guard m) f) as [Hl _].
  assert (Hw : (0 <= m_waitset m)%Z) by (rewrite Forall_forall in Hp; apply Hp; do 6 right; by left).
  pose proof (removes_bind _ _ _ _ (removes_delete (m_waitset m))
    (removes_members (m_stop_guard m) [m_rosout_rd m; m_discovery_rd m] (m_ppant m))) as Hr.
  rewrite (Zle_imp_le_bool 0 _ Hw) in Hr.
  destruct (Hr (set_guardcondition (m_stop_guard m) f)) as (f' & E' & Hs & Hg). exists f'. split; [exact E'|].
  rewrite Hl in Hs. split; [exact Hs|]. intros h Hh. apply Hg; [|rewrite Forall_forall in Hp; by apply Hp].
  unfold owned in Hh. simpl. set_solver.
Qed.

(** What the body makes of a participant and a guard that are alive. *)
Definition constructed (p : Participant) (g : Z) (f1 : F) (r : outcome (MonitorObj E) * F) : Prop :=
  match r with
  | (Ok m, f') => live f1 ⊆ live f' /\ owned m ⊆ live f' /\ Forall (fun h => 0 <= h)%Z (owned m) /\
      Executor.attachments (m_env m) = foldl (fun m p => <[fst p := snd p]> m) (Executor.attachments (new_waitset (m_waitset m)))
        (slots (m_stop_guard m) (m_rc m) (m_discovery_rd m) (m_rosout_rd m))
  | (Throw e, f') => (e = InvalidArguments \/ e = InternalError) /\ pp_ p ∉ live f' /\ g ∉ live f'
  | (Undefined, _) => False
  end.

Lemma members_gone p g rds e f f' :
  (0 <= pp_ p)%Z -> (0 <= g)%Z -> e = InvalidArguments \/ e = InternalError ->
  (forall h, h ∈ [g] ++ concat (map (fun r => [snd r; fst r]) rds) ++ [pp_ p] -> (0 <= h)%Z -> h ∉ live f') ->
  constructed p g f (Throw e, f').
Proof. intros Hp Hg He Hgone. split; [done|]. split; apply Hgone; set_solver. Qed.

Lemma body_constructs p g (f1 : F) :
  (0 <= pp_ p)%Z -> (0 <= g)%Z -> pp_ p ∈ live f1 /\ g ∈ live f1 ->
  constructed p g f1 ((let* r := cleanup (destroy_members g [] p) (create_builtin p) in
    let* discovery_rd := cleanup (destroy_members g [] p) (create_discovery_rd qos_created) in
    let* rosout_rd := cleanup (destroy_members g [discovery_rd] p) (create_rosout_rd qos_created) in
    cleanup (destroy_members g [rosout_rd; discovery_rd] p)
      (create_waitset new_waitset p g (fst (fst r)) (snd (fst r)) (snd r) discovery_rd rosout_rd)) f1).
Proof.
  intros Hp Hg [Hpin Hgin].
  apply (cleanup_step _ _ _ _ _ _ _ (removes_members g [] p) (adds_builtin p)); [|intros; by eapply members_gone].
  intros [[guid bi] rc] f2 Hl2 _ _.
  apply (cleanup_step _ _ _ _ _ _ _ (removes_members g [] p) (adds_reader _ _ _)); [|intros; by eapply members_gone].
  intros d f3 Hl3 Hd0 Hd.
  apply (cleanup_step _ _ _ _ _ _ _ (removes_members g [d] p) adds_rosout); [|intros; by eapply members_gone].
  intros r f4 Hl4 Hr0 Hr. cbn [fst snd].
  pose proof (create_waitset_spec p g guid bi rc d r f4) as Hw.
  destruct (create_waitset new_waitset p g guid bi rc d r f4) as [[m|e|] f5] eqn:Ew; [..|done].
  - rewrite (cleanup_Ok _ _ _ _ _ Ew). destruct Hw as (Hl5 & Hw0 & Hwl & (<- & <- & <- & <-) & Hatt).
    unfold constructed, owned. split; [by repeat (etrans; [eassumption|])|].
    split; [|split; [|exact Hatt]].
    + set_solver.
    + inversion Hd0 as [|? ? ? Hd1]. inversion Hd1. inversion Hr0 as [|? ? ? Hr1]. inversion Hr1. by repeat constructor.
  - destruct (removes_members g [r; d] p f5) as (f6 & Ed & _ & Hgone).
    rewrite (cleanup_Throw _ _ _ _ _ _ Ew Ed). by eapply members_gone.
Qed.

End construction.

(* ------------------------------------------------------------------ *)
(** * On the test double *)

Module MonitorDemo.
(** A waitset that refuses every attachment. *)
Definition refusing : Executor.DdsWaitset unit := {|
  Executor.waitset_attach _ _ e := ((-1)%Z, e);
  Executor.waitset_detach _ e := e;
  Executor.waitset_wait _ _ e := ((0%Z, []), e);
  Executor.guard_set _ e := e;
  Executor.guard_take _ e := (false, e)
|}.
(** A codec of the type of /rosout; only its name matters here. *)
Definition log_codec : Message Log := {|
  dds_name := lit "rcl_interfaces::msg::dds_::Log_"; serialize _ w := w; deserialize := mret None
|}.
#[export] Existing Instances refusing log_codec NodeDemo.codec.
End MonitorDemo.
Import NodeDemo MonitorDemo.

(** The waitset of a constructor that fails to attach is never deleted: 117 is
    its handle, 101 and 104 are those of the participant and the guard.  (The
    test double does not delete the children of a participant.) *)
Lemma monitor_leaks_waitset :
  exists f', Impl_ctor (E := unit) true (fun _ => tt) (fresh [] 0) = (Throw InternalError, f') /\
    last (nf_created f') = Some KWaitset /\ 117%Z ∈ live f' /\ 101%Z ∉ live f' /\ 104%Z ∉ live f'.
Proof.
  exists (snd (Impl_ctor (E := unit) true (fun _ => tt) (fresh [] 0))).
  split; [apply pair_eq; vm_compute; reflexivity|]. split; [vm_compute; reflexivity|].
  assert (Hl : MockDds.alive (nf (snd (Impl_ctor (E := unit) true (fun _ => tt) (fresh [] 0)))) = [117; 114; 111; 110; 109; 108; 107; 106; 105; 103; 102; 100]%Z) by (vm_compute; reflexivity).
  change (live (snd (Impl_ctor (E := unit) true (fun _ => tt) (fresh [] 0))))
    with (MockDds.alive (nf (snd (Impl_ctor (E := unit) true (fun _ => tt) (fresh [] 0))))). rewrite Hl.
  split; [by left|]. split; decide_closed.
Qed.
