(* ===== verification/Ffi.v ===== *)
(** The bindings (src/src/ffi/rcllite_ffi.cpp): nodes, publishers and
    subscriptions behind integer handles, the lifetime of the objects they stand
    for while other threads spin, and the dispatch of a raw subscription.

    Objects live in heaps ([entries], [objs], [orphans]) and are destroyed when no
    [shared_ptr] to them is left; the ones the model counts are those of the
    registry, of the entity list of a node, of an executor's attachments and of
    the calls in progress ([in_call], [closing]).  Reading a destroyed object is
    [Undefined].

    A call that holds the registry lock to its end is one step of the process
    ([run_call]); of the others ([NodeDestroy_], [NodeCancel_], the spins and
    [SubDestroy_]) every access to shared state is a step of its own
    ([ffi_step]).  [GraphHandles.v] holds the handles of the graph tools. *)
From Stdlib Require Import ZArith Lia Strings.Byte.
From stdpp Require Import base tactics list numbers gmap fin_maps sets.
From S2P Require Import Prelude Bytes Message Names Qos RawSerdata Dds NodeCtor.
From S2P Require Executor Graph.

(* ------------------------------------------------------------------ *)
(** * Arguments *)

(** [depth] is converted to [size_t]. *)
Definition qos_from_args (depth : Z) (reliable transient_local : bool) : QoS :=
  let qos := keep_last (u64 depth) QoS_default in
  let qos := if negb reliable then set_best_effort qos else qos in
  if transient_local then set_transient_local qos else qos.

Definition check_cdr_payload (payload : bytes) : outcome unit :=
  match payload with
  | a :: b :: _ :: _ :: _ => if bool_decide (a <> x00) || bool_decide (b <> x01) then Throw ValueError else Ok tt
  | _ => Throw ValueError
  end.

(* ------------------------------------------------------------------ *)
(** * Destructors of nodes, construction of executors *)

Section objects.
Context {F E : Type} `{DdsFactory F} `{Executor.DdsWaitset E}.

(** The members of a node, in the reverse order of their declaration;
    [drop_entities] is what happens to the entities only the node still holds. *)
Definition Node_dtor (n : NodeObj) (drop_entities : stM F unit) : stM F unit :=
  let* _ := Writer_dtor (discovery_ n) in
  let* _ := GuardCondition_dtor (change_guard_ n) in
  let* _ := drop_entities in
  Participant_dtor (ppant_ n).

(** An executor with the handle of its waitset. *)
Record ExecutorObj := mk_executor_obj { waitset_ : Z; ex : Executor.Executor E }.

(** The guards are members; the destructor does not run when the constructor
    throws.  [new_waitset] is the state of a waitset just created. *)
Definition Executor_new (new_waitset : Z -> E) (h : nat -> Executor.Node) : stM F ExecutorObj :=
  let* cancel_guard := GuardCondition_ctor in
  let* wake_guard := cleanup (GuardCondition_dtor cancel_guard) GuardCondition_ctor in
  cleanup (let* _ := GuardCondition_dtor wake_guard in GuardCondition_dtor cancel_guard)
    (let* ws := dds_create KWaitset in
     let* x := st_lift (fst (Executor.Executor_ctor ws cancel_guard wake_guard h (new_waitset ws))) in
     mret (mk_executor_obj ws x)).

(** [drop_attached] is what happens to the entities only its attachments hold. *)
Definition Executor_dtor (x : ExecutorObj) (drop_attached : stM F unit) : stM F unit :=
  let* _ := (if (0 <=? waitset_ x)%Z then dds_delete (waitset_ x) else mret tt) in
  let* _ := drop_attached in
  let* _ := GuardCondition_dtor (Executor.wake_guard_ (ex x)) in
  GuardCondition_dtor (Executor.cancel_guard_ (ex x)).
End objects.
Arguments ExecutorObj : clear implicits.

(* ------------------------------------------------------------------ *)
(** * The registry *)

Record PubEntry := mk_pub { pub_topic : bytes; pub_type : bytes; pub_writer : Z }.

(** [Cb] is the type of [tvm::ffi::Function]. *)
Record SubEntry (Cb : Type) := mk_sub {
  sub_topic : bytes;
  sub_type : bytes;
  sub_reader : Z * Z;
  sub_callback : Cb;
  closed : bool
}.
Arguments mk_sub {Cb} _ _ _ _ _.
Arguments sub_topic {Cb} _.
Arguments sub_type {Cb} _.
Arguments sub_reader {Cb} _.
Arguments sub_callback {Cb} _.
Arguments closed {Cb} _.

(** A node, its executor, and its endpoints by handle: publishers, and the
    addresses of subscriptions. *)
Record NodeEntry (E : Type) := mk_entry {
  node : NodeObj;
  executor : ExecutorObj E;
  pubs : gmap Z PubEntry;
  subs : gmap Z nat
}.
Arguments mk_entry {E} _ _ _ _.
Arguments node {E} _.
Arguments executor {E} _.
Arguments pubs {E} _.
Arguments subs {E} _.

(** What a call that holds an entry does next.  [NodeSpin_] and [NodeSpinOnce_]
    spin; [NodeCancel_] and [NodeDestroy_] run [Executor::cancel], which stores
    the request and then triggers the guard. *)
Inductive call_stage : Type := Spinning | Requesting | Triggering | Returning.

(** A call in progress that holds a [shared_ptr] to an entry, and to the
    subscription it is dispatching, if any. *)
Record InCall := mk_in_call { ic_stage : call_stage; ic_entry : nat; ic_sub : option nat }.

#[global] Instance call_stage_eq_dec : EqDecision call_stage.
Proof. solve_decision. Defined.
#[global] Instance InCall_eq_dec : EqDecision InCall.
Proof. solve_decision. Defined.

(** What a call of [SubDestroy_] that has left the critical section does next:
    close the subscription, remove it from its node, drop [node], drop [sub]. *)
Inductive closing_stage : Type := ToClose | ToRemove | ToRelease | ToDrop.

#[global] Instance closing_stage_eq_dec : EqDecision closing_stage.
Proof. solve_decision. Defined.

(** Its locals [node], the node of the entry at [cl_node] until it is dropped, and
    [sub]. *)
Record Closing := mk_closing { cl_stage : closing_stage; cl_node : nat; cl_sub : nat }.

Definition holds_node (c : Closing) : bool := negb (bool_decide (cl_stage c = ToDrop)).

(** A node that outlives its entry, with its list of entities. *)
Record Orphan := mk_orphan { or_node : NodeObj; or_list : Executor.Node }.

Record Ffi (F E Cb : Type) := mk_ffi {
  fac : F;
  objs : gmap nat (SubEntry Cb);
  entries : gmap nat (NodeEntry E);
  g_registry : gmap Z nat;
  g_next_handle : Z;
  next_addr : nat;
  in_call : gmap nat InCall;
  closing : gmap nat Closing;
  orphans : gmap nat Orphan
}.
Arguments mk_ffi {F E Cb} _ _ _ _ _ _ _ _ _.
Arguments fac {F E Cb} _.
Arguments objs {F E Cb} _.
Arguments entries {F E Cb} _.
Arguments g_registry {F E Cb} _.
Arguments g_next_handle {F E Cb} _.
Arguments next_addr {F E Cb} _.
Arguments in_call {F E Cb} _.
Arguments closing {F E Cb} _.
Arguments orphans {F E Cb} _.

Definition ffi_init {F E Cb} (f : F) : Ffi F E Cb := mk_ffi f ∅ ∅ ∅ 1 0 ∅ ∅ ∅.

(* ------------------------------------------------------------------ *)
(** * Handles, references and destruction *)

Section bindings.
Context {F E Cb : Type} `{DdsFactory F} `{!DdsNodes F} `{Executor.DdsWaitset E}
  `{Message Graph.ParticipantEntitiesInfo}.
Notation FfiM := (stM (Ffi F E Cb)).
Implicit Types s : Ffi F E Cb.

Definition on_fac {A} (m : stM F A) : FfiM A := fun s =>
  let (o, f) := m (fac s) in
  (o, mk_ffi f (objs s) (entries s) (g_registry s) (g_next_handle s) (next_addr s) (in_call s) (closing s) (orphans s)).

Definition set_objs (m : gmap nat (SubEntry Cb)) s : Ffi F E Cb :=
  mk_ffi (fac s) m (entries s) (g_registry s) (g_next_handle s) (next_addr s) (in_call s) (closing s) (orphans s).
Definition set_entries (m : gmap nat (NodeEntry E)) s : Ffi F E Cb :=
  mk_ffi (fac s) (objs s) m (g_registry s) (g_next_handle s) (next_addr s) (in_call s) (closing s) (orphans s).
Definition set_registry (m : gmap Z nat) s : Ffi F E Cb :=
  mk_ffi (fac s) (objs s) (entries s) m (g_next_handle s) (next_addr s) (in_call s) (closing s) (orphans s).
Definition set_in_call (l : gmap nat InCall) s : Ffi F E Cb :=
  mk_ffi (fac s) (objs s) (entries s) (g_registry s) (g_next_handle s) (next_addr s) l (closing s) (orphans s).
Definition set_closing (l : gmap nat Closing) s : Ffi F E Cb :=
  mk_ffi (fac s) (objs s) (entries s) (g_registry s) (g_next_handle s) (next_addr s) (in_call s) l (orphans s).
Definition set_orphans (m : gmap nat Orphan) s : Ffi F E Cb :=
  mk_ffi (fac s) (objs s) (entries s) (g_registry s) (g_next_handle s) (next_addr s) (in_call s) (closing s) m.

(** [g_next_handle++]: overflow of the [int64_t] is undefined. *)
Definition alloc_handle : FfiM Z := fun s =>
  if (g_next_handle s =? 2 ^ 63 - 1)%Z then (Undefined, s)
  else (Ok (g_next_handle s),
        mk_ffi (fac s) (objs s) (entries s) (g_registry s) (g_next_handle s + 1) (next_addr s) (in_call s) (closing s) (orphans s)).

(** The address of a new object. *)
Definition alloc_object : FfiM nat := fun s =>
  (Ok (next_addr s),
   mk_ffi (fac s) (objs s) (entries s) (g_registry s) (g_next_handle s) (S (next_addr s)) (in_call s) (closing s) (orphans s)).

Definition lookup (handle : Z) : FfiM nat := fun s =>
  match g_registry s !! handle with
  | Some a => (Ok a, s)
  | None => (Throw ValueError, s)
  end.

(** [*p] for a [NodeEntry] and for a [SubEntry]. *)
Definition entry_at (a : nat) : FfiM (NodeEntry E) := fun s =>
  match entries s !! a with Some e => (Ok e, s) | None => (Undefined, s) end.
Definition sub_at (x : nat) : FfiM (SubEntry Cb) := fun s =>
  match objs s !! x with Some o => (Ok o, s) | None => (Undefined, s) end.
Definition orphan_at (a : nat) : FfiM Orphan := fun s =>
  match orphans s !! a with Some o => (Ok o, s) | None => (Undefined, s) end.

Definition put_entry (a : nat) (e : NodeEntry E) : FfiM unit :=
  st_modify (fun s => set_entries (<[a := e]> (entries s)) s).

(** The subscriptions an entry refers to: its own map, the entity list of its
    node and the attachments of its executor. *)
Definition entities_of (e : NodeEntry E) : list nat :=
  map Executor.ent_id (Executor.entities_ (Executor.heap (ex (executor e)) 0)).
Definition attached_of (e : NodeEntry E) : list nat :=
  omap (fun p => Executor.ent_id <$> Executor.entity (snd p)) (map_to_list (Executor.attached_ (ex (executor e)))).
Definition refs (e : NodeEntry E) : list nat :=
  map snd (map_to_list (subs e)) ++ entities_of e ++ attached_of e.

Definition all_refs s : list nat :=
  concat (map (fun p => refs (snd p)) (map_to_list (entries s))) ++
  omap (fun p => ic_sub (snd p)) (map_to_list (in_call s)) ++
  map (fun p => cl_sub (snd p)) (map_to_list (closing s)) ++
  concat (map (fun p => map Executor.ent_id (Executor.entities_ (or_list (snd p)))) (map_to_list (orphans s))).

(** The subscriptions without a reference. *)
Definition unheld s : list (nat * SubEntry Cb) :=
  filter (fun p => fst p ∉ all_refs s) (map_to_list (objs s)).

Definition drop_subs (dead : list (nat * SubEntry Cb)) : stM F unit :=
  st_iter (fun p => Reader_dtor (sub_reader (snd p))) dead.

Definition forget (dead : list (nat * SubEntry Cb)) s : Ffi F E Cb :=
  set_objs (foldl (fun m p => delete (fst p) m) (objs s) dead) s.

(** The end of the [shared_ptr]s to subscriptions. *)
Definition release_subs : FfiM unit :=
  let* s := st_get in
  let* _ := st_modify (forget (unheld s)) in
  on_fac (drop_subs (unheld s)).

Definition entry_held s (a : nat) : bool :=
  bool_decide (a ∈ map snd (map_to_list (g_registry s))) || bool_decide (a ∈ map (fun p => ic_entry (snd p)) (map_to_list (in_call s))).

(** Whether a call of [SubDestroy_] holds the node of the entry at [a]. *)
Definition node_wanted s (a : nat) : bool :=
  bool_decide (a ∈ map (fun p => cl_node (snd p)) (filter (fun p => holds_node (snd p) = true) (map_to_list (closing s)))).

(** The entry at [a] is gone; its node is not when it is still wanted. *)
Definition drop_entry (a : nat) (e : NodeEntry E) s : Ffi F E Cb :=
  let s1 := set_entries (delete a (entries s)) s in
  if node_wanted s a
  then set_orphans (<[a := mk_orphan (node e) (Executor.heap (ex (executor e)) 0)]> (orphans s)) s1
  else s1.

(** The end of a [shared_ptr] to the entry at [a]: with the last one the members
    go, in the reverse order of their declaration.  What only the attachments
    hold goes with the executor, the entities of the node with the node. *)
Definition release_entry (a : nat) : FfiM unit :=
  let* s := st_get in
  if entry_held s a then mret tt
  else
    let* e := entry_at a in
    let wanted := node_wanted s a in
    let* _ := st_modify (drop_entry a e) in
    let* s := st_get in
    let* _ := st_modify (forget (unheld s)) in
    on_fac (let* _ := st_iter (fun p => Writer_dtor (pub_writer (snd p))) (map_to_list (pubs e)) in
            let* _ := Executor_dtor (executor e) (drop_subs (filter (fun p => fst p ∉ entities_of e) (unheld s))) in
            if wanted then mret tt
            else Node_dtor (node e) (drop_subs (filter (fun p => fst p ∈ entities_of e) (unheld s)))).

(** The end of a [shared_ptr] to the node of the entry at [a]. *)
Definition release_node (a : nat) : FfiM unit :=
  let* s := st_get in
  if bool_decide (is_Some (entries s !! a)) || node_wanted s a then mret tt
  else
    let* o := orphan_at a in
    let* _ := st_modify (fun s => set_orphans (delete a (orphans s)) s) in
    let* s := st_get in
    let* _ := st_modify (forget (unheld s)) in
    on_fac (Node_dtor (or_node o) (drop_subs (unheld s))).

(* ------------------------------------------------------------------ *)
(** ** Nodes *)

Variable iov_len_bits : Z.
Variable qos_created : bool.
(** [Context::instance().domain_id()]. *)
Variable domain_id : Z.
Variable new_waitset : Z -> E.

(** The node first, then its executor; the entry is registered at the end. *)
Definition NodeCreate_ (name namespace_ : bytes) : FfiM Z :=
  let* n := on_fac (Node_ctor iov_len_bits qos_created name namespace_ domain_id) in
  let* x := on_fac (cleanup (Node_dtor n (mret tt))
                      (Executor_new new_waitset (fun _ => Executor.mk_node [] 0 (change_guard_ n)))) in
  let x := mk_executor_obj (waitset_ x) (Executor.add_node 0 (ex x)) in
  let* handle := alloc_handle in
  let* a := alloc_object in
  let* _ := put_entry a (mk_entry n x ∅ ∅) in
  let* _ := st_modify (fun s => set_registry (<[handle := a]> (g_registry s)) s) in
  mret handle.

(** A change to the executor of an entry. *)
Definition with_executor (f : Executor.Executor E -> Executor.Executor E) (e : NodeEntry E) : NodeEntry E :=
  mk_entry (node e) (mk_executor_obj (waitset_ (executor e)) (f (ex (executor e)))) (pubs e) (subs e).

(** [lookup(handle)] as the owner of the object expression of a call [t]: it lasts
    until the call returns. *)
Definition begin_call (stage : call_stage) (t : nat) (handle : Z) : FfiM nat :=
  let* a := lookup handle in
  let* _ := st_modify (fun s => set_in_call (<[t := mk_in_call stage a None]> (in_call s)) s) in
  mret a.

Definition end_call (t : nat) (a : nat) : FfiM unit :=
  let* _ := st_modify (fun s => set_in_call (delete t (in_call s)) s) in
  release_entry a.

(** The two halves of [Executor::cancel] on the entry a call holds. *)
Definition advance (stage : call_stage) (t : nat) (a : nat) (f : Executor.Executor E -> Executor.Executor E) : FfiM unit :=
  let* e := entry_at a in
  let* _ := put_entry a (with_executor f e) in
  st_modify (fun s => set_in_call (<[t := mk_in_call stage a None]> (in_call s)) s).
Definition cancel_request : nat -> nat -> FfiM unit := fun t a => advance Triggering t a (Executor.set_requested true).
Definition cancel_trigger : nat -> nat -> FfiM unit :=
  fun t a => advance Returning t a (fun x => Executor.trigger (Executor.cancel_guard_ x) x).

(** The critical section of [NodeDestroy_]; the local [entry] is then the last
    reference unless another call holds the entry. *)
Definition NodeDestroy_begin (t : nat) (handle : Z) : FfiM (option nat) :=
  let* s := st_get in
  match g_registry s !! handle with
  | None => mret None
  | Some a =>
      let* _ := st_modify (fun s => set_registry (delete handle (g_registry s)) s) in
      let* _ := st_modify (fun s => set_in_call (<[t := mk_in_call Requesting a None]> (in_call s)) s) in
      mret (Some a)
  end.

Definition NodeDestroy_ (t : nat) (handle : Z) : FfiM unit :=
  let* r := NodeDestroy_begin t handle in
  match r with
  | None => mret tt
  | Some a =>
      let* _ := cancel_request t a in
      let* _ := cancel_trigger t a in
      end_call t a
  end.

Definition NodeCancel_ (t : nat) (handle : Z) : FfiM unit :=
  let* a := begin_call Requesting t handle in
  let* _ := cancel_request t a in
  let* _ := cancel_trigger t a in
  end_call t a.

(** The names of a node do not change; the call may be the last to hold it. *)
Definition read_node {A} (f : NodeObj -> A) (t : nat) (handle : Z) : FfiM A :=
  let* a := begin_call Returning t handle in
  let* e := entry_at a in
  let* _ := end_call t a in
  mret (f (node e)).
Definition NodeName_ : nat -> Z -> FfiM bytes := read_node name_.
Definition NodeNamespace_ : nat -> Z -> FfiM bytes := read_node ns_.
Definition NodeFqName_ : nat -> Z -> FfiM bytes := read_node fq_name_.

(* ------------------------------------------------------------------ *)
(** ** Publishers *)

(** The iteration order of the [unordered_map]. *)
Variable order : gmap Z nat -> list (Z * nat).

Definition PubCreate_ (node_handle : Z) (topic type_name : bytes) (depth : Z) (reliable transient_local : bool)
  : FfiM Z :=
  let* dds_type := st_lift (dds_type_name type_name) in
  let* a := lookup node_handle in
  let* e := entry_at a in
  let* dds_topic := st_lift (ros_to_dds_topic_name topic) in
  let* wr := on_fac (Writer_ctor (Some (create_raw_sertype dds_type)) qos_created dds_topic
                       (qos_from_args depth reliable transient_local)) in
  let* handle := alloc_handle in
  let* _ := put_entry a (mk_entry (node e) (executor e) (<[handle := mk_pub topic dds_type wr]> (pubs e)) (subs e)) in
  mret handle.

(** The loops over the registry: the first entry that has what is looked for. *)
Fixpoint find_entry {A} (get : NodeEntry E -> option A) (l : list (Z * nat)) : FfiM (option (nat * NodeEntry E * A)) :=
  match l with
  | [] => mret None
  | (_, a) :: l =>
      let* e := entry_at a in
      match get e with
      | Some p => mret (Some (a, e, p))
      | None => find_entry get l
      end
  end.

Definition find_pub (handle : Z) : list (Z * nat) -> FfiM (option (nat * NodeEntry E * PubEntry)) :=
  find_entry (fun e => pubs e !! handle).
Definition find_sub (handle : Z) : list (Z * nat) -> FfiM (option (nat * NodeEntry E * nat)) :=
  find_entry (fun e => subs e !! handle).

Definition PubPublish_ (handle : Z) (payload : bytes) : FfiM unit :=
  let* s := st_get in
  let* r := find_pub handle (order (g_registry s)) in
  match r with
  | None => st_throw ValueError
  | Some (_, _, p) =>
      let* _ := st_lift (check_cdr_payload payload) in
      let* sent := on_fac (Writer_write (W := F) (H := writer_at (pub_writer p)) iov_len_bits
                             (create_raw_sertype (pub_type p)) payload) in
      if sent : bool then mret tt else st_throw ValueError
  end.

(** The map held the only reference to the publisher. *)
Definition PubDestroy_ (handle : Z) : FfiM unit :=
  let* s := st_get in
  let* r := find_pub handle (order (g_registry s)) in
  match r with
  | None => mret tt
  | Some (a, e, p) =>
      let* _ := put_entry a (mk_entry (node e) (executor e) (delete handle (pubs e)) (subs e)) in
      on_fac (Writer_dtor (pub_writer p))
  end.

(* ------------------------------------------------------------------ *)
(** ** Subscriptions *)

Definition SubCreate_ (node_handle : Z) (topic type_name : bytes) (depth : Z) (reliable transient_local : bool)
    (callback : Cb) : FfiM Z :=
  let* dds_type := st_lift (dds_type_name type_name) in
  let* a := lookup node_handle in
  let* e := entry_at a in
  let* dds_topic := st_lift (ros_to_dds_topic_name topic) in
  let* rd := on_fac (Reader_ctor (Some (create_raw_sertype dds_type)) qos_created dds_topic
                       (qos_from_args depth reliable transient_local)) in
  let* x := alloc_object in
  let* _ := st_modify (fun s => set_objs (<[x := mk_sub topic dds_type rd callback false]> (objs s)) s) in
  let e := with_executor (Executor.add_entity 0 (Executor.mk_entity x (snd rd))) e in
  let* _ := put_entry a e in
  let* handle := alloc_handle in
  let* _ := put_entry a (mk_entry (node e) (executor e) (pubs e) (<[handle := x]> (subs e))) in
  mret handle.

Definition close (o : SubEntry Cb) : SubEntry Cb :=
  mk_sub (sub_topic o) (sub_type o) (sub_reader o) (sub_callback o) true.

(** The critical section of [SubDestroy_]: its locals [node] and [sub]. *)
Definition SubDestroy_begin (t : nat) (handle : Z) : FfiM (option (nat * nat)) :=
  let* s := st_get in
  let* r := find_sub handle (order (g_registry s)) in
  match r with
  | None => mret None
  | Some (a, e, x) =>
      let* _ := put_entry a (mk_entry (node e) (executor e) (pubs e) (delete handle (subs e))) in
      let* _ := st_modify (fun s => set_closing (<[t := mk_closing ToClose a x]> (closing s)) s) in
      mret (Some (a, x))
  end.

(** [sub->closed.store(true)]. *)
Definition SubDestroy_close (t : nat) (a x : nat) : FfiM unit :=
  let* o := sub_at x in
  let* _ := st_modify (fun s => set_objs (<[x := close o]> (objs s)) s) in
  st_modify (fun s => set_closing (<[t := mk_closing ToRemove a x]> (closing s)) s).

(** [node->remove_entity(sub)]: the node may have lost its entry; the guard it
    triggers is then attached to no waitset. *)
Definition SubDestroy_remove (t : nat) (a x : nat) : FfiM unit :=
  let* o := sub_at x in
  let ent := Executor.mk_entity x (snd (sub_reader o)) in
  let* s := st_get in
  let* _ := match entries s !! a with
            | Some e => put_entry a (with_executor (Executor.remove_entity 0 ent) e)
            | None =>
                let* n := orphan_at a in
                st_modify (fun s => set_orphans (<[a := mk_orphan (or_node n) (Executor.erase_entity ent (or_list n))]> (orphans s)) s)
            end in
  st_modify (fun s => set_closing (<[t := mk_closing ToRelease a x]> (closing s)) s).

(** The end of the locals, [node] first. *)
Definition SubDestroy_release (t : nat) (a x : nat) : FfiM unit :=
  let* _ := st_modify (fun s => set_closing (<[t := mk_closing ToDrop a x]> (closing s)) s) in
  release_node a.
Definition SubDestroy_drop (t : nat) : FfiM unit :=
  let* _ := st_modify (fun s => set_closing (delete t (closing s)) s) in
  release_subs.

Definition SubDestroy_ (t : nat) (handle : Z) : FfiM unit :=
  let* r := SubDestroy_begin t handle in
  match r with
  | None => mret tt
  | Some (a, x) =>
      let* _ := SubDestroy_close t a x in
      let* _ := SubDestroy_remove t a x in
      let* _ := SubDestroy_release t a x in
      SubDestroy_drop t
  end.

(* ------------------------------------------------------------------ *)
(** ** Spinning *)

(** The executor of an entry at work; what it detaches it releases. *)
Definition on_executor {A} (a : nat) (m : stM (Executor.Executor E) A) : FfiM A :=
  let* e := entry_at a in
  let (o, x) := m (ex (executor e)) in
  let* _ := put_entry a (with_executor (fun _ => x) e) in
  let* _ := release_subs in
  st_lift o.

Variable dispatch : Executor.Entity -> stM (Executor.Executor E) unit.

Definition spin_call {A} (t : nat) (handle : Z) (m : stM (Executor.Executor E) A) : FfiM A :=
  let* a := begin_call Spinning t handle in
  let* r := st_try (on_executor a m) (fun e => let* _ := end_call t a in st_throw e) in
  let* _ := end_call t a in
  mret r.

Definition NodeSpin_ (fuel : nat) (t : nat) (handle : Z) : FfiM (option unit) :=
  spin_call t handle (Executor.spin dispatch fuel).

(** [std::chrono::milliseconds] to [nanoseconds]: the product overflows
    [int64_t] undefined. *)
Definition milliseconds (timeout_ms : Z) : outcome Z :=
  if decide (in_s 64 (timeout_ms * 1000000)) then Ok (timeout_ms * 1000000)%Z else Undefined.

Definition NodeSpinOnce_ (t : nat) (handle : Z) (timeout_ms : Z) : FfiM bool :=
  spin_call t handle
    (let* timeout := st_lift (milliseconds timeout_ms) in Executor.spin_once dispatch timeout).

(* ------------------------------------------------------------------ *)
(** ** The process: calls of Python on any number of threads *)

(** The calls that hold the registry lock to their end; [NodeCreate_] takes it
    once its objects, which no other thread knows, are complete. *)
Inductive call : Type :=
| CNodeCreate (name namespace_ : bytes)
| CPubCreate (handle : Z) (topic type_name : bytes) (depth : Z) (reliable transient_local : bool)
| CPubPublish (handle : Z) (payload : bytes)
| CPubDestroy (handle : Z)
| CSubCreate (handle : Z) (topic type_name : bytes) (depth : Z) (reliable transient_local : bool) (callback : Cb).

(** The handle a call returns, if it returns one. *)
Definition run_call (c : call) : FfiM (option Z) :=
  match c with
  | CNodeCreate name ns => let* h := NodeCreate_ name ns in mret (Some h)
  | CPubCreate h topic type depth reliable latch => let* h := PubCreate_ h topic type depth reliable latch in mret (Some h)
  | CPubPublish h payload => let* _ := PubPublish_ h payload in mret None
  | CPubDestroy h => let* _ := PubDestroy_ h in mret None
  | CSubCreate h topic type depth reliable latch cb => let* h := SubCreate_ h topic type depth reliable latch cb in mret (Some h)
  end.

(** What a spinning thread does with its executor between two dispatches. *)
Inductive exec_act : Executor.Executor E -> Executor.Executor E -> Prop :=
| act_sync x : exec_act x (Executor.sync x)
| act_wait timeout r x x' : Executor.wait timeout x = (r, x') -> exec_act x x'
| act_take g x : exec_act x (Executor.take_guard g x)
| act_requested b x : exec_act x (Executor.set_requested b x)
| act_absorb x : exec_act x (Executor.absorb x).

(** One step of the process, with the handle it returns.  The calls in progress
    are numbered.  A dispatch holds the subscription it found in the attachments;
    the callback it runs is made of further steps, which may be calls. *)
Inductive ffi_step : Ffi F E Cb -> option Z -> Ffi F E Cb -> Prop :=
| step_call c r s s' : run_call c s = (Ok r, s') -> ffi_step s r s'
| step_throw c e s s' : run_call c s = (Throw e, s') -> ffi_step s None s'
| step_begin g t h a s s' :
    in_call s !! t = None -> g <> Triggering -> begin_call g t h s = (Ok a, s') -> ffi_step s None s'
| step_unregister t h r s s' :
    in_call s !! t = None -> NodeDestroy_begin t h s = (Ok r, s') -> ffi_step s None s'
| step_request t a s s' :
    in_call s !! t = Some (mk_in_call Requesting a None) -> cancel_request t a s = (Ok tt, s') -> ffi_step s None s'
| step_trigger t a s s' :
    in_call s !! t = Some (mk_in_call Triggering a None) -> cancel_trigger t a s = (Ok tt, s') -> ffi_step s None s'
| step_exec t a e x s s' :
    in_call s !! t = Some (mk_in_call Spinning a None) -> entries s !! a = Some e -> exec_act (ex (executor e)) x ->
    on_executor a (fun _ => (Ok tt, x)) s = (Ok tt, s') -> ffi_step s None s'
| step_pick t a e id c n ent s :
    in_call s !! t = Some (mk_in_call Spinning a None) -> entries s !! a = Some e ->
    Executor.attached_ (ex (executor e)) !! id = Some (Executor.mk_attached c n (Some ent)) ->
    ffi_step s None (set_in_call (<[t := mk_in_call Spinning a (Some (Executor.ent_id ent))]> (in_call s)) s)
| step_dispatched t a x s s' :
    in_call s !! t = Some (mk_in_call Spinning a (Some x)) ->
    release_subs (set_in_call (<[t := mk_in_call Spinning a None]> (in_call s)) s) = (Ok tt, s') ->
    ffi_step s None s'
| step_end g t a s s' :
    in_call s !! t = Some (mk_in_call g a None) -> g = Spinning \/ g = Returning ->
    end_call t a s = (Ok tt, s') -> ffi_step s None s'
| step_sub_begin t h r s s' :
    closing s !! t = None -> SubDestroy_begin t h s = (Ok r, s') -> ffi_step s None s'
| step_sub_close t a x s s' :
    closing s !! t = Some (mk_closing ToClose a x) -> SubDestroy_close t a x s = (Ok tt, s') -> ffi_step s None s'
| step_sub_remove t a x s s' :
    closing s !! t = Some (mk_closing ToRemove a x) -> SubDestroy_remove t a x s = (Ok tt, s') -> ffi_step s None s'
| step_sub_release t a x s s' :
    closing s !! t = Some (mk_closing ToRelease a x) -> SubDestroy_release t a x s = (Ok tt, s') -> ffi_step s None s'
| step_sub_drop t a x s s' :
    closing s !! t = Some (mk_closing ToDrop a x) -> SubDestroy_drop t s = (Ok tt, s') -> ffi_step s None s'.

(** Runs, with the handles returned on the way. *)
Inductive ffi_run : Ffi F E Cb -> list Z -> Ffi F E Cb -> Prop :=
| run_nil s : ffi_run s [] s
| run_step s l s1 r s2 : ffi_run s l s1 -> ffi_step s1 r s2 -> ffi_run s (l ++ option_list r) s2.
End bindings.

(* ------------------------------------------------------------------ *)
(** * Dispatch of a raw subscription *)

Section dispatch.
Context {R U : Type} `{DdsReader R}.
(** [closed.load()], and the callback, which may set it. *)
Variable is_closed : U -> bool.
Variable callback : bytes -> stM U unit.

Definition SubEntry_on_sample (payload : bytes) (info : dds_sample_info) : stM U unit :=
  let* u := st_get in
  if negb (valid_data info) || is_closed u then mret tt
  else st_try (callback payload) (fun _ => mret tt).

(** The result is that of [take], which the code drops. *)
Definition SubEntry_dispatch (fuel : nat) : stM (taking R U) (option Z) :=
  let* w := st_get in
  if is_closed (user w) then mret (Some 0%Z) else Reader_take SubEntry_on_sample fuel 0.
End dispatch.
