(* ===== verification/FfiFacts.v ===== *)
(** The invariant of the bindings of Ffi.v - exactly the referenced subscriptions,
    the held entries and the wanted nodes exist - and what the calls that hold the
    registry lock to their end do, on every branch. *)
From Stdlib Require Import ZArith Lia Strings.Byte Sorting.Sorted.
From stdpp Require Import base tactics list numbers gmap fin_maps sets functions.
From S2P Require Import Prelude Bytes Message Names Qos RawSerdata Dds MockDds Pubsub NodeCtor.
From S2P Require Executor ExecutorRun Graph.
From S2P Require Import Ffi.

Lemma st_lift_bind {S A B} (m : outcome A) (k : A -> stM S B) (s : S) :
  (let* a := st_lift m in k a) s =
  match m with Ok a => k a s | Throw e => (Throw e, s) | Undefined => (Undefined, s) end.
Proof. by destruct m. Qed.

(* ------------------------------------------------------------------ *)
(** * References *)

Section references.
Context {F E Cb : Type}.
Implicit Types s : Ffi F E Cb.
Implicit Types e : NodeEntry E.

(** What [refs], [all_refs] and [entry_held] compute. *)
Definition refers e (x : nat) : Prop :=
  (exists h, subs e !! h = Some x) \/
  (exists en, en ∈ Executor.entities_ (Executor.heap (ex (executor e)) 0) /\ Executor.ent_id en = x) \/
  (exists i att en, Executor.attached_ (ex (executor e)) !! i = Some att /\
     Executor.entity att = Some en /\ Executor.ent_id en = x).

(** The references of the calls in progress, and of nodes without an entry. *)
Definition pinned s (x : nat) : Prop :=
  (exists t c, in_call s !! t = Some c /\ ic_sub c = Some x) \/
  (exists t c, closing s !! t = Some c /\ cl_sub c = x) \/
  (exists a o en, orphans s !! a = Some o /\ en ∈ Executor.entities_ (or_list o) /\ Executor.ent_id en = x).

Definition referenced s (x : nat) : Prop :=
  (exists a e, entries s !! a = Some e /\ refers e x) \/ pinned s x.

Definition held s (a : nat) : Prop :=
  (exists h, g_registry s !! h = Some a) \/ (exists t c, in_call s !! t = Some c /\ ic_entry c = a).

Definition wants_node s (a : nat) : Prop :=
  exists t c, closing s !! t = Some c /\ cl_node c = a /\ holds_node c = true.

Lemma elem_of_values {K A} `{Countable K} (m : gmap K A) (v : A) :
  v ∈ map snd (map_to_list m) <-> exists k, m !! k = Some v.
Proof.
  rewrite list_elem_of_fmap. split.
  - intros ([k w] & -> & Hm%elem_of_map_to_list). by exists k.
  - intros [k Hm]. exists (k, v). by rewrite elem_of_map_to_list.
Qed.

Lemma refs_spec e x : x ∈ refs e <-> refers e x.
Proof.
  unfold refs, refers, entities_of, attached_of. rewrite !elem_of_app, elem_of_values, list_elem_of_fmap, list_elem_of_omap.
  f_equiv. f_equiv; [naive_solver|]. split.
  - intros ([i att] & Hi%elem_of_map_to_list & Hx). simpl in Hx. apply fmap_Some in Hx as (en & He & ->). by exists i, att, en.
  - intros (i & att & en & Hi & He & <-). exists (i, att). rewrite elem_of_map_to_list. simpl. by rewrite He.
Qed.

Lemma elem_of_concat_values {K A} `{Countable K} (f : A -> list nat) (m : gmap K A) x :
  x ∈ concat (map (fun p => f (snd p)) (map_to_list m)) <-> exists k v, m !! k = Some v /\ x ∈ f v.
Proof.
  rewrite list_elem_of_In, in_concat. split.
  - intros (l & Hl%list_elem_of_In & Hx%list_elem_of_In).
    apply list_elem_of_fmap in Hl as ([k v] & -> & Hk%elem_of_map_to_list). by exists k, v.
  - intros (k & v & Hk & Hx). exists (f v). rewrite <- !list_elem_of_In. split; [|done].
    apply list_elem_of_fmap. exists (k, v). by rewrite elem_of_map_to_list.
Qed.

Lemma all_refs_spec s x : x ∈ all_refs s <-> referenced s x.
Proof.
  unfold all_refs, referenced, pinned.
  rewrite !elem_of_app, (elem_of_concat_values refs),
    (elem_of_concat_values (fun o => map Executor.ent_id (Executor.entities_ (or_list o)))).
  f_equiv; [|f_equiv; [|f_equiv]].
  - split; intros (a & e & Ha & Hx); exists a, e; [by rewrite <- refs_spec|by rewrite refs_spec].
  - rewrite list_elem_of_omap. split.
    + intros ([t c] & Ht%elem_of_map_to_list & Hx). eauto.
    + intros (t & c & Ht & Hx). exists (t, c). by rewrite elem_of_map_to_list.
  - rewrite list_elem_of_fmap. split.
    + intros ([t c] & -> & Ht%elem_of_map_to_list). eauto.
    + intros (t & c & Ht & <-). exists (t, c). by rewrite elem_of_map_to_list.
  - split.
    + intros (a & o & Ho & Hx). apply list_elem_of_fmap in Hx as (en & -> & Hen). eauto 6.
    + intros (a & o & en & Ho & Hen & <-). exists a, o. split; [done|]. apply list_elem_of_fmap. eauto.
Qed.

Lemma entry_held_spec s a : entry_held s a = true <-> held s a.
Proof.
  unfold entry_held, held. rewrite orb_true_iff, !bool_decide_eq_true, elem_of_values, list_elem_of_fmap.
  f_equiv. split.
  - intros ([t c] & -> & Ht%elem_of_map_to_list). eauto.
  - intros (t & c & Ht & <-). exists (t, c). by rewrite elem_of_map_to_list.
Qed.

Lemma node_wanted_spec s a : node_wanted s a = true <-> wants_node s a.
Proof.
  unfold node_wanted, wants_node. rewrite bool_decide_eq_true, list_elem_of_fmap. split.
  - intros ([t c] & -> & [Hh Ht%elem_of_map_to_list]%list_elem_of_filter). eauto.
  - intros (t & c & Ht & <- & Hh). exists (t, c). by rewrite list_elem_of_filter, elem_of_map_to_list.
Qed.

(** Destroying what has no reference keeps exactly what has one. *)
Lemma lookup_forget s x o :
  objs (forget (unheld s) s) !! x = Some o <-> objs s !! x = Some o /\ referenced s x.
Proof.
  unfold forget. simpl. rewrite Executor.lookup_foldl_delete, <- all_refs_spec.
  assert (Hd : x ∈ map fst (unheld s) <-> is_Some (objs s !! x) /\ x ∉ all_refs s).
  { rewrite list_elem_of_fmap. unfold unheld. split.
    - intros ([y o'] & -> & [Hy Ho%elem_of_map_to_list]%list_elem_of_filter). simpl in *. eauto.
    - intros [[o' Ho] Hx]. exists (x, o'). by rewrite list_elem_of_filter, elem_of_map_to_list. }
  destruct (decide (x ∈ all_refs s)); case_decide; naive_solver.
Qed.

(** Only the references matter to what stays. *)
Lemma referenced_same s s' x :
  entries s' = entries s -> in_call s' = in_call s -> closing s' = closing s -> orphans s' = orphans s ->
  referenced s' x <-> referenced s x.
Proof. unfold referenced, pinned. by intros -> -> -> ->. Qed.

Lemma referenced_put s a e e' x :
  entries s !! a = Some e -> (refers e' x -> refers e x \/ referenced s x) ->
  referenced (set_entries (<[a := e']> (entries s)) s) x -> referenced s x.
Proof.
  intros Ha Hr [(b & e1 & Hb & Hx)|Hsp]; [|by right]. simpl in Hb.
  apply lookup_insert_Some in Hb as [[<- <-]|[_ Hb]]; [|left; eauto].
  destruct (Hr Hx) as [Hx'|]; [left; eauto|done].
Qed.
End references.

(* ------------------------------------------------------------------ *)
(** * Executors and references *)

Section executors.
Context {E : Type} `{Executor.DdsWaitset E}.
Implicit Types e : NodeEntry E.

Lemma take_guard_env g (x : Executor.Executor E) : exists v, Executor.take_guard g x = Executor.set_env v x.
Proof. by eexists. Qed.

Lemma absorb_env (x : Executor.Executor E) : exists v, Executor.absorb x = Executor.set_env v x.
Proof.
  unfold Executor.absorb.
  assert (Hf : forall ns y v0, y = Executor.set_env v0 x ->
    exists v, foldl (fun s n => Executor.take_guard (Executor.change_guard_ (Executor.heap s n)) s) y ns = Executor.set_env v x).
  { induction ns as [|n ns IH]; intros y v0 ->; simpl; [by eexists|]. by eapply IH. }
  eapply (Hf _ x (Executor.env x)). by destruct x.
Qed.

(** What an executor does between dispatches keeps the entity list of its node
    and refers to no further subscription. *)
Lemma exec_act_refers e x' y :
  Executor.nodes_ (ex (executor e)) = [0] -> exec_act (ex (executor e)) x' ->
  Executor.nodes_ x' = [0] /\ Executor.heap x' = Executor.heap (ex (executor e)) /\
  (refers (with_executor (fun _ => x') e) y -> refers e y).
Proof.
  intros Hn Hact. unfold refers. simpl.
  assert (Henv : forall v, Executor.nodes_ (Executor.set_env v (ex (executor e))) = [0]) by done.
  inversion Hact as [x|timeout r x x'' Hw|g x|b x|x]; subst; simpl; try done.
  - unfold Executor.sync. destruct (Executor.changed _); [|done].
    assert (Hr : Executor.nodes_ (Executor.reconcile_locked (ex (executor e))) = [0] /\
                 Executor.heap (Executor.reconcile_locked (ex (executor e))) = Executor.heap (ex (executor e))).
    { unfold Executor.reconcile_locked, Executor.reconcile_with.
      destruct (foldl _ _ _) as [[[e1 m1] n1] c1]. by rewrite <- Hn. }
    destruct Hr as [-> Hh]. rewrite Hh. split_and!; [done|done|].
    intros [?|[?|(i & att & en & Hi & He & <-)]]; [by left|by right; left|right].
    destruct (Executor.reconcile_entities _ _ _ _ Hi He) as [Ha|(n & Hin & Hen)]; [right; eauto 10|left].
    rewrite Hn in Hin. apply list_elem_of_singleton in Hin as ->. by exists en.
  - unfold Executor.wait in Hw. destruct (Executor.waitset_wait _ _ _). by injection Hw as _ <-.
  - destruct (absorb_env (ex (executor e))) as [v ->]. done.
Qed.
End executors.

(* ------------------------------------------------------------------ *)
(** * The calls, one by one *)

(** Exactly the referenced subscriptions, the held entries and the nodes wanted
    beyond their entries exist; what a call of [SubDestroy_] has closed is closed. *)
Record ffi_inv {F E Cb} (s : Ffi F E Cb) : Prop := {
  inv_objs : forall x, is_Some (objs s !! x) <-> referenced s x;
  inv_entries : forall a, is_Some (entries s !! a) <-> held s a;
  inv_addr : forall a, is_Some (objs s !! a) \/ is_Some (entries s !! a) \/ is_Some (orphans s !! a) -> a < next_addr s;
  inv_nodes : forall a e, entries s !! a = Some e -> Executor.nodes_ (ex (executor e)) = [0];
  inv_inj : forall h h' a, g_registry s !! h = Some a -> g_registry s !! h' = Some a -> h = h';
  inv_orphans : forall a, is_Some (orphans s !! a) <-> entries s !! a = None /\ wants_node s a;
  inv_closed : forall t c o, closing s !! t = Some c -> cl_stage c <> ToClose -> objs s !! cl_sub c = Some o -> closed o = true
}.

(** What a handle stands for: the node of an entry, or an endpoint of the entry. *)
Inductive slot : Type := SNode (a : nat) | SPub (a : nat) | SSub (a : nat).

Definition designates {F E Cb} (s : Ffi F E Cb) (h : Z) (k : slot) : Prop :=
  match k with
  | SNode a => g_registry s !! h = Some a
  | SPub a => exists n e p, g_registry s !! n = Some a /\ entries s !! a = Some e /\ pubs e !! h = Some p
  | SSub a => exists n e x, g_registry s !! n = Some a /\ entries s !! a = Some e /\ subs e !! h = Some x
  end.

Record handles_ok {F E Cb} (s : Ffi F E Cb) : Prop := {
  next_positive : (1 <= g_next_handle s)%Z;
  handle_bound : forall h k, designates s h k -> (1 <= h < g_next_handle s)%Z;
  handle_unique : forall h k k', designates s h k -> designates s h k' -> k = k'
}.

(** A step that hands out [new], and nothing else. *)
Definition grows {F E Cb} (s s' : Ffi F E Cb) (new : option Z) : Prop :=
  match new with
  | None => g_next_handle s' = g_next_handle s /\ (forall h k, designates s' h k -> designates s h k)
  | Some h0 => h0 = g_next_handle s /\ g_next_handle s' = (h0 + 1)%Z /\
      exists k0, forall h k, designates s' h k -> designates s h k \/ (h = h0 /\ k = k0)
  end.

Section calls.
Context {F E Cb : Type} `{DdsNodesLaws F} `{Executor.DdsWaitset E} `{Message Graph.ParticipantEntitiesInfo}.
Implicit Types s : Ffi F E Cb.

Definition set_fac (f : F) s : Ffi F E Cb :=
  mk_ffi f (objs s) (entries s) (g_registry s) (g_next_handle s) (next_addr s) (in_call s) (closing s) (orphans s).

Lemma on_fac_run {A} (m : stM F A) s o f : m (fac s) = (o, f) -> on_fac m s = (o, set_fac f s).
Proof. intros Hm. unfold on_fac. by rewrite Hm. Qed.

Lemma drop_subs_ok (l : list (nat * SubEntry Cb)) : forall f : F, exists f', drop_subs l f = (Ok tt, f').
Proof.
  unfold drop_subs. induction l as [|p l IH]; intros f; simpl; [by exists f|].
  destruct (Reader_dtor_ok (sub_reader (snd p)) f) as (f1 & Hr & _). rewrite (st_bind_Ok _ _ _ _ _ Hr). apply IH.
Qed.

Lemma guard_dtor_ok g (f : F) : exists f', GuardCondition_dtor g f = (Ok tt, f').
Proof.
  unfold GuardCondition_dtor. destruct (0 <=? g)%Z; [|by exists f].
  destruct (delete_ok g f) as (f' & Hd & _). by exists f'.
Qed.

Lemma Executor_dtor_ok (x : ExecutorObj E) (drop : stM F unit) (f : F) :
  (forall f, exists f', drop f = (Ok tt, f')) -> exists f', Executor_dtor x drop f = (Ok tt, f').
Proof.
  intros Hdrop. unfold Executor_dtor.
  assert (Hw : exists f1, (if (0 <=? waitset_ x)%Z then dds_delete (waitset_ x) else mret tt) f = (Ok tt, f1)).
  { destruct (0 <=? waitset_ x)%Z; [|by exists f]. destruct (delete_ok (waitset_ x) f) as (f' & Hd & _). by exists f'. }
  destruct Hw as [f0 Hw]. rewrite (st_bind_Ok _ _ _ _ _ Hw).
  destruct (Hdrop f0) as [f1 Hf]. rewrite (st_bind_Ok _ _ _ _ _ Hf).
  destruct (guard_dtor_ok (Executor.wake_guard_ (ex x)) f1) as [f2 Hg]. rewrite (st_bind_Ok _ _ _ _ _ Hg).
  apply guard_dtor_ok.
Qed.

Lemma Node_dtor_ok n (drop : stM F unit) (f : F) :
  (forall f, exists f', drop f = (Ok tt, f')) -> exists f', Node_dtor n drop f = (Ok tt, f').
Proof.
  intros Hd. unfold Node_dtor. destruct (Writer_dtor_ok (discovery_ n) f) as (f1 & Hw & _).
  rewrite (st_bind_Ok _ _ _ _ _ Hw). destruct (guard_dtor_ok (change_guard_ n) f1) as [f2 Hg].
  rewrite (st_bind_Ok _ _ _ _ _ Hg). destruct (Hd f2) as [f3 Hf]. rewrite (st_bind_Ok _ _ _ _ _ Hf).
  unfold Participant_dtor. destruct (0 <=? pp_ (ppant_ n))%Z; [|by exists f3].
  destruct (delete_ok (pp_ (ppant_ n)) f3) as (f' & Hp & _). by exists f'.
Qed.

Lemma release_subs_run s : exists f, release_subs s = (Ok tt, set_fac f (forget (unheld s) s)).
Proof.
  unfold release_subs. cbv [mbind stM_bind st_get st_modify]. destruct (drop_subs_ok (unheld s) (fac s)) as [f Hd].
  exists f. by apply on_fac_run.
Qed.

Lemma release_entry_held a s : held s a -> release_entry a s = (Ok tt, s).
Proof.
  intros Ha. unfold release_entry. cbv [mbind stM_bind st_get]. by rewrite (proj2 (entry_held_spec s a) Ha).
Qed.

Lemma release_entry_run a s (e : NodeEntry E) :
  ~ held s a -> entries s !! a = Some e ->
  let s1 := drop_entry a e s in
  exists f, release_entry a s = (Ok tt, set_fac f (forget (unheld s1) s1)).
Proof.
  intros Ha He s1. unfold release_entry. unfold mbind at 1, stM_bind at 1, st_get at 1.
  destruct (entry_held s a) eqn:Eh; [by apply entry_held_spec in Eh|].
  unfold mbind at 1, stM_bind at 1, entry_at. rewrite He.
  cbv [mbind stM_bind st_get st_modify]. fold s1.
  assert (Hfac : fac s1 = fac s) by (unfold s1, drop_entry; by destruct (node_wanted s a)).
  match goal with |- exists f, on_fac ?m0 _ = _ => set (m := m0) end.
  assert (Hm : exists f, m (fac s1) = (Ok tt, f)).
  { unfold m. assert (Hp : forall l (f : F), exists f', st_iter (fun p : Z * PubEntry => Writer_dtor (pub_writer (snd p))) l f = (Ok tt, f')).
    { induction l as [|p l IH]; intros f; [by exists f|]. simpl. destruct (Writer_dtor_ok (pub_writer (snd p)) f) as (f1 & Hw & _).
      rewrite (st_bind_Ok _ _ _ _ _ Hw). apply IH. }
    destruct (Hp (map_to_list (pubs e)) (fac s1)) as [f1 ->].
    match goal with |- context [Executor_dtor (executor e) ?d f1] =>
      destruct (Executor_dtor_ok (executor e) d f1) as [f2 ->]; [by intros f; apply drop_subs_ok|] end.
    destruct (node_wanted s a); [by exists f2|]. apply Node_dtor_ok. intros f; apply drop_subs_ok. }
  destruct Hm as [f Hm]. exists f. by apply (on_fac_run m).
Qed.

Lemma lookup_inv h s a (e : NodeEntry E) :
  g_registry s !! h = Some a -> entries s !! a = Some e ->
  forall {A} (k : nat -> NodeEntry E -> stM (Ffi F E Cb) A),
  (let* a := lookup h in let* e := entry_at a in k a e) s = k a e s.
Proof.
  intros Hh He A k. unfold lookup, entry_at, mbind, stM_bind. by rewrite Hh, He.
Qed.

Lemma lookup_none h s {A} (k : nat -> stM (Ffi F E Cb) A) :
  g_registry s !! h = None -> (let* a := lookup h in k a) s = (Throw ValueError, s).
Proof. intros Hh. unfold lookup, mbind, stM_bind. by rewrite Hh. Qed.

(* ------------------------------------------------------------------ *)
(** ** Construction reaches no undefined behaviour *)

Lemma makes_defined {A} (m : stM F A) plan : makes m plan -> st_defined m.
Proof. intros Hm f. specialize (Hm f). destruct (m f) as [[a|e|] f']; simpl; [done..|by destruct Hm]. Qed.

Lemma create_defined k : st_defined (S := F) (dds_create k).
Proof. intros f. destruct (create_spec k f) as (h & f' & -> & _). done. Qed.

Lemma delete_defined h : st_defined (S := F) (dds_delete h).
Proof. intros f. destruct (delete_spec h f) as (f' & -> & _). done. Qed.

Lemma cleanup_defined {S A} (d : stM S unit) (m : stM S A) : st_defined d -> st_defined m -> st_defined (cleanup d m).
Proof. intros Hd Hm. unfold cleanup. auto with rcl. Qed.
#[local] Hint Resolve create_defined delete_defined cleanup_defined : rcl.

Lemma guard_ctor_defined : st_defined (S := F) GuardCondition_ctor.
Proof. unfold GuardCondition_ctor. auto with rcl. Qed.
Lemma guard_dtor_defined g : st_defined (S := F) (GuardCondition_dtor g).
Proof. unfold GuardCondition_dtor. auto with rcl. Qed.
Lemma writer_dtor_defined g : st_defined (S := F) (Writer_dtor g).
Proof. unfold Writer_dtor. auto with rcl. Qed.
Lemma participant_dtor_defined g : st_defined (S := F) (Participant_dtor g).
Proof. unfold Participant_dtor. auto with rcl. Qed.
#[local] Hint Resolve guard_ctor_defined guard_dtor_defined writer_dtor_defined participant_dtor_defined : rcl.

Lemma participant_ctor_defined c : st_defined (S := F) (Participant_ctor c).
Proof.
  unfold Participant_ctor. apply st_defined_bind; [auto with rcl|]. intros dom.
  apply st_defined_if; [auto with rcl|]. apply st_defined_bind; [|auto 10 with rcl].
  apply st_defined_lift. by destruct c.
Qed.

Lemma node_ctor_defined bits c name ns dom : st_defined (S := F) (Node_ctor bits c name ns dom).
Proof.
  unfold Node_ctor. apply st_defined_bind.
  { apply st_defined_lift. unfold make_fq_node_name. by repeat case_match. }
  intros fq. apply st_defined_bind; [auto with rcl|]. intros g. apply st_defined_bind.
  { apply cleanup_defined; [auto with rcl|]. apply st_defined_if; [auto with rcl|]. apply participant_ctor_defined. }
  intros pp. apply st_defined_bind; [|auto with rcl].
  apply cleanup_defined; [auto with rcl|]. unfold announce_to_ros_graph. apply st_defined_bind.
  { intros f. unfold st_run. by destruct (dds_get_guid _ _). }
  intros [rc guid]. apply st_defined_if; [auto with rcl|]. apply st_defined_bind.
  { unfold Publisher_ctor. apply st_defined_bind; [by apply st_defined_lift|]. intros t. eapply makes_defined, Writer_ctor_makes. }
  intros wr. apply st_defined_bind; [|auto with rcl]. apply cleanup_defined; [auto with rcl|].
  intros f. by destruct (publish_defined (W := F) (H0 := writer_at wr) bits (announcement guid
    (if bool_decide (ns = []) then lit "/" else ns) name) f) as (f' & [-> | ->]).
Qed.

(* ------------------------------------------------------------------ *)
(** ** What each call does *)

Lemma on_fac_inv {A} (m : stM F A) s o s' :
  on_fac m s = (o, s') -> exists f, m (fac s) = (o, f) /\ s' = set_fac f s.
Proof. unfold on_fac. destruct (m (fac s)) as [o1 f]. intros [= <- <-]. by exists f. Qed.

Lemma alloc_handle_inv s o s' :
  alloc_handle s = (o, s') ->
  (o = Undefined /\ s' = s /\ g_next_handle s = 2 ^ 63 - 1)%Z \/
  (g_next_handle s <> 2 ^ 63 - 1 /\ o = Ok (g_next_handle s) /\
   s' = mk_ffi (fac s) (objs s) (entries s) (g_registry s) (g_next_handle s + 1) (next_addr s) (in_call s) (closing s) (orphans s))%Z.
Proof.
  unfold alloc_handle. destruct (Z.eqb_spec (g_next_handle s) (2 ^ 63 - 1)); intros [= <- <-]; [by left|by right].
Qed.

Lemma executor_new_inv nw h (f f' : F) (x : ExecutorObj E) :
  Executor_new nw h f = (Ok x, f') ->
  exists e c w, ex x = Executor.mk_exec e h c w false [] ∅ ∅ 2.
Proof.
  unfold Executor_new. intros Hx. apply st_bind_inv_Ok in Hx as (c & f1 & _ & Hx).
  apply st_bind_inv_Ok in Hx as (w & f2 & _ & Hx). unfold cleanup, st_try in Hx.
  match type of Hx with (match ?m ?f2 with _ => _ end) = _ => destruct (m f2) as [[a|e|] f3] eqn:Em end; [|by apply st_bind_inv_Ok in Hx as (? & ? & _ & ?)|done].
  injection Hx as -> ->. apply st_bind_inv_Ok in Em as (ws & f4 & _ & Em).
  apply st_bind_inv_Ok in Em as (x' & f5 & Hc & Em). injection Em as <- <-.
  unfold st_lift in Hc. injection Hc as Hc _. unfold Executor.Executor_ctor in Hc.
  destruct (ws <? 0)%Z; [done|]. destruct (Executor.waitset_attach _ _ _) as [r1 e1].
  destruct (r1 <? 0)%Z; [done|]. destruct (Executor.waitset_attach _ _ _) as [r2 e2].
  destruct (r2 <? 0)%Z; [done|]. injection Hc as <-. simpl. eauto.
Qed.

(** A new executor with one empty node refers to no subscription. *)
Lemma add_node_empty (e0 : E) h c w n ws :
  Executor.entities_ (h 0) = [] ->
  let x := Executor.add_node 0 (Executor.mk_exec e0 h c w false [] ∅ ∅ 2) in
  Executor.nodes_ x = [0] /\ forall y, ~ refers (mk_entry n (mk_executor_obj ws x) ∅ ∅) y.
Proof.
  intros Hh x. set (x0 := Executor.enlist 0 (Executor.mk_exec e0 h c w false [] ∅ ∅ 2)).
  assert (Hr : Executor.nodes_ x = [0] /\ Executor.heap x = h).
  { unfold x, Executor.add_node. cbn [Executor.trigger Executor.set_env Executor.nodes_ Executor.heap].
    fold x0. unfold Executor.reconcile_locked, Executor.reconcile_with. by destruct (foldl _ _ _) as [[[e1 m1] n1] c1]. }
  destruct Hr as [Hn Hx]. split; [done|]. intros y [[k Hk]|[(en & Hen & _)|(i & att & en & Hi & He & _)]]; simpl in *.
  - by rewrite lookup_empty in Hk.
  - rewrite Hx, Hh in Hen. by apply not_elem_of_nil in Hen.
  - fold x0 in Hi. destruct (Executor.reconcile_entities x0 i att en Hi He) as [Ha|(m & Hm & Hin)].
    + simpl in Ha. by rewrite lookup_empty in Ha.
    + apply list_elem_of_singleton in Hm as ->. simpl in Hin. rewrite Hh in Hin. by apply not_elem_of_nil in Hin.
Qed.

Lemma NodeCreate_spec bits qc dom nw name ns s o s' :
  NodeCreate_ bits qc dom nw name ns s = (o, s') ->
  match o with
  | Ok h => h = g_next_handle s /\ exists f n x,
      Executor.nodes_ (ex x) = [0] /\ (forall y, ~ refers (mk_entry n x ∅ ∅) y) /\
      s' = mk_ffi f (objs s) (<[next_addr s := mk_entry n x ∅ ∅]> (entries s))
             (<[h := next_addr s]> (g_registry s)) (h + 1) (S (next_addr s)) (in_call s) (closing s) (orphans s)
  | Throw _ => exists f, s' = set_fac f s
  | Undefined => (g_next_handle s = 2 ^ 63 - 1)%Z
  end.
Proof.
  unfold NodeCreate_. intros [(n & s1 & Hn & Hk)|[(e & Hn & ->)|[Hn ->]]]%st_bind_inv;
    apply on_fac_inv in Hn as (f1 & Hn & ->).
  2: by eexists.
  2: { by destruct (node_ctor_defined bits qc name ns dom (fac s)); rewrite Hn. }
  apply st_bind_inv in Hk as [(x & s1 & Hx & Hk)|[(e & Hx & ->)|[Hx ->]]];
    apply on_fac_inv in Hx as (f2 & Hx & ->).
  2: by eexists.
  - unfold cleanup, st_try in Hx.
    destruct (Executor_new nw (fun _ => Executor.mk_node [] 0 (change_guard_ n)) (fac (set_fac f1 s)))
      as [[x0|e|] f3] eqn:Ex; [|by apply st_bind_inv_Ok in Hx as (? & ? & _ & ?)|done].
    injection Hx as -> ->. apply executor_new_inv in Ex as (e0 & c & w & Ex). rewrite Ex in Hk.
    apply st_bind_inv in Hk as [(h & s1 & Ha & Hk)|[(e & Ha & ->)|[Ha ->]]];
      apply alloc_handle_inv in Ha as [(Ho & -> & Hh)|(Hh & Ho & ->)]; try done.
    injection Ho as ->. cbv [alloc_object put_entry st_modify mbind stM_bind mret stM_ret] in Hk. simpl in Hk.
    injection Hk as <- <-. split; [done|].
    destruct (add_node_empty e0 (fun _ => Executor.mk_node [] 0 (change_guard_ n)) c w n (waitset_ x) eq_refl) as [Hn0 Hr].
    exists f2, n. eexists (mk_executor_obj _ _). split_and!; [exact Hn0|exact Hr|done].
  - assert (Hd : st_defined (cleanup (Node_dtor n (mret tt)) (Executor_new nw (fun _ => Executor.mk_node [] 0 (change_guard_ n))))).
    { apply cleanup_defined; [unfold Node_dtor; auto 10 with rcl|]. unfold Executor_new.
      apply st_defined_bind; [auto with rcl|]. intros c. apply st_defined_bind; [auto with rcl|]. intros w.
      apply cleanup_defined; [auto with rcl|]. apply st_defined_bind; [auto with rcl|]. intros ws.
      apply st_defined_bind; [|auto with rcl]. apply st_defined_lift. unfold Executor.Executor_ctor.
      repeat case_match; done. }
    by destruct (Hd (fac (set_fac f1 s))); rewrite Hx.
Qed.

Lemma find_entry_spec {A} (get : NodeEntry E -> option A) s l :
  (forall n a, (n, a) ∈ l -> is_Some (entries s !! a)) ->
  exists r, find_entry get l s = (Ok r, s) /\
    match r with
    | Some (a, e, p) => exists n, (n, a) ∈ l /\ entries s !! a = Some e /\ get e = Some p
    | None => forall n a e, (n, a) ∈ l -> entries s !! a = Some e -> get e = None
    end.
Proof.
  induction l as [|[n a] l IH]; intros Hl; simpl.
  { exists None. split; [done|]. intros ? ? ? []%not_elem_of_nil. }
  destruct (Hl n a) as [e He]; [set_solver|]. unfold mbind, stM_bind, entry_at. rewrite He.
  destruct (get e) as [p|] eqn:Ep.
  - exists (Some (a, e, p)). split; [done|]. exists n. set_solver.
  - destruct IH as (r & -> & Hr); [set_solver|]. exists r. split; [done|]. destruct r as [[[a' e'] p]|].
    + destruct Hr as (n' & Hin & Hr). exists n'. set_solver.
    + intros n' a' e' [[= -> ->]|Hin]%elem_of_cons; naive_solver.
Qed.

Variable order : gmap Z nat -> list (Z * nat).
Hypothesis order_perm : forall m, order m ≡ₚ map_to_list m.

(** The search over the registry of a well-formed state. *)
Lemma find_registry {A} (get : NodeEntry E -> option A) s :
  ffi_inv s ->
  exists r, find_entry get (order (g_registry s)) s = (Ok r, s) /\
    match r with
    | Some (a, e, p) => exists n, g_registry s !! n = Some a /\ entries s !! a = Some e /\ get e = Some p
    | None => forall n a e, g_registry s !! n = Some a -> entries s !! a = Some e -> get e = None
    end.
Proof.
  intros Hi. destruct (find_entry_spec get s (order (g_registry s))) as (r & Hr & Hs).
  { intros n a Hin. rewrite order_perm, elem_of_map_to_list in Hin. apply (inv_entries s Hi). left. eauto. }
  exists r. split; [done|]. destruct r as [[[a e] p]|].
  - destruct Hs as (n & Hin & Hs). rewrite order_perm, elem_of_map_to_list in Hin. eauto.
  - intros n a e Hn. apply (Hs n). by rewrite order_perm, elem_of_map_to_list.
Qed.

Lemma registered_entry s h a : ffi_inv s -> g_registry s !! h = Some a -> exists e, entries s !! a = Some e.
Proof. intros Hi Hh. apply (inv_entries s Hi). left. eauto. Qed.

Lemma PubCreate_spec qc h topic type depth r l s o s' :
  ffi_inv s -> PubCreate_ qc h topic type depth r l s = (o, s') ->
  match o with
  | Ok ph => ph = g_next_handle s /\ exists f a e p,
      g_registry s !! h = Some a /\ entries s !! a = Some e /\ pub_topic p = topic /\
      s' = mk_ffi f (objs s) (<[a := mk_entry (node e) (executor e) (<[ph := p]> (pubs e)) (subs e)]> (entries s))
             (g_registry s) (ph + 1) (next_addr s) (in_call s) (closing s) (orphans s)
  | Throw _ => exists f, s' = set_fac f s
  | Undefined => (g_next_handle s = 2 ^ 63 - 1)%Z
  end.
Proof.
  intros Hi. unfold PubCreate_.
  assert (Hself : exists f, s = set_fac f s) by (exists (fac s); by destruct s).
  assert (Htype : dds_type_name type <> Undefined) by (unfold dds_type_name; repeat case_match; done).
  assert (Htopic : ros_to_dds_topic_name topic <> Undefined).
  { unfold ros_to_dds_topic_name, validate_fqn. repeat case_match; done. }
  rewrite st_lift_bind.
  destruct (dds_type_name type) as [t|e|]; [|by intros [= <- <-]|done].
  destruct (g_registry s !! h) as [a|] eqn:Hh.
  2: { rewrite lookup_none by done. by intros [= <- <-]. }
  destruct (registered_entry s h a Hi Hh) as [e He]. rewrite (lookup_inv h s a e Hh He).
  rewrite st_lift_bind.
  destruct (ros_to_dds_topic_name topic) as [dt|x|]; [|by intros [= <- <-]|done].
  intros [(wr & s1 & Hw & Hk)|[(x & Hw & ->)|[Hw ->]]]%st_bind_inv;
    apply on_fac_inv in Hw as (f1 & Hw & ->); [|by eexists|].
  - apply st_bind_inv in Hk as [(ph & s1 & Ha & Hk)|[(x & Ha & ->)|[Ha ->]]];
      apply alloc_handle_inv in Ha as [(Ho & -> & Hn)|(Hn & Ho & ->)]; try done.
    injection Ho as ->. cbv [put_entry st_modify mbind stM_bind mret stM_ret] in Hk. simpl in Hk.
    injection Hk as <- <-. split; [done|]. by exists f1, a, e, (mk_pub topic t wr).
  - by destruct (makes_defined _ _ (Writer_ctor_makes qc (create_raw_sertype t) dt (qos_from_args depth r l)) (fac s)); rewrite Hw.
Qed.

Lemma SubCreate_spec qc h topic type depth r l cb s o s' :
  ffi_inv s -> SubCreate_ qc h topic type depth r l cb s = (o, s') ->
  match o with
  | Ok sh => sh = g_next_handle s /\ exists f a e x y,
      g_registry s !! h = Some a /\ entries s !! a = Some e /\
      sub_callback x = cb /\ closed x = false /\ sub_topic x = topic /\
      y = with_executor (Executor.add_entity 0 (Executor.mk_entity (next_addr s) (snd (sub_reader x)))) e /\
      s' = mk_ffi f (<[next_addr s := x]> (objs s))
             (<[a := mk_entry (node y) (executor y) (pubs y) (<[sh := next_addr s]> (subs y))]> (entries s))
             (g_registry s) (sh + 1) (S (next_addr s)) (in_call s) (closing s) (orphans s)
  | Throw _ => exists f, s' = set_fac f s
  | Undefined => (g_next_handle s = 2 ^ 63 - 1)%Z
  end.
Proof.
  intros Hi. unfold SubCreate_.
  assert (Hself : exists f, s = set_fac f s) by (exists (fac s); by destruct s).
  assert (Htype : dds_type_name type <> Undefined) by (unfold dds_type_name; repeat case_match; done).
  assert (Htopic : ros_to_dds_topic_name topic <> Undefined).
  { unfold ros_to_dds_topic_name, validate_fqn. repeat case_match; done. }
  rewrite st_lift_bind.
  destruct (dds_type_name type) as [t|e|]; [|by intros [= <- <-]|done].
  destruct (g_registry s !! h) as [a|] eqn:Hh.
  2: { rewrite lookup_none by done. by intros [= <- <-]. }
  destruct (registered_entry s h a Hi Hh) as [e He]. rewrite (lookup_inv h s a e Hh He).
  rewrite st_lift_bind.
  destruct (ros_to_dds_topic_name topic) as [dt|x|]; [|by intros [= <- <-]|done].
  intros [(rd & s1 & Hw & Hk)|[(x & Hw & ->)|[Hw ->]]]%st_bind_inv;
    apply on_fac_inv in Hw as (f1 & Hw & ->); [|by eexists|].
  - cbv [alloc_object put_entry st_modify] in Hk. unfold mbind at 1 2 3, stM_bind at 1 2 3 in Hk. cbn [fst snd] in Hk.
    apply st_bind_inv in Hk as [(ph & s1 & Ha & Hk)|[(x & Ha & ->)|[Ha ->]]];
      apply alloc_handle_inv in Ha as [(Ho & -> & Hn)|(Hn & Ho & ->)]; try done.
    injection Ho as ->. cbv [put_entry st_modify mbind stM_bind mret stM_ret] in Hk. simpl in Hk.
    injection Hk as <- <-. split; [done|].
    exists f1, a, e, (mk_sub topic t rd cb false). eexists. split_and!; try done.
    simpl. by rewrite insert_insert_eq.
  - by destruct (makes_defined _ _ (Reader_ctor_makes qc (create_raw_sertype t) dt (qos_from_args depth r l)) (fac s)); rewrite Hw.
Qed.

(** The publisher with handle [h], wherever it is registered. *)
Definition publisher s (h : Z) (p : PubEntry) : Prop :=
  exists n a e, g_registry s !! n = Some a /\ entries s !! a = Some e /\ pubs e !! h = Some p.
Definition no_publisher s (h : Z) : Prop :=
  forall n a e, g_registry s !! n = Some a -> entries s !! a = Some e -> pubs e !! h = None.

Lemma Writer_write_run bits wr type payload (f : F) :
  in_u bits (Z.of_nat (length payload)) ->
  Writer_write (W := F) (H := writer_at wr) bits (create_raw_sertype type) payload f =
  (Ok (fst (write_on wr (mk_serdata (Some (create_raw_sertype type)) (padded payload)) f) =? 0)%Z,
   snd (write_on wr (mk_serdata (Some (create_raw_sertype type)) (padded payload)) f)).
Proof.
  intros Hl. unfold Writer_write, st_lift, st_run, mbind, stM_bind. cbn [dds_writecdr writer_at].
  rewrite raw_serdata_from_blob_spec, uwrap_small, Z.eqb_refl by done. by destruct (write_on _ _ f).
Qed.

Lemma Writer_write_defined bits wr type payload : st_defined (Writer_write (W := F) (H := writer_at wr) bits type payload).
Proof.
  intros f. unfold Writer_write, st_lift, st_run, mbind, stM_bind. cbn [dds_writecdr writer_at].
  rewrite raw_serdata_from_blob_spec. destruct (_ =? _)%Z; simpl; [|done]. by destruct (write_on _ _ f).
Qed.

Lemma PubPublish_spec bits h payload s :
  ffi_inv s ->
  (no_publisher s h /\ PubPublish_ bits order h payload s = (Throw ValueError, s)) \/
  (exists p, publisher s h p /\
     PubPublish_ bits order h payload s =
     match check_cdr_payload payload with
     | Ok _ => (let* sent := on_fac (Writer_write (W := F) (H := writer_at (pub_writer p)) bits (create_raw_sertype (pub_type p)) payload) in
                if sent : bool then mret tt else st_throw ValueError) s
     | Throw e => (Throw e, s)
     | Undefined => (Undefined, s)
     end).
Proof.
  intros Hi. destruct (find_registry (fun e => pubs e !! h) s Hi) as (r & Hr & Hs).
  destruct r as [[[a e] p]|].
  - right. destruct Hs as (n & Hn & He & Hp). exists p. split; [by exists n, a, e|].
    unfold PubPublish_, find_pub. unfold mbind at 1, stM_bind at 1, st_get. rewrite (st_bind_Ok _ _ _ _ _ Hr).
    refine (eq_trans (st_lift_bind _ _ _) _). by destruct (check_cdr_payload payload).
  - left. split; [done|]. unfold PubPublish_, find_pub. unfold mbind at 1, stM_bind at 1, st_get. rewrite (st_bind_Ok _ _ _ _ _ Hr). done.
Qed.

Lemma PubDestroy_spec h s :
  ffi_inv s ->
  (no_publisher s h /\ PubDestroy_ order h s = (Ok tt, s)) \/
  (exists n a e p f, g_registry s !! n = Some a /\ entries s !! a = Some e /\ pubs e !! h = Some p /\
     PubDestroy_ order h s =
       (Ok tt, set_fac f (set_entries (<[a := mk_entry (node e) (executor e) (delete h (pubs e)) (subs e)]> (entries s)) s))).
Proof.
  intros Hi. destruct (find_registry (fun e => pubs e !! h) s Hi) as (r & Hr & Hs).
  destruct r as [[[a e] p]|]; [right|left; split; [done|]; unfold PubDestroy_, find_pub; unfold mbind at 1, stM_bind at 1, st_get; rewrite (st_bind_Ok _ _ _ _ _ Hr); done].
  destruct Hs as (n & Hn & He & Hp). destruct (Writer_dtor_ok (pub_writer p) (fac s)) as (f & Hf & _).
  exists n, a, e, p, f. split_and!; [done..|]. unfold PubDestroy_, find_pub. unfold mbind at 1, stM_bind at 1, st_get. rewrite (st_bind_Ok _ _ _ _ _ Hr). cbv [put_entry st_modify]. unfold mbind, stM_bind.
  by apply on_fac_run.
Qed.

(* ------------------------------------------------------------------ *)
(** ** Every step keeps exactly what is referenced *)

Lemma inv_init (f : F) : ffi_inv (ffi_init f : Ffi F E Cb).
Proof.
  assert (Hno : forall x, ~ referenced (ffi_init f : Ffi F E Cb) x).
  { intros x [(a & e & Ha & _)|[(t & c & Ht & _)|[(t & c & Ht & _)|(a & o & en & Ho & _)]]]; simpl in *; by rewrite lookup_empty in *. }
  split; simpl.
  - intros x. rewrite lookup_empty. split; [by intros []|]. by intros ?%Hno.
  - intros a. rewrite lookup_empty. split; [by intros []|].
    intros [(h & Hh)|(t & c & Ht & _)]; simpl in *; by rewrite lookup_empty in *.
  - intros a. rewrite !lookup_empty. by intros [[]|[[]|[]]].
  - intros a e. by rewrite lookup_empty.
  - intros h h' a. by rewrite lookup_empty.
  - intros a. rewrite lookup_empty. split; [by intros []|]. intros [_ (t & c & Ht & _)]. simpl in Ht. by rewrite lookup_empty in Ht.
  - intros t c o. by rewrite lookup_empty.
Qed.

Lemma inv_fac f s : ffi_inv s -> ffi_inv (set_fac f s).
Proof. intros [? ? ? ? ? ? ?]. split; done. Qed.

(** What holds before a [shared_ptr] ends: there may be unreferenced objects. *)
Record ffi_pre s : Prop := {
  pre_objs : forall x, referenced s x -> is_Some (objs s !! x);
  pre_entries : forall a, is_Some (entries s !! a) <-> held s a;
  pre_addr : forall a, is_Some (objs s !! a) \/ is_Some (entries s !! a) \/ is_Some (orphans s !! a) -> a < next_addr s;
  pre_nodes : forall a e, entries s !! a = Some e -> Executor.nodes_ (ex (executor e)) = [0];
  pre_inj : forall h h' a, g_registry s !! h = Some a -> g_registry s !! h' = Some a -> h = h';
  pre_orphans : forall a, is_Some (orphans s !! a) <-> entries s !! a = None /\ wants_node s a;
  pre_closed : forall t c o, closing s !! t = Some c -> cl_stage c <> ToClose -> objs s !! cl_sub c = Some o -> closed o = true
}.

Lemma inv_pre s : ffi_inv s -> ffi_pre s.
Proof. intros [Ho ? ? ? ? ? ?]. split; [|done..]. intros x. apply Ho. Qed.

Lemma pre_inv s : ffi_pre s -> (forall x, is_Some (objs s !! x) -> referenced s x) -> ffi_inv s.
Proof. intros [Ho ? ? ? ? ? ?] Hr. split; [|done..]. intros x. split; [apply Hr|apply Ho]. Qed.

Lemma inv_release f s : ffi_pre s -> ffi_inv (set_fac f (forget (unheld s) s)).
Proof.
  intros [Ho He Ha Hn Hj Hor Hc].
  assert (Hf : forall x o, objs (set_fac f (forget (unheld s) s)) !! x = Some o <-> objs s !! x = Some o /\ referenced s x)
    by (intros; apply lookup_forget).
  split; [|done| |done|done|done|].
  - intros x. rewrite (referenced_same s) by done. split.
    + intros [o Hx]. by apply Hf in Hx as [_ ?].
    + intros Hx. destruct (Ho x Hx) as [o Hs]. exists o. by apply Hf.
  - intros a [[o Hx]|?]; [|by apply Ha; right]. apply Hf in Hx as [? _]. apply Ha. left. eauto.
  - intros t c o Ht Hs [Hx _]%Hf. by apply (Hc t c o).
Qed.

(** A node that is wanted exists. *)
Lemma wanted_exists s a : ffi_inv s -> wants_node s a -> is_Some (entries s !! a) \/ is_Some (orphans s !! a).
Proof.
  intros Hi Hw. destruct (entries s !! a) as [e|] eqn:He; [left; eauto|right]. by apply (inv_orphans s Hi).
Qed.

Lemma wanted_lt s a : ffi_inv s -> wants_node s a -> a < next_addr s.
Proof. intros Hi Hw. apply (inv_addr s Hi). right. by apply wanted_exists. Qed.

Lemma closing_sub_lt s t c : ffi_inv s -> closing s !! t = Some c -> cl_sub c < next_addr s.
Proof. intros Hi Ht. apply (inv_addr s Hi). left. apply (inv_objs s Hi). right. right. left. eauto. Qed.

Lemma dom_put {A} (m : gmap nat A) a v v' b : m !! a = Some v -> is_Some (<[a := v']> m !! b) <-> is_Some (m !! b).
Proof.
  intros Ha. destruct (decide (a = b)) as [<-|]; [|by rewrite lookup_insert_ne]. rewrite lookup_insert_eq. split; eauto.
Qed.

Lemma none_put {A} (m : gmap nat A) a v v' b : m !! a = Some v -> <[a := v']> m !! b = None <-> m !! b = None.
Proof. intros Ha. by rewrite !eq_None_not_Some, (dom_put m a v). Qed.

Lemma pre_put a e e' s :
  entries s !! a = Some e -> Executor.nodes_ (ex (executor e')) = [0] ->
  (forall x, refers e' x -> refers e x) -> ffi_pre s -> ffi_pre (set_entries (<[a := e']> (entries s)) s).
Proof.
  intros Ha Hn Hr [Ho He Had Hns Hj Hor Hc]. split; [| | | |done| |done].
  - intros x Hx. apply Ho. eapply referenced_put; [done| |done]. naive_solver.
  - intros b. simpl. rewrite (dom_put _ a e) by done. apply He.
  - intros b. simpl. rewrite (dom_put _ a e) by done. apply Had.
  - intros b e1. simpl. intros [[<- <-]|[_ Hb]]%lookup_insert_Some; [done|by eapply Hns].
  - intros b. simpl. rewrite (none_put _ a e) by done. apply Hor.
Qed.

(** A new version of an entry that keeps the references to all but one
    subscription, which a call in progress refers to. *)
Lemma inv_put a e e' s :
  entries s !! a = Some e -> Executor.nodes_ (ex (executor e')) = [0] ->
  (forall x, refers e' x -> refers e x) -> (forall x, refers e x -> refers e' x \/ pinned s x) ->
  ffi_inv s -> ffi_inv (set_entries (<[a := e']> (entries s)) s).
Proof.
  intros Ha Hn Hr Hr' Hi. apply pre_inv; [by apply (pre_put a e), inv_pre|].
  intros x Hx. apply (inv_objs s Hi) in Hx as [(b & e1 & Hb & Hx)|?]; [|by right].
  destruct (decide (a = b)) as [<-|].
  - simplify_eq. destruct (Hr' x Hx) as [?|]; [|by right]. left. exists a, e'. simpl. by rewrite lookup_insert_eq.
  - left. exists b, e1. simpl. by rewrite lookup_insert_ne.
Qed.

Lemma next_fresh s :
  ffi_inv s -> objs s !! next_addr s = None /\ entries s !! next_addr s = None /\ orphans s !! next_addr s = None.
Proof.
  intros Hi. pose proof (inv_addr s Hi (next_addr s)) as Hl. rewrite !eq_None_not_Some.
  split_and!; intros Hx; [assert (next_addr s < next_addr s) by auto..]; lia.
Qed.

Lemma inv_node_create (f : F) n (x : ExecutorObj E) h s :
  ffi_inv s -> Executor.nodes_ (ex x) = [0] -> (forall y, ~ refers (mk_entry n x ∅ ∅) y) -> g_registry s !! h = None ->
  ffi_inv (mk_ffi f (objs s) (<[next_addr s := mk_entry n x ∅ ∅]> (entries s)) (<[h := next_addr s]> (g_registry s))
             (h + 1) (S (next_addr s)) (in_call s) (closing s) (orphans s)).
Proof.
  intros Hi Hn Hr Hh. destruct (next_fresh s Hi) as (_ & Hfresh & Hforph).
  assert (Hreg : forall h' a, g_registry s !! h' = Some a -> a <> next_addr s).
  { intros h' a Hh' ->. destruct (registered_entry s h' _ Hi Hh') as [e He]. by rewrite Hfresh in He. }
  split; simpl.
  - intros y. rewrite (inv_objs s Hi). unfold referenced. simpl. apply or_iff_compat_r. split.
    + intros (a & e & Ha & Hy). exists a, e. split; [|done]. by rewrite lookup_insert_ne by congruence.
    + intros (a & e & [[_ <-]|[_ Ha]]%lookup_insert_Some & Hy); [by apply Hr in Hy|eauto].
  - intros a. rewrite lookup_insert_is_Some, (inv_entries s Hi). unfold held. simpl. split.
    + intros [->|[Ha [(h' & Hh')|?]]]; [left; exists h; by rewrite lookup_insert_eq| |by right].
      left. exists h'. rewrite lookup_insert_ne; [done|]. congruence.
    + intros [(h' & Hh')|Hsp].
      * apply lookup_insert_Some in Hh' as [[_ <-]|[_ Hh']]; [by left|]. right. split; [|eauto].
        intros <-. by eapply Hreg.
      * right. split; [|by right]. intros <-.
        destruct (proj2 (inv_entries s Hi (next_addr s))) as [e He]; [by right|]. by rewrite Hfresh in He.
  - intros a Ha. destruct (decide (a = next_addr s)); [lia|].
    rewrite lookup_insert_ne in Ha by done. apply (inv_addr s Hi) in Ha. lia.
  - intros a e [[_ <-]|[_ Ha]]%lookup_insert_Some; [done|by eapply (inv_nodes s Hi)].
  - intros h1 h2 a [[<- <-]|[? H1']]%lookup_insert_Some [[<- Heq]|[? H2']]%lookup_insert_Some; try done.
    + by apply Hreg in H2'.
    + subst. by apply Hreg in H1'.
    + by eapply (inv_inj s Hi).
  - intros a. change (wants_node _ a) with (wants_node s a). destruct (decide (a = next_addr s)) as [->|].
    + rewrite Hforph, lookup_insert_eq. split; [by intros []|by intros []].
    + rewrite lookup_insert_ne by done. apply (inv_orphans s Hi).
  - apply (inv_closed s Hi).
Qed.

(** The entry of a node with a new subscription at [x]. *)
Definition subscribed (x : nat) (c h : Z) (e : NodeEntry E) : NodeEntry E :=
  let y := with_executor (Executor.add_entity 0 (Executor.mk_entity x c)) e in
  mk_entry (node y) (executor y) (pubs y) (<[h := x]> (subs y)).

Lemma refers_add x c h e (y : nat) :
  subs e !! h = None -> refers (subscribed x c h e) y <-> y = x \/ refers e y.
Proof.
  intros Hh. unfold refers. simpl. split.
  - intros [(k & [[_ <-]|[_ Hk]]%lookup_insert_Some)|[(en & [Hen| ->%list_elem_of_singleton]%elem_of_app & <-)|?]]; eauto 6.
  - intros [->|[[k Hk]|[(en & Hen & <-)|?]]]; [left|left|right; left|by right; right].
    + exists h. by rewrite lookup_insert_eq.
    + exists k. rewrite lookup_insert_ne; [done|]. intros <-. by rewrite Hh in Hk.
    + exists en. split; [|done]. apply elem_of_app. by left.
Qed.

Lemma refers_remove en e (y : nat) :
  refers (with_executor (Executor.remove_entity 0 en) e) y -> refers e y.
Proof.
  unfold refers. simpl.
  intros [?|[(en' & [_ Hen]%list_elem_of_filter & <-)|?]]; eauto 6.
Qed.

Lemma inv_sub_create (f : F) a e (o : SubEntry Cb) c h s :
  ffi_inv s -> entries s !! a = Some e -> subs e !! h = None ->
  ffi_inv (mk_ffi f (<[next_addr s := o]> (objs s)) (<[a := subscribed (next_addr s) c h e]> (entries s))
             (g_registry s) (h + 1) (S (next_addr s)) (in_call s) (closing s) (orphans s)).
Proof.
  intros Hi Ha Hh.
  split; simpl.
  - intros x. rewrite lookup_insert_is_Some, (inv_objs s Hi). unfold referenced. simpl. split.
    + intros [<-|[Hx [(b & e1 & Hb & Hr)|?]]]; [left| left |by right].
      * exists a, (subscribed (next_addr s) c h e). rewrite lookup_insert_eq, refers_add by done. auto.
      * destruct (decide (a = b)) as [<-|].
        -- simplify_eq. eexists a, _. rewrite lookup_insert_eq, refers_add by done. eauto.
        -- exists b, e1. by rewrite lookup_insert_ne.
    + intros [(b & e1 & [[<- <-]|[_ Hb]]%lookup_insert_Some & Hr)|Hsp].
      * apply refers_add in Hr as [->|Hr]; [by left| |done].
        destruct (decide (next_addr s = x)); [by left|]. right. split; [done|]. left. eauto.
      * destruct (decide (next_addr s = x)); [by left|]. right. split; [done|]. left. eauto.
      * destruct (decide (next_addr s = x)); [by left|]. right. split; [done|]. by right.
  - intros b. rewrite (dom_put _ a e) by done. apply (inv_entries s Hi).
  - intros b. rewrite (dom_put _ a e), lookup_insert_is_Some by done. intros Hb.
    destruct (decide (next_addr s = b)) as [<-|]; [lia|].
    assert (b < next_addr s); [|lia]. apply (inv_addr s Hi). naive_solver.
  - intros b e1 [[<- <-]|[_ Hb]]%lookup_insert_Some; [|by eapply (inv_nodes s Hi)]. simpl. by eapply (inv_nodes s Hi).
  - apply (inv_inj s Hi).
  - intros b. change (wants_node _ b) with (wants_node s b). rewrite (none_put _ a e) by done. apply (inv_orphans s Hi).
  - intros t cl o' Ht Hs [[Hx _]|[_ Hx]]%lookup_insert_Some; [|by apply (inv_closed s Hi t cl)].
    apply (closing_sub_lt s t cl Hi) in Ht. lia.
Qed.

(* ------------------------------------------------------------------ *)
(** ** Handles *)

Lemma handles_grow s s' new : handles_ok s -> grows s s' new -> handles_ok s'.
Proof.
  intros [Hp Hb Hu]. destruct new as [h0|]; simpl.
  - intros (-> & Hn & k0 & Hg). split; [lia| |].
    + intros h k [Hd|[-> _]]%Hg; [apply Hb in Hd|]; lia.
    + intros h k k' [Hd|[-> ->]]%Hg [Hd'|[Heq ->]]%Hg; try done; [by eapply Hu|apply Hb in Hd; lia|apply Hb in Hd'; lia].
  - intros [Hn Hg]. split; [by rewrite Hn| |].
    + intros h k Hd%Hg. rewrite Hn. by apply Hb in Hd.
    + intros h k k' Hd%Hg Hd'%Hg. by eapply Hu.
Qed.

Lemma grows_same s s' :
  g_next_handle s' = g_next_handle s -> g_registry s' = g_registry s -> entries s' = entries s -> grows s s' None.
Proof. intros Hn Hr He. split; [done|]. intros h [a|a|a]; simpl; by rewrite Hr, ?He. Qed.

(** The endpoints of a new version of an entry. *)
Lemma designates_put a e e' s h k :
  entries s !! a = Some e -> designates (set_entries (<[a := e']> (entries s)) s) h k ->
  designates s h k \/
  (k = SPub a /\ pubs e !! h = None /\ is_Some (pubs e' !! h)) \/
  (k = SSub a /\ subs e !! h = None /\ is_Some (subs e' !! h)).
Proof.
  intros He. destruct k as [b|b|b]; simpl; [by left| |].
  - intros (n & e1 & p & Hn & [[<- <-]|[_ Hb]]%lookup_insert_Some & Hp); [|left; eauto 6].
    destruct (pubs e !! h) as [p'|] eqn:Ep; [left; eauto 6|right; left; eauto].
  - intros (n & e1 & x & Hn & [[<- <-]|[_ Hb]]%lookup_insert_Some & Hp); [|left; eauto 6].
    destruct (subs e !! h) as [x'|] eqn:Ep; [left; eauto 6|right; right; eauto].
Qed.

(** An entry that gains no endpoint. *)
Lemma grows_put f a e e' s :
  entries s !! a = Some e ->
  (forall h, pubs e !! h = None -> pubs e' !! h = None) -> (forall h, subs e !! h = None -> subs e' !! h = None) ->
  grows s (set_fac f (set_entries (<[a := e']> (entries s)) s)) None.
Proof.
  intros He Hp Hs. split; [done|]. intros h k Hd.
  change (designates (set_entries (<[a := e']> (entries s)) s) h k) in Hd.
  destruct (designates_put a e e' s h k He Hd) as [?|[(_ & Hn & [x Hx])|(_ & Hn & [x Hx])]]; [done| |].
  - by rewrite (Hp h Hn) in Hx.
  - by rewrite (Hs h Hn) in Hx.
Qed.

Lemma fresh_in_registry s a h e :
  handles_ok s -> (g_next_handle s <= h)%Z -> g_registry s !! a = Some e -> a <> h.
Proof. intros Hk Hh Ha ->. apply (handle_bound s Hk _ (SNode e)) in Ha. lia. Qed.

Lemma grows_node_create (f : F) n x s :
  ffi_inv s -> handles_ok s ->
  grows s (mk_ffi f (objs s) (<[next_addr s := mk_entry n x ∅ ∅]> (entries s))
             (<[g_next_handle s := next_addr s]> (g_registry s)) (g_next_handle s + 1) (S (next_addr s)) (in_call s) (closing s) (orphans s))
    (Some (g_next_handle s)).
Proof.
  intros Hi Hk. split; [done|]. split; [done|]. exists (SNode (next_addr s)). intros h [a|a|a]; simpl.
  - intros [[<- <-]|[_ Ha]]%lookup_insert_Some; auto.
  - intros (m & e & p & Hm & [[<- <-]|[Hne Ha]]%lookup_insert_Some & Hp); [simpl in Hp; by rewrite lookup_empty in Hp|].
    apply lookup_insert_Some in Hm as [[_ <-]|[_ Hm]]; [done|]. left. eauto 6.
  - intros (m & e & p & Hm & [[<- <-]|[Hne Ha]]%lookup_insert_Some & Hp); [simpl in Hp; by rewrite lookup_empty in Hp|].
    apply lookup_insert_Some in Hm as [[_ <-]|[_ Hm]]; [done|]. left. eauto 6.
Qed.

(** An entry that gains the endpoint [k0]. *)
Lemma grows_add a e e' s s' k0 :
  entries s !! a = Some e -> g_registry s' = g_registry s -> entries s' = <[a := e']> (entries s) ->
  g_next_handle s' = (g_next_handle s + 1)%Z ->
  (forall h, pubs e !! h = None -> is_Some (pubs e' !! h) -> h = g_next_handle s /\ k0 = SPub a) ->
  (forall h, subs e !! h = None -> is_Some (subs e' !! h) -> h = g_next_handle s /\ k0 = SSub a) ->
  grows s s' (Some (g_next_handle s)).
Proof.
  intros He Hr Hen Hn Hp Hs. split; [done|]. split; [done|]. exists k0. intros h k Hd.
  assert (Hd' : designates (set_entries (<[a := e']> (entries s)) s) h k) by (destruct k; simpl in Hd |- *; rewrite ?Hr, ?Hen in Hd; exact Hd).
  destruct (designates_put a e e' s h k He Hd') as [?|[(-> & Hx & Hy)|(-> & Hx & Hy)]]; [by left| |]; right.
  - by destruct (Hp h Hx Hy) as [-> ->].
  - by destruct (Hs h Hx Hy) as [-> ->].
Qed.

(** Nothing is registered, and no entry gains an endpoint. *)
Lemma grows_subset s s' :
  g_next_handle s' = g_next_handle s -> (forall h a, g_registry s' !! h = Some a -> g_registry s !! h = Some a) ->
  (forall b e', entries s' !! b = Some e' -> exists e, entries s !! b = Some e /\ pubs e' ⊆ pubs e /\ subs e' ⊆ subs e) ->
  grows s s' None.
Proof.
  intros Hn Hr Hen. split; [done|]. intros k [b|b|b]; simpl; [apply Hr| |].
  - intros (n & e1 & p & Hb%Hr & (e2 & Hb1 & Hp & _)%Hen & Hk). apply (lookup_weaken _ _ _ _ Hk) in Hp. eauto 6.
  - intros (n & e1 & p & Hb%Hr & (e2 & Hb1 & _ & Hs)%Hen & Hk). apply (lookup_weaken _ _ _ _ Hk) in Hs. eauto 6.
Qed.

(** The result of a call: the next handle, if it creates something, or an
    exception that left the bindings as they were. *)
Definition call_result s (o : outcome (option Z)) s' : Prop :=
  match o with
  | Ok r => ffi_inv s' /\ grows s s' r
  | Throw _ => exists f, s' = set_fac f s
  | Undefined => (g_next_handle s = 2 ^ 63 - 1)%Z
  end.

Lemma publish_unknown bits h payload s :
  ffi_inv s -> no_publisher s h -> PubPublish_ bits order h payload s = (Throw ValueError, s).
Proof.
  intros Hi Hn. destruct (PubPublish_spec bits h payload s Hi) as [[_ ?]|(p & (n & a & e & Hr & He & Hp) & _)]; [done|].
  by rewrite (Hn n a e Hr He) in Hp.
Qed.

Lemma publish_result bits h payload s o s' :
  ffi_inv s -> PubPublish_ bits order h payload s = (o, s') -> o <> Undefined /\ exists f, s' = set_fac f s.
Proof.
  intros Hi Hp. assert (Hself : exists f, s = set_fac f s) by (exists (fac s); by destruct s).
  destruct (PubPublish_spec bits h payload s Hi) as [[_ Hr]|(p & _ & Hr)]; rewrite Hr in Hp; [by injection Hp as <- <-|].
  destruct (check_cdr_payload payload) as [u|e|] eqn:Hc; [|by injection Hp as <- <-|].
  - apply st_bind_inv in Hp as [(sent & s1 & Hw & Hk)|[(e & Hw & ->)|[Hw ->]]];
      apply on_fac_inv in Hw as (f & Hw & ->).
    + destruct sent; injection Hk as <- <-; split; [done|by eexists|done|by eexists].
    + split; [done|by eexists].
    + by destruct (Writer_write_defined bits (pub_writer p) (create_raw_sertype (pub_type p)) payload (fac s)); rewrite Hw.
  - unfold check_cdr_payload in Hc. by repeat case_match.
Qed.

Variable bits : Z.
Variable qc : bool.
Variable dom : Z.
Variable nw : Z -> E.

Lemma run_call_result c s o s' :
  ffi_inv s -> handles_ok s -> run_call bits qc dom nw order c s = (o, s') -> call_result s o s'.
Proof.
  intros Hi Hk. pose proof (handle_bound s Hk) as Hb.
  assert (Hfree : forall a e, (forall n, g_registry s !! n = Some a -> entries s !! a = Some e ->
    pubs e !! g_next_handle s = None /\ subs e !! g_next_handle s = None)).
  { intros a e n Hn He. split.
    - destruct (pubs e !! g_next_handle s) eqn:Ep; [|done].
      assert (Hd : designates s (g_next_handle s) (SPub a)) by (simpl; eauto 6). apply Hb in Hd. lia.
    - destruct (subs e !! g_next_handle s) eqn:Ep; [|done].
      assert (Hd : designates s (g_next_handle s) (SSub a)) by (simpl; eauto 6). apply Hb in Hd. lia. }
  destruct c as [name ns|h topic type d r l|h payload|h|h topic type d r l cb]; simpl.
  - intros [(v & s1 & Hc & Hr)|[(e & Hc & ->)|[Hc ->]]]%st_bind_inv; apply NodeCreate_spec in Hc; [|done..].
    injection Hr as <- <-. destruct Hc as (-> & f & n & x & Hn & Hrf & ->). split; [|by apply grows_node_create].
    apply inv_node_create; try done. destruct (g_registry s !! g_next_handle s) eqn:Eq; [|done].
    apply (Hb _ (SNode n0)) in Eq. lia.
  - intros [(v & s1 & Hc & Hr)|[(e & Hc & ->)|[Hc ->]]]%st_bind_inv; apply PubCreate_spec in Hc; try done.
    injection Hr as <- <-. destruct Hc as (-> & f & a & e & p & Ha & He & _ & ->). split.
    + apply (inv_fac f (mk_ffi f (objs s) _ (g_registry s) _ (next_addr s) (in_call s) (closing s) (orphans s))).
      destruct (inv_put a e (mk_entry (node e) (executor e) (<[g_next_handle s := p]> (pubs e)) (subs e)) s He
        (inv_nodes s Hi a e He) (fun x Hx => Hx) (fun x Hx => or_introl Hx) Hi). by split.
    + eapply (grows_add a e _ s _ (SPub a)); try done; simpl.
      * intros k Hk0 [p' Hp]. apply lookup_insert_Some in Hp as [[<- _]|[_ Hp]]; [done|]. by rewrite Hk0 in Hp.
      * intros k Hk0 [p' Hp]. by rewrite Hk0 in Hp.
  - intros [(v & s1 & Hc & Hr)|[(e & Hc & ->)|[Hc ->]]]%st_bind_inv; apply publish_result in Hc as [Ho [f ->]]; try done.
    + injection Hr as <- <-. split; [by apply inv_fac|by apply grows_same].
    + by exists f.
  - destruct (PubDestroy_spec h s Hi) as [[_ Hc]|(n & a & e & p & f & Hn & He & Hp & Hc)]; rewrite (st_bind_Ok _ _ _ _ _ Hc);
      intros [= <- <-].
    + split; [done|by apply grows_same].
    + split.
      * apply inv_fac, (inv_put a e); [done|exact (inv_nodes s Hi a e He)|done|by left|done].
      * apply (grows_put f a e); simpl; try done. intros k Hk0. rewrite lookup_delete_None. auto.
  - intros [(v & s1 & Hc & Hr)|[(e & Hc & ->)|[Hc ->]]]%st_bind_inv; apply SubCreate_spec in Hc; try done.
    injection Hr as <- <-. destruct Hc as (-> & f & a & e & x & y & Ha & He & _ & _ & _ & -> & ->).
    destruct (Hfree a e h Ha He) as [_ Hs]. split.
    + by apply (inv_sub_create f a e x (snd (sub_reader x)) (g_next_handle s) s Hi He Hs).
    + eapply (grows_add a e _ s _ (SSub a)); try done; simpl.
      * intros k Hk0 [p' Hp]. by rewrite Hk0 in Hp.
      * intros k Hk0 [p' Hp]. apply lookup_insert_Some in Hp as [[<- _]|[_ Hp]]; [done|]. by rewrite Hk0 in Hp.
Qed.

End calls.
