(* ===== verification/FfiThreads.v ===== *)
(** The calls of the bindings that run partly outside the registry lock, step by
    step: every step of every interleaving returns, keeps the invariant of
    FfiFacts.v, hands out no handle twice and reuses no address. *)
From Stdlib Require Import ZArith Lia Strings.Byte Sorting.Sorted.
From stdpp Require Import base tactics list numbers gmap fin_maps sets functions.
From S2P Require Import Prelude Bytes Message Dds NodeCtor.
From S2P Require Executor Graph.
From S2P Require Import Ffi FfiFacts.

Section threads.
Context {F E Cb : Type} `{DdsNodesLaws F} `{Executor.DdsWaitset E} `{Message Graph.ParticipantEntitiesInfo}.
Implicit Types s : Ffi F E Cb.

(* ------------------------------------------------------------------ *)
(** ** Addresses are not reused, closed subscriptions stay closed *)

Record ages s s' : Prop := {
  ages_addr : next_addr s <= next_addr s';
  ages_registry : forall h a, g_registry s' !! h = Some a -> g_registry s !! h = Some a \/ next_addr s <= a;
  ages_objs : forall x o', objs s' !! x = Some o' ->
    next_addr s <= x \/ exists o, objs s !! x = Some o /\ (closed o = true -> closed o' = true)
}.

Lemma ages_trans s1 s2 s3 : ages s1 s2 -> ages s2 s3 -> ages s1 s3.
Proof.
  intros [A1 R1 O1] [A2 R2 O2]. split; [lia| |].
  - intros h a [Ha|]%R2; [by apply R1|right; lia].
  - intros x o' Hx. destruct (O2 x o' Hx) as [|(o & Ho & Hc)]; [left; lia|].
    destruct (O1 x o Ho) as [|(o1 & Ho1 & Hc1)]; [by left|right; exists o1; auto].
Qed.

Lemma ages_subset s s' :
  next_addr s' = next_addr s -> (forall h a, g_registry s' !! h = Some a -> g_registry s !! h = Some a) ->
  (forall x o, objs s' !! x = Some o -> objs s !! x = Some o) -> ages s s'.
Proof. intros Ha Hr Ho. split; [lia|auto|]. intros x o Hx. right. eauto. Qed.

Lemma ages_same s s' :
  next_addr s' = next_addr s -> g_registry s' = g_registry s -> objs s' = objs s -> ages s s'.
Proof. intros Ha Hr Ho. apply ages_subset; [done| |]; by rewrite ?Hr, ?Ho. Qed.

(** What a step that creates nothing leaves. *)
Record kept s s' : Prop := {
  kept_inv : ffi_inv s';
  kept_grows : grows s s' None;
  kept_ages : ages s s'
}.

Lemma kept_same s s' :
  ffi_inv s' -> g_next_handle s' = g_next_handle s -> g_registry s' = g_registry s -> entries s' = entries s ->
  next_addr s' = next_addr s -> objs s' = objs s -> kept s s'.
Proof. intros. split; [done|by apply grows_same|by apply ages_same]. Qed.

Lemma kept_trans s1 s2 s3 : kept s1 s2 -> kept s2 s3 -> kept s1 s3.
Proof.
  intros [_ [Hn Hg] Ha] [Hi [Hn' Hg'] Ha']. split; [done| |by eapply ages_trans].
  split; [by rewrite Hn'|]. intros h k Hd. by apply Hg, Hg'.
Qed.

(** A new version of an entry, with no further endpoint. *)
Lemma kept_put a e e' s :
  ffi_inv s -> entries s !! a = Some e -> Executor.nodes_ (ex (executor e')) = [0] ->
  (forall x, refers e' x -> refers e x) -> (forall x, refers e x -> refers e' x \/ pinned s x) ->
  pubs e' ⊆ pubs e -> subs e' ⊆ subs e -> kept s (set_entries (<[a := e']> (entries s)) s).
Proof.
  intros Hi He Hn Hr Hr' Hp Hs. split; [by apply (inv_put a e)| |by apply ages_same].
  apply grows_subset; [done..|]. intros b e1 Hb. simpl in Hb. apply lookup_insert_Some in Hb as [[<- <-]|[_ Hb]]; eauto.
Qed.

(** A step that ends with the destruction of what has no reference any more. *)
Lemma kept_release f s s1 :
  ffi_pre s1 -> g_next_handle s1 = g_next_handle s -> next_addr s1 = next_addr s -> g_registry s1 = g_registry s ->
  (forall b e', entries s1 !! b = Some e' -> exists e, entries s !! b = Some e /\ pubs e' ⊆ pubs e /\ subs e' ⊆ subs e) ->
  (forall x o, objs s1 !! x = Some o -> objs s !! x = Some o) ->
  kept s (set_fac f (forget (unheld s1) s1)).
Proof.
  intros Hp Hh Ha Hr He Ho. split; [by apply inv_release| |].
  - apply grows_subset; [done| |exact He]. intros h a. by rewrite <- Hr.
  - apply ages_subset; [done| |]; [intros h a; by rewrite <- Hr|].
    intros x o Hx. change (objs (forget (unheld s1) s1) !! x = Some o) in Hx. apply lookup_forget in Hx as [? _]. auto.
Qed.

(* ------------------------------------------------------------------ *)
(** ** Calls that hold an entry *)

Lemma inv_enter t c m s :
  ffi_inv s -> in_call s !! t = None -> ic_sub c = None -> m ⊆ g_registry s ->
  (forall b, (exists h, g_registry s !! h = Some b) <-> (exists h, m !! h = Some b) \/ ic_entry c = b) ->
  ffi_inv (set_in_call (<[t := c]> (in_call s)) (set_registry m s)).
Proof.
  intros [Ho He Had Hns Hj Hor Hc] Ht Hsub Hm Hb. split; [| |done|done| |done|done].
  - intros x. simpl. rewrite Ho. apply or_iff_compat_l, or_iff_compat_r. simpl. split.
    + intros (u & d & Hu & Hx). exists u, d. rewrite lookup_insert_ne; [done|]. intros <-. by rewrite Ht in Hu.
    + intros (u & d & [[_ <-]|[_ Hu]]%lookup_insert_Some & Hx); [by rewrite Hsub in Hx|eauto].
  - intros b. simpl. rewrite He. unfold held. simpl. rewrite Hb. split.
    + intros [[?|?]|(u & d & Hu & Hx)]; [by left|right; exists t, c; by rewrite lookup_insert_eq|right].
      exists u, d. rewrite lookup_insert_ne; [done|]. intros <-. by rewrite Ht in Hu.
    + intros [?|(u & d & [[_ <-]|[_ Hu]]%lookup_insert_Some & Hx)]; [by left; left|by left; right|right; eauto].
  - intros h h' a Hh Hh'. eapply Hj; by eapply lookup_weaken.
Qed.

Lemma begin_kept g t h a s s' :
  ffi_inv s -> in_call s !! t = None -> begin_call g t h s = (Ok a, s') ->
  kept s s' /\ s' = set_in_call (<[t := mk_in_call g a None]> (in_call s)) s /\ g_registry s !! h = Some a.
Proof.
  intros Hi Ht. unfold begin_call. destruct (g_registry s !! h) as [b|] eqn:Hh; [|by rewrite lookup_none].
  unfold lookup, mbind, stM_bind. rewrite Hh. cbv [st_modify mret stM_ret]. intros [= <- <-].
  split; [|done]. apply kept_same; [|done..].
  pose proof (inv_enter t (mk_in_call g b None) (g_registry s) s Hi Ht eq_refl) as Hin. destruct s; simpl in *.
  apply Hin; [done|]. intros c. split; [by left|]. intros [?|<-]; eauto.
Qed.

Definition unregister (h : Z) (t a : nat) s : Ffi F E Cb :=
  set_in_call (<[t := mk_in_call Requesting a None]> (in_call s)) (set_registry (delete h (g_registry s)) s).

Lemma NodeDestroy_begin_kept t h s :
  ffi_inv s -> in_call s !! t = None ->
  exists s', NodeDestroy_begin t h s = (Ok (g_registry s !! h), s') /\ kept s s' /\
    s' = match g_registry s !! h with Some a => unregister h t a s | None => s end.
Proof.
  intros Hi Ht. unfold NodeDestroy_begin. unfold mbind at 1, stM_bind at 1, st_get.
  destruct (g_registry s !! h) as [a|] eqn:Hh.
  2: { exists s. split_and!; [done| |done]. by apply kept_same. }
  exists (unregister h t a s). split_and!; [done| |done].
  assert (Hsub : forall k b, delete h (g_registry s) !! k = Some b -> g_registry s !! k = Some b).
  { by intros k b [_ ?]%lookup_delete_Some. }
  split.
  - apply inv_enter; [done..|by apply map_subseteq_spec|]. intros b. split.
    + intros [k Hk]. destruct (decide (k = h)) as [->|]; [right; by simplify_eq|left]. exists k. by rewrite lookup_delete_ne.
    + intros [[k Hk%Hsub]|<-]; eauto.
  - apply grows_subset; [done|done|]. intros b e Hb. eauto.
  - by apply ages_subset.
Qed.

(** A call that changes its stage, or what it dispatches. *)
Lemma pre_stage t c c' s :
  ffi_inv s -> in_call s !! t = Some c -> ic_entry c' = ic_entry c -> (forall z, ic_sub c' = Some z -> referenced s z) ->
  ffi_pre (set_in_call (<[t := c']> (in_call s)) s).
Proof.
  intros Hi Ht He Hy. destruct (inv_pre s Hi) as [Ho Hen Had Hns Hj Hor Hc]. split; [| |done..].
  - intros z [Hz|[(u & d & Hu & Hz)|Hz]]; [apply Ho; by left| |apply Ho; right; by right]. simpl in Hu.
    apply lookup_insert_Some in Hu as [[_ <-]|[_ Hu]]; [by apply Ho, Hy|]. apply Ho. right. left. eauto.
  - intros b. simpl. rewrite Hen. apply or_iff_compat_l. simpl. split.
    + intros (u & d & Hu & Hb). destruct (decide (t = u)) as [<-|].
      * simplify_eq. exists t, c'. by rewrite lookup_insert_eq.
      * exists u, d. by rewrite lookup_insert_ne.
    + intros (u & d & [[<- <-]|[_ Hu]]%lookup_insert_Some & Hb); [exists t, c; by rewrite <- He|eauto].
Qed.

Lemma inv_stage t c c' s :
  ffi_inv s -> in_call s !! t = Some c -> ic_entry c' = ic_entry c ->
  (forall z, ic_sub c = Some z -> ic_sub c' = Some z) -> (forall z, ic_sub c' = Some z -> referenced s z) ->
  ffi_inv (set_in_call (<[t := c']> (in_call s)) s).
Proof.
  intros Hi Ht He Hs Hy. apply pre_inv; [by apply (pre_stage t c)|]. intros x Hx.
  apply (inv_objs s Hi) in Hx as [?|[(u & d & Hu & Hx)|?]]; [by left| |by right; right].
  right. left. simpl. destruct (decide (t = u)) as [<-|].
  - simplify_eq. exists t, c'. rewrite lookup_insert_eq. auto.
  - exists u, d. by rewrite lookup_insert_ne.
Qed.

Lemma held_entry t c s : ffi_inv s -> in_call s !! t = Some c -> exists e, entries s !! ic_entry c = Some e.
Proof. intros Hi Ht. apply (inv_entries s Hi). right. eauto. Qed.

(** The two halves of a cancellation change flags of the executor. *)
Lemma advance_kept g g' t a f s :
  ffi_inv s -> in_call s !! t = Some (mk_in_call g a None) ->
  (forall x, Executor.nodes_ (f x) = Executor.nodes_ x) -> (forall e x, refers (with_executor f e) x <-> refers e x) ->
  exists e s', entries s !! a = Some e /\ advance g' t a f s = (Ok tt, s') /\ kept s s' /\
    s' = set_in_call (<[t := mk_in_call g' a None]> (in_call s)) (set_entries (<[a := with_executor f e]> (entries s)) s).
Proof.
  intros Hi Ht Hf Hr. destruct (held_entry t _ s Hi Ht) as [e He]. simpl in He.
  eexists e, _. split; [done|]. split; [|split; [|reflexivity]].
  { unfold advance, entry_at, put_entry, st_modify, mbind, stM_bind. by rewrite He. }
  assert (Hput : kept s (set_entries (<[a := with_executor f e]> (entries s)) s)).
  { apply (kept_put a e); try done; [|intros x; apply Hr|intros x; rewrite Hr; by left].
    simpl. rewrite Hf. exact (inv_nodes s Hi a e He). }
  eapply kept_trans; [exact Hput|]. apply kept_same; try done.
  apply (inv_stage t (mk_in_call g a None) _ (set_entries _ s)); [apply Hput|done..].
Qed.

Lemma exec_kept t a e x s :
  ffi_inv s -> in_call s !! t = Some (mk_in_call Spinning a None) -> entries s !! a = Some e -> exec_act (ex (executor e)) x ->
  exists s', on_executor a (fun _ => (Ok tt, x)) s = (Ok tt, s') /\ kept s s'.
Proof.
  intros Hi Ht He Hact. set (e' := with_executor (fun _ => x) e).
  set (s1 := set_entries (<[a := e']> (entries s)) s).
  destruct (release_subs_run s1) as [f Hf]. exists (set_fac f (forget (unheld s1) s1)). split.
  { unfold on_executor, entry_at. unfold mbind at 1, stM_bind at 1. rewrite He.
    cbv [put_entry st_modify]. unfold mbind at 1, stM_bind at 1. fold e' s1. by rewrite (st_bind_Ok _ _ _ _ _ Hf). }
  assert (Hr : forall y, Executor.nodes_ x = [0] /\ (refers e' y -> refers e y)).
  { intros y. by destruct (exec_act_refers e x y (inv_nodes s Hi a e He) Hact) as (? & _ & ?). }
  apply kept_release; try done.
  - apply (pre_put a e); [done|apply (Hr 0)| |by apply inv_pre]. intros y. apply Hr.
  - intros b e1 Hb. simpl in Hb. apply lookup_insert_Some in Hb as [[<- <-]|[_ Hb]]; eauto.
Qed.

Lemma pick_kept t a e id c n ent s :
  ffi_inv s -> in_call s !! t = Some (mk_in_call Spinning a None) -> entries s !! a = Some e ->
  Executor.attached_ (ex (executor e)) !! id = Some (Executor.mk_attached c n (Some ent)) ->
  kept s (set_in_call (<[t := mk_in_call Spinning a (Some (Executor.ent_id ent))]> (in_call s)) s).
Proof.
  intros Hi Ht He Ha. apply kept_same; try done.
  apply (inv_stage t (mk_in_call Spinning a None)); [done..|].
  intros z [= <-]. left. exists a, e. split; [done|]. right. right. by exists id, (Executor.mk_attached c n (Some ent)), ent.
Qed.

Lemma dispatched_kept t a x s :
  ffi_inv s -> in_call s !! t = Some (mk_in_call Spinning a (Some x)) ->
  exists s', release_subs (set_in_call (<[t := mk_in_call Spinning a None]> (in_call s)) s) = (Ok tt, s') /\ kept s s'.
Proof.
  intros Hi Ht. set (s1 := set_in_call (<[t := mk_in_call Spinning a None]> (in_call s)) s).
  destruct (release_subs_run s1) as [f Hf]. eexists. split; [exact Hf|]. apply kept_release; try done.
  - by apply (pre_stage t (mk_in_call Spinning a (Some x))).
  - intros b e Hb. eauto.
Qed.

(** What [drop_entry] leaves alone, and the node it may leave behind. *)
Lemma drop_entry_frame a e s :
  objs (drop_entry a e s) = objs s /\ entries (drop_entry a e s) = delete a (entries s) /\
  g_registry (drop_entry a e s) = g_registry s /\ g_next_handle (drop_entry a e s) = g_next_handle s /\
  next_addr (drop_entry a e s) = next_addr s /\ in_call (drop_entry a e s) = in_call s /\
  closing (drop_entry a e s) = closing s.
Proof. unfold drop_entry. by destruct (node_wanted s a). Qed.

Lemma drop_entry_orphans a e s :
  (forall b, is_Some (orphans (drop_entry a e s) !! b) <-> is_Some (orphans s !! b) \/ (a = b /\ wants_node s a)) /\
  (forall x, pinned (drop_entry a e s) x -> pinned s x \/ refers e x).
Proof.
  unfold drop_entry. destruct (node_wanted s a) eqn:Hw.
  - apply node_wanted_spec in Hw. split; simpl; [intros b; rewrite lookup_insert_is_Some'; tauto|].
    intros x [?|[?|(b & o & en & Hb & Hen & <-)]]; [left; by left|left; right; by left|].
    simpl in Hb. apply lookup_insert_Some in Hb as [[<- <-]|[_ Hb]]; [right; right; left; eauto|left; right; right; eauto 6].
  - assert (~ wants_node s a) by (rewrite <- node_wanted_spec; by rewrite Hw). split; [simpl; tauto|by left].
Qed.

(** An entry that no call holds goes; its node stays while it is wanted. *)
Lemma pre_drop_entry a e s :
  entries s !! a = Some e -> ~ held s a ->
  (forall x, referenced s x -> is_Some (objs s !! x)) ->
  (forall b, a <> b -> is_Some (entries s !! b) <-> held s b) ->
  (forall b, is_Some (objs s !! b) \/ is_Some (entries s !! b) \/ is_Some (orphans s !! b) -> b < next_addr s) ->
  (forall b e, entries s !! b = Some e -> Executor.nodes_ (ex (executor e)) = [0]) ->
  (forall h h' b, g_registry s !! h = Some b -> g_registry s !! h' = Some b -> h = h') ->
  (forall b, is_Some (orphans s !! b) <-> entries s !! b = None /\ wants_node s b) ->
  (forall t c o, closing s !! t = Some c -> cl_stage c <> ToClose -> objs s !! cl_sub c = Some o -> closed o = true) ->
  ffi_pre (drop_entry a e s).
Proof.
  intros He Hn Ho Hen Had Hns Hj Hor Hc.
  destruct (drop_entry_frame a e s) as (Eob & Een & Ereg & _ & Ead & Eic & Ecl).
  destruct (drop_entry_orphans a e s) as [Eor Epin]. split.
  - intros x [(b & e1 & Hb & Hx)|Hx%Epin]; rewrite Eob; apply Ho.
    + rewrite Een in Hb. apply lookup_delete_Some in Hb as [_ Hb]. left. eauto.
    + destruct Hx as [?|?]; [by right|left; eauto].
  - intros b. rewrite Een, lookup_delete_is_Some.
    assert (Hh : held (drop_entry a e s) b <-> held s b) by (unfold held; by rewrite Ereg, Eic). rewrite Hh.
    destruct (decide (a = b)) as [<-|Hb]; [split; [by intros []|done]|]. rewrite Hen by done. tauto.
  - intros b. rewrite Eob, Een, Ead, Eor. intros [?|[[? [_ Hb]%lookup_delete_Some]|[?|[<- _]]]]; apply Had; eauto.
  - intros b e1. rewrite Een. intros [_ Hb]%lookup_delete_Some. by eapply Hns.
  - by rewrite Ereg.
  - intros b. assert (Hw : wants_node (drop_entry a e s) b <-> wants_node s b) by (unfold wants_node; by rewrite Ecl).
    rewrite Eor, Een, lookup_delete_None, Hor, Hw. destruct (decide (a = b)) as [<-|]; [|tauto].
    split; [intros [[_ ?]|[_ ?]]; auto|intros [_ ?]; auto].
  - intros t c o. rewrite Ecl, Eob. apply Hc.
Qed.

Lemma end_kept g t a s :
  ffi_inv s -> in_call s !! t = Some (mk_in_call g a None) -> exists s', end_call t a s = (Ok tt, s') /\ kept s s'.
Proof.
  intros Hi Ht. unfold end_call. unfold mbind, stM_bind, st_modify.
  set (s1 := set_in_call (delete t (in_call s)) s).
  assert (Hheld : forall b, b <> a \/ held s1 a -> held s1 b <-> held s b).
  { intros b Hb. unfold held. simpl. split.
    - intros [?|(u & c & [_ Hu]%lookup_delete_Some & ?)]; [by left|right; eauto].
    - intros [?|(u & c & Hu & Hc)]; [by left|]. destruct (decide (u = t)) as [->|].
      + simplify_eq. destruct Hb as [?|Hb]; [done|exact Hb].
      + right. exists u, c. by rewrite lookup_delete_ne. }
  assert (Hpin : forall x, pinned s1 x <-> pinned s x).
  { intros x. apply or_iff_compat_r. simpl. split.
    - intros (u & c & [_ Hu]%lookup_delete_Some & ?). eauto.
    - intros (u & c & Hu & Hx). exists u, c. rewrite lookup_delete_ne; [done|]. intros <-. by simplify_eq. }
  destruct (held_entry t _ s Hi Ht) as [e He]. simpl in He.
  destruct (entry_held s1 a) eqn:Eh.
  - apply entry_held_spec in Eh. exists s1. split; [by apply release_entry_held|]. apply kept_same; try done.
    destruct Hi as [Ho Hen Had Hns Hj Hor Hc]. split; [| |done..].
    + intros x. unfold referenced. rewrite Hpin. apply Ho.
    + intros b. rewrite Hheld by auto. apply Hen.
  - assert (Hn : ~ held s1 a) by (rewrite <- entry_held_spec; by rewrite Eh).
    destruct (release_entry_run a s1 e Hn He) as [f Hf]. eexists. split; [exact Hf|].
    destruct (drop_entry_frame a e s1) as (Eob & Een & Ereg & Enh & Ead & _).
    destruct (inv_pre s Hi) as [Ho Hen Had Hns Hj Hor Hc]. apply kept_release; [|by rewrite ?Ereg, ?Enh, ?Ead..| |by rewrite Eob].
    + apply pre_drop_entry; try done.
      * intros x [Hx|Hx%Hpin]; apply Ho; [by left|by right].
      * intros b Hb. rewrite Hheld by auto. apply Hen.
    + intros b e'. rewrite Een. intros [_ Hb]%lookup_delete_Some. eauto.
Qed.

(* ------------------------------------------------------------------ *)
(** ** Calls of [SubDestroy_] *)

Lemma kept_closing m s :
  ffi_inv s ->
  (forall t c, m !! t = Some c -> referenced s (cl_sub c)) ->
  (forall t c, closing s !! t = Some c -> exists t' c', m !! t' = Some c' /\ cl_sub c' = cl_sub c) ->
  (forall a, entries s !! a = None -> wants_node (set_closing m s) a <-> wants_node s a) ->
  (forall t c o, m !! t = Some c -> cl_stage c <> ToClose -> objs s !! cl_sub c = Some o -> closed o = true) ->
  kept s (set_closing m s).
Proof.
  intros [Ho He Had Hns Hj Hor Hc] Hr Hr' Hw Hcl. apply kept_same; [|done..]. split; [|done..| |done].
  - intros x. simpl. rewrite Ho. split.
    + intros [?|[?|[(t & c & Ht & <-)|?]]]; [by left|by right; left| |by right; right; right].
      right. right. left. eauto.
    + intros [?|[?|[(t & c & Ht & <-)|?]]]; [by left|by right; left|by eapply Hr|by right; right; right].
  - intros a. simpl. rewrite Hor. split; intros [Ha ?]; (split; [done|by apply Hw]).
Qed.

(** The next stage of a call that keeps its locals. *)
Lemma kept_stage t g g' a x s :
  ffi_inv s -> closing s !! t = Some (mk_closing g a x) -> g <> ToDrop -> g' <> ToDrop ->
  (forall o, objs s !! x = Some o -> closed o = true) ->
  kept s (set_closing (<[t := mk_closing g' a x]> (closing s)) s).
Proof.
  intros Hi Ht Hg Hg' Hcl.
  assert (Hx : referenced s x) by (right; right; left; eauto).
  apply kept_closing; [done| | | |].
  - intros u c [[<- <-]|[_ Hu]]%lookup_insert_Some; [done|]. right. right. left. eauto.
  - intros u c Hu. destruct (decide (t = u)) as [<-|]; [|by exists u, c; rewrite lookup_insert_ne].
    simplify_eq. exists t, (mk_closing g' a x). by rewrite lookup_insert_eq.
  - assert (Hh : forall k, k <> ToDrop -> holds_node (mk_closing k a x) = true).
    { intros k Hk. unfold holds_node. simpl. by rewrite bool_decide_eq_false_2. }
    intros b _. unfold wants_node. simpl. split.
    + intros (u & c & [[<- <-]|[_ Hu]]%lookup_insert_Some & Hb & Hc); [|by exists u, c].
      exists t, (mk_closing g a x). auto.
    + intros (u & c & Hu & Hb & Hc). destruct (decide (t = u)) as [<-|].
      * simplify_eq. exists t, (mk_closing g' a x). simpl. rewrite lookup_insert_eq. auto.
      * exists u, c. simpl. by rewrite lookup_insert_ne.
  - intros u c o [[<- <-]|[_ Hu]]%lookup_insert_Some Hs Hob; [by apply Hcl|by apply (inv_closed s Hi u c)].
Qed.

Variable order : gmap Z nat -> list (Z * nat).
Hypothesis order_perm : forall m, order m ≡ₚ map_to_list m.

Definition drop_handle (h : Z) (e : NodeEntry E) : NodeEntry E :=
  mk_entry (node e) (executor e) (pubs e) (delete h (subs e)).

Lemma SubDestroy_begin_kept t h s :
  ffi_inv s -> closing s !! t = None ->
  exists r s', SubDestroy_begin order t h s = (Ok r, s') /\ kept s s' /\
    match r with
    | None => s' = s /\ forall n a e, g_registry s !! n = Some a -> entries s !! a = Some e -> subs e !! h = None
    | Some (a, x) => exists n e, g_registry s !! n = Some a /\ entries s !! a = Some e /\ subs e !! h = Some x /\
        s' = set_closing (<[t := mk_closing ToClose a x]> (closing s)) (set_entries (<[a := drop_handle h e]> (entries s)) s)
    end.
Proof.
  intros Hi Ht. destruct (find_registry order order_perm (fun e => subs e !! h) s Hi) as (r & Hr & Hs).
  unfold SubDestroy_begin, find_sub. unfold mbind at 1, stM_bind at 1, st_get. rewrite (st_bind_Ok _ _ _ _ _ Hr).
  destruct r as [[[a e] x]|]; [|exists None, s; split_and!; [done|by apply kept_same|done|done]].
  destruct Hs as (n & Hn & He & Hx). eexists (Some (a, x)), _.
  split; [by cbv [put_entry st_modify mbind stM_bind mret stM_ret]|]. split; [|by exists n, e].
  set (s0 := set_closing (<[t := mk_closing ToClose a x]> (closing s)) s).
  assert (H0' : kept s s0).
  { apply kept_closing; [done| | | |].
    - intros u c [[<- <-]|[_ Hu]]%lookup_insert_Some; [left; exists a, e; split; [done|left; eauto]|right; right; left; eauto].
    - intros u c Hu. exists u, c. rewrite lookup_insert_ne; [done|]. intros <-. by rewrite Ht in Hu.
    - intros b Hb. unfold wants_node. simpl. split.
      + intros (u & c & [[<- <-]|[_ Hu]]%lookup_insert_Some & Hcb & Hc); [simpl in Hcb; by simplify_eq|eauto].
      + intros (u & c & Hu & Hcb). exists u, c. rewrite lookup_insert_ne; [done|]. intros <-. by rewrite Ht in Hu.
    - intros u c o [[<- <-]|[_ Hu]]%lookup_insert_Some Hst Ho; [done|by apply (inv_closed s Hi u c)]. }
  eapply kept_trans; [exact H0'|].
  apply (kept_put a e (drop_handle h e) s0); [apply H0'|exact He|exact (inv_nodes s Hi a e He)| | |done|simpl; apply delete_subseteq].
  - intros y [(k & Hk)|?]; [left|by right]. simpl in Hk. apply lookup_delete_Some in Hk as [_ Hk]. eauto.
  - intros y [(k & Hk)|?]; [|by left; right]. destruct (decide (k = h)) as [->|].
    + simplify_eq. right. right. left. exists t, (mk_closing ToClose a x). simpl. by rewrite lookup_insert_eq.
    + left. left. exists k. simpl. by rewrite lookup_delete_ne.
Qed.

Lemma local_sub t c s : ffi_inv s -> closing s !! t = Some c -> exists o, objs s !! cl_sub c = Some o.
Proof. intros Hi Ht. apply (inv_objs s Hi). right. right. left. eauto. Qed.

Lemma SubDestroy_close_kept t a x s :
  ffi_inv s -> closing s !! t = Some (mk_closing ToClose a x) ->
  exists s', SubDestroy_close t a x s = (Ok tt, s') /\ kept s s' /\ closing s' = <[t := mk_closing ToRemove a x]> (closing s).
Proof.
  intros Hi Ht. destruct (local_sub t _ s Hi Ht) as [o Ho]. simpl in Ho. eexists.
  split; [unfold SubDestroy_close, sub_at, st_modify, mbind, stM_bind; by rewrite Ho|]. split; [|done].
  set (s1 := set_objs (<[x := close o]> (objs s)) s).
  assert (H1' : kept s s1).
  { destruct Hi as [Hob He Had Hns Hj Hor Hc]. split.
    - split; [|done| |done|done|done|].
      + intros y. simpl. rewrite (dom_put _ x o) by done. apply Hob.
      + intros b. simpl. rewrite (dom_put _ x o) by done. apply Had.
      + intros u c o' Hu Hs Hx. simpl in Hx. apply lookup_insert_Some in Hx as [[_ <-]|[_ Hx]]; [done|by apply (Hc u c)].
    - by apply grows_same.
    - split; [done|by left|]. intros y o' Hy. right. simpl in Hy.
      apply lookup_insert_Some in Hy as [[<- <-]|[_ Hy]]; [by exists o|eauto]. }
  eapply kept_trans; [exact H1'|]. apply (kept_stage t ToClose ToRemove a x s1); [apply H1'|done..|].
  intros o'. simpl. rewrite lookup_insert_eq. by intros [= <-].
Qed.

Lemma refers_remove_other en (e : NodeEntry E) (y : nat) :
  refers e y -> refers (with_executor (Executor.remove_entity 0 en) e) y \/ y = Executor.ent_id en.
Proof.
  unfold refers. simpl. intros [?|[(en' & Hen & <-)|?]]; [by left; left| |by left; right; right].
  destruct (decide (en' = en)) as [->|]; [by right|]. left. right. left. exists en'. by rewrite list_elem_of_filter.
Qed.

Lemma SubDestroy_remove_kept t a x s :
  ffi_inv s -> closing s !! t = Some (mk_closing ToRemove a x) ->
  exists s', SubDestroy_remove t a x s = (Ok tt, s') /\ kept s s' /\ closing s' !! t = Some (mk_closing ToRelease a x).
Proof.
  intros Hi Ht. destruct (local_sub t _ s Hi Ht) as [o Ho]. simpl in Ho.
  set (ent := Executor.mk_entity x (snd (sub_reader o))).
  assert (Hpin : pinned s x) by (right; left; eauto).
  assert (Hcl : forall o', objs s !! x = Some o' -> closed o' = true).
  { intros o'. by apply (inv_closed s Hi t (mk_closing ToRemove a x)). }
  unfold SubDestroy_remove, sub_at, st_get. unfold mbind at 1 2, stM_bind at 1 2. rewrite Ho. fold ent.
  destruct (entries s !! a) as [e|] eqn:He.
  - set (e' := with_executor (Executor.remove_entity 0 ent) e). eexists.
    split; [by cbv [put_entry st_modify mbind stM_bind]|]. fold e'.
    assert (H1' : kept s (set_entries (<[a := e']> (entries s)) s)).
    { apply (kept_put a e); try done; [exact (inv_nodes s Hi a e He)| |].
      - intros y. apply refers_remove.
      - intros y [?| ->]%(refers_remove_other ent); [by left|by right]. }
    split; [|simpl; by rewrite lookup_insert_eq].
    eapply kept_trans; [exact H1'|]. apply (kept_stage t ToRemove ToRelease a x (set_entries _ s)); [apply H1'|done..].
  - assert (Hw : wants_node s a) by (exists t, (mk_closing ToRemove a x); by rewrite Ht).
    destruct (wanted_exists s a Hi Hw) as [[e He']|[n Hn]]; [by rewrite He in He'|].
    assert (Hat : orphan_at a s = (Ok n, s)) by (unfold orphan_at; by rewrite Hn). eexists.
    split; [cbv [mbind stM_bind]; rewrite Hat; by cbv [st_modify]|].
    set (s1 := set_orphans (<[a := mk_orphan (or_node n) (Executor.erase_entity ent (or_list n))]> (orphans s)) s).
    assert (H1' : kept s s1).
    { apply kept_same; [|done..]. destruct Hi as [Hob Hen Had Hns Hj Hor Hc]. split; [|done| |done|done| |done].
      - intros y. simpl. rewrite Hob. apply or_iff_compat_l. unfold pinned. simpl. split.
        + intros [?|[?|(b & m & en & Hm & Hen' & <-)]]; [by left|by right; left|].
          destruct (decide (en = ent)) as [->|Hne]; [by right; left; eauto|].
          right. right. destruct (decide (a = b)) as [<-|].
          * simplify_eq. eexists a, _, en. rewrite lookup_insert_eq. split_and!; [done| |done]. simpl. by apply list_elem_of_filter.
          * exists b, m, en. by rewrite lookup_insert_ne.
        + intros [?|[?|(b & m & en & [[<- <-]|[_ Hm]]%lookup_insert_Some & Hen' & <-)]]; [by left|by right; left| |right; right; eauto 6].
          simpl in Hen'. apply list_elem_of_filter in Hen' as [_ Hen']. right. right. eauto 6.
      - intros b. simpl. rewrite (dom_put _ a n) by done. apply Had.
      - intros b. simpl. rewrite (dom_put _ a n) by done. apply Hor. }
    split; [|simpl; by rewrite lookup_insert_eq].
    eapply kept_trans; [exact H1'|]. apply (kept_stage t ToRemove ToRelease a x s1); [apply H1'|done..].
Qed.

Lemma SubDestroy_release_kept t a x s :
  ffi_inv s -> closing s !! t = Some (mk_closing ToRelease a x) ->
  exists s', SubDestroy_release t a x s = (Ok tt, s') /\ kept s s' /\ closing s' !! t = Some (mk_closing ToDrop a x).
Proof.
  intros Hi Ht. set (m := <[t := mk_closing ToDrop a x]> (closing s)). set (s1 := set_closing m s).
  assert (Hw : wants_node s a) by (exists t, (mk_closing ToRelease a x); by rewrite Ht).
  assert (Hw1 : forall b, wants_node s1 b -> wants_node s b).
  { intros b (u & c & Hu & Hc & Hh). simpl in Hu. apply lookup_insert_Some in Hu as [[_ <-]|[_ Hu]]; [done|by exists u, c]. }
  assert (Hw2 : forall b, a <> b -> wants_node s b -> wants_node s1 b).
  { intros b Hb (u & c & Hu & Hc & Hh). exists u, c. split; [|done]. simpl. unfold m. rewrite lookup_insert_ne; [done|].
    intros <-. simplify_eq. }
  assert (Hpin : forall y, pinned s1 y <-> pinned s y).
  { intros y. apply or_iff_compat_l, or_iff_compat_r. simpl. unfold m. split.
    - intros (u & c & [[<- <-]|[_ Hu]]%lookup_insert_Some & Hy); [by exists t, (mk_closing ToRelease a x)|eauto].
    - intros (u & c & Hu & Hy). destruct (decide (t = u)) as [<-|]; [|by exists u, c; rewrite lookup_insert_ne].
      simplify_eq. exists t, (mk_closing ToDrop a (cl_sub (mk_closing ToRelease a x))). by rewrite lookup_insert_eq. }
  assert (Hcl : forall u c o, m !! u = Some c -> cl_stage c <> ToClose -> objs s !! cl_sub c = Some o -> closed o = true).
  { intros u c o [[_ <-]|[_ Hu]]%lookup_insert_Some Hs Ho; [|by apply (inv_closed s Hi u c)].
    by apply (inv_closed s Hi t (mk_closing ToRelease a x)). }
  destruct (inv_pre s Hi) as [Ho He Had Hns Hj Hor _].
  unfold SubDestroy_release, release_node, st_modify, st_get. unfold mbind at 1 2, stM_bind at 1 2. fold m s1.
  destruct (bool_decide (is_Some (entries s1 !! a)) || node_wanted s1 a) eqn:Hkeep.
  - exists s1. split_and!; [done| |simpl; unfold m; by rewrite lookup_insert_eq]. apply kept_same; [|done..]. split; [|done..| |done].
    + intros y. unfold referenced. rewrite Hpin. apply (inv_objs s Hi).
    + intros b. simpl. rewrite Hor. split; [|intros [? ?%Hw1]; by split]. intros [Hb Hwb]. split; [done|].
      destruct (decide (a = b)) as [<-|]; [|by apply Hw2].
      apply orb_true_iff in Hkeep as [[e Hs]%bool_decide_eq_true|Hs%node_wanted_spec]; [simpl in Hs; by rewrite Hb in Hs|done].
  - apply orb_false_iff in Hkeep as [Hk1%bool_decide_eq_false Hk2].
    assert (Hnw : ~ wants_node s1 a) by (rewrite <- node_wanted_spec; by rewrite Hk2).
    assert (Hea : entries s !! a = None) by (by apply eq_None_not_Some).
    destruct (wanted_exists s a Hi Hw) as [[e He']|[n Hn]]; [by rewrite Hea in He'|].
    assert (Hat : orphan_at a s1 = (Ok n, s1)) by (unfold orphan_at; simpl; by rewrite Hn).
    set (s2 := set_orphans (delete a (orphans s)) s1).
    destruct (Node_dtor_ok (or_node n) (drop_subs (unheld s2)) (fac s)) as [f Hf]; [intros; apply drop_subs_ok|].
    exists (set_fac f (forget (unheld s2) s2)).
    split; [unfold mbind at 1, stM_bind at 1; rewrite Hat; cbv [mbind stM_bind]; by apply on_fac_run|].
    split; [|simpl; unfold m; by rewrite lookup_insert_eq].
    apply kept_release; try done; [|by intros b e' Hb; eauto]. split; [|done| |done|done| |done].
    + intros y [Hy|[Hy|[Hy|(b & o & en & Hb & Hy)]]]; apply Ho; [by left|right; apply Hpin; by left|right; apply Hpin; right; by left|].
      simpl in Hb. apply lookup_delete_Some in Hb as [_ Hb]. right. right. right. eauto.
    + intros b Hb. apply Had. simpl in Hb. rewrite lookup_delete_is_Some in Hb. tauto.
    + intros b. simpl. rewrite lookup_delete_is_Some, Hor. change (wants_node s2 b) with (wants_node s1 b). split.
      * intros (Hb & ? & ?). auto.
      * intros [? Hb]. split; [intros <-; by apply Hnw|auto].
Qed.

Lemma SubDestroy_drop_kept t a x s :
  ffi_inv s -> closing s !! t = Some (mk_closing ToDrop a x) -> exists s', SubDestroy_drop t s = (Ok tt, s') /\ kept s s'.
Proof.
  intros Hi Ht. set (s1 := set_closing (delete t (closing s)) s). destruct (release_subs_run s1) as [f Hf].
  eexists. split; [exact Hf|]. apply kept_release; try done; [|by intros b e Hb; eauto].
  destruct (inv_pre s Hi) as [Ho He Had Hns Hj Hor Hc]. split; [|done..| |].
  - intros y [?|[?|[(u & c & Hu & Hy)|?]]]; apply Ho; [by left|by right; left| |by right; right; right].
    simpl in Hu. apply lookup_delete_Some in Hu as [_ Hu]. right. right. left. eauto.
  - intros b. simpl. rewrite Hor. split; intros [Hb (u & c & Hu & Hcb)]; (split; [done|]); exists u, c; simpl in *.
    + rewrite lookup_delete_ne; [done|]. intros <-. simplify_eq. by destruct Hcb.
    + by apply lookup_delete_Some in Hu as [_ Hu].
  - intros u c o Hu. simpl in Hu. apply lookup_delete_Some in Hu as [_ Hu]. by apply (Hc u).
Qed.

(* ------------------------------------------------------------------ *)
(** ** What a call in progress does next *)

Definition next_of (g : call_stage) : nat -> nat -> stM (Ffi F E Cb) unit :=
  match g with
  | Requesting => cancel_request
  | Triggering => cancel_trigger
  | Spinning | Returning => end_call
  end.

Definition next_closing (g : closing_stage) (t a x : nat) : stM (Ffi F E Cb) unit :=
  match g with
  | ToClose => SubDestroy_close t a x
  | ToRemove => SubDestroy_remove t a x
  | ToRelease => SubDestroy_release t a x
  | ToDrop => SubDestroy_drop t
  end.

Lemma next_of_kept t g a s :
  ffi_inv s -> in_call s !! t = Some (mk_in_call g a None) -> exists s', next_of g t a s = (Ok tt, s') /\ kept s s'.
Proof.
  intros Hi Ht. destruct g; [by apply (end_kept Spinning)| | |by apply (end_kept Returning)].
  - destruct (advance_kept Requesting Triggering t a (Executor.set_requested true) s Hi Ht) as (e & s1 & _ & Hr & Hk & _); eauto.
  - destruct (advance_kept Triggering Returning t a (fun x => Executor.trigger (Executor.cancel_guard_ x) x) s Hi Ht)
      as (e & s1 & _ & Hr & Hk & _); eauto.
Qed.

Lemma next_closing_kept t g a x s :
  ffi_inv s -> closing s !! t = Some (mk_closing g a x) -> exists s', next_closing g t a x s = (Ok tt, s') /\ kept s s'.
Proof.
  intros Hi Ht. destruct g; simpl.
  - destruct (SubDestroy_close_kept t a x s Hi Ht) as (s1 & Hr & Hk & _). eauto.
  - destruct (SubDestroy_remove_kept t a x s Hi Ht) as (s1 & Hr & Hk & _). eauto.
  - destruct (SubDestroy_release_kept t a x s Hi Ht) as (s1 & Hr & Hk & _). eauto.
  - by apply (SubDestroy_drop_kept t a x).
Qed.

(* ------------------------------------------------------------------ *)
(** ** All steps *)

Variable bits : Z.
Variable qc : bool.
Variable dom : Z.
Variable nw : Z -> E.

Lemma run_call_ages c s o s' :
  ffi_inv s -> handles_ok s -> run_call bits qc dom nw order c s = (o, s') -> o <> Undefined -> ages s s'.
Proof.
  intros Hi Hk Hrun Hdef. pose proof (run_call_result order order_perm bits qc dom nw c s o s' Hi Hk Hrun) as Hres.
  destruct o as [r|e|]; [|destruct Hres as [f ->]; by apply ages_same|done]. clear Hres.
  destruct c as [name ns|h topic type d rl l|h payload|h|h topic type d rl l cb]; simpl in Hrun;
    apply st_bind_inv_Ok in Hrun as (v & s1 & Hc & Hr); injection Hr as <- <-.
  - apply NodeCreate_spec in Hc as (-> & f & n & x & _ & _ & ->). split; simpl; [lia| |].
    + intros k a [[_ <-]|[_ Ha]]%lookup_insert_Some; [by right|by left].
    + intros x0 o' Hx. right. eauto.
  - apply PubCreate_spec in Hc as (_ & f & a & e & p & _ & _ & _ & ->); [by apply ages_same|done].
  - apply publish_result in Hc as [_ [f ->]]; [by apply ages_same|done..].
  - destruct (PubDestroy_spec order order_perm h s Hi) as [[_ Hd]|(n & a & e & p & f & _ & _ & _ & Hd)]; rewrite Hd in Hc;
      injection Hc as <- <-; by apply ages_same.
  - apply SubCreate_spec in Hc as (_ & f & a & e & x & y & _ & _ & _ & _ & _ & _ & ->); [|done].
    split; simpl; [lia|auto|]. intros x0 o' [[<- _]|[_ Hx]]%lookup_insert_Some; [by left|right; eauto].
Qed.

(** A step is a call that holds the lock, or keeps the invariant and hands out
    nothing. *)
Lemma ffi_step_cases s r s' :
  ffi_inv s -> ffi_step bits qc dom nw order s r s' ->
  (exists c, run_call bits qc dom nw order c s = (Ok r, s')) \/
  (r = None /\ exists c e, run_call bits qc dom nw order c s = (Throw e, s')) \/
  (r = None /\ kept s s').
Proof.
  intros Hi Hs.
  destruct Hs as [c r s s' Hc|c e s s' Hc|g t h a s s' Ht _ Hb|t h r s s' Ht Hb|t a s s' Ht Hb|t a s s' Ht Hb
    |t a e x s s' Ht He Ha Hx|t a e id c n ent s Ht He Ha|t a x s s' Ht Hr|g t a s s' Ht _ He
    |t h r s s' Ht Hb|t a x s s' Ht Hb|t a x s s' Ht Hb|t a x s s' Ht Hb|t a x s s' Ht Hb];
    [left; eauto|right; left; eauto|right; right; split; [done|]..].
  - by apply (begin_kept g t h a).
  - destruct (NodeDestroy_begin_kept t h s Hi Ht) as (s1 & Hr & Hk & _). rewrite Hr in Hb. by injection Hb as _ <-.
  - destruct (next_of_kept t Requesting a s Hi Ht) as (s1 & Hr & Hk). simpl in Hr. rewrite Hr in Hb. by injection Hb as <-.
  - destruct (next_of_kept t Triggering a s Hi Ht) as (s1 & Hr & Hk). simpl in Hr. rewrite Hr in Hb. by injection Hb as <-.
  - destruct (exec_kept t a e x s Hi Ht He Ha) as (s1 & Hr & Hk). rewrite Hr in Hx. by injection Hx as <-.
  - by apply (pick_kept t a e id c n).
  - destruct (dispatched_kept t a x s Hi Ht) as (s1 & Hr1 & Hk). rewrite Hr1 in Hr. by injection Hr as <-.
  - destruct (end_kept g t a s Hi Ht) as (s1 & Hr & Hk). rewrite Hr in He. by injection He as <-.
  - destruct (SubDestroy_begin_kept t h s Hi Ht) as (r1 & s1 & Hr & Hk & _). rewrite Hr in Hb. by injection Hb as _ <-.
  - destruct (SubDestroy_close_kept t a x s Hi Ht) as (s1 & Hr & Hk & _). rewrite Hr in Hb. by injection Hb as <-.
  - destruct (SubDestroy_remove_kept t a x s Hi Ht) as (s1 & Hr & Hk & _). rewrite Hr in Hb. by injection Hb as <-.
  - destruct (SubDestroy_release_kept t a x s Hi Ht) as (s1 & Hr & Hk & _). rewrite Hr in Hb. by injection Hb as <-.
  - destruct (SubDestroy_drop_kept t a x s Hi Ht) as (s1 & Hr & Hk). rewrite Hr in Hb. by injection Hb as <-.
Qed.

Lemma ffi_step_ok s r s' :
  ffi_inv s -> handles_ok s -> ffi_step bits qc dom nw order s r s' ->
  ffi_inv s' /\ handles_ok s' /\ grows s s' r /\ ages s s'.
Proof.
  intros Hi Hk Hs.
  enough (Hg : ffi_inv s' /\ grows s s' r /\ ages s s') by (split_and!; [apply Hg|by eapply handles_grow, Hg|apply Hg..]).
  destruct (ffi_step_cases s r s' Hi Hs) as [[c Hc]|[(-> & c & e & Hc)|[-> [? ? ?]]]]; [| |done].
  - pose proof (run_call_ages c s _ s' Hi Hk Hc ltac:(done)). by apply run_call_result in Hc as [? ?].
  - apply run_call_result in Hc as [f ->]; [|done..]. split_and!; [by apply inv_fac|by apply grows_same|by apply ages_same].
Qed.

(** All of it along a run. *)
Lemma ffi_run_ok s hs s' :
  ffi_inv s -> handles_ok s -> ffi_run bits qc dom nw order s hs s' ->
  ffi_inv s' /\ handles_ok s' /\ ages s s' /\ (g_next_handle s <= g_next_handle s')%Z /\
  StronglySorted Z.lt hs /\ Forall (fun h => g_next_handle s <= h < g_next_handle s')%Z hs /\
  (forall h k, designates s' h k -> designates s h k \/ h ∈ hs).
Proof.
  intros Hi Hk. induction 1 as [s|s l s1 r s2 Hrun IH Hstep].
  - split_and!; try done; [by apply ages_same|by constructor|auto].
  - destruct (IH Hi Hk) as (Hi1 & Hk1 & Ha1 & Hn1 & Hs1 & Hb1 & Hd1).
    destruct (ffi_step_ok s1 r s2 Hi1 Hk1 Hstep) as (Hi2 & Hk2 & Hg & Ha2).
    split; [done|]. split; [done|]. split; [by eapply ages_trans|]. destruct r as [h0|]; simpl in *.
    + destruct Hg as (-> & Hn & k0 & Hg). rewrite Hn. split_and!; [lia| | |].
      * apply StronglySorted_snoc; [done|]. revert Hb1. apply Forall_impl. intros; lia.
      * apply Forall_app. split; [|constructor; [lia|constructor]]. revert Hb1. apply Forall_impl. intros; lia.
      * intros h k [Hd|[-> _]]%Hg; [|right; set_solver]. destruct (Hd1 h k Hd); [by left|right; set_solver].
    + destruct Hg as [Hn Hg]. rewrite app_nil_r, Hn. split_and!; try done. intros h k Hd%Hg. by apply Hd1.
Qed.

Lemma handles_init (f : F) : handles_ok (ffi_init f : Ffi F E Cb).
Proof.
  assert (Hnone : forall h k, ~ designates (ffi_init f : Ffi F E Cb) h k).
  { intros h [a|a|a]; simpl; rewrite ?lookup_empty; [done| |]; intros (n & e & p & Hn & _); by rewrite lookup_empty in Hn. }
  split; [done| |]; intros h k; [|intros k2]; intros Hd; by apply Hnone in Hd.
Qed.

(** A handle that was given out and designates nothing any more. *)
Definition gone s (h : Z) : Prop := (h < g_next_handle s)%Z /\ forall k, ~ designates s h k.

Lemma gone_run s hs s' h :
  ffi_inv s -> handles_ok s -> ffi_run bits qc dom nw order s hs s' -> gone s h -> gone s' h.
Proof.
  intros Hi Hk Hrun [Hh Hg]. destruct (ffi_run_ok s hs s' Hi Hk Hrun) as (_ & _ & _ & Hn & _ & Hb & Hd).
  split; [lia|]. intros k Hk'. destruct (Hd h k Hk') as [Hx|Hin]; [by apply Hg in Hx|].
  rewrite Forall_forall in Hb. apply list_elem_of_In, Hb in Hin. lia.
Qed.

Lemma gone_publisher s h : gone s h -> no_publisher s h.
Proof.
  intros [_ Hg] n a e Hn He. destruct (pubs e !! h) as [p|] eqn:Hp; [|done].
  destruct (Hg (SPub a)). simpl. eauto 6.
Qed.

(* ------------------------------------------------------------------ *)
(** ** Whole calls *)

(** After [remove_entity] the node, with or without its entry, does not list the
    subscription. *)
Lemma SubDestroy_remove_gone t a x s s' o n :
  objs s !! x = Some o -> SubDestroy_remove t a x s = (Ok tt, s') ->
  (exists e, entries s' !! a = Some e /\ n = Executor.heap (ex (executor e)) 0) \/
  (exists m, orphans s' !! a = Some m /\ entries s' !! a = None /\ n = or_list m) ->
  Executor.mk_entity x (snd (sub_reader o)) ∉ Executor.entities_ n.
Proof.
  intros Ho. unfold SubDestroy_remove, sub_at, st_get. unfold mbind at 1 2, stM_bind at 1 2. rewrite Ho.
  assert (Hgone : forall l, Executor.mk_entity x (snd (sub_reader o)) ∉
    Executor.entities_ (Executor.erase_entity (Executor.mk_entity x (snd (sub_reader o))) l)).
  { intros l. simpl. by intros [? _]%list_elem_of_filter. }
  destruct (entries s !! a) as [e|] eqn:He.
  - cbv [put_entry st_modify mbind stM_bind]. intros [= <-]. simpl. rewrite lookup_insert_eq.
    intros [(e1 & [= <-] & ->)|(m & _ & [=] & _)]. apply Hgone.
  - unfold orphan_at. cbv [mbind stM_bind]. destruct (orphans s !! a) as [m|]; [|done].
    cbv [st_modify]. intros [= <-]. simpl. rewrite He, lookup_insert_eq.
    intros [(e1 & [=] & _)|(m1 & [= <-] & _ & ->)]. apply Hgone.
Qed.

(** [NodeDestroy_] on an entry that another call holds. *)
Lemma NodeDestroy_held u t h a c s :
  ffi_inv s -> in_call s !! u = None -> g_registry s !! h = Some a -> in_call s !! t = Some c -> ic_entry c = a ->
  exists e, entries s !! a = Some e /\
    let s' := set_entries (<[a := with_executor Executor.cancel e]> (entries s)) (set_registry (delete h (g_registry s)) s) in
    NodeDestroy_ u h s = (Ok tt, s') /\ ffi_run bits qc dom nw order s [] s'.
Proof.
  intros Hi Hu Hh Ht Hc. destruct (NodeDestroy_begin_kept u h s Hi Hu) as (s1 & Hb & [Hi1 _ _] & Hs1).
  rewrite Hh in Hb, Hs1.
  assert (Hu1 : in_call s1 !! u = Some (mk_in_call Requesting a None)) by (rewrite Hs1; simpl; by rewrite lookup_insert_eq).
  destruct (advance_kept Requesting Triggering u a (Executor.set_requested true) s1 Hi1 Hu1)
    as (e & s2 & He & Hr2 & [Hi2 _ _] & Hs2); [done..|].
  assert (Hu2 : in_call s2 !! u = Some (mk_in_call Triggering a None)) by (rewrite Hs2; simpl; by rewrite lookup_insert_eq).
  destruct (advance_kept Triggering Returning u a (fun x => Executor.trigger (Executor.cancel_guard_ x) x) s2 Hi2 Hu2)
    as (e2 & s3 & He2 & Hr3 & [Hi3 _ _] & Hs3); [done..|].
  assert (Hu3 : in_call s3 !! u = Some (mk_in_call Returning a None)) by (rewrite Hs3; simpl; by rewrite lookup_insert_eq).
  rewrite Hs2 in He2. simpl in He2. rewrite lookup_insert_eq in He2. injection He2 as <-.
  rewrite Hs1 in He. exists e. split; [exact He|]. cbv zeta. set (s' := set_entries _ _).
  assert (Hs' : set_in_call (delete u (in_call s3)) s3 = s').
  { rewrite Hs3, Hs2, Hs1. unfold s', unregister. simpl. unfold set_in_call, set_entries, set_registry. simpl.
    rewrite !insert_insert_eq, delete_insert_id by done. by destruct s. }
  assert (Hheld : held s' a).
  { right. simpl. eauto. }
  assert (He' : end_call u a s3 = (Ok tt, s')).
  { unfold end_call, st_modify. unfold mbind, stM_bind. rewrite Hs'. by apply release_entry_held. }
  split.
  - unfold NodeDestroy_. rewrite (st_bind_Ok _ _ _ _ _ Hb). unfold cancel_request, cancel_trigger.
    rewrite (st_bind_Ok _ _ _ _ _ Hr2), (st_bind_Ok _ _ _ _ _ Hr3). exact He'.
  - apply (run_step _ _ _ _ _ s [] s3 None s'); [|by apply (step_end _ _ _ _ _ Returning u a); [|right|]].
    apply (run_step _ _ _ _ _ s [] s2 None s3); [|by apply (step_trigger _ _ _ _ _ u a)].
    apply (run_step _ _ _ _ _ s [] s1 None s2); [|by apply (step_request _ _ _ _ _ u a)].
    apply (run_step _ _ _ _ _ s [] s None s1); [by apply run_nil|by apply (step_unregister _ _ _ _ _ u h (Some a))].
Qed.

Lemma run_one s s' : ffi_step bits qc dom nw order s None s' -> ffi_run bits qc dom nw order s [] s'.
Proof. intros Hs. apply (run_step _ _ _ _ _ s [] s None s'); [apply run_nil|done]. Qed.

Lemma run_trans s1 l1 s2 l2 s3 :
  ffi_run bits qc dom nw order s1 l1 s2 -> ffi_run bits qc dom nw order s2 l2 s3 -> ffi_run bits qc dom nw order s1 (l1 ++ l2) s3.
Proof.
  intros H12. induction 1 as [s|s l s4 r s5 _ IH Hs]; [by rewrite app_nil_r|].
  rewrite app_assoc. eapply run_step; [by apply IH|done].
Qed.

Lemma in_call_begun g t a s : in_call (set_in_call (<[t := mk_in_call g a None]> (in_call s)) s) !! t = Some (mk_in_call g a None).
Proof. simpl. by rewrite lookup_insert_eq. Qed.

(** A cancellation to its end. *)
Lemma cancel_to_end t a s :
  ffi_inv s -> in_call s !! t = Some (mk_in_call Requesting a None) ->
  exists s', (let* _ := cancel_request t a in let* _ := cancel_trigger t a in end_call t a) s = (Ok tt, s') /\
    ffi_run bits qc dom nw order s [] s'.
Proof.
  intros Hi Ht. destruct (advance_kept Requesting Triggering t a (Executor.set_requested true) s Hi Ht)
    as (e & s1 & _ & Hr1 & [Hi1 _ _] & Hs1); [done..|].
  assert (Ht1 : in_call s1 !! t = Some (mk_in_call Triggering a None)) by (rewrite Hs1; simpl; by rewrite lookup_insert_eq).
  destruct (advance_kept Triggering Returning t a (fun x => Executor.trigger (Executor.cancel_guard_ x) x) s1 Hi1 Ht1)
    as (e2 & s2 & _ & Hr2 & [Hi2 _ _] & Hs2); [done..|].
  assert (Ht2 : in_call s2 !! t = Some (mk_in_call Returning a None)) by (rewrite Hs2; simpl; by rewrite lookup_insert_eq).
  destruct (end_kept Returning t a s2 Hi2 Ht2) as (s3 & Hr3 & _). exists s3. unfold cancel_request, cancel_trigger.
  rewrite (st_bind_Ok _ _ _ _ _ Hr1), (st_bind_Ok _ _ _ _ _ Hr2). split; [done|].
  apply (run_trans s [] s1 [] s3); [by apply run_one, (step_request _ _ _ _ _ t a)|].
  apply (run_trans s1 [] s2 [] s3); [by apply run_one, (step_trigger _ _ _ _ _ t a)|].
  apply run_one, (step_end _ _ _ _ _ Returning t a); auto.
Qed.

Lemma begin_registered g t h a s :
  g_registry s !! h = Some a -> begin_call g t h s = (Ok a, set_in_call (<[t := mk_in_call g a None]> (in_call s)) s).
Proof. intros Hh. unfold begin_call, lookup, mbind, stM_bind. by rewrite Hh. Qed.

Lemma begin_unknown {A} g t h s (k : nat -> stM (Ffi F E Cb) A) :
  g_registry s !! h = None -> (let* a := begin_call g t h in k a) s = (Throw ValueError, s).
Proof. intros Hh. unfold begin_call, lookup, mbind, stM_bind. by rewrite Hh. Qed.

(** A call of [SubDestroy_] to its end. *)
Lemma SubDestroy_to_end t a x s :
  ffi_inv s -> closing s !! t = Some (mk_closing ToClose a x) ->
  exists s', (let* _ := SubDestroy_close t a x in let* _ := SubDestroy_remove t a x in
              let* _ := SubDestroy_release t a x in SubDestroy_drop t) s = (Ok tt, s') /\
    ffi_run bits qc dom nw order s [] s'.
Proof.
  intros Hi Ht. destruct (SubDestroy_close_kept t a x s Hi Ht) as (s1 & Hr1 & [Hi1 _ _] & Hc1).
  assert (Ht1 : closing s1 !! t = Some (mk_closing ToRemove a x)) by (rewrite Hc1; by rewrite lookup_insert_eq).
  destruct (SubDestroy_remove_kept t a x s1 Hi1 Ht1) as (s2 & Hr2 & [Hi2 _ _] & Ht2).
  destruct (SubDestroy_release_kept t a x s2 Hi2 Ht2) as (s3 & Hr3 & [Hi3 _ _] & Ht3).
  destruct (SubDestroy_drop_kept t a x s3 Hi3 Ht3) as (s4 & Hr4 & _). exists s4.
  rewrite (st_bind_Ok _ _ _ _ _ Hr1), (st_bind_Ok _ _ _ _ _ Hr2), (st_bind_Ok _ _ _ _ _ Hr3). split; [done|].
  apply (run_trans s [] s1 [] s4); [by apply run_one, (step_sub_close _ _ _ _ _ t a x)|].
  apply (run_trans s1 [] s2 [] s4); [by apply run_one, (step_sub_remove _ _ _ _ _ t a x)|].
  apply (run_trans s2 [] s3 [] s4); [by apply run_one, (step_sub_release _ _ _ _ _ t a x)|].
  by apply run_one, (step_sub_drop _ _ _ _ _ t a x).
Qed.
End threads.
