(* ===== verification/FfiSafety.v ===== *)
(** What the bindings guarantee: the theorems about Ffi.v, from the lemmas of
    FfiFacts.v and FfiThreads.v, with a process on the test double for the
    witnesses. *)
From Stdlib Require Import ZArith Lia Strings.Byte Sorting.Sorted.
From stdpp Require Import base tactics list numbers gmap fin_maps sets functions.
From S2P Require Import Prelude Bytes Message Names Qos RawSerdata Dds MockDds NodeCtor.
From S2P Require Executor ExecutorRun Graph.
From S2P Require Import Ffi FfiFacts FfiThreads.

(** C24: A handle designates at most one thing, the handles returned by node_create,
    pub_create and sub_create along any run of calls and spins are positive and
    strictly increasing, so none is ever returned twice, and every handle in use
    was returned by such a call. *)
Theorem handles_never_reused {F E Cb} `{DdsNodesLaws F} `{Executor.DdsWaitset E}
    `{Message Graph.ParticipantEntitiesInfo} (bits : Z) (qc : bool) (dom : Z) (nw : Z -> E)
    (order : gmap Z nat -> list (Z * nat)) (f : F) (hs : list Z) (s : Ffi F E Cb) :
  (forall m, order m ≡ₚ map_to_list m) ->
  ffi_run bits qc dom nw order (ffi_init f) hs s ->
  StronglySorted Z.lt hs /\ Forall (fun h => 0 < h)%Z hs /\
  (forall h k, designates s h k -> h ∈ hs) /\
  (forall h k k', designates s h k -> designates s h k' -> k = k').
Proof.
  intros Ho Hrun.
  destruct (ffi_run_ok order Ho bits qc dom nw _ _ _ (inv_init f) (handles_init f) Hrun)
    as (_ & Hk & _ & _ & Hs & Hb & Hd).
  split_and!; [done| | |apply (handle_unique s Hk)].
  - revert Hb. apply Forall_impl. simpl. intros; lia.
  - intros h k Hx. destruct (Hd h k Hx) as [Hi|]; [|done].
    pose proof (handle_bound _ (handles_init f) h k Hi) as Hbound. simpl in Hbound. lia.
Qed.

(** C23: no thread reaches a destroyed object, however calls, spins and dispatches
    interleave: a call in progress finds its entry and the subscription it is
    dispatching, or the node and the subscription it is destroying, even when the
    entry of that node is gone; whatever it does next returns, and a call that
    starts is not undefined before the handles run out.  Nothing leaks: a
    subscription exists exactly as long as something refers to it, an entry
    exactly as long as it is registered or held, and a node without an entry
    exactly as long as a call holds it. *)
Theorem bindings_memory_safe {F E Cb} `{DdsNodesLaws F} `{Executor.DdsWaitset E}
    `{Message Graph.ParticipantEntitiesInfo} (bits : Z) (qc : bool) (dom : Z) (nw : Z -> E)
    (order : gmap Z nat -> list (Z * nat)) (f : F) (hs : list Z) (s : Ffi F E Cb) :
  (forall m, order m ≡ₚ map_to_list m) ->
  ffi_run bits qc dom nw order (ffi_init f) hs s ->
  (forall t c, in_call s !! t = Some c ->
     is_Some (entries s !! ic_entry c) /\ forall y, ic_sub c = Some y -> is_Some (objs s !! y)) /\
  (forall t c, closing s !! t = Some c ->
     is_Some (objs s !! cl_sub c) /\
     (cl_stage c <> ToDrop -> is_Some (entries s !! cl_node c) \/ is_Some (orphans s !! cl_node c))) /\
  (forall c, fst (run_call bits qc dom nw order c s) = Undefined -> g_next_handle s = (2 ^ 63 - 1)%Z) /\
  (forall t g a, in_call s !! t = Some (mk_in_call g a None) -> fst (next_of g t a s) = Ok tt) /\
  (forall t g a x, closing s !! t = Some (mk_closing g a x) -> fst (next_closing g t a x s) = Ok tt) /\
  (forall x, is_Some (objs s !! x) <-> referenced s x) /\
  (forall a, is_Some (entries s !! a) <-> held s a) /\
  (forall a, is_Some (orphans s !! a) <-> entries s !! a = None /\ wants_node s a).
Proof.
  intros Ho Hrun.
  destruct (ffi_run_ok order Ho bits qc dom nw _ _ _ (inv_init f) (handles_init f) Hrun) as (Hi & Hk & _).
  split_and!; [| | | | |apply (inv_objs s Hi)|apply (inv_entries s Hi)|apply (inv_orphans s Hi)].
  - intros t c Ht. split; [apply (inv_entries s Hi); right; eauto|].
    intros y Hy. apply (inv_objs s Hi). right. left. eauto.
  - intros t c Ht. split; [destruct (local_sub t c s Hi Ht); eauto|]. intros Hc. apply (wanted_exists s _ Hi).
    exists t, c. split_and!; [done|done|]. unfold holds_node. by rewrite bool_decide_eq_false_2.
  - intros c Hc. destruct (run_call bits qc dom nw order c s) as [o s'] eqn:Hr. simpl in Hc. subst o.
    by apply run_call_result in Hr.
  - intros t g a Ht. by destruct (next_of_kept t g a s Hi Ht) as (s' & -> & _).
  - intros t g a x Ht. by destruct (next_closing_kept t g a x s Hi Ht) as (s' & -> & _).
Qed.

(** The 4-byte header as pub_publish checks it. *)
Definition cdr_le_payload (payload : bytes) : Prop :=
  4 <= length payload /\ take 2 payload = [x00; x01].

#[global] Instance cdr_le_payload_dec payload : Decision (cdr_le_payload payload).
Proof. unfold cdr_le_payload. apply _. Defined.

Lemma check_cdr_payload_spec payload :
  check_cdr_payload payload = if decide (cdr_le_payload payload) then Ok tt else Throw ValueError.
Proof.
  destruct payload as [|a [|b [|c [|d l]]]]; try (rewrite decide_False; [done|]; intros [Hl _]; simpl in Hl; lia).
  unfold check_cdr_payload.
  destruct (decide (a = x00)) as [->|Ha].
  - destruct (decide (b = x01)) as [->|Hb].
    + rewrite decide_True; [done|]. split; [simpl; lia|done].
    + rewrite (bool_decide_eq_true_2 (b <> x01)), orb_true_r by done. rewrite decide_False; [done|]. by intros [_ [=]].
  - rewrite (bool_decide_eq_true_2 (a <> x00)) by done. rewrite decide_False; [done|]. by intros [_ [=]].
Qed.

(** Pub_publish on every branch: a payload that starts with the CDR
    little-endian header is handed to exactly the writer of the handle, as it is
    but for the padding, and a refused write is a ValueError; any other payload,
    and any handle that is no publisher, is a ValueError that writes nothing.
    The handle has one publisher, whatever order the registry is searched in. *)
Theorem publish_checked {F E Cb} `{DdsNodesLaws F} `{Executor.DdsWaitset E}
    `{Message Graph.ParticipantEntitiesInfo} (bits : Z) (qc : bool) (dom : Z) (nw : Z -> E)
    (order : gmap Z nat -> list (Z * nat)) (f : F) (hs : list Z) (s : Ffi F E Cb) (h : Z) (payload : bytes) :
  (forall m, order m ≡ₚ map_to_list m) ->
  ffi_run bits qc dom nw order (ffi_init f) hs s -> in_u bits (Z.of_nat (length payload)) ->
  (forall p, publisher s h p ->
     PubPublish_ bits order h payload s =
     if decide (cdr_le_payload payload)
     then let d := mk_serdata (Some (create_raw_sertype (pub_type p))) (padded payload) in
          let (rc, f') := write_on (pub_writer p) d (fac s) in
          ((if (rc =? 0)%Z then Ok tt else Throw ValueError), set_fac f' s)
     else (Throw ValueError, s)) /\
  (no_publisher s h -> PubPublish_ bits order h payload s = (Throw ValueError, s)) /\
  (forall p p', publisher s h p -> publisher s h p' -> p = p').
Proof.
  intros Ho Hrun Hl.
  destruct (ffi_run_ok order Ho bits qc dom nw _ _ _ (inv_init f) (handles_init f) Hrun) as (Hi & Hk & _).
  assert (Huniq : forall p p', publisher s h p -> publisher s h p' -> p = p').
  { intros p p' (n & a & e & Hn & He & Hp) (n' & a' & e' & Hn' & He' & Hp').
    assert (SPub a = SPub a') as [= ->] by (apply (handle_unique s Hk h); simpl; eauto 6).
    by simplify_eq. }
  split_and!; [|by apply publish_unknown|done].
  intros p Hp. destruct (PubPublish_spec order Ho bits h payload s Hi) as [[Hn _]|(p' & Hp' & ->)].
  { destruct Hp as (n & a & e & Hr & He & Hp). by rewrite (Hn n a e Hr He) in Hp. }
  rewrite (Huniq p' p Hp' Hp), check_cdr_payload_spec. case_decide; [|done].
  pose proof (Writer_write_run bits (pub_writer p) (pub_type p) payload (fac s) Hl) as Hw.
  rewrite (st_bind_Ok _ _ _ _ _ (on_fac_run _ _ _ _ Hw)). cbv zeta.
  destruct (write_on _ _ (fac s)) as [rc f']. simpl. by destruct (rc =? 0)%Z.
Qed.

(** A publisher handle that was destroyed, with pub_destroy or with its node,
    stays dead from the critical section on, whatever is called afterwards: publishing to it throws ValueError
    and writes nothing.  So does a node handle. *)
Theorem destroyed_handle_stays_dead {F E Cb} `{DdsNodesLaws F} `{Executor.DdsWaitset E}
    `{Message Graph.ParticipantEntitiesInfo} (bits : Z) (qc : bool) (dom : Z) (nw : Z -> E)
    (order : gmap Z nat -> list (Z * nat)) (f : F) (hs hs' : list Z) (s s1 s2 : Ffi F E Cb)
    (h n : Z) (a t : nat) (payload : bytes) :
  (forall m, order m ≡ₚ map_to_list m) ->
  ffi_run bits qc dom nw order (ffi_init f) hs s ->
  in_call s !! t = None -> designates s n (SNode a) -> designates s h (SPub a) ->
  PubDestroy_ order h s = (Ok tt, s1) \/ NodeDestroy_begin t n s = (Ok (Some a), s1) ->
  ffi_run bits qc dom nw order s1 hs' s2 ->
  PubPublish_ bits order h payload s2 = (Throw ValueError, s2) /\
  (NodeDestroy_begin t n s = (Ok (Some a), s1) -> lookup n s2 = (Throw ValueError, s2)).
Proof.
  intros Ho Hrun Ht Hn Hp Hd Hrun2.
  destruct (ffi_run_ok order Ho bits qc dom nw _ _ _ (inv_init f) (handles_init f) Hrun) as (Hi & Hk & _).
  assert (Hgrow : ffi_inv s1 /\ grows s s1 None).
  { destruct Hd as [Hd|Hd].
    - assert (Hc : run_call bits qc dom nw order (CPubDestroy h) s = (Ok None, s1)) by (simpl; by rewrite (st_bind_Ok _ _ _ _ _ Hd)).
      by apply run_call_result in Hc.
    - destruct (NodeDestroy_begin_kept t n s Hi Ht) as (s' & Hr & [] & _). rewrite Hr in Hd. by injection Hd as _ <-. }
  destruct Hgrow as [Hi1 Hg]. pose proof (handles_grow s s1 None Hk Hg) as Hk1. destruct Hg as [Hnext Hg].
  assert (Hnode : NodeDestroy_begin t n s = (Ok (Some a), s1) -> g_registry s1 = delete n (g_registry s)).
  { intros Hnd. destruct (NodeDestroy_begin_kept t n s Hi Ht) as (s' & Hr & _ & Hs). rewrite Hr in Hnd.
    injection Hnd as Hn' <-. by rewrite Hs, Hn'. }
  assert (Hdead : gone s1 h).
  { split; [apply (handle_bound s Hk) in Hp; lia|]. intros k Hk'.
    assert (k = SPub a) as -> by (apply (handle_unique s Hk h); [by apply Hg|done]).
    destruct Hk' as (n' & e & p & Hn' & He & Hpe). destruct Hd as [Hd|Hd].
    - destruct (PubDestroy_spec order Ho h s Hi) as [[Hno _]|(m & b & e1 & p1 & f1 & Hm & He1 & Hp1 & Hr)].
      + destruct Hp as (m & e1 & p1 & Hm & He1 & Hp1). by rewrite (Hno m a e1 Hm He1) in Hp1.
      + rewrite Hr in Hd. injection Hd as <-. assert (SPub b = SPub a) as [= ->].
        { apply (handle_unique s Hk h); [simpl; eauto 6|done]. }
        simpl in He. rewrite lookup_insert_eq in He. injection He as <-. simpl in Hpe. by rewrite lookup_delete_eq in Hpe.
    - rewrite (Hnode Hd) in Hn'. apply lookup_delete_Some in Hn' as [Hne Hn']. by apply Hne, (inv_inj s Hi n n' a). }
  assert (Hi2 : ffi_inv s2) by apply (ffi_run_ok order Ho bits qc dom nw s1 hs' s2 Hi1 Hk1 Hrun2).
  split.
  - apply (publish_unknown order Ho bits h payload s2 Hi2), gone_publisher.
    exact (gone_run order Ho bits qc dom nw s1 hs' s2 h Hi1 Hk1 Hrun2 Hdead).
  - intros Hnd. assert (Hgone : gone s2 n).
    { apply (gone_run order Ho bits qc dom nw s1 hs' s2 n Hi1 Hk1 Hrun2). split; [apply (handle_bound s Hk n (SNode a)) in Hn; lia|]. intros k Hk'.
      assert (k = SNode a) as -> by (apply (handle_unique s Hk n); [by apply Hg|done]).
      simpl in Hk'. rewrite (Hnode Hnd) in Hk'. by rewrite lookup_delete_eq in Hk'. }
    unfold lookup. destruct (g_registry s2 !! n) as [b|] eqn:Hb; [|done]. by destruct (proj2 Hgone (SNode b)).
Qed.

(* ------------------------------------------------------------------ *)
(** * Raw subscriptions *)

Section dispatching.
Context {R U : Type} `{DdsReaderLaws R} (is_closed : U -> bool) (callback : bytes -> stM U unit).

(** The payloads the callback is for, and what calling it does: once the
    subscription is closed, no further payload reaches it. *)
Definition valid_payloads (q : list sample) : list bytes :=
  omap (fun x => if valid_data (snd x) then Some (raw_serdata_payload (fst x)) else None) q.

Fixpoint call_while_open (ps : list bytes) (u : U) : U :=
  match ps with
  | [] => u
  | p :: ps => if is_closed u then u else call_while_open ps (snd (callback p u))
  end.

Lemma call_while_closed ps u : is_closed u = true -> call_while_open ps u = u.
Proof. intros Hc. destruct ps; simpl; [done|]. by rewrite Hc. Qed.

Lemma deliver_raw q u :
  (forall p u, defined (fst (callback p u))) ->
  st_iter (deliver (SubEntry_on_sample is_closed callback)) q u = (Ok tt, call_while_open (valid_payloads q) u).
Proof.
  intros Hd. revert u. induction q as [|[d i] q IH]; intros u; [done|].
  assert (Hone : deliver (SubEntry_on_sample is_closed callback) (d, i) u =
    (Ok tt, if valid_data i then if is_closed u then u else snd (callback (raw_serdata_payload d) u) else u)).
  { unfold deliver. simpl. destruct (valid_data i) eqn:Hv; [|done].
    unfold SubEntry_on_sample, mbind, stM_bind, st_get. rewrite Hv. simpl.
    destruct (is_closed u); [done|]. specialize (Hd (raw_serdata_payload d) u). unfold st_try.
    destruct (callback (raw_serdata_payload d) u) as [[[]|e|] u1]; done. }
  cbn [st_iter]. rewrite (st_bind_Ok _ _ _ _ _ Hone), IH. f_equal. unfold valid_payloads. simpl.
  destruct (valid_data i); [|done]. simpl. destruct (is_closed u) eqn:Hc; [|done]. by apply call_while_closed.
Qed.
End dispatching.

(** The dispatch of an open raw subscription calls the callback with every
    valid sample, in order, until the subscription is closed - by another thread
    or by the callback itself - and not once more; an exception of the callback
    does not stop the remaining ones; the reader is drained and every serdata
    reference given back.  The dispatch of a closed one touches nothing. *)
Theorem raw_subscription_dispatch {R U} `{DdsReaderLaws R} (is_closed : U -> bool) (callback : bytes -> stM U unit)
    (fuel : nat) (w : taking R U) :
  reader_ok (rd_ w) -> length (pending (rd_ w)) / 16 < fuel -> (forall p u, defined (fst (callback p u))) ->
  if is_closed (user w)
  then SubEntry_dispatch is_closed callback fuel w = (Ok (Some 0%Z), w)
  else exists r', SubEntry_dispatch is_closed callback fuel w =
         (Ok (Some (Z.of_nat (length (pending (rd_ w))))),
          mk_taking r' (call_while_open is_closed callback (valid_payloads (pending (rd_ w))) (user w))
            (unrefs w + length (pending (rd_ w)))) /\
       pending r' = [] /\ reader_ok r'.
Proof.
  intros Hr Hf Hd. unfold SubEntry_dispatch. rewrite (st_bind_Ok st_get _ w w w) by done.
  destruct (is_closed (user w)); [done|].
  destruct (Reader_take_all (SubEntry_on_sample is_closed callback) fuel 0 w _ Hr Hf (deliver_raw is_closed callback _ _ Hd))
    as (r' & E & Hp & Hok).
  exists r'. by rewrite E.
Qed.

(** The [closed] flag of the subscription at [x]. *)
Definition closed_at {F E Cb} (x : nat) (s : Ffi F E Cb) : bool :=
  match objs s !! x with Some o => closed o | None => false end.


(** Destroying a node that another call holds - a spin on another thread, or the
    one this call is made from - cancels its executor and keeps its node, its
    executor and its endpoints alive: the entry stays, with the cancellation
    requested, while its handle is gone from the registry; once no call holds it,
    the entry is destroyed. *)
Theorem destroy_while_spinning {F E Cb} `{DdsNodesLaws F} `{Executor.DdsWaitset E}
    `{Message Graph.ParticipantEntitiesInfo} (bits : Z) (qc : bool) (dom : Z) (nw : Z -> E)
    (order : gmap Z nat -> list (Z * nat)) (f : F) (hs : list Z) (s : Ffi F E Cb)
    (h : Z) (a t u : nat) (c : InCall) :
  (forall m, order m ≡ₚ map_to_list m) ->
  ffi_run bits qc dom nw order (ffi_init f) hs s ->
  g_registry s !! h = Some a -> in_call s !! t = Some c -> ic_entry c = a -> in_call s !! u = None ->
  exists e s1, entries s !! a = Some e /\ NodeDestroy_ u h s = (Ok tt, s1) /\ ffi_run bits qc dom nw order s [] s1 /\
    entries s1 !! a = Some (with_executor Executor.cancel e) /\ g_registry s1 !! h = None /\ objs s1 = objs s /\
    forall hs' s2, ffi_run bits qc dom nw order s1 hs' s2 ->
      (forall v d, in_call s2 !! v = Some d -> ic_entry d <> a) -> entries s2 !! a = None.
Proof.
  intros Ho Hrun Hh Ht Hc Hu.
  destruct (ffi_run_ok order Ho bits qc dom nw _ _ _ (inv_init f) (handles_init f) Hrun) as (Hi & Hk & _).
  assert (Hx : a < next_addr s) by (apply (inv_addr s Hi); right; left; apply (inv_entries s Hi); left; eauto).
  destruct (NodeDestroy_held order bits qc dom nw u t h a c s Hi Hu Hh Ht Hc) as (e & He & Hr & Hrun1).
  eexists e, _. split; [exact He|]. split; [exact Hr|]. split; [exact Hrun1|].
  set (s1 := set_entries _ _) in *. split; [simpl; by rewrite lookup_insert_eq|].
  split; [simpl; by rewrite lookup_delete_eq|]. split; [done|]. intros hs' s2 Hrun2 Hsp.
  destruct (ffi_run_ok order Ho bits qc dom nw _ _ _ Hi Hk Hrun1) as (Hi1 & Hk1 & _).
  destruct (ffi_run_ok order Ho bits qc dom nw _ _ _ Hi1 Hk1 Hrun2) as (Hi2 & _ & Hages & _).
  destruct (entries s2 !! a) as [e2|] eqn:He2; [|done]. exfalso.
  destruct (proj1 (inv_entries s2 Hi2 a) (mk_is_Some _ _ He2)) as [(h2 & Hh2)|(v & d & Hv & Hd)].
  - destruct (ages_registry _ _ Hages h2 a Hh2) as [Hreg|Hlt]; [|simpl in Hlt; lia].
    simpl in Hreg. apply lookup_delete_Some in Hreg as [Hne Hreg]. by apply Hne, (inv_inj s Hi h h2 a).
  - by apply (Hsp v d).
Qed.

(** The calls that run partly outside the lock, when nothing overtakes them: in any
    reachable state they return, as the sequence of their steps; a handle that is
    not registered is refused by node_cancel and by the getters, with nothing
    changed, and ignored by the two destructors. *)
Theorem unlocked_calls_return {F E Cb} `{DdsNodesLaws F} `{Executor.DdsWaitset E}
    `{Message Graph.ParticipantEntitiesInfo} (bits : Z) (qc : bool) (dom : Z) (nw : Z -> E)
    (order : gmap Z nat -> list (Z * nat)) (f : F) (hs : list Z) (s : Ffi F E Cb) (t : nat) (h : Z) :
  (forall m, order m ≡ₚ map_to_list m) ->
  ffi_run bits qc dom nw order (ffi_init f) hs s -> in_call s !! t = None -> closing s !! t = None ->
  (exists s', NodeDestroy_ t h s = (Ok tt, s') /\ ffi_run bits qc dom nw order s [] s' /\ (g_registry s !! h = None -> s' = s)) /\
  (exists s', SubDestroy_ order t h s = (Ok tt, s') /\ ffi_run bits qc dom nw order s [] s') /\
  match g_registry s !! h with
  | None => NodeCancel_ t h s = (Throw ValueError, s) /\ NodeFqName_ t h s = (Throw ValueError, s)
  | Some a =>
      (exists s', NodeCancel_ t h s = (Ok tt, s') /\ ffi_run bits qc dom nw order s [] s') /\
      (exists e s', entries s !! a = Some e /\ NodeFqName_ t h s = (Ok (fq_name_ (node e)), s') /\
         ffi_run bits qc dom nw order s [] s')
  end.
Proof.
  intros Ho Hrun Ht Hcl.
  destruct (ffi_run_ok order Ho bits qc dom nw _ _ _ (inv_init f) (handles_init f) Hrun) as (Hi & _).
  split; [|split].
  - destruct (NodeDestroy_begin_kept t h s Hi Ht) as (s1 & Hr & [Hi1 _ _] & Hs1). unfold NodeDestroy_.
    assert (Hst : ffi_step bits qc dom nw order s None s1) by (by eapply (step_unregister _ _ _ _ _ t h)).
    rewrite (st_bind_Ok _ _ _ _ _ Hr). destruct (g_registry s !! h) as [a|].
    + destruct (cancel_to_end order bits qc dom nw t a s1 Hi1) as (s2 & Hr2 & Hrun2); [rewrite Hs1; simpl; by rewrite lookup_insert_eq|].
      exists s2. split_and!; [done| |done]. eapply (run_trans order bits qc dom nw s [] s1 [] s2); [by apply run_one|done].
    + subst. exists s. split_and!; [done|apply run_nil|done].
  - destruct (SubDestroy_begin_kept order Ho t h s Hi Hcl) as (r & s1 & Hr & [Hi1 _ _] & Hs1). unfold SubDestroy_.
    assert (Hst : ffi_step bits qc dom nw order s None s1) by (by eapply (step_sub_begin _ _ _ _ _ t h)).
    rewrite (st_bind_Ok _ _ _ _ _ Hr). destruct r as [[a x]|].
    + destruct (SubDestroy_to_end order bits qc dom nw t a x s1 Hi1) as (s2 & Hr2 & Hrun2).
      { destruct Hs1 as (n & e & _ & _ & _ & ->). simpl. by rewrite lookup_insert_eq. }
      exists s2. split; [done|]. eapply (run_trans order bits qc dom nw s [] s1 [] s2); [by apply run_one|done].
    + exists s1. split; [done|]. by apply run_one.
  - destruct (g_registry s !! h) as [a|] eqn:Hh; [|by split; [apply begin_unknown|apply (begin_unknown Returning)]].
    assert (Hb : forall g, kept s (set_in_call (<[t := mk_in_call g a None]> (in_call s)) s)).
    { intros g. by apply (begin_kept g t h a s _ Hi Ht), begin_registered. }
    assert (Hst : forall g, g <> Triggering ->
      ffi_run bits qc dom nw order s [] (set_in_call (<[t := mk_in_call g a None]> (in_call s)) s)).
    { intros g Hg. by apply run_one, (step_begin _ _ _ _ _ g t h a), begin_registered. }
    split.
    + destruct (cancel_to_end order bits qc dom nw t a _ (kept_inv _ _ (Hb Requesting)) (in_call_begun Requesting t a s)) as (s2 & Hr2 & Hrun2).
      exists s2. unfold NodeCancel_. rewrite (st_bind_Ok _ _ _ _ _ (begin_registered Requesting t h a s Hh)). split; [done|].
      eapply (run_trans order bits qc dom nw s [] _ [] s2); [by apply (Hst Requesting)|done].
    + destruct (registered_entry s h a Hi Hh) as [e He].
      destruct (end_kept Returning t a _ (kept_inv _ _ (Hb Returning)) (in_call_begun Returning t a s)) as (s2 & Hr2 & _).
      exists e, s2. split; [done|]. unfold NodeFqName_, read_node.
      rewrite (st_bind_Ok _ _ _ _ _ (begin_registered Returning t h a s Hh)).
      assert (Hat : entry_at a (set_in_call (<[t := mk_in_call Returning a None]> (in_call s)) s) = (Ok e, set_in_call (<[t := mk_in_call Returning a None]> (in_call s)) s)).
      { unfold entry_at. simpl. by rewrite He. }
      rewrite (st_bind_Ok _ _ _ _ _ Hat), (st_bind_Ok _ _ _ _ _ Hr2). split; [done|].
      eapply (run_trans order bits qc dom nw s [] _ [] s2); [by apply (Hst Returning)|].
      apply run_one, (step_end _ _ _ _ _ Returning t a); [by apply in_call_begun|by right|done].
Qed.

(* ------------------------------------------------------------------ *)
(** * A process on the test double *)

Section scripts.
Context {F E Cb : Type} `{DdsNodesLaws F} `{Executor.DdsWaitset E} `{Message Graph.ParticipantEntitiesInfo}.
Variable bits : Z.
Variable qc : bool.
Variable dom : Z.
Variable nw : Z -> E.
Variable order : gmap Z nat -> list (Z * nat).
Notation run := (ffi_run (Cb := Cb) bits qc dom nw order).
Notation step := (ffi_step (Cb := Cb) bits qc dom nw order).

Lemma run_cons s r s1 l s2 : step s r s1 -> run s1 l s2 -> run s (option_list r ++ l) s2.
Proof.
  intros Hs Hr. revert Hs. induction Hr as [s1|s1 l s2 r' s3 Hr IH Hs']; intros Hs.
  - rewrite app_nil_r. rewrite <- (app_nil_l (option_list r)). eapply run_step; [apply run_nil|done].
  - rewrite app_assoc. eapply run_step; [by apply IH|done].
Qed.

(** Calls one after the other: the handles returned and the state reached, when
    every call returns. *)
Fixpoint script (cs : list (call (Cb := Cb))) (s : Ffi F E Cb) : option (list Z * Ffi F E Cb) :=
  match cs with
  | [] => Some ([], s)
  | c :: cs =>
      match run_call bits qc dom nw order c s with
      | (Ok r, s1) => '(l, s2) ← script cs s1; Some (option_list r ++ l, s2)
      | _ => None
      end
  end.

Lemma script_run cs : forall s l s', script cs s = Some (l, s') -> run s l s'.
Proof.
  induction cs as [|c cs IH]; intros s l s'; simpl; [intros [= <- <-]; apply run_nil|].
  destruct (run_call bits qc dom nw order c s) as [[r|e|] s1] eqn:Hc; [|done..].
  intros Hb. apply bind_Some in Hb as ([l1 s2] & Hs & [= <- <-]). eapply run_cons; [eapply step_call; exact Hc|by apply IH].
Qed.
End scripts.

Module FfiDemo.
Import NodeDemo ExecutorRun.

Definition Process : Type := Ffi NodeFactory MockWaitset unit.
Definition new_waitset (_ : Z) : MockWaitset := mk_waitset ∅ ∅ ∅.
Definition hash_order (m : gmap Z nat) : list (Z * nat) := map_to_list m.

Lemma hash_order_perm m : hash_order m ≡ₚ map_to_list m.
Proof. done. Qed.

(** A talker with a publisher (handle 2) and a subscription (handle 3), and a
    second node. *)
Definition setup : list (call (Cb := unit)) :=
  [CNodeCreate (lit "talker") []; CPubCreate 1 (lit "/chatter") (lit "std_msgs/msg/String") 10 true false;
   CSubCreate 1 (lit "/chatter") (lit "std_msgs/msg/String") 10 true false tt; CNodeCreate (lit "listener") (lit "/ns")].

Definition start : Process := ffi_init (fresh [] 0).
Definition after_setup : Process :=
  match script 64 true 0 new_waitset hash_order setup start with Some (_, s) => s | None => start end.

Definition demo_run : list Z -> Process -> Prop := ffi_run 64 true 0 new_waitset hash_order start.

Lemma setup_run : demo_run [1; 2; 3; 4]%Z after_setup.
Proof.
  apply (script_run 64 true 0 new_waitset hash_order setup). unfold after_setup.
  assert (Hl : fst <$> script 64 true 0 new_waitset hash_order setup start = Some [1; 2; 3; 4]%Z) by (vm_compute; reflexivity).
  destruct (script 64 true 0 new_waitset hash_order setup start) as [[l s]|]; [|done]. by injection Hl as ->.
Qed.

(** Thread 0 spins the talker: it has synchronised its waitset and picked the
    subscription. *)
Definition after_begin : Process := snd (begin_call Spinning 0 1 after_setup).
Definition talker (s : Process) : NodeEntry MockWaitset :=
  default (mk_entry (mk_node_obj [] [] [] 0 (mk_participant 0 0 0) 0 0)
    (mk_executor_obj 0 (Executor.mk_exec (new_waitset 0) (fun _ => Executor.mk_node [] 0 0) 0 0 false [] ∅ ∅ 2)) ∅ ∅)
    (entries s !! 0).
Definition after_sync : Process :=
  snd (on_executor 0 (fun _ => (Ok tt, Executor.sync (ex (executor (talker after_begin))))) after_begin).

Lemma talker_entry s : bool_decide (is_Some (entries s !! 0)) = true -> entries s !! 0 = Some (talker s).
Proof. unfold talker. rewrite bool_decide_eq_true. by intros [e ->]. Qed.

(** The attachment of the subscription, whose reader condition has handle 109. *)
Definition sub_entity : Executor.Entity :=
  match Executor.attached_ (ex (executor (talker after_sync))) !! 4%Z with
  | Some (Executor.mk_attached _ _ (Some e)) => e
  | _ => Executor.mk_entity 0 0
  end.

Definition dispatching : Process :=
  set_in_call (<[0 := mk_in_call Spinning 0 (Some (Executor.ent_id sub_entity))]> (in_call after_sync)) after_sync.

Lemma begin_run : demo_run [1; 2; 3; 4]%Z after_begin.
Proof.
  apply (run_step _ _ _ _ _ _ [1; 2; 3; 4]%Z after_setup None _ setup_run).
  apply (step_begin _ _ _ _ _ Spinning 0 1 0); [vm_compute; reflexivity|done|].
  apply pair_eq. vm_compute. reflexivity.
Qed.

Lemma sync_run : demo_run [1; 2; 3; 4]%Z after_sync.
Proof.
  apply (run_step _ _ _ _ _ _ [1; 2; 3; 4]%Z after_begin None _ begin_run).
  apply (step_exec _ _ _ _ _ 0 0 (talker after_begin) (Executor.sync (ex (executor (talker after_begin)))));
    [vm_compute; reflexivity|apply talker_entry; vm_compute; reflexivity|apply act_sync|].
  unfold after_sync. apply pair_eq. vm_compute. reflexivity.
Qed.

Lemma dispatching_run : demo_run [1; 2; 3; 4]%Z dispatching.
Proof.
  apply (run_step _ _ _ _ _ _ [1; 2; 3; 4]%Z after_sync None _ sync_run). unfold dispatching.
  apply (step_pick _ _ _ _ _ 0 0 (talker after_sync) 4 (Executor.condition sub_entity) 0 sub_entity);
    [vm_compute; reflexivity|apply talker_entry; vm_compute; reflexivity|vm_compute; reflexivity].
Qed.

(** While the subscription is dispatched, call 5 destroys it and has left the
    critical section, call 6 destroys the node, and the spin returns. *)
Definition erased : Process := snd (SubDestroy_begin hash_order 5 3 dispatching).
Definition destroyed : Process := snd (NodeDestroy_ 6 1 erased).
Definition undispatched : Process :=
  snd (release_subs (set_in_call (<[0 := mk_in_call Spinning 0 None]> (in_call destroyed)) destroyed)).
Definition orphaned : Process := snd (end_call 0 0 undispatched).

Lemma demo_snoc s s' : demo_run [1; 2; 3; 4]%Z s -> ffi_step 64 true 0 new_waitset hash_order s None s' -> demo_run [1; 2; 3; 4]%Z s'.
Proof. intros Hr Hs. by apply (run_step _ _ _ _ _ start [1; 2; 3; 4]%Z s None s'). Qed.

Lemma erased_run : demo_run [1; 2; 3; 4]%Z erased.
Proof.
  apply (demo_snoc dispatching); [exact dispatching_run|].
  apply (step_sub_begin _ _ _ _ _ 5 3 (Some (0, 1))); [vm_compute; reflexivity|].
  unfold erased. apply pair_eq. vm_compute. reflexivity.
Qed.

Lemma talker_destroyed_run : demo_run [1; 2; 3; 4]%Z destroyed.
Proof.
  destruct (ffi_run_ok hash_order hash_order_perm 64 true 0 new_waitset _ _ _ (inv_init _) (handles_init _) erased_run) as (Hi & _).
  destruct (NodeDestroy_held hash_order 64 true 0 new_waitset 6 0 1 0 (mk_in_call Spinning 0 (Some 1)) erased Hi)
    as (e & _ & Hr & Hrun); [vm_compute; reflexivity..|].
  refine (eq_ind_r (demo_run [1; 2; 3; 4]%Z) _ (f_equal snd Hr : destroyed = _)).
  exact (run_trans hash_order 64 true 0 new_waitset start [1; 2; 3; 4]%Z erased [] _ erased_run Hrun).
Qed.

Lemma orphaned_run : demo_run [1; 2; 3; 4]%Z orphaned.
Proof.
  apply (demo_snoc undispatched).
  - apply (demo_snoc destroyed); [exact talker_destroyed_run|].
    apply (step_dispatched _ _ _ _ _ 0 0 1); [vm_compute; reflexivity|].
    unfold undispatched. apply pair_eq. vm_compute. reflexivity.
  - apply (step_end _ _ _ _ _ Spinning 0 0); [vm_compute; reflexivity|by left|].
    unfold orphaned. apply pair_eq. vm_compute. reflexivity.
Qed.

(** The node is then held by call 5 alone; the end of that call leaves nothing of
    the talker. *)
Example orphan_outlives_entry :
  (entries orphaned !! 0 = None) /\ bool_decide (is_Some (orphans orphaned !! 0)) = true /\
  bool_decide (is_Some (objs orphaned !! 1)) = true /\
  (let after := snd ((let* _ := SubDestroy_close 5 0 1 in let* _ := SubDestroy_remove 5 0 1 in
                      let* _ := SubDestroy_release 5 0 1 in SubDestroy_drop 5) orphaned) in
   size (entries after) = 1 /\ orphans after = ∅ /\ size (objs after) = 0).
Proof. vm_compute. done. Qed.
End FfiDemo.
Import NodeDemo ExecutorRun FfiDemo.

Lemma after_setup_publisher : exists p, publisher after_setup 2 p /\ pub_topic p = lit "/chatter".
Proof.
  assert (Hp : bool_decide (is_Some (pubs (talker after_setup) !! 2%Z)) = true) by (vm_compute; reflexivity).
  apply bool_decide_eq_true in Hp as [p Hp]. exists p. split.
  - exists 1%Z, 0, (talker after_setup). split_and!; [vm_compute; reflexivity|apply talker_entry; vm_compute; reflexivity|exact Hp].
  - assert (Ht : pub_topic <$> pubs (talker after_setup) !! 2%Z = Some (lit "/chatter")) by (vm_compute; reflexivity).
    rewrite Hp in Ht. by injection Ht.
Qed.

Lemma handles_never_reused_witness :
  StronglySorted Z.lt [1; 2; 3; 4]%Z /\ designates after_setup 1 (SNode 0) /\
  (forall k, designates after_setup 1 k -> k = SNode 0) /\ 4%Z ∈ [1; 2; 3; 4]%Z.
Proof.
  destruct (handles_never_reused 64 true 0 new_waitset hash_order (NodeDemo.fresh [] 0) [1; 2; 3; 4]%Z after_setup
              hash_order_perm setup_run) as (Hs & _ & Hd & Hu).
  assert (H1 : designates after_setup 1 (SNode 0)) by (vm_compute; reflexivity).
  split_and!; [exact Hs|exact H1|intros k Hk; exact (Hu 1%Z k (SNode 0) Hk H1)|].
  apply (Hd 4%Z (SNode 2)). vm_compute. reflexivity.
Defined.

(** In the middle of a dispatch, and with a node that has lost its entry. *)
Lemma bindings_memory_safe_witness :
  is_Some (entries dispatching !! 0) /\ is_Some (objs dispatching !! Executor.ent_id sub_entity) /\
  Executor.ent_id sub_entity = 1 /\
  closing orphaned !! 5 = Some (mk_closing ToClose 0 1) /\ is_Some (objs orphaned !! 1) /\
  fst (SubDestroy_close 5 0 1 orphaned) = Ok tt.
Proof.
  destruct (bindings_memory_safe 64 true 0 new_waitset hash_order (NodeDemo.fresh [] 0) [1; 2; 3; 4]%Z dispatching
              hash_order_perm dispatching_run) as (Hs & _).
  destruct (Hs 0 (mk_in_call Spinning 0 (Some (Executor.ent_id sub_entity)))) as [He Ho]; [reflexivity|].
  destruct (bindings_memory_safe 64 true 0 new_waitset hash_order (NodeDemo.fresh [] 0) [1; 2; 3; 4]%Z orphaned
              hash_order_perm orphaned_run) as (_ & Hc & _ & _ & Hn & _).
  assert (H5 : closing orphaned !! 5 = Some (mk_closing ToClose 0 1)) by (vm_compute; reflexivity).
  destruct (Hc 5 _ H5) as [Hx _].
  split_and!; [exact He|exact (Ho _ eq_refl)|vm_compute; reflexivity|exact H5|exact Hx|exact (Hn 5 ToClose 0 1 H5)].
Defined.

Lemma publish_checked_witness :
  fst (PubPublish_ 64 hash_order 2 [x00; x01; x00; x00; x2a] after_setup) = Ok tt /\
  PubPublish_ 64 hash_order 2 [x01; x00; x00; x00; x2a] after_setup = (Throw ValueError, after_setup).
Proof.
  destruct after_setup_publisher as (p & Hp & _). split.
  - destruct (publish_checked 64 true 0 new_waitset hash_order (NodeDemo.fresh [] 0) [1; 2; 3; 4]%Z after_setup 2
                [x00; x01; x00; x00; x2a] hash_order_perm setup_run ltac:(unfold in_u; simpl; lia)) as (Hok & _).
    rewrite (Hok p Hp), decide_True by (split; [simpl; lia|reflexivity]). cbv zeta. cbn [write_on NodeDemo.nf_nodes].
    unfold NodeDemo.nf_write.
    assert (Hr : NodeDemo.nf_result (fac after_setup) = 0%Z) by (vm_compute; reflexivity). rewrite Hr. reflexivity.
  - destruct (publish_checked 64 true 0 new_waitset hash_order (NodeDemo.fresh [] 0) [1; 2; 3; 4]%Z after_setup 2
                [x01; x00; x00; x00; x2a] hash_order_perm setup_run ltac:(unfold in_u; simpl; lia)) as (Hbad & _).
    rewrite (Hbad p Hp), decide_False; [reflexivity|]. intros [_ Hx]. discriminate Hx.
Defined.

Lemma destroyed_handle_stays_dead_witness :
  PubPublish_ 64 hash_order 2 [x00; x01; x00; x00] (snd (NodeDestroy_begin 7 1 after_setup)) =
    (Throw ValueError, snd (NodeDestroy_begin 7 1 after_setup)) /\
  lookup 1 (snd (NodeDestroy_begin 7 1 after_setup)) = (Throw ValueError, snd (NodeDestroy_begin 7 1 after_setup)).
Proof.
  assert (Hd : NodeDestroy_begin 7 1 after_setup = (Ok (Some 0), snd (NodeDestroy_begin 7 1 after_setup))).
  { apply pair_eq. vm_compute. reflexivity. }
  assert (Hn1 : g_registry after_setup !! 1%Z = Some 0) by (vm_compute; reflexivity).
  destruct (destroyed_handle_stays_dead 64 true 0 new_waitset hash_order (NodeDemo.fresh [] 0) [1; 2; 3; 4]%Z [] after_setup
              (snd (NodeDestroy_begin 7 1 after_setup)) (snd (NodeDestroy_begin 7 1 after_setup)) 2 1 0 7 [x00; x01; x00; x00]) as [Hpub Hl];
    [exact hash_order_perm|exact setup_run|vm_compute; reflexivity|exact Hn1| |right; exact Hd|apply run_nil|split; [exact Hpub|exact (Hl Hd)]].
  assert (Ha : bool_decide (is_Some (pubs (talker after_setup) !! 2%Z)) = true) by (vm_compute; reflexivity).
  apply bool_decide_eq_true in Ha as [p' Hp']. exists 1%Z, (talker after_setup), p'.
  split_and!; [exact Hn1|apply talker_entry; vm_compute; reflexivity|exact Hp'].
Defined.

(** A callback that throws on the first sample; with the second the subscription
    is closed. *)
Definition full (u : list bytes) : bool := bool_decide (length u = 2).
Definition log_then_throw (p : bytes) : stM (list bytes) unit :=
  let* u := st_get in
  let* _ := st_modify (fun u => u ++ [p]) in
  if bool_decide (u = []) then st_throw UserException else mret tt.

Lemma raw_subscription_dispatch_witness :
  exists r', SubEntry_dispatch full log_then_throw 2 (mk_taking mock_queue [] 0) =
    (Ok (Some 20%Z), mk_taking r' [[x00]; [x01]] 20) /\ pending r' = [] /\ reader_ok r'.
Proof.
  assert (Hd : forall p u, defined (fst (log_then_throw p u))).
  { intros p u. unfold log_then_throw, mbind, stM_bind, st_get, st_modify, defined. destruct (bool_decide (u = [])); discriminate. }
  pose proof (raw_subscription_dispatch full log_then_throw 2 (mk_taking mock_queue [] 0) eq_refl
                ltac:(vm_compute; lia) Hd) as Hw.
  match type of Hw with if _ then _ else ?Q => assert (Hq : Q) by exact Hw end.
  destruct Hq as (r' & Er & Hp & Hok). exists r'. split_and!; [|exact Hp|exact Hok].
  rewrite Er. reflexivity.
Defined.


Lemma destroy_while_spinning_witness :
  exists e s1, entries dispatching !! 0 = Some e /\ NodeDestroy_ 6 1 dispatching = (Ok tt, s1) /\
    entries s1 !! 0 = Some (with_executor Executor.cancel e) /\ g_registry s1 !! 1%Z = None.
Proof.
  destruct (destroy_while_spinning 64 true 0 new_waitset hash_order (NodeDemo.fresh [] 0) [1; 2; 3; 4]%Z dispatching 1 0 0 6
              (mk_in_call Spinning 0 (Some (Executor.ent_id sub_entity)))) as (e & s1 & He & Hd & _ & He1 & Hr & _);
    [exact hash_order_perm|exact dispatching_run|vm_compute; reflexivity|reflexivity|reflexivity|vm_compute; reflexivity|].
  exists e, s1. split_and!; [exact He|exact Hd|exact He1|exact Hr].
Defined.

Lemma unlocked_calls_return_witness :
  (exists s', SubDestroy_ hash_order 5 3 dispatching = (Ok tt, s') /\ ffi_run 64 true 0 new_waitset hash_order dispatching [] s') /\
  (exists s', NodeCancel_ 5 3 dispatching = (Throw ValueError, s') /\ s' = dispatching).
Proof.
  destruct (unlocked_calls_return 64 true 0 new_waitset hash_order (NodeDemo.fresh [] 0) [1; 2; 3; 4]%Z dispatching 5 3)
    as (_ & Hs & Hc); [exact hash_order_perm|exact dispatching_run|vm_compute; reflexivity|vm_compute; reflexivity|].
  split; [exact Hs|]. exists dispatching. split; [|reflexivity].
  assert (Hn : g_registry dispatching !! 3%Z = None) by (vm_compute; reflexivity). rewrite Hn in Hc. apply Hc.
Defined.
