(* ===== verification/GraphExecutor.v ===== *)
(** The config-driven launcher (src/src/rcllite/graph_executor.cpp): a topology
    document becomes nodes with parameters, raw publishers and raw subscriptions
    on one executor; one-shot and periodic publishing; the status document.

    The JSON library is the class [JsonDoc] of the calls the code makes on a
    document; doubles are their 64-bit patterns. *)
From Stdlib Require Import String.
From Stdlib Require Import ZArith Lia Strings.Byte.
From stdpp Require Import base tactics list numbers gmap functions.
From S2P Require Import Prelude Bytes Message Names Qos RawSerdata Dds NodeCtor.
From S2P Require Executor Graph Params Ffi.
From S2P Require Import Json.

(** [vila::Json] (nlohmann::json): the observers the code uses.  [elements] is
    what a range-based loop visits, [items] what iterating with [key()] and
    [value()] visits; [value_string j k d] is [j.value(k, d)]. *)
Class JsonDoc (J : Type) := {
  JsonFromDoc : bytes -> outcome J;
  is_object : J -> bool;
  is_array : J -> bool;
  is_boolean : J -> bool;
  is_number_integer : J -> bool;
  is_number_float : J -> bool;
  is_string : J -> bool;
  contains : J -> bytes -> bool;
  at_key : J -> bytes -> outcome J;
  elements : J -> list J;
  items : J -> list (bytes * J);
  get_bool : J -> outcome bool;
  get_int64 : J -> outcome Z;
  get_double : J -> outcome Z;
  get_size : J -> outcome Z;
  get_string : J -> outcome bytes;
  value_string : J -> bytes -> bytes -> outcome bytes;
  value_double : J -> bytes -> Z -> outcome Z;
  value_json : J -> bytes -> J -> outcome J;
  empty_object : J
}.

(* ------------------------------------------------------------------ *)
(** * Payloads and QoS *)

(** The lambda [nibble]; [-1] is no digit. *)
Definition nibble (c : byte) : Z :=
  let z := Z_of_byte c in
  if (48 <=? z)%Z && (z <=? 57)%Z then (z - 48)%Z
  else if (97 <=? z)%Z && (z <=? 102)%Z then (z - 97 + 10)%Z
  else if (65 <=? z)%Z && (z <=? 70)%Z then (z - 65 + 10)%Z
  else (-1)%Z.

(** The loop, two digits at a time. *)
Fixpoint hex_loop (hex : bytes) : outcome bytes :=
  match hex with
  | a :: b :: rest =>
      let hi := nibble a in
      let lo := nibble b in
      if (hi <? 0)%Z || (lo <? 0)%Z then Throw InvalidArguments
      else
        let* bytes := hex_loop rest in
        Ok (byte_of_Z (Z.lor (Z.shiftl hi 4) lo) :: bytes)
  | _ => Ok []
  end.

Definition payload_from_hex (hex : bytes) : outcome bytes :=
  if negb (length hex mod 2 =? 0)%nat then Throw InvalidArguments else hex_loop hex.

Definition default_payload : bytes := [x00; x01; x00; x00].

Example payload_of_comment : payload_from_hex (lit "00010000ab") = Ok [x00; x01; x00; x00; xab].
Proof. reflexivity. Qed.

(** [rate > 0.0] on the pattern of a double: neither zero, negative nor NaN. *)
Definition positive_double (bits : Z) : bool := (0 <? bits)%Z && (bits <=? 0x7ff0000000000000)%Z.

Section qos.
Context {J : Type} `{JsonDoc J}.

(** [j.at(key).get<std::string>()]. *)
Definition string_at (j : J) (key : bytes) : outcome bytes := let* v := at_key j key in get_string v.

Definition parse_qos (qos : J) (base : QoS) : outcome QoS :=
  if negb (is_object qos) then Ok base
  else
    let* reliability := value_string qos (lit "reliability") (lit "reliable") in
    let base := if bool_decide (reliability = lit "best_effort") then set_best_effort base else base in
    let* durability := value_string qos (lit "durability") (lit "volatile") in
    let base := if bool_decide (durability = lit "transient_local") then set_transient_local base else base in
    if contains qos (lit "depth")
    then
      let* depth := at_key qos (lit "depth") in
      let* d := get_size depth in
      Ok (keep_last d base)
    else Ok base.
End qos.

(* ------------------------------------------------------------------ *)
(** * The running topology *)

Record RawPublisher := mk_raw_publisher {
  rp_topic : bytes;
  rp_type : bytes;
  rp_writer : Z;
  rp_payload : bytes;
  rp_rate_hz : Z;
  published : Z
}.

(** [rs_entity] is the identity of the object in its node's entity list. *)
Record RawSubscription := mk_raw_subscription {
  rs_topic : bytes;
  rs_type : bytes;
  rs_reader : Z * Z;
  rs_entity : nat;
  received : Z
}.

(** [ge_node] is the node's number among those of the executor. *)
Record NodeEntry := mk_node_entry {
  ge_fq_name : bytes;
  ge_namespace : bytes;
  ge_obj : NodeObj;
  ge_node : nat;
  publishers : list RawPublisher;
  subscriptions : list RawSubscription
}.

(** The parameter support of a node: its events writer, the services it
    registered with the node, and its values. *)
Record ParamStore := mk_param_store {
  ps_events : Z;
  ps_services : list ServiceObj;
  ps_values : gmap bytes Params.ParameterValue
}.

(** [stores]: the nodes whose [params_] exist; [next_node] and [next_entity]
    number new objects. *)
Record Impl (F E : Type) := mk_impl {
  g_fac : F;
  g_executor : Executor.Executor E;
  g_nodes : list NodeEntry;
  g_stores : gmap nat ParamStore;
  next_node : nat;
  next_entity : nat;
  g_clock_reads : nat
}.
Arguments mk_impl {F E} _ _ _ _ _ _ _.
Arguments g_fac {F E} _.
Arguments g_executor {F E} _.
Arguments g_nodes {F E} _.
Arguments g_stores {F E} _.
Arguments next_node {F E} _.
Arguments next_entity {F E} _.
Arguments g_clock_reads {F E} _.

Section graph_executor.
Context {F E J : Type} `{DdsFactory F} `{!DdsNodes F} `{Executor.DdsWaitset E} `{JsonDoc J}
  `{Message Graph.ParticipantEntitiesInfo} `{Message Params.ParameterEvent}.
Notation ImplM := (stM (Impl F E)).
Implicit Types s : Impl F E.

Variable iov_len_bits : Z.
Variable qos_created : bool.
Variable domain_id : Z.
Variable clock : nat -> Z.
(** The request and response types of the parameter services, and the event type. *)
Variable service_types : bytes -> bytes * bytes.
Variable event_type : bytes.
(** [NodeRegistry::CreateByName]: the node a registered class builds, with the
    entities its constructor registered; [None] for an unknown class. *)
Variable CreateByName : bytes -> bytes -> bytes -> stM F (option (NodeObj * list Executor.Entity)).

Definition on_gfac {A} (m : stM F A) : ImplM A := fun s =>
  let (o, f) := m (g_fac s) in
  (o, mk_impl f (g_executor s) (g_nodes s) (g_stores s) (next_node s) (next_entity s) (g_clock_reads s)).

Definition set_executor (x : Executor.Executor E) s : Impl F E :=
  mk_impl (g_fac s) x (g_nodes s) (g_stores s) (next_node s) (next_entity s) (g_clock_reads s).

(** Stateful code on the entity list of node [n]; new entities trigger its guard. *)
Definition on_node {A} (n : nat) (m : stM (World F) A) : ImplM A := fun s =>
  let x := g_executor s in
  let (o, w) := m (mk_world (g_fac s) (Executor.heap x n)) in
  let x' := Executor.set_heap (<[n := plumbing w]> (Executor.heap x)) x in
  let x' := if (Executor.entity_epoch_ (plumbing w) =? Executor.entity_epoch_ (Executor.heap x n))%Z then x'
            else Executor.trigger (Executor.change_guard_ (plumbing w)) x' in
  (o, mk_impl (fac w) x' (g_nodes s) (g_stores s) (next_node s)
        (next_entity s + (length (Executor.entities_ (plumbing w)) - length (Executor.entities_ (Executor.heap x n))))
        (g_clock_reads s)).

(** A node that was just constructed: it gets its number and joins the executor. *)
Definition adopt (n : NodeObj) (es : list Executor.Entity) : ImplM nat := fun s =>
  let k := next_node s in
  let plumbing := Executor.mk_node es (u64 (Z.of_nat (length es))) (change_guard_ n) in
  let x := Executor.set_heap (<[k := plumbing]> (Executor.heap (g_executor s))) (g_executor s) in
  (Ok k, mk_impl (g_fac s) (Executor.add_node k x) (g_nodes s) (g_stores s) (S k) (next_entity s) (g_clock_reads s)).

(** [Node::params]: created on the first use. *)
Definition node_params (k : nat) (fq_name : bytes) : ImplM ParamStore :=
  let* s := st_get in
  match g_stores s !! k with
  | Some p => mret p
  | None =>
      let* events := on_node k (params qos_created None fq_name service_types event_type (next_entity s)) in
      let p := mk_param_store (fst events) (snd events) ∅ in
      let* _ := st_modify (fun s => mk_impl (g_fac s) (g_executor s) (g_nodes s) (<[k := p]> (g_stores s))
                                     (next_node s) (next_entity s) (g_clock_reads s)) in
      mret p
  end.

(** [declare] of Params.v on the store [p] of node [k], its writer being one of
    CycloneDDS'. *)
Definition declare_in (k : nat) (fq_name : bytes) (p : ParamStore) (name : bytes) (value : Params.ParameterValue)
  : ImplM unit := fun s =>
  let (o, c) := Params.declare (W := F) (H0 := writer_at (ps_events p)) iov_len_bits fq_name clock name value
                  (Params.mk_core (ps_values p) (g_fac s) (g_clock_reads s)) in
  (o, mk_impl (Params.events_pub c) (g_executor s) (g_nodes s)
        (<[k := mk_param_store (ps_events p) (ps_services p) (Params.values_ c)]> (g_stores s))
        (next_node s) (next_entity s) (Params.clock_reads c)).

(** [params().declare(name, to_value(value))]. *)
Definition node_declare (k : nat) (fq_name name : bytes) (value : Params.ParameterValue) : ImplM unit :=
  let* p := node_params k fq_name in declare_in k fq_name p name value.

Definition declare_parameter (k : nat) (fq name : bytes) (value : J) : ImplM unit :=
  if is_boolean value then
    let* v := st_lift (get_bool value) in node_declare k fq name (Params.to_value_bool v)
  else if is_number_integer value then
    let* v := st_lift (get_int64 value) in node_declare k fq name (Params.to_value_int64 v)
  else if is_number_float value then
    let* v := st_lift (get_double value) in node_declare k fq name (Params.to_value_double v)
  else if is_string value then
    let* v := st_lift (get_string value) in node_declare k fq name (Params.to_value_string v)
  else st_throw InvalidArguments.

(** What both endpoint builders read of a specification: the DDS type and the
    expanded topic. *)
Definition endpoint_names (entry : NodeEntry) (spec : J) : outcome (bytes * bytes) :=
  if negb (is_object spec) || negb (contains spec (lit "topic")) || negb (contains spec (lit "type"))
  then Throw InvalidArguments
  else
    let* type := string_at spec (lit "type") in
    let* type := dds_type_name type in
    let* topic := string_at spec (lit "topic") in
    let* ros_topic := expand_topic_name topic (ge_namespace entry) in
    Ok (type, ros_topic).

Definition endpoint_qos (spec : J) : outcome QoS :=
  let* qos := value_json spec (lit "qos") empty_object in parse_qos qos Default.

Definition build_publisher (entry : NodeEntry) (spec : J) : ImplM NodeEntry :=
  let* names := st_lift (endpoint_names entry spec) in
  let (type, ros_topic) := names : bytes * bytes in
  let* payload := st_lift (if contains spec (lit "payload_hex")
                           then let* hex := string_at spec (lit "payload_hex") in payload_from_hex hex
                           else Ok default_payload) in
  let* rate := st_lift (value_double spec (lit "rate_hz") 0) in
  let* dds_topic := st_lift (ros_to_dds_topic_name ros_topic) in
  let* qos := st_lift (endpoint_qos spec) in
  let* wr := on_gfac (Writer_ctor (Some (create_raw_sertype type)) qos_created dds_topic qos) in
  mret (mk_node_entry (ge_fq_name entry) (ge_namespace entry) (ge_obj entry) (ge_node entry)
          (publishers entry ++ [mk_raw_publisher ros_topic type wr payload rate 0]) (subscriptions entry)).

Definition build_subscription (entry : NodeEntry) (spec : J) : ImplM NodeEntry :=
  let* names := st_lift (endpoint_names entry spec) in
  let (type, ros_topic) := names : bytes * bytes in
  let* dds_topic := st_lift (ros_to_dds_topic_name ros_topic) in
  let* qos := st_lift (endpoint_qos spec) in
  let* rd := on_gfac (Reader_ctor (Some (create_raw_sertype type)) qos_created dds_topic qos) in
  let* s := st_get in
  let* _ := st_modify (fun s =>
    mk_impl (g_fac s) (Executor.add_entity (ge_node entry) (Executor.mk_entity (next_entity s) (snd rd)) (g_executor s))
      (g_nodes s) (g_stores s) (next_node s) (S (next_entity s)) (g_clock_reads s)) in
  mret (mk_node_entry (ge_fq_name entry) (ge_namespace entry) (ge_obj entry) (ge_node entry) (publishers entry)
          (subscriptions entry ++ [mk_raw_subscription ros_topic type rd (next_entity s) 0])).

(** A loop that builds on an entry. *)
Fixpoint build_each (build : NodeEntry -> J -> ImplM NodeEntry) (specs : list J) (entry : NodeEntry) : ImplM NodeEntry :=
  match specs with
  | [] => mret entry
  | spec :: specs => let* entry := build entry spec in build_each build specs entry
  end.

(** [spec.contains(key)] and the loop over [spec.at(key)]. *)
Definition build_endpoints (key : bytes) (build : NodeEntry -> J -> ImplM NodeEntry) (spec : J) (entry : NodeEntry)
  : ImplM NodeEntry :=
  if contains spec key
  then let* l := st_lift (at_key spec key) in build_each build (elements l) entry
  else mret entry.

Definition build_parameters (spec : J) (entry : NodeEntry) : ImplM unit :=
  if contains spec (lit "parameters") then
    let* params := st_lift (at_key spec (lit "parameters")) in
    if negb (is_object params) then st_throw InvalidArguments
    else st_iter (fun p => declare_parameter (ge_node entry) (ge_fq_name entry) (fst p) (snd p)) (items params)
  else mret tt.

(** The node of a specification: a registered class, or a plain node. *)
Definition build_object (spec : J) (name ns : bytes) : ImplM (NodeObj * list Executor.Entity) :=
  if contains spec (lit "class") then
    let* cls := st_lift (string_at spec (lit "class")) in
    let* n := on_gfac (CreateByName cls name ns) in
    match n with
    | None => st_throw InvalidArguments
    | Some n => mret n
    end
  else
    let* n := on_gfac (Node_ctor iov_len_bits qos_created name ns domain_id) in mret (n, []).

Definition build_node (spec : J) : ImplM unit :=
  if negb (is_object spec) || negb (contains spec (lit "name")) then st_throw InvalidArguments
  else
    let* ns := st_lift (value_string spec (lit "namespace") (lit "/")) in
    let* name := st_lift (string_at spec (lit "name")) in
    let* n := build_object spec name ns in
    let* k := adopt (fst n) (snd n) in
    let entry := mk_node_entry (fq_name_ (fst n)) ns (fst n) k [] [] in
    let* _ := build_parameters spec entry in
    let* entry := build_endpoints (lit "publishers") build_publisher spec entry in
    let* entry := build_endpoints (lit "subscriptions") build_subscription spec entry in
    st_modify (fun s => mk_impl (g_fac s) (g_executor s) (g_nodes s ++ [entry]) (g_stores s)
                          (next_node s) (next_entity s) (g_clock_reads s)).

(** [Impl::Impl], with the executor already constructed. *)
Definition build_topology (json_topology : bytes) : ImplM unit :=
  let* doc := st_lift (try_catch (JsonFromDoc json_topology) (fun _ => Throw InvalidArguments)) in
  if negb (is_object doc) || negb (contains doc (lit "nodes")) then st_throw InvalidArguments
  else
    let* l := st_lift (at_key doc (lit "nodes")) in
    if negb (is_array l) then st_throw InvalidArguments
    else if bool_decide (elements l = []) then st_throw InvalidArguments
    else st_iter build_node (elements l).
End graph_executor.

(* ------------------------------------------------------------------ *)
(** * Publishing, dispatch *)

Section publishing.
Context {F : Type} `{!DdsNodes F}.
Variable iov_len_bits : Z.

Definition count_published (p : RawPublisher) : RawPublisher :=
  mk_raw_publisher (rp_topic p) (rp_type p) (rp_writer p) (rp_payload p) (rp_rate_hz p) (u64 (published p + 1)).

(** One write of the payload, counted when it succeeds. *)
Definition send (p : RawPublisher) : stM F RawPublisher :=
  let* ok := Writer_write (W := F) (H := writer_at (rp_writer p)) iov_len_bits (create_raw_sertype (rp_type p)) (rp_payload p) in
  mret (if ok : bool then count_published p else p).

(** The thread of a periodic publisher: [running i] is what the flag reads before
    round [i]; [None] when the fuel is used up. *)
Fixpoint publisher_thread (running : nat -> bool) (fuel i : nat) (p : RawPublisher) : stM F (option RawPublisher) :=
  match fuel with
  | O => mret None
  | S fuel =>
      if running i then let* p := send p in publisher_thread running fuel (S i) p
      else mret (Some p)
  end.

(** The publishers of one node: periodic ones get a thread, which is started and
    does not count here; the others send once. *)
Fixpoint start_publishers (ps : list RawPublisher) : stM F (list RawPublisher * list RawPublisher) :=
  match ps with
  | [] => mret ([], [])
  | p :: ps =>
      if positive_double (rp_rate_hz p) then
        let* r := start_publishers ps in mret (p :: fst r, p :: snd r)
      else
        let* p := send p in
        let* r := start_publishers ps in mret (p :: fst r, snd r)
  end.

Definition with_publishers (ps : list RawPublisher) (e : NodeEntry) : NodeEntry :=
  mk_node_entry (ge_fq_name e) (ge_namespace e) (ge_obj e) (ge_node e) ps (subscriptions e).

(** The nodes afterwards and the publishers that have a thread. *)
Fixpoint start_publishing (nodes : list NodeEntry) : stM F (list NodeEntry * list RawPublisher) :=
  match nodes with
  | [] => mret ([], [])
  | e :: nodes =>
      let* r := start_publishers (publishers e) in
      let* t := start_publishing nodes in
      mret (with_publishers (fst r) e :: fst t, snd r ++ snd t)
  end.
End publishing.

(** [GraphExecutor::GraphExecutor]; the publishers that have a thread. *)
Section launching.
Context {F E J : Type} `{DdsFactory F} `{!DdsNodes F} `{Executor.DdsWaitset E} `{JsonDoc J}
  `{Message Graph.ParticipantEntitiesInfo} `{Message Params.ParameterEvent}.

Definition impl_start_publishing (iov_len_bits : Z) : stM (Impl F E) (list RawPublisher) := fun s =>
  let (o, f) := start_publishing iov_len_bits (g_nodes s) (g_fac s) in
  let nodes := match o with Ok r => fst r | _ => g_nodes s end in
  (let* r := o in Ok (snd r),
   mk_impl f (g_executor s) nodes (g_stores s) (next_node s) (next_entity s) (g_clock_reads s)).

Definition GraphExecutor_ctor (iov_len_bits : Z) (qos_created : bool) (domain_id : Z) (clock : nat -> Z)
    (service_types : bytes -> bytes * bytes) (event_type : bytes)
    (CreateByName : bytes -> bytes -> bytes -> stM F (option (NodeObj * list Executor.Entity)))
    (json_topology : bytes) : stM (Impl F E) (list RawPublisher) :=
  let* _ := build_topology iov_len_bits qos_created domain_id clock service_types event_type CreateByName json_topology in
  impl_start_publishing iov_len_bits.
End launching.

Section receiving.
Context {R : Type} `{DdsReader R}.

(** [RawSubscription::dispatch]; the state is the counter. *)
Definition count_received (_ : bytes) (info : dds_sample_info) : stM Z unit :=
  if valid_data info then st_modify (fun n => u64 (n + 1)) else mret tt.

Definition RawSubscription_dispatch (fuel : nat) : stM (taking R Z) (option Z) := Reader_take count_received fuel 0.
End receiving.

(* ------------------------------------------------------------------ *)
(** * Status *)

Definition quote_key (k : String.string) : bytes := quoted k ++ [x3a].
Arguments quote_key _%_string.

Definition publisher_json (p : RawPublisher) : bytes :=
  lit "{" ++ quote_key "topic" ++ json_escape_string (rp_topic p) ++
  lit "," ++ quote_key "type" ++ json_escape_string (rp_type p) ++
  lit "," ++ quote_key "published" ++ to_string (published p) ++ lit "}".

Definition subscription_json (q : RawSubscription) : bytes :=
  lit "{" ++ quote_key "topic" ++ json_escape_string (rs_topic q) ++
  lit "," ++ quote_key "type" ++ json_escape_string (rs_type q) ++
  lit "," ++ quote_key "received" ++ to_string (received q) ++ lit "}".

Definition node_json (e : NodeEntry) : bytes :=
  let out := lit "{" ++ quote_key "name" ++ json_escape_string (ge_fq_name e) in
  let out := out ++ lit "," ++ quote_key "publishers" ++ lit "[" in
  let out := comma_loop publisher_json (publishers e) out in
  let out := out ++ lit "]," ++ quote_key "subscriptions" ++ lit "[" in
  let out := comma_loop subscription_json (subscriptions e) out in
  out ++ lit "]}".

Definition status_json (nodes : list NodeEntry) : bytes :=
  comma_loop node_json nodes (lit "{" ++ quote_key "nodes" ++ lit "[") ++ lit "]}".

(** [registered] is the set [GetRegisteredNames] returned, in any order; sorting
    is [std::sort] with [operator<] of strings. *)
Definition registered_nodes_json (registered : list bytes) : bytes :=
  comma_loop json_escape_string (sorting.merge_sort bytes_le registered) (lit "[") ++ lit "]".

Example no_nodes : status_json [] = lit "{" ++ quoted "nodes" ++ lit ":[]}".
Proof. reflexivity. Qed.

(* ------------------------------------------------------------------ *)
(** * Payloads *)

(** The reference: two lower-case digits a byte. *)
Definition byte_hex (b : byte) : bytes := [hex_digit (Z_of_byte b / 16); hex_digit (Z_of_byte b mod 16)].
Definition to_hex (p : bytes) : bytes := concat (map byte_hex p).

Lemma byte_hex_nibbles b : exists x y, byte_hex b = [x; y] /\ (0 <= nibble x)%Z /\ (0 <= nibble y)%Z /\
  byte_of_Z (Z.lor (Z.shiftl (nibble x) 4) (nibble y)) = b.
Proof. eexists _, _. split; [reflexivity|]. destruct b; vm_compute; split_and!; done. Qed.

Lemma hex_loop_to_hex p : hex_loop (to_hex p) = Ok p.
Proof.
  induction p as [|b p IH]; [done|]. unfold to_hex in *. cbn [map concat].
  destruct (byte_hex_nibbles b) as (x & y & -> & Hx & Hy & Hb). cbn [app hex_loop].
  rewrite (proj2 (Z.ltb_ge _ 0) Hx), (proj2 (Z.ltb_ge _ 0) Hy), IH. simpl. by rewrite Hb.
Qed.

Lemma length_to_hex p : length (to_hex p) = 2 * length p.
Proof. unfold to_hex. induction p as [|b p IH]; [done|]. cbn [map concat]. rewrite length_app, IH. simpl. lia. Qed.

Lemma hex_loop_spec k : forall hex, length hex = 2 * k ->
  match hex_loop hex with
  | Ok p => length p = k /\ Forall (fun c => (0 <= nibble c)%Z) hex
  | Throw e => e = InvalidArguments /\ Exists (fun c => (nibble c < 0)%Z) hex
  | Undefined => False
  end.
Proof.
  induction k as [|k IH]; intros hex Hl.
  - destruct hex; [simpl; auto|simpl in Hl; lia].
  - destruct hex as [|a [|b hex]]; simpl in Hl; [lia|lia|]. specialize (IH hex ltac:(lia)). cbn [hex_loop].
    destruct (Z.ltb_spec (nibble a) 0); [split; [done|by left]|].
    destruct (Z.ltb_spec (nibble b) 0); [split; [done|by right; left]|]. simpl.
    destruct (hex_loop hex) as [p|e|]; simpl; [|destruct IH; split; [done|by right; right]|done].
    destruct IH as [Hp Hf]. split; [simpl; lia|by repeat constructor].
Qed.

(** [payload_from_hex] reads back the hexadecimal form of any payload; what it
    accepts is exactly an even number of hexadecimal digits, two for each byte,
    and anything else is InvalidArguments. *)
Theorem payload_hex_roundtrip (p hex : bytes) :
  payload_from_hex (to_hex p) = Ok p /\
  match payload_from_hex hex with
  | Ok q => length hex = 2 * length q /\ Forall (fun c => 0 <= nibble c)%Z hex
  | Throw e => e = InvalidArguments /\ (length hex mod 2 = 1 \/ Exists (fun c => nibble c < 0)%Z hex)
  | Undefined => False
  end.
Proof.
  unfold payload_from_hex. split.
  - rewrite length_to_hex, Nat.mul_comm, Nat.Div0.mod_mul. simpl. apply hex_loop_to_hex.
  - pose proof (Nat.mod_upper_bound (length hex) 2 ltac:(lia)) as Hm.
    destruct (Nat.eqb_spec (length hex mod 2) 0) as [He|He]; simpl.
    + pose proof (Nat.div_mod_eq (length hex) 2) as Hd.
      pose proof (hex_loop_spec (length hex / 2) hex ltac:(lia)) as Hs. destruct (hex_loop hex) as [q|e|]; [|tauto|done].
      destruct Hs. split; [lia|done].
    + split; [done|]. left. lia.
Qed.

(* ------------------------------------------------------------------ *)
(** * The status document *)

Definition publisher_doc (p : RawPublisher) : json :=
  JObj [(lit "topic", JStr (rp_topic p)); (lit "type", JStr (rp_type p)); (lit "published", JNum (published p))].
Definition subscription_doc (q : RawSubscription) : json :=
  JObj [(lit "topic", JStr (rs_topic q)); (lit "type", JStr (rs_type q)); (lit "received", JNum (received q))].
Definition node_doc (e : NodeEntry) : json :=
  JObj [(lit "name", JStr (ge_fq_name e)); (lit "publishers", JArr (map publisher_doc (publishers e)));
        (lit "subscriptions", JArr (map subscription_doc (subscriptions e)))].
Definition status_doc (nodes : list NodeEntry) : json := JObj [(lit "nodes", JArr (map node_doc nodes))].

Lemma map_render {A} (text : A -> bytes) (doc : A -> json) l :
  (forall a, text a = render (doc a)) -> map text l = map render (map doc l).
Proof. intros Hr. rewrite map_map. apply map_ext, Hr. Qed.

(** Two ways of appending the same pieces. *)
Ltac same_pieces := simpl; repeat (progress (rewrite <- ?app_assoc; cbn [app])); reflexivity.

Lemma publisher_json_render p : publisher_json p = render (publisher_doc p).
Proof. unfold publisher_json, quote_key. same_pieces. Qed.
Lemma subscription_json_render q : subscription_json q = render (subscription_doc q).
Proof. unfold subscription_json, quote_key. same_pieces. Qed.

Lemma node_json_render e : node_json e = render (node_doc e).
Proof.
  unfold node_json, quote_key. rewrite !comma_loop_commas.
  rewrite (map_render _ _ (publishers e) publisher_json_render), (map_render _ _ (subscriptions e) subscription_json_render).
  cbn [node_doc render map commas]. same_pieces.
Qed.

(** [status_json] is a JSON document that reads back as exactly the nodes, in
    order, with the topic, the type and the counter of every endpoint;
    [registered_nodes_json] reads back as the registered names in sorted order,
    whatever order the registry reports them in. *)
Theorem status_reads_back (nodes : list NodeEntry) (registered : list bytes) :
  json_parse (status_json nodes) = Some (status_doc nodes) /\
  exists names, json_parse (registered_nodes_json registered) = Some (JArr (map JStr names)) /\
    names ≡ₚ registered /\ Sorted.StronglySorted bytes_le names.
Proof.
  split.
  - assert (Hs : status_json nodes = render (status_doc nodes)); [|rewrite Hs; apply json_parse_render].
    unfold status_json, quote_key. rewrite comma_loop_commas, (map_render _ _ nodes node_json_render).
    cbn [status_doc render map commas]. same_pieces.
  - exists (sorting.merge_sort bytes_le registered). split_and!.
    + assert (Hr : registered_nodes_json registered = render (JArr (map JStr (sorting.merge_sort bytes_le registered)))).
      { unfold registered_nodes_json. rewrite comma_loop_commas. cbn [render]. rewrite map_map. simpl. done. }
      rewrite Hr. apply json_parse_render.
    + apply sorting.merge_sort_Permutation.
    + apply sorting.StronglySorted_merge_sort; apply _.
Qed.
