(* ===== verification/GraphExecutorFacts.v ===== *)
(** What the launcher of GraphExecutor.v builds from a topology, and what its
    publishers write and count; a topology on the test double for the witnesses. *)
From Stdlib Require Import String.
From Stdlib Require Import ZArith Lia Strings.Byte.
From stdpp Require Import base tactics list numbers gmap functions.
From S2P Require Import Prelude Bytes Message Names Qos RawSerdata Dds MockDds Pubsub NodeCtor.
From S2P Require Executor ExecutorRun Graph Params FfiFacts.
From S2P Require Import Json GraphExecutor.

(** The documented behaviour of the library the theorems rely on: an observer
    returns or throws an exception of the library. *)
Class JsonLaws (J : Type) `{JsonDoc J} := {
  from_doc_defined t : JsonFromDoc (J := J) t <> Undefined;
  at_key_defined (j : J) k : at_key j k <> Undefined;
  get_bool_defined (j : J) : get_bool j <> Undefined;
  get_int64_defined (j : J) : get_int64 j <> Undefined;
  get_double_defined (j : J) : get_double j <> Undefined;
  get_size_defined (j : J) : is_number_float j = false -> get_size j <> Undefined;
  get_string_defined (j : J) : get_string j <> Undefined;
  value_string_defined (j : J) k d : value_string j k d <> Undefined;
  value_double_defined (j : J) k d : value_double j k d <> Undefined;
  value_json_defined (j : J) k d : value_json j k d <> Undefined
}.

(* ------------------------------------------------------------------ *)
(** * Counting what is published *)

Section counting.
Context {F : Type} `{DdsNodesLaws F}.
Variable bits : Z.

Definition payload_serdata (p : RawPublisher) : RawSerdata :=
  mk_serdata (Some (create_raw_sertype (rp_type p))) (padded (rp_payload p)).

(** What [send] and the threads leave alone. *)
Definition same_publisher (p p' : RawPublisher) : Prop :=
  rp_topic p' = rp_topic p /\ rp_type p' = rp_type p /\ rp_writer p' = rp_writer p /\
  rp_payload p' = rp_payload p /\ rp_rate_hz p' = rp_rate_hz p.

(** [p'] is [p] after [k] accepted writes. *)
Definition counted (k : nat) (p p' : RawPublisher) (f f' : F) : Prop :=
  same_publisher p p' /\ published p' = u64 (published p + Z.of_nat k) /\
  written_on f' (rp_writer p) = written_on f (rp_writer p) ++ replicate k (payload_serdata p).

Lemma send_spec p (f : F) :
  in_u bits (Z.of_nat (length (rp_payload p))) -> in_u 64 (published p) ->
  exists k p' f', k <= 1 /\ send bits p f = (Ok p', f') /\ counted k p p' f f' /\ in_u 64 (published p').
Proof.
  intros Hl Hu. unfold send.
  rewrite (st_bind_Ok _ _ _ _ _ (FfiFacts.Writer_write_run bits (rp_writer p) (rp_type p) (rp_payload p) f Hl)).
  fold (payload_serdata p). destruct (write_on (rp_writer p) (payload_serdata p) f) as [rc f'] eqn:Ew. simpl.
  destruct (write_on_spec _ _ _ _ _ Ew) as [_ Hw]. destruct (rc =? 0)%Z.
  - exists 1, (count_published p), f'. split; [done|]. split; [done|]. split; [|by apply uwrap_range].
    split; [done|]. split; [done|exact Hw].
  - exists 0, p, f'. split; [lia|]. split; [done|]. split; [|done]. split; [done|]. split; [|by rewrite app_nil_r].
    replace (published p + Z.of_nat 0)%Z with (published p) by lia. symmetry. by apply uwrap_small.
Qed.

Lemma counted_trans k1 k2 p1 p2 p3 (f1 f2 f3 : F) :
  counted k1 p1 p2 f1 f2 -> counted k2 p2 p3 f2 f3 -> counted (k1 + k2) p1 p3 f1 f3.
Proof.
  intros ((A1 & A2 & A3 & A4 & A5) & Hp & Hw) ((B1 & B2 & B3 & B4 & B5) & Hp' & Hw').
  split; [repeat split; congruence|]. split.
  - rewrite Hp', Hp. unfold u64, uwrap. rewrite Zplus_mod_idemp_l. f_equal. lia.
  - rewrite A3 in Hw'. rewrite Hw', Hw, replicate_add, <- app_assoc. unfold payload_serdata. by rewrite A2, A4.
Qed.

Lemma publisher_thread_spec running n fuel : forall i p (f : F),
  in_u bits (Z.of_nat (length (rp_payload p))) -> in_u 64 (published p) ->
  (forall j, i <= j < i + n -> running j = true) -> running (i + n) = false -> n < fuel ->
  exists k p' f', k <= n /\ publisher_thread bits running fuel i p f = (Ok (Some p'), f') /\ counted k p p' f f'.
Proof.
  revert fuel. induction n as [|n IH]; intros [|fuel] i p f Hl Hu Hrun Hstop Hf; try lia.
  - rewrite Nat.add_0_r in Hstop. exists 0, p, f. simpl. rewrite Hstop. split; [lia|]. split; [done|]. split; [done|].
    split; [|by rewrite app_nil_r]. replace (published p + Z.of_nat 0)%Z with (published p) by lia. symmetry. by apply uwrap_small.
  - cbn [publisher_thread]. rewrite (Hrun i) by lia.
    destruct (send_spec p f Hl Hu) as (k1 & p1 & f1 & Hk1 & Hs & Hc & Hu1). rewrite (st_bind_Ok _ _ _ _ _ Hs).
    destruct (IH fuel (S i) p1 f1) as (k2 & p2 & f2 & Hk2 & Ht & Hc2).
    + destruct Hc as [(_ & _ & _ & -> & _) _]. done.
    + done.
    + intros j Hj. apply Hrun. lia.
    + by replace (S i + n) with (i + S n) by lia.
    + lia.
    + exists (k1 + k2), p2, f2. split_and!; [lia|done|by eapply counted_trans].
Qed.

(** One publisher after the start: a periodic one is untouched, another one sent
    its payload at most once. *)
Definition started (p p' : RawPublisher) : Prop :=
  if positive_double (rp_rate_hz p) then p' = p else p' = p \/ p' = count_published p.

Lemma send_started p (f : F) : exists p' f', send bits p f = (Ok p', f') /\ (p' = p \/ p' = count_published p).
Proof.
  unfold send, Writer_write, st_lift, st_run. unfold mbind at 2 3, stM_bind at 2 3. cbn [dds_writecdr writer_at].
  rewrite raw_serdata_from_blob_spec. unfold mbind, stM_bind. destruct (_ =? _)%Z.
  - destruct (write_on (rp_writer p) _ f) as [rc f']. simpl. destruct (rc =? 0)%Z; eauto.
  - eauto.
Qed.

Lemma start_publishers_spec ps : forall f : F,
  exists ps' f', start_publishers bits ps f = (Ok (ps', filter (fun p => positive_double (rp_rate_hz p) = true) ps), f') /\
    Forall2 started ps ps'.
Proof.
  induction ps as [|p ps IH]; intros f; [by exists [], f|]. cbn [start_publishers]. rewrite filter_cons.
  destruct (positive_double (rp_rate_hz p)) eqn:Hp.
  - destruct (IH f) as (ps' & f' & E & Hf). rewrite (st_bind_Ok _ _ _ _ _ E). exists (p :: ps'), f'.
    rewrite decide_True by done. split; [done|]. constructor; [|done]. unfold started. by rewrite Hp.
  - destruct (send_started p f) as (p' & f1 & Es & Hs). rewrite (st_bind_Ok _ _ _ _ _ Es).
    destruct (IH f1) as (ps' & f' & E & Hf). rewrite (st_bind_Ok _ _ _ _ _ E). exists (p' :: ps'), f'.
    rewrite decide_False by done. split; [done|]. constructor; [|done]. unfold started. by rewrite Hp.
Qed.

Lemma start_publishing_spec nodes : forall f : F,
  exists nodes' f', start_publishing bits nodes f =
      (Ok (nodes', filter (fun p => positive_double (rp_rate_hz p) = true) (concat (map publishers nodes))), f') /\
    Forall2 (fun e e' => e' = with_publishers (publishers e') e /\ Forall2 started (publishers e) (publishers e')) nodes nodes'.
Proof.
  induction nodes as [|e nodes IH]; intros f; [by exists [], f|]. cbn [start_publishing map concat]. rewrite list.filter_app.
  destruct (start_publishers_spec (publishers e) f) as (ps & f1 & E1 & H1'). rewrite (st_bind_Ok _ _ _ _ _ E1).
  destruct (IH f1) as (nodes' & f2 & E2 & H2'). rewrite (st_bind_Ok _ _ _ _ _ E2).
  exists (with_publishers ps e :: nodes'), f2. split; [done|]. by constructor.
Qed.
End counting.

(** The counters in the status are what CycloneDDS accepted: a publisher's
    thread ends in the round in which the running flag is cleared, having handed
    over exactly as many copies of the payload as it counted, at most one a
    round; on start exactly the publishers with a positive rate get a thread, in
    the order of the topology, and every other one sends at most once. *)
Theorem publishing_counts {F} `{DdsNodesLaws F} (bits : Z) (running : nat -> bool) (n fuel : nat) (p : RawPublisher)
    (nodes : list NodeEntry) (f : F) :
  in_u bits (Z.of_nat (length (rp_payload p))) -> in_u 64 (published p) ->
  (forall j, j < n -> running j = true) -> running n = false -> n < fuel ->
  (exists k p' f', k <= n /\ publisher_thread bits running fuel 0 p f = (Ok (Some p'), f') /\ counted k p p' f f') /\
  (exists nodes' f', start_publishing bits nodes f =
       (Ok (nodes', filter (fun p => positive_double (rp_rate_hz p) = true) (concat (map publishers nodes))), f') /\
     Forall2 (fun e e' => e' = with_publishers (publishers e') e /\ Forall2 started (publishers e) (publishers e')) nodes nodes').
Proof.
  intros Hl Hu Hrun Hstop Hf. split; [|apply start_publishing_spec].
  apply (publisher_thread_spec bits running n fuel 0 p f Hl Hu); [|done..]. intros j Hj. apply Hrun. lia.
Qed.

(* ------------------------------------------------------------------ *)
(** * What a topology becomes *)

Section topology.
Context {F E J : Type} `{DdsNodesLaws F} `{Executor.DdsWaitset E} `{JsonLaws J}
  `{Message Graph.ParticipantEntitiesInfo} `{Message Params.ParameterEvent}.
Implicit Types s : Impl F E.
Variable iov_len_bits : Z.
Variable qos_created : bool.
Variable domain_id : Z.
Variable clock : nat -> Z.
Variable service_types : bytes -> bytes * bytes.
Variable event_type : bytes.
Variable CreateByName : bytes -> bytes -> bytes -> stM F (option (NodeObj * list Executor.Entity)).
Hypothesis CreateByName_defined : forall cls n ns, st_defined (CreateByName cls n ns).

(** The parameter services of node [k] are in its entity list. *)
Definition services_registered s k (p : ParamStore) : Prop :=
  k < next_node s /\
  forall r, r ∈ ps_services p -> fst r ∈ Executor.entities_ (Executor.heap (g_executor s) k) /\
    Executor.condition (fst r) = snd (fst (snd r)).

(** Building only adds: nodes to the executor, entities to nodes, parameter
    support with its services registered. *)
Record extends s s' : Prop := {
  ext_next : next_node s <= next_node s';
  ext_nodes : Executor.nodes_ (g_executor s) ⊆ Executor.nodes_ (g_executor s');
  ext_entities : forall n, n < next_node s ->
    Executor.entities_ (Executor.heap (g_executor s) n) ⊆ Executor.entities_ (Executor.heap (g_executor s') n);
  ext_stores : forall k p', g_stores s' !! k = Some p' ->
    (exists p, g_stores s !! k = Some p /\ ps_services p' = ps_services p) \/ services_registered s' k p'
}.

(** The stores are untouched. *)
Lemma same_stores s s' : g_stores s' = g_stores s -> forall k p', g_stores s' !! k = Some p' ->
  (exists p, g_stores s !! k = Some p /\ ps_services p' = ps_services p) \/ services_registered s' k p'.
Proof. intros -> k p' Hk. left. by exists p'. Qed.

Lemma additions_refl s : extends s s.
Proof. split; [lia|done|done|by apply same_stores]. Qed.

Lemma additions_trans s1 s2 s3 : extends s1 s2 -> extends s2 s3 -> extends s1 s3.
Proof.
  intros [A1 A2 A3 A4] [B1 B2 B3 B4]. split; [lia|by etrans|intros n Hn; etrans; [by apply A3|]; apply B3; lia|].
  intros k p3 Hk. destruct (B4 k p3 Hk) as [(p2 & Hk2 & Hp2)|]; [|by right].
  destruct (A4 k p2 Hk2) as [(p1 & Hk1 & Hp1)|[Hlt Hr]]; [left; exists p1; split; [done|congruence]|].
  right. split; [lia|]. rewrite Hp2. intros r [Hin Hc]%Hr. split; [by apply B3|done].
Qed.

(** A depth written as a fraction or in exponent notation, which the conversion
    to [size_t] may have no value for. *)
Definition bad_depth : Prop := exists d : J, is_number_float d = true /\ get_size d = Undefined.

(** From [P], [m] reaches no undefined behaviour but that of a bad depth; when it
    returns, it only added and [Q] holds. *)
Definition builds {A} (P : Impl F E -> Prop) (m : stM (Impl F E) A) (Q : A -> Impl F E -> Prop) : Prop :=
  forall s, P s ->
  match m s with
  | (Ok a, s') => extends s s' /\ Q a s'
  | (Throw _, _) => True
  | (Undefined, _) => bad_depth
  end.

Lemma builds_bind {A B} P (m : stM (Impl F E) A) (k : A -> stM (Impl F E) B) Q R :
  builds P m Q -> (forall a, builds (Q a) (k a) R) -> builds P (mbind k m) R.
Proof.
  intros Hm Hk s Hs. specialize (Hm s Hs). unfold mbind, stM_bind. destruct (m s) as [[a|e|] s1]; [|done..].
  destruct Hm as [He Hq]. specialize (Hk a s1 Hq). destruct (k a s1) as [[b|e|] s2]; [|done..].
  destruct Hk as [He2 Hr]. split; [by eapply additions_trans|done].
Qed.

Lemma builds_ret {A} (P : Impl F E -> Prop) (a : A) (Q : A -> Impl F E -> Prop) :
  (forall s, P s -> Q a s) -> builds P (mret a) Q.
Proof. intros Hq s Hs. split; [apply additions_refl|by apply Hq]. Qed.

Lemma builds_throw {A} P e Q : builds (A := A) P (st_throw e) Q.
Proof. done. Qed.

Lemma builds_lift {A} P (m : outcome A) Q :
  m <> Undefined -> (forall a s, m = Ok a -> P s -> Q a s) -> builds P (st_lift m) Q.
Proof.
  intros Hd Hq s Hs. unfold st_lift. destruct m as [a|e|]; [|done|done]. split; [apply additions_refl|by apply Hq].
Qed.

Lemma builds_lift_depth {A} (P : Impl F E -> Prop) (m : outcome A) : (m = Undefined -> bad_depth) -> builds P (st_lift m) (fun _ => P).
Proof. intros Hd s Hs. unfold st_lift. destruct m as [a|e|]; [|done|by apply Hd]. split; [apply additions_refl|done]. Qed.

Lemma builds_gfac {A} P (m : stM F A) Q :
  st_defined m ->
  (forall a f s, P s -> (exists f0, m f0 = (Ok a, f)) ->
     Q a (mk_impl f (g_executor s) (g_nodes s) (g_stores s) (next_node s) (next_entity s) (g_clock_reads s))) ->
  builds P (on_gfac m) Q.
Proof.
  intros Hd Hq s Hs. specialize (Hd (g_fac s)). unfold on_gfac. destruct (m (g_fac s)) as [[a|e|] f] eqn:Em; [|done|by destruct Hd].
  split; [split; [simpl; lia|done|done|by apply same_stores]|]. apply Hq; [done|]. by exists (g_fac s).
Qed.

Lemma builds_weaken {A} (P P' : Impl F E -> Prop) (m : stM (Impl F E) A) (Q Q' : A -> Impl F E -> Prop) :
  builds P m Q -> (forall s, P' s -> P s) -> (forall a s, Q a s -> Q' a s) -> builds P' m Q'.
Proof.
  intros Hm Hp Hq s Hs. specialize (Hm s (Hp s Hs)). destruct (m s) as [[a|e|] s1]; [|done..].
  destruct Hm. auto.
Qed.

Lemma builds_pre {A} (P P' : Impl F E -> Prop) (m : stM (Impl F E) A) Q :
  builds P m Q -> (forall s, P' s -> P s) -> builds P' m Q.
Proof. intros Hm Hp s Hs. by apply Hm, Hp. Qed.

(** A fact that survives additions is kept by every build. *)
Definition stable (R : Impl F E -> Prop) : Prop := forall s s', extends s s' -> R s -> R s'.

Lemma builds_frame {A} P (m : stM (Impl F E) A) Q R :
  stable R -> builds P m Q -> builds (fun s => P s /\ R s) m (fun a s => Q a s /\ R s).
Proof.
  intros Hr Hm s [Hs Hrs]. specialize (Hm s Hs). destruct (m s) as [[a|e|] s1]; [|done..].
  destruct Hm as [He Hq]. split_and!; [apply He..|done|by eapply Hr].
Qed.

(* ------------------------------------------------------------------ *)
(** ** The meaning of a specification *)

Definition specs_of (key : bytes) (spec : J) : list J :=
  if contains spec key then match at_key spec key with Ok l => elements l | _ => [] end else [].

Definition publisher_of (entry : NodeEntry) (spec : J) (p : RawPublisher) : Prop :=
  endpoint_names entry spec = Ok (rp_type p, rp_topic p) /\
  (if contains spec (lit "payload_hex")
   then exists hex, string_at spec (lit "payload_hex") = Ok hex /\ payload_from_hex hex = Ok (rp_payload p)
   else rp_payload p = default_payload) /\
  value_double spec (lit "rate_hz") 0 = Ok (rp_rate_hz p) /\ published p = 0%Z.

Definition subscription_of (entry : NodeEntry) (spec : J) (q : RawSubscription) : Prop :=
  endpoint_names entry spec = Ok (rs_type q, rs_topic q) /\ received q = 0%Z.

(** An entry whose node the executor drives, with every subscription in the
    node's entity list. *)
Definition wired (e : NodeEntry) s : Prop :=
  ge_node e < next_node s /\ ge_node e ∈ Executor.nodes_ (g_executor s) /\
  forall q, q ∈ subscriptions e ->
    Executor.mk_entity (rs_entity q) (snd (rs_reader q)) ∈ Executor.entities_ (Executor.heap (g_executor s) (ge_node e)).

Lemma wired_stable e : stable (wired e).
Proof.
  intros s s' [A1 A2 A3 _] (Hn & Hin & Hq). split_and!; [lia|by apply A2|]. intros q Hs. apply A3; [done|by apply Hq].
Qed.

(** The same entry with further endpoints. *)
Definition with_endpoints (e : NodeEntry) (ps : list RawPublisher) (qs : list RawSubscription) : NodeEntry :=
  mk_node_entry (ge_fq_name e) (ge_namespace e) (ge_obj e) (ge_node e) (publishers e ++ ps) (subscriptions e ++ qs).

Lemma endpoint_names_defined entry (spec : J) : endpoint_names entry spec <> Undefined.
Proof.
  unfold endpoint_names, string_at. destruct (_ || _); [done|].
  pose proof (at_key_defined spec (lit "type")) as Ht. destruct (at_key spec (lit "type")) as [v| |]; simpl; [|done|done].
  pose proof (get_string_defined v) as Hg. destruct (get_string v) as [t| |]; simpl; [|done|done].
  assert (Hd : dds_type_name t <> Undefined) by (unfold dds_type_name; repeat case_match; done).
  destruct (dds_type_name t); simpl; [|done|done].
  pose proof (at_key_defined spec (lit "topic")) as Ht2. destruct (at_key spec (lit "topic")) as [w| |]; simpl; [|done|done].
  pose proof (get_string_defined w) as Hg2. destruct (get_string w) as [tp| |]; simpl; [|done|done].
  assert (He : expand_topic_name tp (ge_namespace entry) <> Undefined) by (unfold expand_topic_name; repeat case_match; done).
  by destruct (expand_topic_name tp (ge_namespace entry)).
Qed.

Lemma string_at_defined (j : J) k : string_at j k <> Undefined.
Proof.
  unfold string_at. pose proof (at_key_defined j k) as Ha. destruct (at_key j k) as [v| |]; simpl; [|done|done].
  apply get_string_defined.
Qed.

Lemma payload_from_hex_defined hex : payload_from_hex hex <> Undefined.
Proof.
  unfold payload_from_hex. destruct (Nat.eqb_spec (length hex mod 2) 0) as [He|]; simpl; [|done].
  pose proof (Nat.div_mod_eq (length hex) 2) as Hd.
  pose proof (hex_loop_spec (length hex / 2) hex ltac:(lia)) as Hs. by destruct (hex_loop hex).
Qed.

Lemma topic_defined t : ros_to_dds_topic_name t <> Undefined.
Proof. unfold ros_to_dds_topic_name, validate_fqn. repeat case_match; done. Qed.

Lemma endpoint_qos_defined (spec : J) : endpoint_qos spec = Undefined -> bad_depth.
Proof.
  unfold endpoint_qos. pose proof (value_json_defined spec (lit "qos") empty_object) as Hv.
  destruct (value_json _ _ _) as [q| |]; simpl; [|done|done]. unfold parse_qos. destruct (is_object q); simpl; [|done].
  pose proof (value_string_defined q (lit "reliability") (lit "reliable")) as H1'.
  destruct (value_string q (lit "reliability") (lit "reliable")); simpl; [|done|done].
  pose proof (value_string_defined q (lit "durability") (lit "volatile")) as H2'.
  destruct (value_string q (lit "durability") (lit "volatile")); simpl; [|done|done].
  destruct (contains q (lit "depth")); [|done].
  pose proof (at_key_defined q (lit "depth")) as H3'. destruct (at_key q (lit "depth")) as [d| |]; simpl; [|done|done].
  destruct (is_number_float d) eqn:Hf.
  - destruct (get_size d) eqn:Eg; [done..|]. intros _. by exists d.
  - pose proof (get_size_defined d Hf) as H4'. by destruct (get_size d).
Qed.

(* ------------------------------------------------------------------ *)
(** ** Endpoints *)

Lemma with_endpoints_nil e : with_endpoints e [] [] = e.
Proof. unfold with_endpoints. rewrite !app_nil_r. by destruct e. Qed.

Lemma builds_publisher entry (spec : J) :
  builds (wired entry) (build_publisher (E := E) qos_created entry spec)
    (fun e s => exists p, e = with_endpoints entry [p] [] /\ publisher_of entry spec p /\ wired e s).
Proof.
  unfold build_publisher.
  eapply builds_bind; [apply builds_lift with (Q := fun n s => endpoint_names entry spec = Ok n /\ wired entry s);
    [apply endpoint_names_defined|by intros]|].
  intros [type topic].
  eapply builds_bind; [apply builds_lift with (Q := fun pl s => endpoint_names entry spec = Ok (type, topic) /\
    (if contains spec (lit "payload_hex")
     then exists hex, string_at spec (lit "payload_hex") = Ok hex /\ payload_from_hex hex = Ok pl
     else pl = default_payload) /\ wired entry s)|].
  { destruct (contains spec (lit "payload_hex")); [|done]. pose proof (string_at_defined spec (lit "payload_hex")) as Hs.
    destruct (string_at spec (lit "payload_hex")) as [hex| |]; simpl; [apply payload_from_hex_defined|done|done]. }
  { intros pl s Hpl [Hn Hw]. split_and!; [done| |apply Hw..]. destruct (contains spec (lit "payload_hex")).
    - destruct (string_at spec (lit "payload_hex")) as [hex| |]; simpl in Hpl; [by exists hex|done|done].
    - by injection Hpl as ->. }
  intros pl.
  eapply builds_bind; [apply builds_lift with (Q := fun rate s =>
    publisher_of entry spec (mk_raw_publisher topic type 0 pl rate 0) /\ wired entry s)|].
  { apply value_double_defined. }
  { intros rate s Hr (Hn & Hpl & Hw). split; [|done]. split_and!; [done|done|done|done]. }
  intros rate.
  eapply builds_bind; [apply builds_lift with (Q := fun _ s =>
    publisher_of entry spec (mk_raw_publisher topic type 0 pl rate 0) /\ wired entry s); [apply topic_defined|by intros]|].
  intros dt.
  eapply builds_bind; [apply builds_lift_depth, endpoint_qos_defined|].
  intros qos.
  eapply builds_bind; [apply builds_gfac with (Q := fun _ s =>
    publisher_of entry spec (mk_raw_publisher topic type 0 pl rate 0) /\ wired entry s)|].
  { eapply FfiFacts.makes_defined, Writer_ctor_makes. }
  { by intros. }
  intros wr. apply builds_ret. intros s [Hp Hw]. exists (mk_raw_publisher topic type wr pl rate 0).
  split; [unfold with_endpoints; by rewrite app_nil_r|]. split; [exact Hp|exact Hw].
Qed.

Lemma builds_subscription entry (spec : J) :
  builds (wired entry) (build_subscription (E := E) qos_created entry spec)
    (fun e s => exists q, e = with_endpoints entry [] [q] /\ subscription_of entry spec q /\ wired e s).
Proof.
  unfold build_subscription.
  eapply builds_bind; [apply builds_lift with (Q := fun n s => endpoint_names entry spec = Ok n /\ wired entry s);
    [apply endpoint_names_defined|by intros]|].
  intros [type topic].
  eapply builds_bind; [apply builds_lift with (Q := fun _ s => endpoint_names entry spec = Ok (type, topic) /\ wired entry s);
    [apply topic_defined|by intros]|].
  intros dt.
  eapply builds_bind; [apply builds_lift_depth, endpoint_qos_defined|].
  intros qos.
  eapply builds_bind; [apply builds_gfac with (Q := fun _ s => endpoint_names entry spec = Ok (type, topic) /\ wired entry s)|].
  { eapply FfiFacts.makes_defined, Reader_ctor_makes. }
  { by intros. }
  intros rd s [Hn (Hlt & Hin & Hq)]. cbv [st_get st_modify mbind stM_bind mret stM_ret]. cbn [next_entity].
  assert (Hent : forall n, Executor.entities_ (Executor.heap (g_executor s) n) ⊆
    Executor.entities_ (Executor.heap (Executor.add_entity (ge_node entry) (Executor.mk_entity (next_entity s) (snd rd)) (g_executor s)) n)).
  { intros n. simpl. destruct (decide (ge_node entry = n)) as [<-|Hne].
    - rewrite fn_lookup_insert. simpl. set_solver.
    - by rewrite fn_lookup_insert_ne. }
  split; [split; [simpl; lia|done|intros n _; apply Hent|by apply same_stores]|].
  exists (mk_raw_subscription topic type rd (next_entity s) 0).
  split; [unfold with_endpoints; by rewrite app_nil_r|]. split; [by split|]. split; [exact Hlt|]. split; [exact Hin|].
  - intros q [Hold| ->%list_elem_of_singleton]%elem_of_app; [apply Hent, Hq, Hold|].
    simpl. rewrite fn_lookup_insert. simpl. set_solver.
Qed.

Lemma same_endpoint_names e ps qs (spec : J) : endpoint_names (with_endpoints e ps qs) spec = endpoint_names e spec.
Proof. done. Qed.

Lemma builds_publishers (specs : list J) : forall entry,
  builds (wired entry) (build_each (build_publisher (E := E) qos_created) specs entry)
    (fun e s => exists ps, e = with_endpoints entry ps [] /\ Forall2 (publisher_of entry) specs ps /\ wired e s).
Proof.
  induction specs as [|spec specs IH]; intros entry; cbn [build_each].
  - apply builds_ret. intros s Hw. exists []. by rewrite with_endpoints_nil.
  - eapply builds_bind; [apply builds_publisher|]. intros e s (p & -> & Hp & Hw).
    specialize (IH (with_endpoints entry [p] []) s Hw). destruct (build_each _ specs _ s) as [[e|x|] s']; [|done..].
    destruct IH as [Hx (ps & -> & Hps & Hw')]. split; [done|]. exists (p :: ps). split; [|split; [by constructor|exact Hw']].
    unfold with_endpoints. simpl. by rewrite <- !app_assoc.
Qed.

Lemma builds_subscriptions (specs : list J) : forall entry,
  builds (wired entry) (build_each (build_subscription (E := E) qos_created) specs entry)
    (fun e s => exists qs, e = with_endpoints entry [] qs /\ Forall2 (subscription_of entry) specs qs /\ wired e s).
Proof.
  induction specs as [|spec specs IH]; intros entry; cbn [build_each].
  - apply builds_ret. intros s Hw. exists []. by rewrite with_endpoints_nil.
  - eapply builds_bind; [apply builds_subscription|]. intros e s (q & -> & Hq & Hw).
    specialize (IH (with_endpoints entry [] [q]) s Hw). destruct (build_each _ specs _ s) as [[e|x|] s']; [|done..].
    destruct IH as [Hx (qs & -> & Hqs & Hw')]. split; [done|]. exists (q :: qs). split; [|split; [by constructor|exact Hw']].
    unfold with_endpoints. simpl. by rewrite <- !app_assoc.
Qed.

Lemma builds_endpoints key build (spec : J) entry Q :
  (forall specs, builds (wired entry) (build_each build specs entry) (Q specs)) ->
  builds (wired entry) (build_endpoints (E := E) (F := F) key build spec entry) (Q (specs_of key spec)).
Proof.
  intros Hb. unfold build_endpoints, specs_of. destruct (contains spec key); [|exact (Hb [])].
  pose proof (at_key_defined spec key) as Hd. destruct (at_key spec key) as [l|e|]; [|done|done].
  intros s Hs. exact (Hb (elements l) s Hs).
Qed.

(* ------------------------------------------------------------------ *)
(** ** Parameters *)

Lemma parameter_core_entities fq_name first (w : World F) :
  match ParameterCore_ctor qos_created fq_name service_types event_type first w with
  | (Ok r, w') => Executor.entities_ (plumbing w) ⊆ Executor.entities_ (plumbing w') /\
      forall sv, sv ∈ snd r -> fst sv ∈ Executor.entities_ (plumbing w') /\ Executor.condition (fst sv) = snd (fst (snd sv))
  | (Throw _, _) => True
  | (Undefined, _) => False
  end.
Proof.
  unfold ParameterCore_ctor.
  pose proof (Publisher_ctor_makes qos_created (lit "/parameter_events") event_type ParameterEvents (NodeCtor.fac w)) as Hp.
  destruct (Publisher_ctor qos_created (lit "/parameter_events") event_type ParameterEvents false (NodeCtor.fac w))
    as [[pub|e|] f] eqn:Ep; [| |done]; pose proof (on_fac_eq _ _ _ _ Ep) as Ep'.
  2: { by rewrite (st_bind_Throw _ _ _ _ _ Ep'). }
  rewrite (st_bind_Ok _ _ _ _ _ Ep').
  pose proof (register_services_spec qos_created (fq_name ++ lit "/") service_types
    (combine (seq first (length parameter_services)) parameter_services) (mk_world f (plumbing w))) as Hs.
  set (reg := st_map _ _) in *. unfold mbind, stM_bind, cleanup, st_try.
  destruct (reg (mk_world f (plumbing w))) as [[rs|e|] w1]; [| |done].
  - destruct Hs as (_ & Hf & Hen & _). simpl in *. rewrite Hen. split; [set_solver|]. intros sv Hsv. split.
    + apply elem_of_app. right. by apply list_elem_of_fmap_2.
    + exact (proj1 (list.Forall_forall _ _) Hf sv Hsv).
  - destruct (Writer_dtor_ok pub (NodeCtor.fac w1)) as (f2 & Ed & _). pose proof (on_fac_eq _ _ _ _ Ed) as Ed'.
    unfold mbind, stM_bind. by rewrite Ed'.
Qed.

Definition has_node k s : Prop := k < next_node s.

Lemma has_node_stable k : stable (has_node k).
Proof. intros s s' [A1 _ _ _] Hk. unfold has_node in *. lia. Qed.

Lemma builds_node_params k fq_name :
  builds (has_node k) (node_params (E := E) qos_created service_types event_type k fq_name)
    (fun p s => g_stores s !! k = Some p).
Proof.
  intros s Hk. unfold node_params. unfold mbind at 1, stM_bind at 1, st_get.
  destruct (g_stores s !! k) as [p|] eqn:Hs; [by split; [apply additions_refl|]|].
  unfold on_node, mbind, stM_bind. cbn [params].
  pose proof (parameter_core_entities fq_name (next_entity s) (mk_world (g_fac s) (Executor.heap (g_executor s) k))) as Hp.
  destruct (ParameterCore_ctor _ _ _ _ _ _) as [[p|e|] w]; [|done..]. cbn [st_modify mret stM_ret].
  simpl in Hp. destruct Hp as [Hp Hsv]. split; [|apply lookup_insert_eq].
  assert (Hheap : forall x : Executor.Executor E, Executor.nodes_ x = Executor.nodes_ (g_executor s) ->
    Executor.heap x = <[k := plumbing w]> (Executor.heap (g_executor s)) ->
    Executor.nodes_ (g_executor s) ⊆ Executor.nodes_ x /\
    (forall n, Executor.entities_ (Executor.heap (g_executor s) n) ⊆ Executor.entities_ (Executor.heap x n)) /\
    Executor.heap x k = plumbing w).
  { intros x -> ->. split; [done|]. rewrite fn_lookup_insert. split; [|done]. intros n. destruct (decide (k = n)) as [<-|Hne].
    - by rewrite fn_lookup_insert.
    - by rewrite fn_lookup_insert_ne. }
  split; simpl; [lia|destruct (_ =? _)%Z; by apply Hheap|intros n _; destruct (_ =? _)%Z; by apply Hheap|].
  intros n p' [[<- <-]|[_ Hn]]%lookup_insert_Some; [|left; by exists p'].
  right. split; [exact Hk|]. intros r Hr. apply Hsv in Hr as [Hin Hc]. split; [|exact Hc].
  cbn [g_executor]. destruct (_ =? _)%Z; [destruct (Hheap (Executor.set_heap (<[k:=plumbing w]> (Executor.heap (g_executor s))) (g_executor s)) eq_refl eq_refl) as (_ & _ & ->)|
    destruct (Hheap (Executor.trigger (Executor.change_guard_ (plumbing w)) (Executor.set_heap (<[k:=plumbing w]> (Executor.heap (g_executor s))) (g_executor s))) eq_refl eq_refl) as (_ & _ & ->)]; exact Hin.
Qed.

Lemma declare_in_builds k fq_name p name value :
  builds (fun s => g_stores s !! k = Some p) (declare_in (F := F) iov_len_bits clock k fq_name p name value) (fun _ _ => True).
Proof.
  intros s Hs. unfold declare_in.
  set (m := Params.declare _ _ _ _ _).
  assert (Hm : st_defined m).
  { unfold m, Params.declare. apply st_defined_if; [auto with rcl|]. apply st_defined_bind; [auto with rcl|].
    intros c. destruct (Params.values_ c !! name); [auto with rcl|]. apply st_defined_bind; [auto with rcl|].
    intros _. apply st_defined_if; [|auto with rcl]. unfold Params.publish_event_locked. apply st_defined_bind.
    { intros c'. unfold st_run. by destruct (Params.read_clock clock c'). }
    intros now c'. unfold Params.on_events.
    match goal with |- context [publish (W := F) (H0 := ?i) ?b ?ev ?f] =>
      destruct (publish_defined (W := F) (H0 := i) b ev f) as (w & [-> | ->]) end; done. }
  specialize (Hm (Params.mk_core (ps_values p) (g_fac s) (g_clock_reads s))).
  destruct (m _) as [[[]|e|] c]; simpl in *; [|done..]. split; [|done]. split; [simpl; lia|done|done|].
  cbn [g_stores]. intros n p' [[<- <-]|[_ Hn]]%lookup_insert_Some; left; [by exists p|by exists p'].
Qed.

Lemma builds_parameter k fq name (value : J) :
  builds (has_node k)
    (declare_parameter iov_len_bits qos_created clock service_types event_type k fq name value) (fun _ _ => True).
Proof.
  assert (Hd : forall v, builds (has_node k)
    (node_declare (F := F) iov_len_bits qos_created clock service_types event_type k fq name v) (fun _ _ => True)).
  { intros v. unfold node_declare. eapply builds_bind; [apply builds_node_params|]. intros p. apply declare_in_builds. }
  unfold declare_parameter. destruct (is_boolean value); [|destruct (is_number_integer value);
    [|destruct (is_number_float value); [|destruct (is_string value); [|apply builds_throw]]]].
  all: eapply builds_bind with (Q := fun _ => has_node k); [|intros v; apply Hd].
  - apply builds_lift; [apply get_bool_defined|done].
  - apply builds_lift; [apply get_int64_defined|done].
  - apply builds_lift; [apply get_double_defined|done].
  - apply builds_lift; [apply get_string_defined|done].
Qed.

Lemma builds_iter {A} P (g : A -> stM (Impl F E) unit) l :
  stable P -> (forall a, builds P (g a) (fun _ _ => True)) -> builds P (st_iter g l) (fun _ _ => True).
Proof.
  intros Hst Hg. induction l as [|a l IH]; cbn [st_iter]; [by apply builds_ret|].
  eapply builds_bind with (Q := fun _ => P); [|intros _; exact IH].
  eapply builds_weaken; [apply (builds_frame _ _ _ _ Hst (Hg a))|done|by intros ? ? [? ?]].
Qed.

Lemma builds_parameters entry (spec : J) :
  builds (has_node (ge_node entry))
    (build_parameters iov_len_bits qos_created clock service_types event_type spec entry) (fun _ _ => True).
Proof.
  unfold build_parameters. destruct (contains spec (lit "parameters")); [|by apply builds_ret].
  eapply builds_bind; [apply builds_lift with (Q := fun _ => has_node (ge_node entry)); [apply at_key_defined|done]|]. intros ps.
  destruct (is_object ps); simpl; [|apply builds_throw].
  apply builds_iter; [apply has_node_stable|]. intros p. apply builds_parameter.
Qed.

(* ------------------------------------------------------------------ *)
(** ** Nodes *)

Lemma node_ctor_name name ns dom (f f' : F) n :
  Node_ctor iov_len_bits qos_created name ns dom f = (Ok n, f') ->
  make_fq_node_name (if bool_decide (ns = []) then lit "/" else ns) name = Ok (fq_name_ n).
Proof.
  unfold Node_ctor. intros (fq & f1 & Hf & Hn)%st_bind_inv_Ok. unfold st_lift in Hf. injection Hf as Hf _.
  apply st_bind_inv_Ok in Hn as (g & f2 & _ & Hn). apply st_bind_inv_Ok in Hn as (pp & f3 & _ & Hn).
  apply st_bind_inv_Ok in Hn as (wr & f4 & _ & Hn). injection Hn as <- _. exact Hf.
Qed.

(** The node of a specification, and the name it got. *)
Definition object_of (spec : J) (name ns : bytes) (n : NodeObj) : Prop :=
  if contains spec (lit "class")
  then exists cls es f f', string_at spec (lit "class") = Ok cls /\ CreateByName cls name ns f = (Ok (Some (n, es)), f')
  else make_fq_node_name (if bool_decide (ns = []) then lit "/" else ns) name = Ok (fq_name_ n).

Lemma builds_object (spec : J) name ns :
  builds (fun _ => True) (build_object iov_len_bits qos_created domain_id CreateByName spec name ns)
    (fun n _ => object_of spec name ns (fst n)).
Proof.
  unfold build_object, object_of. destruct (contains spec (lit "class")).
  - eapply builds_bind; [apply builds_lift with (Q := fun cls _ => string_at spec (lit "class") = Ok cls);
      [apply string_at_defined|done]|]. intros cls.
    eapply builds_bind; [apply builds_gfac with (Q := fun n _ => string_at spec (lit "class") = Ok cls /\
      exists f f', CreateByName cls name ns f = (Ok n, f')); [apply CreateByName_defined|]|].
    { intros n f s Hs [f0 Hf]. split; [done|]. by exists f0, f. }
    intros [[n es]|]; [|apply builds_throw]. apply builds_ret. intros s (Hc & f & f' & Hf). by exists cls, es, f, f'.
  - eapply builds_bind; [apply builds_gfac with (Q := fun n _ =>
      make_fq_node_name (if bool_decide (ns = []) then lit "/" else ns) name = Ok (fq_name_ n))|].
    { apply FfiFacts.node_ctor_defined. }
    { intros n f s _ [f0 Hf]. by apply node_ctor_name in Hf. }
    intros n. by apply builds_ret.
Qed.

(** The executor's nodes are those numbered so far. *)
Definition numbered s : Prop := forall n, n ∈ Executor.nodes_ (g_executor s) -> n < next_node s.

Lemma reconcile_frame_nodes (x : Executor.Executor E) :
  Executor.nodes_ (Executor.reconcile_locked x) = Executor.nodes_ x /\ Executor.heap (Executor.reconcile_locked x) = Executor.heap x.
Proof.
  unfold Executor.reconcile_locked, Executor.reconcile_with.
  by destruct (foldl _ _ _) as [[[e1 m1] n1] c1].
Qed.

Lemma builds_adopt n es :
  builds (fun _ => True) (adopt n es)
    (fun k s => forall fq ns obj, wired (mk_node_entry fq ns obj k [] []) s).
Proof.
  intros s _. unfold adopt.
  set (x := Executor.set_heap _ (g_executor s)).
  assert (Hx : Executor.nodes_ (Executor.add_node (next_node s) x) = Executor.nodes_ (Executor.enlist (next_node s) x) /\
               Executor.heap (Executor.add_node (next_node s) x) = Executor.heap (Executor.enlist (next_node s) x)).
  { unfold Executor.add_node. cbn [Executor.trigger Executor.set_env Executor.nodes_ Executor.heap]. apply reconcile_frame_nodes. }
  destruct Hx as [Hn Hh].
  assert (He : Executor.heap (Executor.enlist (next_node s) x) = Executor.heap x /\
    Executor.nodes_ (g_executor s) ⊆ Executor.nodes_ (Executor.enlist (next_node s) x) /\
    next_node s ∈ Executor.nodes_ (Executor.enlist (next_node s) x)).
  { unfold Executor.enlist. destruct (decide _) as [Hd|Hd]; [done|]. simpl. split; [done|]. set_solver. }
  destruct He as (He1 & He2 & He3). split.
  - split; cbn [next_node g_executor]; [lia|by rewrite Hn| |by apply same_stores]. intros m Hm. rewrite Hh, He1. unfold x. simpl.
    by rewrite fn_lookup_insert_ne by lia.
  - intros fq ns obj. unfold wired. cbn [ge_node next_node g_executor subscriptions]. split; [lia|].
    split; [by rewrite Hn|]. intros q Hq. by apply not_elem_of_nil in Hq.
Qed.

(** What an entry says of its specification. *)
Definition entry_of (spec : J) (e : NodeEntry) : Prop :=
  is_object spec = true /\ value_string spec (lit "namespace") (lit "/") = Ok (ge_namespace e) /\
  (exists name, string_at spec (lit "name") = Ok name /\ object_of spec name (ge_namespace e) (ge_obj e)) /\
  ge_fq_name e = fq_name_ (ge_obj e) /\
  Forall2 (publisher_of e) (specs_of (lit "publishers") spec) (publishers e) /\
  Forall2 (subscription_of e) (specs_of (lit "subscriptions") spec) (subscriptions e).

(** Building a node leaves the entries alone until it is complete. *)
Definition keeps_nodes {A} (m : stM (Impl F E) A) : Prop := forall s, g_nodes (snd (m s)) = g_nodes s.

Lemma keeps_ret {A} (a : A) : keeps_nodes (mret a).
Proof. done. Qed.

Lemma keeps_throw {A} e : keeps_nodes (A := A) (st_throw e).
Proof. done. Qed.

Lemma keeps_lift {A} (m : outcome A) : keeps_nodes (st_lift m).
Proof. done. Qed.

Lemma keeps_get : keeps_nodes st_get.
Proof. done. Qed.

Lemma keeps_bind {A B} (m : stM (Impl F E) A) (k : A -> stM (Impl F E) B) :
  keeps_nodes m -> (forall a, keeps_nodes (k a)) -> keeps_nodes (mbind k m).
Proof.
  intros Hm Hk s. unfold mbind, stM_bind. specialize (Hm s). destruct (m s) as [[a|e|] s1]; simpl in *; [|done..].
  by rewrite Hk.
Qed.

Lemma keeps_iter {A} (g : A -> stM (Impl F E) unit) l : (forall a, keeps_nodes (g a)) -> keeps_nodes (st_iter g l).
Proof.
  intros Hg. induction l as [|a l IH]; cbn [st_iter]; [apply keeps_ret|]. apply keeps_bind; [apply Hg|]. intros _. exact IH.
Qed.

Lemma keeps_gfac {A} (m : stM F A) : keeps_nodes (on_gfac m).
Proof. intros s. unfold on_gfac. by destruct (m (g_fac s)). Qed.

Lemma keeps_on_node {A} n (m : stM (World F) A) : keeps_nodes (on_node n m).
Proof. intros s. unfold on_node. by destruct (m _). Qed.

Lemma keeps_modify g : (forall s, g_nodes (g s) = g_nodes s) -> keeps_nodes (st_modify g).
Proof. intros Hg s. apply Hg. Qed.

Lemma keeps_adopt n es : keeps_nodes (adopt n es).
Proof. done. Qed.

Lemma keeps_declare_in k fq p name value : keeps_nodes (declare_in (F := F) iov_len_bits clock k fq p name value).
Proof. intros s. unfold declare_in. by destruct (Params.declare _ _ _ _ _ _). Qed.

Create HintDb keeps.
#[local] Hint Resolve keeps_ret keeps_throw keeps_lift keeps_get keeps_bind keeps_iter keeps_gfac keeps_on_node
  keeps_modify keeps_adopt keeps_declare_in : keeps.

Lemma keeps_parameter k fq name (value : J) :
  keeps_nodes (declare_parameter iov_len_bits qos_created clock service_types event_type k fq name value).
Proof.
  assert (Hd : forall v, keeps_nodes (node_declare (F := F) iov_len_bits qos_created clock service_types event_type k fq name v)).
  { intros v. unfold node_declare, node_params. repeat (apply keeps_bind; [auto with keeps|intros ?]); [|auto with keeps].
    case_match; auto 6 with keeps. }
  unfold declare_parameter. repeat case_match; auto with keeps.
Qed.

Lemma keeps_parameters entry (spec : J) :
  keeps_nodes (build_parameters iov_len_bits qos_created clock service_types event_type spec entry).
Proof.
  unfold build_parameters. case_match; [|auto with keeps]. apply keeps_bind; [auto with keeps|]. intros ps.
  case_match; [auto with keeps|]. apply keeps_iter. intros p. apply keeps_parameter.
Qed.

Lemma keeps_object (spec : J) name ns :
  keeps_nodes (build_object iov_len_bits qos_created domain_id CreateByName spec name ns).
Proof.
  unfold build_object. case_match; [|auto with keeps]. repeat (apply keeps_bind; [auto with keeps|intros ?]).
  case_match; auto with keeps.
Qed.

Lemma keeps_publisher entry (spec : J) : keeps_nodes (build_publisher qos_created entry spec).
Proof.
  unfold build_publisher. apply keeps_bind; [auto with keeps|]. intros [type topic].
  repeat (apply keeps_bind; [auto with keeps|intros ?]). auto with keeps.
Qed.

Lemma keeps_subscription entry (spec : J) : keeps_nodes (build_subscription qos_created entry spec).
Proof.
  unfold build_subscription. apply keeps_bind; [auto with keeps|]. intros [type topic].
  repeat (apply keeps_bind; [auto with keeps|intros ?]). auto with keeps.
Qed.

Lemma keeps_endpoints key build (spec : J) entry :
  (forall e spec, keeps_nodes (build e spec)) -> keeps_nodes (build_endpoints key build spec entry).
Proof.
  intros Hb. unfold build_endpoints. case_match; [|auto with keeps]. apply keeps_bind; [auto with keeps|]. intros l.
  generalize (elements l) as specs. intros specs. revert entry.
  induction specs as [|x specs IH]; intros entry; cbn [build_each]; auto with keeps.
Qed.

(** A step of building a node: what holds from now on ([R]) and the entries
    built before ([l]) stay. *)
Lemma builds_step {A B} P (m : stM (Impl F E) A) Q (R : Impl F E -> Prop) l (k : A -> stM (Impl F E) B) Q' :
  builds P m Q -> keeps_nodes m -> stable R ->
  (forall a, builds (fun s => Q a s /\ R s /\ g_nodes s = l) (k a) Q') ->
  builds (fun s => P s /\ R s /\ g_nodes s = l) (mbind k m) Q'.
Proof.
  intros Hm Hkeep Hr Hk. eapply builds_bind; [|exact Hk]. intros s (Hp & Hrs & Hl). specialize (Hm s Hp). specialize (Hkeep s).
  destruct (m s) as [[a|e|] s1]; [|done..]. destruct Hm as [He Hq]. simpl in Hkeep.
  split; [done|]. split; [done|]. split; [by eapply Hr|congruence].
Qed.

Lemma builds_read {A B} P (m : outcome A) (k : A -> stM (Impl F E) B) Q :
  m <> Undefined -> (forall a, m = Ok a -> builds P (k a) Q) -> builds P (mbind k (st_lift m)) Q.
Proof.
  intros Hd Hk s Hs. unfold mbind, stM_bind, st_lift. destruct m as [a|e|]; [|done|done]. by apply Hk.
Qed.

Lemma builds_pure {A} (phi : Prop) P (m : stM (Impl F E) A) Q : (phi -> builds P m Q) -> builds (fun s => phi /\ P s) m Q.
Proof. intros Hm s [Hphi Hs]. by apply Hm. Qed.

Definition build_node_ (spec : J) : stM (Impl F E) unit :=
  build_node iov_len_bits qos_created domain_id clock service_types event_type CreateByName spec.

Lemma builds_node (spec : J) l :
  builds (fun s => g_nodes s = l) (build_node_ spec)
    (fun _ s => exists e, entry_of spec e /\ wired e s /\ g_nodes s = l ++ [e]).
Proof.
  unfold build_node_, build_node. destruct (is_object spec) eqn:Hobj; simpl; [|apply builds_throw].
  destruct (contains spec (lit "name")); simpl; [|apply builds_throw].
  apply builds_read; [apply value_string_defined|]. intros ns Hns.
  apply builds_read; [apply string_at_defined|]. intros name Hname.
  eapply builds_pre with (P := fun s => True /\ True /\ g_nodes s = l); [|tauto].
  eapply builds_step; [apply builds_object|apply keeps_object|done|]. intros [n es]. cbn [fst snd].
  apply builds_pure. intros Hn.
  eapply builds_pre with (P := fun s => True /\ True /\ g_nodes s = l); [|tauto].
  eapply builds_step; [apply builds_adopt|apply keeps_adopt|done|]. intros k.
  set (entry := mk_node_entry (fq_name_ n) ns n k [] []).
  eapply builds_pre with (P := fun s => has_node k s /\ wired entry s /\ g_nodes s = l);
    [|intros s (Hw & _ & Hl); split; [apply (Hw [] [] n)|split; [apply Hw|done]]].
  eapply builds_step; [apply (builds_parameters entry)|apply keeps_parameters|apply wired_stable|]. intros [].
  eapply builds_pre with (P := fun s => wired entry s /\ True /\ g_nodes s = l); [|tauto].
  eapply builds_step; [apply builds_endpoints with (Q := fun specs e s => exists ps, e = with_endpoints entry ps [] /\
    Forall2 (publisher_of entry) specs ps /\ wired e s); intros; apply builds_publishers
    |apply keeps_endpoints, keeps_publisher|done|].
  intros e1 s1 ((ps & -> & Hps & Hw) & _ & Hl). revert s1 Hw Hl.
  match goal with |- forall s1, _ -> _ -> match ?m s1 with _ => _ end => set (rest := m) end.
  enough (Hrest : builds (fun s => wired (with_endpoints entry ps []) s /\ True /\ g_nodes s = l) rest
    (fun _ s => exists e, entry_of spec e /\ wired e s /\ g_nodes s = l ++ [e])) by (intros s1 Hw Hl; by apply Hrest).
  unfold rest.
  eapply builds_step; [apply builds_endpoints with (Q := fun specs e s => exists qs, e = with_endpoints (with_endpoints entry ps []) [] qs /\
    Forall2 (subscription_of (with_endpoints entry ps [])) specs qs /\ wired e s); intros; apply builds_subscriptions
    |apply keeps_endpoints, keeps_subscription|done|].
  intros e2 s2 ((qs & -> & Hqs & Hw) & _ & Hl).
  match goal with |- context [st_modify ?g s2] => change (st_modify g s2) with (Ok tt, g s2) end.
  split; [split; [simpl; lia|done|done|by apply same_stores]|]. eexists. split; [|split; [exact Hw|by simpl; rewrite Hl]].
  split; [done|]. split; [exact Hns|]. split; [by exists name|]. split; [done|].
  unfold with_endpoints; simpl. by rewrite app_nil_r.
Qed.

Definition builds_nodes_spec (specs : list J) l s : Prop :=
  exists es, g_nodes s = l ++ es /\ Forall2 entry_of specs es /\ forall e, e ∈ es -> wired e s.

Lemma builds_nodes (specs : list J) : forall l,
  builds (fun s => g_nodes s = l) (st_iter build_node_ specs) (fun _ s => builds_nodes_spec specs l s).
Proof.
  induction specs as [|spec specs IH]; intros l s Hl; cbn [st_iter].
  - split; [apply additions_refl|]. exists []. rewrite app_nil_r. split; [done|]. split; [done|]. intros e []%not_elem_of_nil.
  - pose proof (builds_node spec l s Hl) as Hn. unfold mbind, stM_bind. destruct (build_node_ spec s) as [[[]|x|] s1]; [|done..].
    destruct Hn as (Hx1 & e & He & Hw & Hl1). specialize (IH _ s1 Hl1).
    destruct (st_iter build_node_ specs s1) as [[[]|x|] s2]; [|done..].
    destruct IH as (Hx2 & es & Hl2 & Hes & Hws). split; [by eapply additions_trans|]. exists (e :: es).
    split; [by rewrite Hl2, <- app_assoc|]. split; [by constructor|].
    intros e' [->|Hin]%elem_of_cons; [by eapply wired_stable|by apply Hws].
Qed.

Definition topology_spec json (es : list NodeEntry) s : Prop := exists doc l,
  JsonFromDoc json = Ok doc /\ is_object doc = true /\ at_key doc (lit "nodes") = Ok l /\ is_array l = true /\
  elements l <> [] /\ Forall2 entry_of (elements l) es /\ forall e, e ∈ es -> wired e s.

Lemma builds_topology json l0 :
  builds (fun s => g_nodes s = l0)
    (build_topology iov_len_bits qos_created domain_id clock service_types event_type CreateByName json)
    (fun _ s => exists es, g_nodes s = l0 ++ es /\ topology_spec json es s).
Proof.
  unfold build_topology. apply builds_read.
  { pose proof (from_doc_defined json). by destruct (JsonFromDoc json). }
  intros doc Hdoc. destruct (JsonFromDoc json) as [doc'| |] eqn:Ej; [|done..]. injection Hdoc as ->.
  destruct (is_object doc) eqn:Hobj; simpl; [|apply builds_throw].
  destruct (contains doc (lit "nodes")); simpl; [|apply builds_throw].
  apply builds_read; [apply at_key_defined|]. intros l Hl.
  destruct (is_array l) eqn:Harr; simpl; [|apply builds_throw].
  case_bool_decide as Hne; [apply builds_throw|].
  eapply builds_weaken; [apply builds_nodes with (l := l0)|auto|]. intros u s' (es & Hes & Hb). exists es. split; [done|].
  by exists doc, l.
Qed.

End topology.

(* ------------------------------------------------------------------ *)
(** * A topology on the test double *)

Import NodeDemo.

Module LaunchDemo.
#[local] Existing Instance Params.ParamDemo.event_codec.
#[local] Existing Instance ExecutorRun.mock_waitset.

(** Documents of strings, integers, arrays and objects. *)
Definition field (j : json) (k : bytes) : option json :=
  match j with JObj fs => snd <$> List.find (fun f => bool_decide (fst f = k)) fs | _ => None end.

Definition or_default {A} (get : json -> outcome A) (j : json) (k : bytes) (d : A) : outcome A :=
  match j with
  | JObj _ => match field j k with Some v => get v | None => Ok d end
  | _ => Throw StdException
  end.

Definition str (j : json) : outcome bytes := match j with JStr s => Ok s | _ => Throw StdException end.

#[export] Instance demo_doc : JsonDoc json := {|
  JsonFromDoc t := match json_parse t with Some j => Ok j | None => Throw StdException end;
  is_object j := match j with JObj _ => true | _ => false end;
  is_array j := match j with JArr _ => true | _ => false end;
  is_boolean _ := false;
  is_number_integer j := match j with JNum _ => true | _ => false end;
  is_number_float _ := false;
  is_string j := match j with JStr _ => true | _ => false end;
  contains j k := bool_decide (is_Some (field j k));
  at_key j k := match field j k with Some v => Ok v | None => Throw StdException end;
  elements j := match j with JArr l => l | JObj fs => map snd fs | _ => [j] end;
  items j := match j with JObj fs => fs | _ => [] end;
  get_bool _ := Throw StdException;
  get_int64 j := match j with JNum z => Ok (swrap 64 z) | _ => Throw StdException end;
  get_double _ := Throw StdException;
  get_size j := match j with JNum z => Ok (u64 z) | _ => Throw StdException end;
  get_string := str;
  value_string j k d := or_default str j k d;
  value_double j k d := or_default (fun _ => Throw StdException) j k d;
  value_json j k d := or_default (fun v => Ok v) j k d;
  empty_object := JObj []
|}.

#[export] Instance demo_laws : JsonLaws json.
Proof.
  split; intros; simpl; unfold or_default, str; repeat case_match; done.
Qed.

Definition s (x : String.string) : json := JStr (lit x).
Definition obj (l : list (String.string * json)) : json := JObj (map (fun f => (lit (fst f), snd f)) l).
Arguments s _%_string.
Arguments obj _%_list.

Definition talker : json := obj
  [("name", s "talker"); ("namespace", s "/demo"); ("parameters", obj [("rate", JNum 10)]);
   ("publishers", JArr [obj [("topic", s "chatter"); ("type", s "std_msgs/msg/String"); ("payload_hex", s "00010000ab")]]);
   ("subscriptions", JArr [obj [("topic", s "/chatter"); ("type", s "std_msgs/msg/String");
                                ("qos", obj [("reliability", s "best_effort"); ("depth", JNum 3)])]])]%string.
Definition listener : json := obj [("name", s "listener")]%string.
Definition topology (nodes : list json) : bytes := render (obj [("nodes", JArr nodes)]%string).

Definition executor : Executor.Executor ExecutorRun.MockWaitset :=
  Executor.mk_exec (ExecutorRun.mk_waitset ∅ ∅ ∅) (fun _ => Executor.mk_node [] 0 0) 1 2 false [] ∅ ∅ 2.
Definition start : Impl NodeFactory ExecutorRun.MockWaitset := mk_impl (NodeDemo.fresh [] 0) executor [] ∅ 0 0 0.
(** No class is registered. *)
Definition no_classes (_ _ _ : bytes) : stM NodeFactory (option (NodeObj * list Executor.Entity)) := mret None.
Definition launch (text : bytes) : outcome (list RawPublisher) * Impl NodeFactory ExecutorRun.MockWaitset :=
  GraphExecutor_ctor 64 true 0 (fun _ => 0%Z) (fun _ => ([], [])) [] no_classes text start.
End LaunchDemo.
Import LaunchDemo.
#[local] Existing Instance Params.ParamDemo.event_codec.
#[local] Existing Instance ExecutorRun.mock_waitset.
#[local] Existing Instance demo_doc.
#[local] Existing Instance demo_laws.

Definition launched : Impl NodeFactory ExecutorRun.MockWaitset := snd (launch (topology [talker; listener])).

Lemma launch_ok : fst (launch (topology [talker; listener])) = Ok [].
Proof. vm_compute. reflexivity. Qed.

(** A type error inside the topology is reported as an exception of the JSON
    library, not as the library's own error type. *)
Definition misnamed : bytes := topology [obj [("name", JNum 5)]%string].
Lemma type_errors_escape : fst (launch misnamed) = Throw StdException /\ fst (launch (lit "{")) = Throw InvalidArguments.
Proof. split; vm_compute; reflexivity. Qed.


(** A thread that runs for two rounds on a writer that accepts. *)
Definition periodic : RawPublisher := mk_raw_publisher (lit "/chatter") (lit "std_msgs::msg::dds_::String_") 101 default_payload 1 0.

Lemma publishing_counts_witness :
  exists k p' f', k <= 2 /\
    publisher_thread (F := NodeFactory) 64 (fun i => (i <? 2)%nat) 3 0 periodic (NodeDemo.fresh [] 0) = (Ok (Some p'), f') /\
    counted k periodic p' (NodeDemo.fresh [] 0) f'.
Proof.
  destruct (publishing_counts 64 (fun i => (i <? 2)%nat) 2 3 periodic [] (NodeDemo.fresh [] 0)) as [Ht _].
  - split; vm_compute; done.
  - split; vm_compute; done.
  - intros j Hj. by apply Nat.ltb_lt.
  - reflexivity.
  - lia.
  - exact Ht.
Defined.
