(* ===== verification/NodeRegistry.v ===== *)
(** The registry of node classes (src/src/rcllite/node_registry.hpp) and the
    classes a topology names.

    [NodeRegistry] is vila's [GlobalFactoryRegistry], so its operations are the
    class [FactoryRegistry]; what the header says of names, and what the launcher
    relies on for an unknown class, are its laws.  [RCLLITE_REGISTER_NODE] and the
    use of the registry in graph_executor.cpp are modelled on top of it. *)
From Stdlib Require Import String.
From Stdlib Require Import ZArith Lia Strings.Byte.
From stdpp Require Import base tactics list numbers gmap.
From S2P Require Import Prelude Bytes Message Dds NodeCtor.
From S2P Require Executor ExecutorRun Graph Params.
From S2P Require Import Json GraphExecutor GraphExecutorFacts.

(** [NodeFactory]: a node from its name and namespace, with the entities its
    constructor registered. *)
Definition NodeFactory (F : Type) : Type := bytes -> bytes -> stM F (NodeObj * list Executor.Entity).

Class FactoryRegistry (R F : Type) := {
  empty_registry : R;
  Register : bytes -> NodeFactory F -> R -> R;
  CreateByName : R -> bytes -> bytes -> bytes -> stM F (option (NodeObj * list Executor.Entity));
  GetRegisteredNames : R -> list bytes
}.

(** A leading "::" is stripped. *)
Definition unqualified (cls : bytes) : bytes :=
  match cls with
  | a :: b :: rest => if bool_decide (a = x3a /\ b = x3a) then rest else cls
  | _ => cls
  end.

Class FactoryRegistryLaws (R F : Type) `{FactoryRegistry R F} := {
  registered : R -> bytes -> option (NodeFactory F);
  registered_empty cls : registered empty_registry cls = None;
  registered_register r cls f cls' :
    registered r (unqualified cls) = None ->
    registered (Register cls f r) cls' = if decide (cls' = unqualified cls) then Some f else registered r cls';
  create_by_name r cls name ns s :
    CreateByName r cls name ns s =
      match registered r (unqualified cls) with
      | Some f => (let* n := f name ns in mret (Some n)) s
      | None => (Ok None, s)
      end;
  registered_names r : NoDup (GetRegisteredNames r) /\ forall cls, cls ∈ GetRegisteredNames r <-> is_Some (registered r cls)
}.

Section registry.
Context {R F : Type} `{FactoryRegistry R F}.

(** [RCLLITE_REGISTER_NODE(Cls)]: the text of the class and a factory that
    constructs it. *)
Definition RCLLITE_REGISTER_NODE (Cls : bytes) (make_shared : bytes -> bytes -> stM F (NodeObj * list Executor.Entity)) (r : R) : R :=
  Register Cls (fun rcllite_reg_name rcllite_reg_ns => make_shared rcllite_reg_name rcllite_reg_ns) r.

(** Static initialisation: the registrations linked into a binary, in any order. *)
Definition static_init (classes : list (bytes * NodeFactory F)) : R :=
  foldr (fun c r => RCLLITE_REGISTER_NODE (fst c) (snd c) r) empty_registry classes.

(** [GraphExecutor::registered_nodes_json]. *)
Definition registered_json (r : R) : bytes := registered_nodes_json (GetRegisteredNames r).
(** [GraphExecRegisteredNodes_] of the bindings. *)
Definition GraphExecRegisteredNodes_ (r : R) : bytes := registered_json r.
End registry.

(* ------------------------------------------------------------------ *)
(** * What is registered *)

Section facts.
Context {R F : Type} `{FactoryRegistryLaws R F}.

(** The factory the list has for a class. *)
Definition lookup_class (classes : list (bytes * NodeFactory F)) (cls : bytes) : option (NodeFactory F) :=
  snd <$> List.find (fun c => bool_decide (unqualified (fst c) = cls)) classes.

Lemma lookup_class_cons c classes cls :
  lookup_class (c :: classes) cls = if decide (cls = unqualified (fst c)) then Some (snd c) else lookup_class classes cls.
Proof.
  unfold lookup_class. simpl. destruct (decide (cls = unqualified (fst c))) as [->|Hne].
  - by rewrite bool_decide_eq_true_2.
  - by rewrite bool_decide_eq_false_2.
Qed.

Lemma lookup_class_None classes cls : cls ∉ map (fun c => unqualified (fst c)) classes -> lookup_class classes cls = None.
Proof.
  induction classes as [|c classes IH]; intros Hn; [done|]. rewrite lookup_class_cons.
  rewrite decide_False; [apply IH|]; intros Hx; apply Hn; [by right|]. subst. by left.
Qed.

Lemma static_init_registered classes cls :
  NoDup (map (fun c => unqualified (fst c)) classes) ->
  registered (static_init (R := R) classes) cls = lookup_class classes cls.
Proof.
  revert cls. induction classes as [|c classes IH]; intros cls Hnd; [apply registered_empty|].
  inversion_clear Hnd as [|? ? Hc Hnd']. simpl. unfold RCLLITE_REGISTER_NODE.
  rewrite registered_register by (rewrite IH by done; by apply lookup_class_None).
  by rewrite IH, lookup_class_cons.
Qed.

(** Names being distinct, a class is found where it was put. *)
Lemma lookup_class_of classes c :
  NoDup (map (fun c => unqualified (fst c)) classes) -> c ∈ classes -> lookup_class classes (unqualified (fst c)) = Some (snd c).
Proof.
  induction classes as [|d classes IH]; [by intros _ []%not_elem_of_nil|]. simpl. intros [Hd Hnd]%NoDup_cons Hin.
  rewrite lookup_class_cons. apply elem_of_cons in Hin as [->|Hin]; [by rewrite decide_True|].
  rewrite decide_False; [by apply IH|]. intros Heq. apply Hd. rewrite <- Heq.
  by apply (list_elem_of_fmap_2 (fun c : bytes * NodeFactory F => unqualified (fst c))).
Qed.

Lemma lookup_class_is_Some classes cls :
  is_Some (lookup_class classes cls) <-> cls ∈ map (fun c => unqualified (fst c)) classes.
Proof.
  induction classes as [|c classes IH]; [split; [by intros [? [=]]|by intros []%not_elem_of_nil]|].
  rewrite lookup_class_cons. simpl. rewrite elem_of_cons. destruct (decide _) as [->|Hne]; [naive_solver|]. rewrite IH. naive_solver.
Qed.
End facts.

(** A topology gets the classes that are linked in, and only those: with the
    registrations of a binary under distinct names, in whatever order static
    initialisation ran them, an object with a class is what that class's
    constructor makes of the node's name and namespace, also when either name has
    a leading "::"; an unknown class is InvalidArguments and nothing has been
    created; the list of classes reads back as exactly the registered names. *)
Theorem classes_by_name {R F E J} `{FactoryRegistryLaws R F} `{DdsFactory F} `{!DdsNodes F} `{Executor.DdsWaitset E} `{JsonDoc J}
    `{Message Graph.ParticipantEntitiesInfo} (bits : Z) (qc : bool) (dom : Z) (classes classes' : list (bytes * NodeFactory F))
    (spec : J) (cls name ns : bytes) (s : Impl F E) :
  NoDup (map (fun c => unqualified (fst c)) classes) -> classes' ≡ₚ classes ->
  contains spec (lit "class") = true -> string_at spec (lit "class") = Ok cls ->
  (forall c, c ∈ classes -> unqualified (fst c) = unqualified cls ->
     build_object bits qc dom (CreateByName (static_init (R := R) classes')) spec name ns s = on_gfac (snd c name ns) s) /\
  (unqualified cls ∉ map (fun c => unqualified (fst c)) classes ->
     build_object bits qc dom (CreateByName (static_init (R := R) classes')) spec name ns s = (Throw InvalidArguments, s)) /\
  exists names, json_parse (registered_json (static_init (R := R) classes')) = Some (JArr (map JStr names)) /\
    names ≡ₚ map (fun c => unqualified (fst c)) classes /\ Sorted.StronglySorted bytes_le names.
Proof.
  intros Hnd Hperm Hc Hcls.
  assert (Hm : map (fun c => unqualified (fst c)) classes' ≡ₚ map (fun c => unqualified (fst c)) classes)
    by by apply Permutation_map.
  assert (Hnd' : NoDup (map (fun c => unqualified (fst c)) classes')) by by rewrite Hm.
  assert (Hb : build_object bits qc dom (CreateByName (static_init (R := R) classes')) spec name ns s =
    match lookup_class classes' (unqualified cls) with Some f => on_gfac (f name ns) s | None => (Throw InvalidArguments, s) end).
  { unfold build_object. rewrite Hc, Hcls. unfold mbind, stM_bind, st_lift, on_gfac. rewrite create_by_name.
    rewrite static_init_registered by done. destruct (lookup_class classes' (unqualified cls)) as [f|]; [|by destruct s].
    unfold mbind, stM_bind. destruct (f name ns (g_fac s)) as [[n|e|] fc]; done. }
  split; [|split].
  - intros c Hin Hn. assert (Hl : lookup_class classes' (unqualified cls) = Some (snd c)).
    { rewrite <- Hn. apply lookup_class_of; [done|by rewrite Hperm]. }
    by rewrite Hb, Hl.
  - intros Hn. rewrite Hb. by rewrite lookup_class_None by by rewrite Hm.
  - destruct (status_reads_back [] (GetRegisteredNames (static_init (R := R) classes'))) as (_ & names & Hj & Hp & Hs).
    exists names. split; [exact Hj|]. split; [|exact Hs]. rewrite Hp, <- Hm.
    destruct (registered_names (static_init (R := R) classes')) as [Hrn Hr]. apply NoDup_Permutation; [done|done|].
    intros x. by rewrite Hr, static_init_registered, lookup_class_is_Some by done.
Qed.

(* ------------------------------------------------------------------ *)
(** * A registry kept in a list *)

Module ListRegistry.
Section list_registry.
Context {F : Type}.
Definition find_class (r : list (bytes * NodeFactory F)) (cls : bytes) : option (NodeFactory F) :=
  snd <$> List.find (fun c => bool_decide (fst c = cls)) r.

(** Registering a name again changes nothing. *)
Definition list_register (cls : bytes) (f : NodeFactory F) (r : list (bytes * NodeFactory F)) : list (bytes * NodeFactory F) :=
  match find_class r (unqualified cls) with Some _ => r | None => (unqualified cls, f) :: r end.

Definition list_create (r : list (bytes * NodeFactory F)) (cls name ns : bytes) : stM F (option (NodeObj * list Executor.Entity)) :=
  match find_class r (unqualified cls) with
  | Some f => let* n := f name ns in mret (Some n)
  | None => mret None
  end.

#[export] Instance list_registry : FactoryRegistry (list (bytes * NodeFactory F)) F := {|
  empty_registry := [];
  Register := list_register;
  CreateByName := list_create;
  GetRegisteredNames r := remove_dups (map fst r)
|}.

Lemma find_class_cons c r cls : find_class (c :: r) cls = if decide (cls = fst c) then Some (snd c) else find_class r cls.
Proof.
  unfold find_class. simpl. destruct (decide (cls = fst c)) as [->|Hne]; [by rewrite bool_decide_eq_true_2|].
  by rewrite bool_decide_eq_false_2.
Qed.

#[export] Instance list_registry_laws : FactoryRegistryLaws (list (bytes * NodeFactory F)) F.
Proof.
  refine {| registered := find_class |}.
  - done.
  - intros r cls f cls' Hn. simpl. unfold list_register. by rewrite Hn, find_class_cons.
  - intros r cls name ns s. simpl. unfold list_create. by destruct (find_class r (unqualified cls)).
  - intros r. simpl. split; [apply NoDup_remove_dups|]. intros cls. rewrite elem_of_remove_dups.
    induction r as [|c r IH]; [split; [by intros []%not_elem_of_nil|by intros [? [=]]]|].
    simpl. rewrite elem_of_cons, find_class_cons, IH. destruct (decide _); naive_solver.
Defined.
End list_registry.
End ListRegistry.
Export ListRegistry.
