(* ===== verification/GraphTeardown.v ===== *)
(** The end of a launched topology (graph_executor.cpp, [GraphExecutor::~GraphExecutor],
    [Impl::~Impl] and the destructors of the members, with [~ParameterCore],
    [~Node] and [~Executor] for nodes that an executor owns): the running flag is
    cleared and the executor cancelled, the publishing threads are joined, then
    the entries, the nodes and the executor go.

    Objects a class of nodes created are its own: [class_dtor] is the destructor
    of the class, [drop_entity] that of an entity its constructor registered. *)
From Stdlib Require Import ZArith Lia Strings.Byte.
From stdpp Require Import base tactics list numbers gmap functions.
From S2P Require Import Prelude Bytes Message Names Qos RawSerdata Dds MockDds Pubsub NodeCtor GraphCtor.
From S2P Require Executor ExecutorRun Graph Params.
From S2P Require Import Json GraphExecutor GraphExecutorFacts.

Section teardown.
Context {F E : Type} `{DdsFactory F} `{!DdsNodes F} `{Executor.DdsWaitset E}.
Variable iov_len_bits : Z.
(** The handle of the executor's waitset. *)
Variable waitset_ : Z.
Variable class_dtor : nat -> stM F unit.
Variable drop_entity : Executor.Entity -> stM F unit.
Implicit Types s : Impl F E.

(** Joining a thread lets it reach its next test of the flag; [pending] says
    that it had read the flag before it was cleared.  The counter it leaves;
    [None] would be a thread that does not end. *)
Definition join_thread (t : bool * RawPublisher) : stM F (option RawPublisher) :=
  publisher_thread iov_len_bits (fun i => match i with O => fst t | S _ => false end) 2 0 (snd t).

(** A [NodeEntry] owns its publishers; its node and subscriptions are shared
    with the executor and the node. *)
Definition NodeEntry_dtor (e : NodeEntry) : stM F unit :=
  st_iter (fun p => Writer_dtor (rp_writer p)) (publishers e).

(** The reply writer was declared last. *)
Definition Service_dtor (srv : (Z * Z) * Z) : stM F unit :=
  let* _ := Writer_dtor (snd srv) in Reader_dtor (fst srv).

(** The object an entity is: a raw subscription of the topology, a parameter
    service, or neither.  Identities being unique, the lists have at most one
    element together. *)
Definition raw_subscriptions s (e : Executor.Entity) : list RawSubscription :=
  filter (fun q => Executor.mk_entity (rs_entity q) (snd (rs_reader q)) = e) (concat (map subscriptions (g_nodes s))).

Definition services_of (p : option ParamStore) (e : Executor.Entity) : list ServiceObj :=
  filter (fun r => fst r = e) (match p with Some p => ps_services p | None => [] end).

(** The last reference to an entity of node [k] goes. *)
Definition Entity_dtor s (k : nat) (e : Executor.Entity) : stM F unit :=
  match raw_subscriptions s e, services_of (g_stores s !! k) e with
  | [], [] => drop_entity e
  | qs, rs => let* _ := st_iter (fun q => Reader_dtor (rs_reader q)) qs in st_iter (fun r => Service_dtor (snd r)) rs
  end.

(** [~Node]: the members in the reverse order of their declaration. *)
Definition Node_dtor s (e : NodeEntry) : stM F unit :=
  let k := ge_node e in
  let n := ge_obj e in
  let* _ := class_dtor k in
  let* _ := Writer_dtor (discovery_ n) in
  let* _ := (match g_stores s !! k with Some p => Writer_dtor (ps_events p) | None => mret tt end) in
  let* _ := GuardCondition_dtor (change_guard_ n) in
  let* _ := st_iter (Entity_dtor s k) (Executor.entities_ (Executor.heap (g_executor s) k)) in
  Participant_dtor (ppant_ n).

(** [~Executor] and its members: the last references to the nodes. *)
Definition Executor_dtor s : stM F unit :=
  let x := g_executor s in
  let* _ := (if (0 <=? waitset_)%Z then dds_delete waitset_ else mret tt) in
  let* _ := st_iter (fun k => st_iter (Node_dtor s) (filter (fun e => ge_node e = k) (g_nodes s))) (Executor.nodes_ x) in
  let* _ := GuardCondition_dtor (Executor.wake_guard_ x) in
  GuardCondition_dtor (Executor.cancel_guard_ x).

(** The body of [~Impl], with the threads as they are then. *)
Definition stop_threads (threads : list (bool * RawPublisher)) : stM (Impl F E) (list (option RawPublisher)) :=
  let* _ := st_modify (fun s => set_executor (Executor.cancel (g_executor s)) s) in
  on_gfac (st_map join_thread threads).

Definition destroy_members s : stM F unit :=
  let* _ := st_iter NodeEntry_dtor (g_nodes s) in Executor_dtor s.

(** [~Impl]; the counters the threads leave. *)
Definition Impl_dtor (threads : list (bool * RawPublisher)) : stM (Impl F E) (list (option RawPublisher)) :=
  let* ps := stop_threads threads in
  let* s := st_get in
  let* _ := on_gfac (destroy_members s) in
  mret ps.
End teardown.

(* ------------------------------------------------------------------ *)
(** * What is taken away *)

Section gone.
Context {F E : Type} `{DdsNodesLaws F} `{Executor.DdsWaitset E}.
Variable iov_len_bits : Z.
Variable waitset_ : Z.
Variable class_dtor : nat -> stM F unit.
Variable drop_entity : Executor.Entity -> stM F unit.
(** What a class destroys of its own is nobody else's concern; the entities it
    registered delete their conditions. *)
Hypothesis class_dtor_removes : forall k, removes (class_dtor k) [].
Hypothesis drop_entity_removes : forall e, removes (drop_entity e) [Executor.condition e].
Implicit Types s : Impl F E.

Lemma removes_ret : removes (F := F) (mret tt) [].
Proof. intros f. exists f. split; [done|]. split; [done|]. intros h []%not_elem_of_nil. Qed.

Lemma removes_writer wr : removes (F := F) (Writer_dtor wr) [wr].
Proof. apply removes_delete. Qed.

Lemma removes_guard g : removes (F := F) (GuardCondition_dtor g) [g].
Proof. apply removes_delete. Qed.

Lemma removes_participant p : removes (F := F) (Participant_dtor p) [pp_ p].
Proof. apply removes_delete. Qed.

(** Handles an entity of node [k] takes with it. *)
Definition entity_handles s k (e : Executor.Entity) : list Z :=
  match raw_subscriptions s e, services_of (g_stores s !! k) e with
  | [], [] => [Executor.condition e]
  | qs, rs =>
      concat (map (fun q => [snd (rs_reader q); fst (rs_reader q)]) qs) ++
      concat (map (fun r => [snd (snd r); snd (fst (snd r)); fst (fst (snd r))]) rs)
  end.

Lemma removes_service srv : removes (F := F) (Service_dtor srv) [snd srv; snd (fst srv); fst (fst srv)].
Proof. apply (removes_bind _ _ [_] [_; _]); [apply removes_writer|apply removes_reader]. Qed.

Lemma removes_entity s k e : removes (Entity_dtor drop_entity s k e) (entity_handles s k e).
Proof.
  unfold Entity_dtor, entity_handles.
  assert (Hb : forall qs (rs : list ServiceObj), removes (F := F)
    (let* _ := st_iter (fun q => Reader_dtor (rs_reader q)) qs in st_iter (fun r => Service_dtor (snd r)) rs)
    (concat (map (fun q => [snd (rs_reader q); fst (rs_reader q)]) qs) ++
     concat (map (fun r => [snd (snd r); snd (fst (snd r)); fst (fst (snd r))]) rs))).
  { intros qs rs. apply removes_bind; apply removes_iter; intros x; [apply removes_reader|apply removes_service]. }
  destruct (raw_subscriptions s e) as [|q qs]; [|apply (Hb (q :: qs))].
  destruct (services_of _ e) as [|r rs]; [apply drop_entity_removes|apply (Hb [] (r :: rs))].
Qed.

Definition node_handles s (e : NodeEntry) : list Z :=
  let k := ge_node e in
  [] ++ [discovery_ (ge_obj e)] ++ (match g_stores s !! k with Some p => [ps_events p] | None => [] end) ++
  [NodeCtor.change_guard_ (ge_obj e)] ++
  concat (map (entity_handles s k) (Executor.entities_ (Executor.heap (g_executor s) k))) ++ [pp_ (ppant_ (ge_obj e))].

Lemma removes_node s e : removes (Node_dtor class_dtor drop_entity s e) (node_handles s e).
Proof.
  unfold Node_dtor, node_handles.
  apply removes_bind; [apply class_dtor_removes|]. apply removes_bind; [apply removes_writer|].
  apply removes_bind; [destruct (g_stores s !! _); [apply removes_writer|apply removes_ret]|].
  apply removes_bind; [apply removes_guard|]. apply removes_bind; [|apply removes_participant].
  apply removes_iter. intros ent. apply removes_entity.
Qed.

Definition executor_handles s : list Z :=
  [waitset_] ++
  concat (map (fun k => concat (map (node_handles s) (filter (fun e => ge_node e = k) (g_nodes s))))
    (Executor.nodes_ (g_executor s))) ++
  [Executor.wake_guard_ (g_executor s)] ++ [Executor.cancel_guard_ (g_executor s)].

Lemma removes_impl_members s :
  removes (destroy_members waitset_ class_dtor drop_entity s)
    (concat (map (fun e => concat (map (fun p => [rp_writer p]) (publishers e))) (g_nodes s)) ++ executor_handles s).
Proof.
  apply removes_bind; [apply removes_iter; intros e; apply removes_iter; intros p; apply removes_writer|].
  apply removes_bind; [apply removes_delete|]. apply removes_bind; [|apply removes_bind; apply removes_guard].
  apply removes_iter. intros k. apply removes_iter. intros e. apply removes_node.
Qed.

(** One thread writes at most once more and leaves every entity alive. *)
Lemma join_thread_spec t (f : F) :
  exists p' f', join_thread iov_len_bits t f = (Ok (Some p'), f') /\ live f' = live f /\
    (p' = snd t \/ (fst t = true /\ p' = count_published (snd t))).
Proof.
  destruct t as [[|] p]; unfold join_thread; cbn [publisher_thread fst snd]; [|exists p, f; auto].
  destruct (send_started iov_len_bits p f) as (p' & f' & Hr & Hp). rewrite (st_bind_Ok _ _ _ _ _ Hr).
  exists p', f'. split; [done|]. split; [|naive_solver].
  unfold send, Writer_write, st_lift, st_run in Hr. unfold mbind at 2 3, stM_bind at 2 3 in Hr. cbn [dds_writecdr writer_at] in Hr.
  rewrite raw_serdata_from_blob_spec in Hr. unfold mbind, stM_bind in Hr. destruct (_ =? _)%Z.
  - destruct (write_on (rp_writer p) _ f) as [rc f1] eqn:Ew. apply write_on_spec in Ew as [Hl _].
    simpl in Hr. by injection Hr as _ <-.
  - by injection Hr as _ <-.
Qed.

(** How the threads end. *)
Definition ended (t : bool * RawPublisher) (r : option RawPublisher) : Prop :=
  exists p', r = Some p' /\ (p' = snd t \/ (fst t = true /\ p' = count_published (snd t))).

Lemma join_threads_spec ts : forall f : F,
  exists rs f', st_map (join_thread iov_len_bits) ts f = (Ok rs, f') /\ live f' = live f /\ Forall2 ended ts rs.
Proof.
  induction ts as [|t ts IH]; intros f; [by exists [], f|]. cbn [st_map].
  destruct (join_thread_spec t f) as (p & f1 & Hr & Hl & Hp). rewrite (st_bind_Ok _ _ _ _ _ Hr).
  destruct (IH f1) as (rs & f2 & E2 & Hl2 & Hf). rewrite (st_bind_Ok _ _ _ _ _ E2).
  exists (Some p :: rs), f2. split; [done|]. split; [congruence|]. constructor; [by exists p|done].
Qed.

Lemma on_gfac_eq {A} (m : stM F A) s o f : m (g_fac s) = (o, f) ->
  on_gfac m s = (o, mk_impl f (g_executor s) (g_nodes s) (g_stores s) (next_node s) (next_entity s) (g_clock_reads s)).
Proof. intros Hr. unfold on_gfac. by rewrite Hr. Qed.

(** The destructor, in its two phases. *)
Lemma Impl_dtor_phases ts s :
  exists rs s1 f2, stop_threads iov_len_bits ts s = (Ok rs, s1) /\ live (g_fac s1) = live (g_fac s) /\
    g_nodes s1 = g_nodes s /\ g_stores s1 = g_stores s /\ g_executor s1 = Executor.cancel (g_executor s) /\
    Forall2 ended ts rs /\
    fst (Impl_dtor iov_len_bits waitset_ class_dtor drop_entity ts s) = Ok rs /\
    g_fac (snd (Impl_dtor iov_len_bits waitset_ class_dtor drop_entity ts s)) = f2 /\
    live f2 ⊆ live (g_fac s) /\
    forall h, h ∈ concat (map (fun e => concat (map (fun p => [rp_writer p]) (publishers e))) (g_nodes s)) ++ executor_handles s1 ->
      (0 <= h)%Z -> h ∉ live f2.
Proof.
  destruct (join_threads_spec ts (g_fac s)) as (rs & f1 & E1 & Hl1 & Hf).
  set (s0 := set_executor (Executor.cancel (g_executor s)) s).
  pose proof (on_gfac_eq (st_map (join_thread iov_len_bits) ts) s0 (Ok rs) f1 E1) as Eg.
  set (s1 := mk_impl f1 _ _ _ _ _ _) in Eg.
  assert (Es : stop_threads iov_len_bits ts s = (Ok rs, s1)) by exact Eg.
  destruct (removes_impl_members s1 f1) as (f2 & E2 & Hl2 & Hg).
  exists rs, s1, f2. split; [done|]. split; [done|]. do 3 (split; [done|]). split; [done|].
  unfold Impl_dtor. rewrite (st_bind_Ok _ _ _ _ _ Es). rewrite (st_bind_Ok st_get _ s1 s1 s1) by done.
  rewrite (st_bind_Ok _ _ _ _ _ (on_gfac_eq _ s1 _ _ E2)). simpl. rewrite <- Hl1. auto.
Qed.
End gone.

(* ------------------------------------------------------------------ *)
(** * A topology launched and destroyed *)

Section launched.
Context {F E J : Type} `{DdsNodesLaws F} `{Executor.DdsWaitset E} `{JsonLaws J}
  `{Message Graph.ParticipantEntitiesInfo} `{Message Params.ParameterEvent}.
Implicit Types s : Impl F E.
Variable iov_len_bits : Z.
Variable qos_created : bool.
Variable domain_id : Z.
Variable clock : nat -> Z.
Variable service_types : bytes -> bytes * bytes.
Variable event_type : bytes.
Variable CreateByName : bytes -> bytes -> bytes -> stM F (option (NodeObj * list Executor.Entity)).
Hypothesis CreateByName_defined : forall cls n ns, st_defined (CreateByName cls n ns).
Variable waitset_ : Z.
Variable class_dtor : nat -> stM F unit.
Variable drop_entity : Executor.Entity -> stM F unit.
Hypothesis class_dtor_removes : forall k, removes (class_dtor k) [].
Hypothesis drop_entity_removes : forall e, removes (drop_entity e) [Executor.condition e].

(** Every entry of a launched topology is driven by the executor, and the
    parameter services are where the nodes look for them. *)
Lemma launched_wired json s threads s' :
  g_nodes s = [] -> g_stores s = ∅ ->
  GraphExecutor_ctor iov_len_bits qos_created domain_id clock service_types event_type CreateByName json s = (Ok threads, s') ->
  (forall e, e ∈ g_nodes s' -> wired e s') /\ (forall k p, g_stores s' !! k = Some p -> services_registered s' k p).
Proof.
  intros Hnil Hst. unfold GraphExecutor_ctor, mbind, stM_bind.
  pose proof (builds_topology iov_len_bits qos_created domain_id clock service_types event_type CreateByName
                CreateByName_defined json [] s Hnil) as Hb.
  destruct (build_topology _ _ _ _ _ _ _ json s) as [[[]|x|] s1]; [|done..].
  destruct Hb as ([_ _ _ Hs] & es & Hes & doc & l & _ & _ & _ & _ & _ & _ & Hw). simpl in Hes. unfold impl_start_publishing.
  destruct (start_publishing_spec iov_len_bits (g_nodes s1) (g_fac s1)) as (nodes' & f' & Hr & Hf). rewrite Hr.
  intros [= _ <-]. rewrite Hes in Hf. split.
  - simpl. intros e' Hin. apply list_elem_of_lookup in Hin as [i Hi].
    destruct (Forall2_lookup_r _ _ _ _ _ Hf Hi) as (e & Hi0 & -> & _). apply list_elem_of_lookup_2 in Hi0.
    destruct (Hw e Hi0) as (A & B & C). split; [exact A|]. split; [exact B|exact C].
  - simpl. intros k p Hk. destruct (Hs k p Hk) as [(p0 & Hp0 & _)|Hr']; [by rewrite Hst, lookup_empty in Hp0|exact Hr'].
Qed.

(** What belongs to an entry: its writers, the readers and conditions of its
    subscriptions, its node's participant, guard, announcement, parameter events
    writer and parameter services, and the conditions of whatever else a class
    registered. *)
Definition entry_handles s (e : NodeEntry) : list Z :=
  map rp_writer (publishers e) ++
  concat (map (fun q => [snd (rs_reader q); fst (rs_reader q)]) (subscriptions e)) ++
  [discovery_ (ge_obj e); NodeCtor.change_guard_ (ge_obj e); pp_ (ppant_ (ge_obj e))] ++
  match g_stores s !! ge_node e with
  | Some p => ps_events p :: concat (map (fun r => [snd (snd r); snd (fst (snd r)); fst (fst (snd r))]) (ps_services p))
  | None => []
  end ++
  map Executor.condition (filter (fun x => raw_subscriptions s x = [] /\ services_of (g_stores s !! ge_node e) x = [])
    (Executor.entities_ (Executor.heap (g_executor s) (ge_node e)))).

Lemma node_handles_entity s e x h :
  x ∈ Executor.entities_ (Executor.heap (g_executor s) (ge_node e)) -> h ∈ entity_handles s (ge_node e) x ->
  h ∈ node_handles s e.
Proof.
  intros Hx Hh. unfold node_handles. rewrite !elem_of_app. do 4 right. left. by eapply elem_of_concat_map.
Qed.

Lemma entity_handles_subscription s e q h :
  e ∈ g_nodes s -> q ∈ subscriptions e -> h ∈ [snd (rs_reader q); fst (rs_reader q)] ->
  h ∈ entity_handles s (ge_node e) (Executor.mk_entity (rs_entity q) (snd (rs_reader q))).
Proof.
  intros He Hq Hh. unfold entity_handles.
  assert (Hin : q ∈ raw_subscriptions s (Executor.mk_entity (rs_entity q) (snd (rs_reader q)))).
  { apply list_elem_of_filter. split; [done|by eapply elem_of_concat_map]. }
  destruct (raw_subscriptions s _) as [|q0 qs]; [by apply not_elem_of_nil in Hin|].
  apply elem_of_app. left. by eapply elem_of_concat_map.
Qed.

Lemma entity_handles_service s e p r h :
  g_stores s !! ge_node e = Some p -> r ∈ ps_services p ->
  h ∈ [snd (snd r); snd (fst (snd r)); fst (fst (snd r))] -> h ∈ entity_handles s (ge_node e) (fst r).
Proof.
  intros Hp Hr Hh. unfold entity_handles. rewrite Hp.
  assert (Hin : r ∈ services_of (Some p) (fst r)) by by apply list_elem_of_filter.
  destruct (services_of (Some p) (fst r)) as [|r0 rs]; [by apply not_elem_of_nil in Hin|].
  destruct (raw_subscriptions s (fst r)); apply elem_of_app; right; exact (elem_of_concat_map _ _ r h Hin Hh).
Qed.

(** Everything an entry is answerable for is among what the destructor deletes. *)
Lemma entry_handles_destroyed s e h :
  e ∈ g_nodes s -> wired e s -> (forall p, g_stores s !! ge_node e = Some p -> services_registered s (ge_node e) p) ->
  h ∈ entry_handles s e ->
  h ∈ concat (map (fun e => concat (map (fun p => [rp_writer p]) (publishers e))) (g_nodes s)) ++ executor_handles waitset_ s.
Proof.
  intros He (_ & Hk & Hq) Hp Hh. unfold entry_handles in Hh. rewrite !elem_of_app in Hh. apply elem_of_app.
  assert (Hnode : h ∈ node_handles s e -> h ∈ executor_handles waitset_ s).
  { intros Hn. unfold executor_handles. rewrite !elem_of_app. right. left. eapply elem_of_concat_map; [exact Hk|].
    eapply elem_of_concat_map; [|exact Hn]. by apply list_elem_of_filter. }
  destruct Hh as [(p & -> & Hh)%list_elem_of_fmap|[(q & Hin & Hh)%elem_of_concat_map_inv|[Hh|[Hh|Hh]]]].
  - left. eapply elem_of_concat_map; [exact He|]. eapply elem_of_concat_map; [exact Hh|by left].
  - right. apply Hnode. eapply node_handles_entity; [by apply Hq|]. by apply entity_handles_subscription.
  - right. apply Hnode. unfold node_handles. rewrite !elem_of_app. apply elem_of_cons in Hh as [->|Hh]; [right; left; by left|].
    apply elem_of_cons in Hh as [->|Hh]; [do 3 right; left; by left|by do 5 right].
  - right. apply Hnode. destruct (g_stores s !! ge_node e) as [p|] eqn:Ep; [|by apply not_elem_of_nil in Hh].
    apply elem_of_cons in Hh as [->|(r & Hr & Hh)%elem_of_concat_map_inv].
    + unfold node_handles. rewrite Ep, !elem_of_app. do 2 right. left. by left.
    + eapply node_handles_entity; [by apply (Hp p eq_refl)|]. by eapply entity_handles_service.
  - right. apply Hnode. apply list_elem_of_fmap in Hh as (x & -> & [[Hx1 Hx2] Hin]%list_elem_of_filter).
    eapply node_handles_entity; [exact Hin|]. unfold entity_handles. rewrite Hx1, Hx2. by left.
Qed.

(** What running does to the entries: it counts. *)
Definition same_endpoints (e e' : NodeEntry) : Prop :=
  ge_obj e' = ge_obj e /\ ge_node e' = ge_node e /\ map rp_writer (publishers e') = map rp_writer (publishers e) /\
  map (fun q => (rs_entity q, rs_reader q)) (subscriptions e') = map (fun q => (rs_entity q, rs_reader q)) (subscriptions e).

Definition ran s t : Prop := extends s t /\ Forall2 same_endpoints (g_nodes s) (g_nodes t).

Lemma ran_refl s : ran s s.
Proof.
  split; [apply additions_refl|]. induction (g_nodes s) as [|e l IH]; constructor; [by split_and!|exact IH].
Qed.

Lemma ran_wired s t :
  ran s t -> (forall e, e ∈ g_nodes s -> wired e s) -> forall e, e ∈ g_nodes t -> wired e t.
Proof.
  intros [Hx Hf] Hw e' [i Hi]%list_elem_of_lookup. destruct (Forall2_lookup_r _ _ _ _ _ Hf Hi) as (e & He & _ & Hn & _ & Hq).
  apply list_elem_of_lookup_2, Hw, (wired_stable e s t Hx) in He. destruct He as (A & B & C).
  unfold wired. rewrite Hn. split; [exact A|]. split; [exact B|]. intros q' Hin.
  apply (list_elem_of_fmap_2 (fun q => (rs_entity q, rs_reader q))) in Hin. unfold fmap in Hin.
  change (list_fmap _ _ ?f ?l) with (map f l) in Hin. rewrite Hq in Hin.
  apply list_elem_of_fmap in Hin as (q & Heq & Hin). injection Heq as -> ->. by apply C.
Qed.

Lemma ran_services s t :
  ran s t -> (forall k p, g_stores s !! k = Some p -> services_registered s k p) ->
  forall k p, g_stores t !! k = Some p -> services_registered t k p.
Proof.
  intros [[A1 _ A3 A4] _] Hs k p' Hp. destruct (A4 k p' Hp) as [(p & Hp0 & Hsv)|]; [|done].
  destruct (Hs k p Hp0) as [Hk Hr]. split; [lia|]. rewrite Hsv. intros r [Hin Hc]%Hr. split; [by apply A3|done].
Qed.

(** C29: A topology that was launched and has run, destroyed: the destructor returns
    with no undefined behaviour; each publishing thread ends, having written at
    most once after the flag was cleared, and every entity is still alive when
    the last one has; afterwards nothing of the topology is left: no writer,
    reader, condition, guard, announcement, parameter service or participant of
    any of its nodes, nor the waitset and the guards of the executor. *)
Theorem launch_destroyed json s threads s' t ts :
  g_nodes s = [] -> g_stores s = ∅ ->
  GraphExecutor_ctor iov_len_bits qos_created domain_id clock service_types event_type CreateByName json s = (Ok threads, s') ->
  ran s' t ->
  exists rs t1, stop_threads iov_len_bits ts t = (Ok rs, t1) /\ live (g_fac t1) = live (g_fac t) /\ Forall2 ended ts rs /\
    fst (Impl_dtor iov_len_bits waitset_ class_dtor drop_entity ts t) = Ok rs /\
    let left := live (g_fac (snd (Impl_dtor iov_len_bits waitset_ class_dtor drop_entity ts t))) in
    left ⊆ live (g_fac t) /\
    (forall e h, e ∈ g_nodes t -> h ∈ entry_handles t e -> (0 <= h)%Z -> h ∉ left) /\
    (forall h, h ∈ [waitset_; Executor.wake_guard_ (g_executor t); Executor.cancel_guard_ (g_executor t)] -> (0 <= h)%Z -> h ∉ left).
Proof.
  intros Hn Hst Hctor Hran. destruct (launched_wired json s threads s' Hn Hst Hctor) as [Hw Hsv].
  pose proof (ran_wired s' t Hran Hw) as Hwt. pose proof (ran_services s' t Hran Hsv) as Hst'.
  destruct (Impl_dtor_phases iov_len_bits waitset_ class_dtor drop_entity class_dtor_removes drop_entity_removes ts t)
    as (rs & t1 & f2 & E1 & Hl & Hn1 & Hs1 & Hx1 & Hf & Eo & <- & Hsub & Hg).
  exists rs, t1. do 4 (split; [done|]). cbn zeta. split; [done|].
  assert (Hh : forall e, node_handles t1 e = node_handles t e).
  { intros e. unfold node_handles, entity_handles, raw_subscriptions. by rewrite Hn1, Hs1, Hx1. }
  assert (Hexec : executor_handles waitset_ t1 = executor_handles waitset_ t).
  { unfold executor_handles. rewrite Hn1, Hx1. cbn [Executor.cancel Executor.trigger Executor.set_env Executor.set_requested
      Executor.nodes_ Executor.wake_guard_ Executor.cancel_guard_]. do 2 f_equal. f_equal. apply map_ext. intros k. f_equal.
    by apply map_ext. }
  rewrite Hexec in Hg. split.
  - intros e h He Hin Hpos. apply Hg; [|done]. by eapply entry_handles_destroyed; [|by apply Hwt|apply Hst'|].
  - intros h Hin Hpos. apply Hg; [|done]. apply elem_of_app. right. unfold executor_handles. set_solver.
Qed.
End launched.

(* ------------------------------------------------------------------ *)
(** * The topology of the test double, destroyed *)

Import NodeDemo LaunchDemo.
#[local] Existing Instance Params.ParamDemo.event_codec.
#[local] Existing Instance ExecutorRun.mock_waitset.
#[local] Existing Instance demo_doc.
#[local] Existing Instance demo_laws.

(** No class: nothing of its own to destroy. *)
Definition no_class_dtor (_ : nat) : stM NodeFactory unit := mret tt.
Definition drop_condition (e : Executor.Entity) : stM NodeFactory unit :=
  if (0 <=? Executor.condition e)%Z then dds_delete (Executor.condition e) else mret tt.

Definition teardown : outcome (list (option RawPublisher)) * Impl NodeFactory ExecutorRun.MockWaitset :=
  Impl_dtor 64 99 no_class_dtor drop_condition [(true, periodic); (false, periodic)] launched.

(** Two periodic publishers, one of which had just read the flag. *)
Lemma launch_destroyed_witness :
  fst teardown = Ok [Some (count_published periodic); Some periodic] /\
  live (g_fac launched) <> [] /\
  (forall e h, e ∈ g_nodes launched -> h ∈ entry_handles launched e -> (0 <= h)%Z -> h ∉ live (g_fac (snd teardown))) /\
  length (concat (map (entry_handles launched) (g_nodes launched))) = 28.
Proof.
  split; [vm_compute; reflexivity|]. split; [vm_compute; discriminate|]. split; [|vm_compute; reflexivity].
  assert (Hd : forall cls n ns, st_defined (no_classes cls n ns)) by (intros cls n ns f; done).
  assert (Hc : fst (launch (topology [talker; listener])) = Ok []) by (vm_compute; reflexivity).
  apply pair_eq in Hc. fold launched in Hc.
  destruct (launch_destroyed 64 true 0 (fun _ => 0%Z) (fun _ => ([], [])) [] no_classes Hd 99 no_class_dtor drop_condition
    (fun _ => removes_ret) (fun e => removes_delete (Executor.condition e))
    (topology [talker; listener]) start [] launched launched [(true, periodic); (false, periodic)] eq_refl eq_refl Hc)
    as (rs & t1 & _ & _ & _ & _ & _ & Hh & _).
  - apply ran_refl.
  - exact Hh.
Defined.
