(* ===== verification/GraphHandles.v ===== *)
(** The graph tools of the bindings (src/src/ffi/rcllite_ffi.cpp, from line 311):
    the one graph monitor and the graph executors behind integer handles.

    Both are kept by [unique_ptr], and every call works on a raw pointer after
    the lock was released.  A call is therefore two steps, taking the pointer and
    using it, between which other threads may run; an object that was destroyed
    meanwhile is no longer in its heap, and using it is [Undefined]. *)
From Stdlib Require Import ZArith Lia Strings.Byte.
From Stdlib Require Import Sorting.Sorted.
From stdpp Require Import base tactics list numbers gmap fin_maps.
From S2P Require Import Prelude Bytes NodeCtor.
From S2P Require Ffi GraphExecutor GraphExecutorFacts.

(** [monitors] and [execs] hold the objects by address.  By thread:
    [snapshotting] is the pointer of a [GraphSnapshot_], [in_use] the handle and the
    pointer of a call on a graph executor, [destroying] what [GraphExecDestroy_]
    moved out of the table. *)
Record GraphTools (M X : Type) := mk_tools {
  monitors : gmap nat M;
  execs : gmap nat X;
  g_graph : option nat;
  g_graph_execs : gmap Z nat;
  g_next_graph_exec : Z;
  next_object : nat;
  snapshotting : gmap nat nat;
  in_use : gmap nat (Z * nat);
  destroying : gmap nat nat
}.
Arguments mk_tools {M X} _ _ _ _ _ _ _ _ _.
Arguments monitors {M X} _.
Arguments execs {M X} _.
Arguments g_graph {M X} _.
Arguments g_graph_execs {M X} _.
Arguments g_next_graph_exec {M X} _.
Arguments next_object {M X} _.
Arguments snapshotting {M X} _.
Arguments in_use {M X} _.
Arguments destroying {M X} _.

Definition tools_init {M X} : GraphTools M X := mk_tools ∅ ∅ None ∅ 1 0 ∅ ∅ ∅.

Section graph_tools.
Context {M X : Type}.
Notation ToolsM := (stM (GraphTools M X)).
Implicit Types s : GraphTools M X.

(** The objects themselves: [GraphMonitor] and [GraphExecutor]. *)
Variable GraphMonitor_ctor : outcome M.
Variable snapshot_json : M -> outcome bytes * M.
Variable GraphExecutor_ctor : bytes -> outcome X.

Definition set_monitors (m : gmap nat M) s : GraphTools M X :=
  mk_tools m (execs s) (g_graph s) (g_graph_execs s) (g_next_graph_exec s) (next_object s) (snapshotting s) (in_use s) (destroying s).
Definition set_execs (m : gmap nat X) s : GraphTools M X :=
  mk_tools (monitors s) m (g_graph s) (g_graph_execs s) (g_next_graph_exec s) (next_object s) (snapshotting s) (in_use s) (destroying s).
Definition set_snapshotting (m : gmap nat nat) s : GraphTools M X :=
  mk_tools (monitors s) (execs s) (g_graph s) (g_graph_execs s) (g_next_graph_exec s) (next_object s) m (in_use s) (destroying s).
Definition set_in_use (m : gmap nat (Z * nat)) s : GraphTools M X :=
  mk_tools (monitors s) (execs s) (g_graph s) (g_graph_execs s) (g_next_graph_exec s) (next_object s) (snapshotting s) m (destroying s).

(* ------------------------------------------------------------------ *)
(** ** The monitor *)

Definition GraphStart_ : ToolsM unit :=
  let* s := st_get in
  match g_graph s with
  | Some _ => mret tt
  | None =>
      let* m := st_lift GraphMonitor_ctor in
      st_modify (fun s =>
        mk_tools (<[next_object s := m]> (monitors s)) (execs s) (Some (next_object s)) (g_graph_execs s) (g_next_graph_exec s)
          (S (next_object s)) (snapshotting s) (in_use s) (destroying s))
  end.

(** [reset] destroys the monitor under the lock. *)
Definition GraphStop_ : ToolsM unit := fun s =>
  match g_graph s with
  | Some a =>
      (Ok tt, mk_tools (delete a (monitors s)) (execs s) None (g_graph_execs s) (g_next_graph_exec s) (next_object s)
                (snapshotting s) (in_use s) (destroying s))
  | None => (Ok tt, s)
  end.

(** Dereferencing [monitor]. *)
Definition monitor_at (a : nat) : ToolsM M := fun s =>
  (match monitors s !! a with Some m => Ok m | None => Undefined end, s).

(** [GraphSnapshot_] of thread [t] up to [lock.unlock()], and after it. *)
Definition GraphSnapshot_begin (t : nat) : ToolsM nat :=
  let* s := st_get in
  match g_graph s with
  | None => st_throw ValueError
  | Some a => let* _ := st_modify (fun s => set_snapshotting (<[t := a]> (snapshotting s)) s) in mret a
  end.

Definition GraphSnapshot_end (t a : nat) : ToolsM bytes :=
  let* m := monitor_at a in
  let (doc, m') := snapshot_json m in
  let* _ := st_modify (fun s => set_snapshotting (delete t (snapshotting s)) (set_monitors (<[a := m']> (monitors s)) s)) in
  st_lift doc.

Definition GraphSnapshot_ (t : nat) : ToolsM bytes :=
  let* a := GraphSnapshot_begin t in GraphSnapshot_end t a.

(* ------------------------------------------------------------------ *)
(** ** Graph executors *)

(** The executor is built before the lock is taken; [g_next_graph_exec++]. *)
Definition GraphExecCreate_ (json_topology : bytes) : ToolsM Z :=
  let* x := st_lift (GraphExecutor_ctor json_topology) in
  let* s := st_get in
  if (g_next_graph_exec s =? 2 ^ 63 - 1)%Z then st_lift Undefined
  else
    let* _ := st_modify (fun s =>
      mk_tools (monitors s) (<[next_object s := x]> (execs s)) (g_graph s)
        (<[g_next_graph_exec s := next_object s]> (g_graph_execs s)) (g_next_graph_exec s + 1)
        (S (next_object s)) (snapshotting s) (in_use s) (destroying s)) in
    mret (g_next_graph_exec s).

Definition graph_exec_lookup (handle : Z) : ToolsM nat := fun s =>
  (match g_graph_execs s !! handle with Some a => Ok a | None => Throw ValueError end, s).

(** Dereferencing the pointer. *)
Definition exec_at (a : nat) : ToolsM X := fun s =>
  (match execs s !! a with Some x => Ok x | None => Undefined end, s).

(** A call of thread [t]: it takes the pointer, works on the executor through it
    (any number of times, a spin does so until it is cancelled), and returns. *)
Definition graph_exec_begin (t : nat) (handle : Z) : ToolsM nat :=
  let* a := graph_exec_lookup handle in
  let* _ := st_modify (fun s => set_in_use (<[t := (handle, a)]> (in_use s)) s) in
  mret a.

Definition graph_exec_use {A} (a : nat) (f : X -> outcome A * X) : ToolsM A :=
  let* x := exec_at a in
  let (r, x') := f x in
  let* _ := st_modify (fun s => set_execs (<[a := x']> (execs s)) s) in
  st_lift r.

Definition graph_exec_end (t : nat) : ToolsM unit := st_modify (fun s => set_in_use (delete t (in_use s)) s).

Definition graph_exec_call {A} (t : nat) (handle : Z) (f : X -> outcome A * X) : ToolsM A :=
  let* a := graph_exec_begin t handle in
  let* r := st_try (graph_exec_use a f) (fun e => let* _ := graph_exec_end t in st_throw e) in
  let* _ := graph_exec_end t in
  mret r.

Section calls.
Variable spin : X -> outcome unit * X.
Variable spin_once : Z -> X -> outcome bool * X.
Variable cancel : X -> X.
Variable status_json : X -> bytes.

Definition GraphExecSpin_ (t : nat) (handle : Z) : ToolsM unit := graph_exec_call t handle spin.
(** The pointer is taken before the timeout is converted. *)
Definition GraphExecSpinOnce_ (t : nat) (handle timeout_ms : Z) : ToolsM bool :=
  graph_exec_call t handle (fun x =>
    match Ffi.milliseconds timeout_ms with
    | Ok timeout => spin_once timeout x
    | Throw e => (Throw e, x)
    | Undefined => (Undefined, x)
    end).
Definition GraphExecCancel_ (t : nat) (handle : Z) : ToolsM unit :=
  graph_exec_call t handle (fun x => (Ok tt, cancel x)).
Definition GraphExecStatus_ (t : nat) (handle : Z) : ToolsM bytes :=
  graph_exec_call t handle (fun x => (Ok (status_json x), x)).
End calls.

(** [GraphExecDestroy_] of thread [t] under the lock, and [executor.reset()]. *)
Definition GraphExecDestroy_erase (t : nat) (handle : Z) : ToolsM unit := fun s =>
  match g_graph_execs s !! handle with
  | None => (Ok tt, s)
  | Some a =>
      (Ok tt, mk_tools (monitors s) (execs s) (g_graph s) (delete handle (g_graph_execs s)) (g_next_graph_exec s) (next_object s)
                (snapshotting s) (in_use s) (<[t := a]> (destroying s)))
  end.

Definition GraphExecDestroy_reset (t : nat) : ToolsM unit := fun s =>
  match destroying s !! t with
  | None => (Ok tt, s)
  | Some a =>
      (Ok tt, mk_tools (monitors s) (delete a (execs s)) (g_graph s) (g_graph_execs s) (g_next_graph_exec s) (next_object s)
                (snapshotting s) (in_use s) (delete t (destroying s)))
  end.

Definition GraphExecDestroy_ (t : nat) (handle : Z) : ToolsM unit :=
  let* _ := GraphExecDestroy_erase t handle in GraphExecDestroy_reset t.

(* ------------------------------------------------------------------ *)
(** ** The process *)

(** One step of some thread, with the handle it returns; a step that is
    undefined leads nowhere. *)
Inductive tools_step : GraphTools M X -> option Z -> GraphTools M X -> Prop :=
| step_start o s s' : GraphStart_ s = (o, s') -> o <> Undefined -> tools_step s None s'
| step_stop s s' : GraphStop_ s = (Ok tt, s') -> tools_step s None s'
| step_snapshot_begin t a s s' :
    snapshotting s !! t = None -> GraphSnapshot_begin t s = (Ok a, s') -> tools_step s None s'
| step_snapshot_end t a o s s' :
    snapshotting s !! t = Some a -> GraphSnapshot_end t a s = (o, s') -> o <> Undefined -> tools_step s None s'
| step_create json h s s' : GraphExecCreate_ json s = (Ok h, s') -> tools_step s (Some h) s'
| step_begin t h a s s' :
    in_use s !! t = None -> graph_exec_begin t h s = (Ok a, s') -> tools_step s None s'
| step_use {A} t h a (f : X -> outcome A * X) o s s' :
    in_use s !! t = Some (h, a) -> graph_exec_use a f s = (o, s') -> o <> Undefined -> tools_step s None s'
| step_end t s s' : graph_exec_end t s = (Ok tt, s') -> tools_step s None s'
| step_erase t h s s' :
    destroying s !! t = None -> GraphExecDestroy_erase t h s = (Ok tt, s') -> tools_step s None s'
| step_reset t s s' : GraphExecDestroy_reset t s = (Ok tt, s') -> tools_step s None s'.

Inductive tools_run : list Z -> GraphTools M X -> Prop :=
| tools_start : tools_run [] tools_init
| tools_next l s r s' : tools_run l s -> tools_step s r s' -> tools_run (l ++ option_list r) s'.
End graph_tools.

(* ------------------------------------------------------------------ *)
(** * Invariant *)

Section facts.
Context {M X : Type}.
Implicit Types s : GraphTools M X.

(** The heaps hold what is owned, nothing else; addresses and handles are never
    given out twice. *)
Record tools_inv s : Prop := {
  inv_monitors a : is_Some (monitors s !! a) <-> g_graph s = Some a;
  inv_execs a : is_Some (execs s !! a) <->
    (exists h, g_graph_execs s !! h = Some a) \/ (exists t, destroying s !! t = Some a);
  inv_graph a : g_graph s = Some a -> a < next_object s;
  inv_table h a : g_graph_execs s !! h = Some a -> (h < g_next_graph_exec s)%Z /\ a < next_object s;
  inv_destroying t a : destroying s !! t = Some a -> a < next_object s;
  inv_table_inj h1 h2 a : g_graph_execs s !! h1 = Some a -> g_graph_execs s !! h2 = Some a -> h1 = h2;
  inv_destroying_inj t1 t2 a : destroying s !! t1 = Some a -> destroying s !! t2 = Some a -> t1 = t2;
  inv_apart h t a : g_graph_execs s !! h = Some a -> destroying s !! t <> Some a;
  inv_use t h a : in_use s !! t = Some (h, a) ->
    ((h < g_next_graph_exec s)%Z /\ a < next_object s) /\
    (forall a', g_graph_execs s !! h = Some a' -> a' = a) /\ (forall h', g_graph_execs s !! h' = Some a -> h' = h);
  inv_snapshotting t a : snapshotting s !! t = Some a -> a < next_object s
}.

Lemma tools_inv_init : tools_inv tools_init.
Proof.
  split; simpl; intros *; rewrite ?lookup_empty; [..|done|done|done|done|done|done|done|done].
  - split; [intros [? [=]]|discriminate].
  - split; [intros [? [=]]|]. by intros [[? H]|[? H]]; rewrite lookup_empty in H.
Qed.

(** Reading an updated table at a key. *)
Ltac at_key k1 k2 :=
  destruct (decide (k1 = k2)) as [<-|?]; [rewrite ?lookup_insert_eq, ?lookup_delete_eq in * |
    rewrite ?lookup_insert_ne, ?lookup_delete_ne in * by done].

Lemma GraphStart_inv (ctor : outcome M) s : tools_inv s -> tools_inv (snd (GraphStart_ (X := X) ctor s)).
Proof.
  intros Hi. pose proof Hi as [I1 I2 I3 I4 I5 I6 I7 I8 I9 I10]. unfold GraphStart_, mbind, stM_bind, st_get, st_lift.
  destruct (g_graph s) as [a|] eqn:Eg; [exact Hi|]. destruct ctor as [m|e|]; [|exact Hi|exact Hi].
  split; simpl; [|exact I2|..|exact I6|exact I7|exact I8|idtac|idtac].
  - intros a. at_key (next_object s) a; [by split|]. rewrite I1. split; [done|]. congruence.
  - intros a [= <-]. lia.
  - intros h a Hh. destruct (I4 h a Hh). lia.
  - intros t a Ht. apply I5 in Ht. lia.
  - intros t h a Hu. destruct (I9 t h a Hu) as ([? ?] & ?). split; [lia|done].
  - intros t a Ht. apply I10 in Ht. lia.
Qed.

Lemma GraphStop_inv s : tools_inv s -> tools_inv (snd (GraphStop_ s)).
Proof.
  intros Hi. pose proof Hi as [I1 I2 I3 I4 I5 I6 I7 I8 I9 I10]. unfold GraphStop_. destruct (g_graph s) as [a|] eqn:Eg; [|exact Hi].
  split; simpl; auto; [|done]. intros b. at_key a b; [by split; [intros [? ?]|]|]. rewrite I1. split; [congruence|done].
Qed.

Lemma GraphSnapshot_begin_inv t s : tools_inv s -> tools_inv (snd (GraphSnapshot_begin t s)).
Proof.
  intros Hi. pose proof Hi as [I1 I2 I3 I4 I5 I6 I7 I8 I9 I10]. unfold GraphSnapshot_begin, mbind, stM_bind, st_get.
  destruct (g_graph s) as [a|] eqn:Eg; [|exact Hi]. split; simpl; rewrite ?Eg; auto.
  intros u b. at_key t u; [|by eauto]. intros [= <-]. by apply I3.
Qed.

Lemma GraphSnapshot_end_inv (snapshot : M -> outcome bytes * M) t a s :
  tools_inv s -> tools_inv (snd (GraphSnapshot_end snapshot t a s)).
Proof.
  intros Hi. pose proof Hi as [I1 I2 I3 I4 I5 I6 I7 I8 I9 I10]. unfold GraphSnapshot_end, mbind, stM_bind, monitor_at.
  destruct (monitors s !! a) as [m|] eqn:Em; [|exact Hi]. destruct (snapshot m) as [doc m'].
  assert (Ha : g_graph s = Some a) by (apply I1; eauto).
  split; simpl; auto.
  - intros b. at_key a b; [by split|]. apply I1.
  - intros u b. at_key t u; [done|]. apply I10.
Qed.

Lemma GraphExecCreate_inv (ctor : bytes -> outcome X) json s : tools_inv s -> tools_inv (snd (GraphExecCreate_ (M := M) ctor json s)).
Proof.
  intros Hi. pose proof Hi as [I1 I2 I3 I4 I5 I6 I7 I8 I9 I10]. unfold GraphExecCreate_, mbind, stM_bind, st_lift, st_get.
  destruct (ctor json) as [x|e|]; [|exact Hi|exact Hi]. destruct (_ =? _)%Z; [exact Hi|].
  split; simpl; [exact I1|..].
  - intros a. at_key (next_object s) a.
    + split; [intros _; left; exists (g_next_graph_exec s); apply lookup_insert_eq|done].
    + rewrite I2. split; (intros [[h Hh]|[t Ht]]; [left|by right; exists t]).
      * exists h. rewrite lookup_insert_ne; [done|]. intros <-. destruct (I4 _ _ Hh). lia.
      * exists h. apply lookup_insert_Some in Hh as [[_ ?]|[_ Hh]]; [done|exact Hh].
  - intros a Ha. apply I3 in Ha. lia.
  - intros h a. at_key (g_next_graph_exec s) h; [intros [= <-]; lia|]. intros Hh. destruct (I4 h a Hh). lia.
  - intros t a Ht. apply I5 in Ht. lia.
  - intros h1 h2 a. at_key (g_next_graph_exec s) h1; at_key (g_next_graph_exec s) h2; [done|..|by eauto];
      intros H1 H2; simplify_eq; [apply I4 in H2|apply I4 in H1]; lia.
  - intros t1 t2 a. apply I7.
  - intros h t a. at_key (g_next_graph_exec s) h; [|by apply I8]. intros [= <-] Ht. apply I5 in Ht. lia.
  - intros t h a Hu. destruct (I9 t h a Hu) as ([? ?] & Hf & Hb). split; [lia|]. split; intros x0.
    + at_key (g_next_graph_exec s) h; [lia|apply Hf].
    + at_key (g_next_graph_exec s) x0; [intros [= <-]; lia|apply Hb].
  - intros t a Ht. apply I10 in Ht. lia.
Qed.

Lemma graph_exec_begin_inv t h s : tools_inv s -> tools_inv (snd (graph_exec_begin t h s)).
Proof.
  intros Hi. pose proof Hi as [I1 I2 I3 I4 I5 I6 I7 I8 I9 I10]. unfold graph_exec_begin, graph_exec_lookup, mbind, stM_bind.
  destruct (g_graph_execs s !! h) as [a|] eqn:Eh; [|exact Hi]. split; simpl; auto.
  intros u h' b. at_key t u; [|by apply I9]. intros [= <- <-]. split; [by apply I4|]. split; [congruence|eauto].
Qed.

Lemma graph_exec_use_inv {A} (f : X -> outcome A * X) a s : tools_inv s -> tools_inv (snd (graph_exec_use a f s)).
Proof.
  intros Hi. pose proof Hi as [I1 I2 I3 I4 I5 I6 I7 I8 I9 I10]. unfold graph_exec_use, exec_at, mbind, stM_bind.
  destruct (execs s !! a) as [x|] eqn:Ex; [|exact Hi]. destruct (f x) as [r x'].
  split; simpl; auto. intros b. rewrite <- I2. at_key a b; [by rewrite Ex; split|done].
Qed.

Lemma graph_exec_end_inv t s : tools_inv s -> tools_inv (snd (graph_exec_end t s)).
Proof.
  intros Hi. pose proof Hi as [I1 I2 I3 I4 I5 I6 I7 I8 I9 I10]. split; simpl; auto. intros u h a. at_key t u; [done|apply I9].
Qed.

Lemma GraphExecDestroy_erase_inv t h s :
  destroying s !! t = None -> tools_inv s -> tools_inv (snd (GraphExecDestroy_erase t h s)).
Proof.
  intros Ht Hi. pose proof Hi as [I1 I2 I3 I4 I5 I6 I7 I8 I9 I10]. unfold GraphExecDestroy_erase.
  destruct (g_graph_execs s !! h) as [a|] eqn:Eh; [|exact Hi]. split; simpl; auto.
  - intros b. rewrite I2. split.
    + intros [[h' Hh']|[u Hu]].
      * at_key h h'; [right; exists t; simplify_eq; apply lookup_insert_eq|].
        left. exists h'. by rewrite lookup_delete_ne.
      * right. exists u. at_key t u; congruence.
    + intros [[h' Hh']|[u Hu]].
      * apply lookup_delete_Some in Hh' as [_ Hh']. by left; exists h'.
      * apply lookup_insert_Some in Hu as [[<- <-]|[_ Hu]]; [by left; exists h|by right; exists u].
  - intros h' b [_ Hb]%lookup_delete_Some. by apply I4.
  - intros u b Hb. apply lookup_insert_Some in Hb as [[_ <-]|[_ Hb]]; [by eapply I4|by eapply I5].
  - intros h1 h2 b [_ H1]%lookup_delete_Some [_ H2]%lookup_delete_Some. by eapply I6.
  - intros t1 t2 b. at_key t t1; at_key t t2; [done|..|by eauto]; intros H1 H2; simplify_eq; by destruct (I8 h _ _ Eh H2) || destruct (I8 h _ _ Eh H1).
  - intros h' u b [Hne Hh']%lookup_delete_Some Hu. apply lookup_insert_Some in Hu as [[_ <-]|[_ Hu]]; [|by eapply I8].
    apply Hne. by eapply I6.
  - intros u h' b Hu. destruct (I9 u h' b Hu) as (Hlt & Hf & Hb). split; [done|].
    split; intros x [_ Hx]%lookup_delete_Some; auto.
Qed.

Lemma GraphExecDestroy_reset_inv t s : tools_inv s -> tools_inv (snd (GraphExecDestroy_reset t s)).
Proof.
  intros Hi. pose proof Hi as [I1 I2 I3 I4 I5 I6 I7 I8 I9 I10]. unfold GraphExecDestroy_reset.
  destruct (destroying s !! t) as [a|] eqn:Et; [|exact Hi]. split; simpl; auto.
  - intros b. at_key a b.
    + split; [by intros [? ?]|]. intros [[h Hh]|[u Hu]]; [by destruct (I8 h t a Hh)|].
      apply lookup_delete_Some in Hu as [Hne Hu]. destruct Hne. by eapply I7.
    + rewrite I2. split; (intros [Hh|[u Hu]]; [by left|right; exists u]).
      * rewrite lookup_delete_ne; [done|]. intros <-. congruence.
      * by apply lookup_delete_Some in Hu as [_ Hu].
  - intros u b [_ Hb]%lookup_delete_Some. by eapply I5.
  - intros t1 t2 b [_ H1]%lookup_delete_Some [_ H2]%lookup_delete_Some. by eapply I7.
  - intros h u b Hh [_ Hu]%lookup_delete_Some. by eapply I8.
Qed.

Section runs.
Variable GraphMonitor_ctor : outcome M.
Variable snapshot_json : M -> outcome bytes * M.
Variable GraphExecutor_ctor : bytes -> outcome X.
Notation step := (tools_step GraphMonitor_ctor snapshot_json GraphExecutor_ctor).
Notation run := (tools_run GraphMonitor_ctor snapshot_json GraphExecutor_ctor).

Lemma tools_step_inv s r s' : step s r s' -> tools_inv s -> tools_inv s'.
Proof.
  intros Hs Hi. destruct Hs as [o s s' E _|s s' E|t a s s' _ E|t a o s s' _ E _|json h s s' E|t h a s s' _ E
    |A t h a f o s s' _ E _|t s s' E|t h s s' Hd E|t s s' E]; apply (f_equal snd) in E; simpl in E; subst s'.
  - by apply GraphStart_inv.
  - by apply GraphStop_inv.
  - by apply GraphSnapshot_begin_inv.
  - by apply GraphSnapshot_end_inv.
  - by apply GraphExecCreate_inv.
  - by apply graph_exec_begin_inv.
  - by apply graph_exec_use_inv.
  - by apply graph_exec_end_inv.
  - by apply GraphExecDestroy_erase_inv.
  - by apply GraphExecDestroy_reset_inv.
Qed.

Lemma tools_run_inv l s : run l s -> tools_inv s.
Proof. induction 1 as [|l s r s' _ IH Hs]; [apply tools_inv_init|by eapply tools_step_inv]. Qed.

(** The counter of handles: what a step returns is its old value. *)
Lemma tools_step_handle s r s' : step s r s' ->
  match r with
  | Some h => h = g_next_graph_exec s /\ g_next_graph_exec s' = (h + 1)%Z
  | None => g_next_graph_exec s' = g_next_graph_exec s
  end.
Proof.
  intros Hs. destruct Hs as [o s s' E _|s s' E|t a s s' _ E|t a o s s' _ E _|json h s s' E|t h a s s' _ E
    |A t h a f o s s' _ E _|t s s' E|t h s s' _ E|t s s' E].
  5: { unfold GraphExecCreate_, mbind, stM_bind, st_lift, st_get in E. destruct (GraphExecutor_ctor json); [|done..].
       destruct (_ =? _)%Z; [done|]. injection E as <- <-. done. }
  all: apply (f_equal snd) in E; simpl in E; subst s'.
  - unfold GraphStart_, mbind, stM_bind, st_get, st_lift. destruct (g_graph s); [done|]. by destruct GraphMonitor_ctor.
  - unfold GraphStop_. by destruct (g_graph s).
  - unfold GraphSnapshot_begin, mbind, stM_bind, st_get. by destruct (g_graph s).
  - unfold GraphSnapshot_end, mbind, stM_bind, monitor_at. destruct (monitors s !! a); [|done]. by destruct (snapshot_json m).
  - unfold graph_exec_begin, graph_exec_lookup, mbind, stM_bind. by destruct (g_graph_execs s !! h).
  - unfold graph_exec_use, exec_at, mbind, stM_bind. destruct (execs s !! a); [|done]. by destruct (f x).
  - done.
  - unfold GraphExecDestroy_erase. by destruct (g_graph_execs s !! h).
  - unfold GraphExecDestroy_reset. by destruct (destroying s !! t).
Qed.

Lemma tools_run_handles l s : run l s -> StronglySorted Z.lt l /\ Forall (fun h => h < g_next_graph_exec s)%Z l.
Proof.
  induction 1 as [|l s r s' _ [IH1 IH2] Hs]; [by split; constructor|]. apply tools_step_handle in Hs.
  destruct r as [h|]; simpl; [|by rewrite app_nil_r, Hs]. destruct Hs as [-> ->]. split.
  - apply StronglySorted_snoc; [done|]. exact IH2.
  - apply Forall_app. split; [|constructor; [lia|constructor]]. eapply Forall_impl; [exact IH2|]. simpl. lia.
Qed.

(** C30: the graph tools under any interleaving: handles are never given out
    twice; a handle in the table, and a started monitor, stand for a live object;
    but a call works on a raw pointer, so one in progress is undefined exactly
    when its executor was destroyed since it took the pointer, and a snapshot
    exactly when its monitor was stopped. *)
Theorem raw_pointer_calls l s : run l s ->
  StronglySorted Z.lt l /\
  (forall h a, g_graph_execs s !! h = Some a -> fst (exec_at a s) <> Undefined) /\
  (forall t h a, in_use s !! t = Some (h, a) ->
     (fst (exec_at a s) = Undefined <-> g_graph_execs s !! h = None /\ forall t', destroying s !! t' <> Some a)) /\
  (forall a, g_graph s = Some a -> fst (monitor_at a s) <> Undefined) /\
  (forall t a, snapshotting s !! t = Some a -> (fst (monitor_at a s) = Undefined <-> g_graph s <> Some a)).
Proof.
  intros Hr. pose proof (tools_run_inv _ _ Hr) as Hi. apply tools_run_handles in Hr as [Hs _].
  assert (He : forall a, fst (exec_at a s) = Undefined <-> ~ is_Some (execs s !! a)).
  { intros a. rewrite <- eq_None_not_Some. unfold exec_at. by destruct (execs s !! a). }
  assert (Hm : forall a, fst (monitor_at a s) = Undefined <-> ~ is_Some (monitors s !! a)).
  { intros a. rewrite <- eq_None_not_Some. unfold monitor_at. by destruct (monitors s !! a). }
  split; [done|]. split; [|split; [|split]].
  - intros h a Ha. rewrite He, (inv_execs s Hi). intros Hn. apply Hn. left. by exists h.
  - intros t h a Hu. destruct (inv_use s Hi t h a Hu) as (_ & Hf & Hb). rewrite He, (inv_execs s Hi). split.
    + intros Hn. split; [|intros t' Ht; apply Hn; right; by exists t'].
      destruct (g_graph_execs s !! h) as [a'|] eqn:Ea; [|done]. rewrite (Hf a' eq_refl) in Ea. destruct Hn. left. by exists h.
    + intros [Hn Hd] [[h' Hh']|[t' Ht']]; [|by eapply Hd]. rewrite (Hb h' Hh') in Hh'. congruence.
  - intros a Ha. rewrite Hm, (inv_monitors s Hi). tauto.
  - intros t a _. by rewrite Hm, (inv_monitors s Hi).
Qed.

(** One thread's view of a graph executor: a topology that is rejected
    registers nothing; otherwise every call on the returned handle works on the
    executor just built, destroying it leaves tables and heap as they were, and
    from then on the handle is unknown and destroying it again does nothing. *)
Theorem graph_exec_lifecycle s t json :
  tools_inv s -> (g_next_graph_exec s < 2 ^ 63 - 1)%Z -> destroying s !! t = None ->
  match GraphExecutor_ctor json with
  | Ok x => exists s1 s2, GraphExecCreate_ GraphExecutor_ctor json s = (Ok (g_next_graph_exec s), s1) /\
      (forall A (f : X -> outcome A * X), fst (graph_exec_call t (g_next_graph_exec s) f s1) = fst (f x)) /\
      GraphExecDestroy_ t (g_next_graph_exec s) s1 = (Ok tt, s2) /\
      (g_graph_execs s2 = g_graph_execs s /\ execs s2 = execs s) /\
      (forall A (f : X -> outcome A * X), graph_exec_call t (g_next_graph_exec s) f s2 = (Throw ValueError, s2)) /\
      GraphExecDestroy_ t (g_next_graph_exec s) s2 = (Ok tt, s2)
  | Throw e => GraphExecCreate_ GraphExecutor_ctor json s = (Throw e, s)
  | Undefined => True
  end.
Proof.
  intros Hi Hn Ht. destruct (GraphExecutor_ctor json) as [x|e|] eqn:Ec; [|by unfold GraphExecCreate_, mbind, stM_bind, st_lift; rewrite Ec|done].
  assert (Hfresh : execs s !! next_object s = None).
  { apply eq_None_not_Some. rewrite (inv_execs s Hi). intros [[h Hh]|[u Hu]];
      [apply (inv_table s Hi) in Hh|apply (inv_destroying s Hi) in Hu]; lia. }
  assert (Hunused : g_graph_execs s !! g_next_graph_exec s = None).
  { destruct (g_graph_execs s !! g_next_graph_exec s) as [a|] eqn:Ea; [|done]. apply (inv_table s Hi) in Ea. lia. }
  unfold GraphExecCreate_, mbind, stM_bind, st_lift, st_get. rewrite Ec.
  destruct (Z.eqb_spec (g_next_graph_exec s) (2 ^ 63 - 1)) as [He|_]; [lia|]. do 2 eexists.
  split; [reflexivity|]. split; [|split; [|split; [|split]]].
  - intros A f. unfold graph_exec_call, graph_exec_begin, graph_exec_lookup, mbind, stM_bind. simpl. rewrite lookup_insert_eq.
    unfold st_try, graph_exec_use, exec_at, mbind, stM_bind. simpl. rewrite lookup_insert_eq. destruct (f x) as [[r|e|] x']; done.
  - unfold GraphExecDestroy_, GraphExecDestroy_erase, GraphExecDestroy_reset, mbind, stM_bind. simpl.
    rewrite lookup_insert_eq. simpl. rewrite lookup_insert_eq. reflexivity.
  - simpl. by rewrite !delete_insert_id.
  - intros A f. unfold graph_exec_call, graph_exec_begin, graph_exec_lookup, mbind, stM_bind. simpl. by rewrite lookup_delete_eq.
  - unfold GraphExecDestroy_, GraphExecDestroy_erase, GraphExecDestroy_reset, mbind, stM_bind. simpl.
    rewrite lookup_delete_eq. simpl. by rewrite lookup_delete_eq.
Qed.
End runs.
End facts.

(* ------------------------------------------------------------------ *)
(** * One thread spins, another destroys *)

Module ToolsDemo.
(** An executor is its topology, a monitor the snapshots taken. *)
Definition demo_ctor (text : bytes) : outcome bytes := if bool_decide (text = []) then Throw InvalidArguments else Ok text.
Definition demo_snapshot (n : nat) : outcome bytes * nat := (Ok (lit "{}"), S n).
Definition demo_run : list Z -> GraphTools nat bytes -> Prop := tools_run (Ok 0) demo_snapshot demo_ctor.
Definition after {A} (m : stM (GraphTools nat bytes) A) (s : GraphTools nat bytes) := snd (m s).
(** Thread 1 has entered a spin, thread 2 has begun a snapshot. *)
Definition entered : GraphTools nat bytes :=
  after (GraphSnapshot_begin 2) (after (GraphStart_ (Ok 0)) (after (graph_exec_begin 1 1) (after (GraphExecCreate_ demo_ctor (lit "{}")) tools_init))).
Definition destroyed : GraphTools nat bytes := after GraphStop_ (after (GraphExecDestroy_ 3 1) entered).
End ToolsDemo.
Import ToolsDemo.

Lemma entered_run : demo_run [1]%Z entered.
Proof.
  change [1%Z] with (((([] ++ option_list (Some 1%Z)) ++ option_list (@None Z)) ++ option_list (@None Z)) ++ option_list (@None Z)).
  unfold entered, after.
  eapply tools_next; [eapply tools_next; [eapply tools_next; [eapply tools_next; [apply tools_start|]|]|]|].
  - eapply (step_create _ _ _ (lit "{}")), pair_eq. vm_compute. reflexivity.
  - eapply (step_begin _ _ _ 1 1%Z 0); [|apply pair_eq]; vm_compute; reflexivity.
  - eapply (step_start _ _ _ (Ok tt)); [apply pair_eq; vm_compute; reflexivity|done].
  - eapply (step_snapshot_begin _ _ _ 2 1); [|apply pair_eq]; vm_compute; reflexivity.
Qed.

Lemma destroyed_run : demo_run [1]%Z destroyed.
Proof.
  change [1%Z] with ((([1%Z] ++ option_list (@None Z)) ++ option_list (@None Z)) ++ option_list (@None Z)).
  unfold destroyed, after.
  eapply tools_next; [eapply tools_next; [eapply tools_next; [apply entered_run|]|]|].
  - eapply (step_erase _ _ _ 3 1%Z); [|apply pair_eq]; vm_compute; reflexivity.
  - eapply (step_reset _ _ _ 3), pair_eq; vm_compute; reflexivity.
  - eapply step_stop, pair_eq; vm_compute; reflexivity.
Qed.

(** Destroying the executor under a spin, and stopping the monitor under a
    snapshot, leaves both threads with a dangling pointer. *)
Lemma raw_pointer_calls_witness :
  in_use destroyed !! 1 = Some (1%Z, 0%nat) /\ fst (exec_at 0 destroyed) = Undefined /\
  snapshotting destroyed !! 2 = Some 1 /\ fst (monitor_at 1 destroyed) = Undefined /\ fst (exec_at 0 entered) <> Undefined.
Proof.
  assert (Hu : in_use destroyed !! 1 = Some (1%Z, 0)) by (vm_compute; reflexivity).
  assert (Hs : snapshotting destroyed !! 2 = Some 1) by (vm_compute; reflexivity).
  destruct (raw_pointer_calls _ _ _ _ _ destroyed_run) as (_ & _ & Hx & _ & Hm).
  destruct (raw_pointer_calls _ _ _ _ _ entered_run) as (_ & He & _).
  split_and!; [exact Hu| |exact Hs| |].
  - apply (Hx 1 1%Z 0 Hu). split; [vm_compute; reflexivity|]. intros t.
    assert (Hd : destroying destroyed = ∅) by (vm_compute; reflexivity). rewrite Hd, lookup_empty. discriminate.
  - apply (Hm 2 1 Hs). by vm_compute.
  - apply (He 1%Z). vm_compute. reflexivity.
Defined.

Lemma graph_exec_lifecycle_witness :
  exists s1 s2, GraphExecCreate_ demo_ctor (lit "{}") (tools_init (M := nat)) = (Ok 1%Z, s1) /\
    GraphExecDestroy_ 0 1 s1 = (Ok tt, s2) /\ execs s2 = ∅.
Proof.
  pose proof (graph_exec_lifecycle (M := nat) demo_ctor tools_init 0 (lit "{}") tools_inv_init) as Hl.
  destruct Hl as (s1 & s2 & H1 & _ & H2 & [_ H3] & _); [reflexivity..|].
  exists s1, s2. split; [exact H1|]. split; [exact H2|exact H3].
Defined.
