(* ===== verification/Examples.v ===== *)
(** The example programs (src/examples/talker.cpp, listener.cpp,
    service_server.cpp, service_client.cpp, parameters_demo.cpp) on top of the
    components they use.  A program's standard output is the list of its lines;
    sleeping and flushing have no effect. *)
From Stdlib Require Import ZArith Lia Strings.Byte.
From stdpp Require Import base tactics list numbers gmap.
From S2P Require Import Prelude Bytes Cdr Message RawSerdata Dds MockDds Pubsub.
From S2P Require Params.
Import Params (RclParameter, RclParameterValue).

(** What printing [%s] of a string's [c_str()] shows: up to a NUL byte. *)
Fixpoint c_str (s : bytes) : bytes :=
  match s with
  | [] => []
  | c :: s => if decide (c = x00) then [] else c :: c_str s
  end.

(* ------------------------------------------------------------------ *)
(** * talker and listener *)

Section chatter.
Context {W : Type} `{Message RclParameter} `{DdsWriter W}.
Variable iov_len_bits : Z.

Definition talker_message (count : nat) : RclParameter :=
  Params.mk_parameter (lit "Hello, world! " ++ to_string (Z.of_nat count)) Params.rcl_value_default.

(** The loop of the talker: it goes on for ever when [max_count] is zero; [None]
    when the fuel is used up, and the lines printed so far. *)
Fixpoint talker_loop (fuel max_count count : nat) : stM W (option unit * list bytes) :=
  match fuel with
  | O => mret (None, [])
  | S fuel =>
      if (max_count =? 0)%nat || (count <? max_count)%nat then
        let msg := talker_message count in
        let* _ := publish iov_len_bits msg in
        let* r := talker_loop fuel max_count (S count) in
        mret (fst r, (lit "publishing: '" ++ c_str (Params.p_name msg) ++ lit "'") :: snd r)
      else mret (Some tt, [])
  end.

(** [static_cast<size_t>(std::atoi(argv[1]))]: a negative count is a huge one. *)
Definition talker_max_count (atoi : Z) : nat := Z.to_nat (u64 atoi).
End chatter.

(** The callback of the listener. *)
Definition listener_callback (m : RclParameter) : stM (list bytes) unit :=
  st_modify (fun out => out ++ [lit "I heard: [" ++ c_str (Params.p_name m) ++ lit "]"]).

(* ------------------------------------------------------------------ *)
(** * service_server and service_client *)

(** The server's callback: each name hashed into sixteen bits; [hash] is
    [std::hash<std::string>]. *)
Definition server_value (hash : bytes -> Z) (name : bytes) : RclParameterValue :=
  Params.mk_rcl_value 2 false (i64 (Z.land (hash name) 0xFFFF)) 0 [] [] [] [] [] [].

Definition server_callback (hash : bytes -> Z) (names : list bytes) : list RclParameterValue :=
  map (server_value hash) names.

Definition client_line (name : bytes) (v : RclParameterValue) : bytes :=
  c_str name ++ lit " -> type=" ++ to_string (Params.r_type v) ++ lit " integer=" ++ to_string (Params.r_integer_value v) ++
  lit " string='" ++ c_str (Params.r_string_value v) ++ lit "'".

(** The client's loop over the names it asked for: [resp.values[i]] is not
    checked. *)
Fixpoint client_loop (names : list bytes) (values : list RclParameterValue) (i : nat) : outcome (list bytes) :=
  match names with
  | [] => Ok []
  | name :: names =>
      match values !! i with
      | None => Undefined
      | Some v =>
          let* lines := client_loop names values (S i) in
          Ok (client_line name v :: lines)
      end
  end.

Definition client_print (names : list bytes) (values : list RclParameterValue) : outcome (list bytes) :=
  client_loop names values 0.

(* ------------------------------------------------------------------ *)
(** * parameters_demo *)

Section parameters_demo.
Context {W : Type} `{Message Params.ParameterEvent} `{DdsWriter W}.
Variable iov_len_bits : Z.
Variable node_name : bytes.
Variable clock : nat -> Z.
Notation CoreM := (stM (Params.ParameterCore W)).
Notation declare := (Params.declare iov_len_bits node_name clock).
Notation set := (Params.set iov_len_bits node_name clock).

(** The pattern of 3.14. *)
Definition pi_bits : Z := 0x40091EB851EB851F.

Definition demo_declare : CoreM unit :=
  let* _ := declare (lit "my_int") (Params.to_value_int64 42) in
  let* _ := declare (lit "my_string") (Params.to_value_string (lit "hello")) in
  declare (lit "my_double") (Params.to_value_double pi_bits).

(** What one round prints: the integer, the string and the double.  [others k]
    is what the executor's thread does to the parameters before the [k]-th access
    of the loop, requests of remote nodes included. *)
Definition demo_get {T} (value_as : Params.ParameterValue -> T) (name : bytes) : CoreM T := fun c =>
  (Params.get_parameter value_as name c, c).

Definition demo_read (others : nat -> CoreM unit) (k : nat) : CoreM (Z * bytes * Z) :=
  let* _ := others k in
  let* i := demo_get Params.value_as_int64 (lit "my_int") in
  let* _ := others (k + 1) in
  let* s := demo_get Params.value_as_string (lit "my_string") in
  let* _ := others (k + 2) in
  let* d := demo_get Params.value_as_double (lit "my_double") in
  mret (i, s, d).

Fixpoint demo_loop (others : nat -> CoreM unit) (n i : nat) : CoreM (list (Z * bytes * Z)) :=
  match n with
  | O => mret []
  | S n =>
      let* line := demo_read others (4 * i) in
      let* _ := others (4 * i + 3) in
      let* _ := set (lit "my_int") (Params.to_value_int64 (42 + Z.of_nat i + 1)) in
      let* lines := demo_loop others n (S i) in
      mret (line :: lines)
  end.

(** [main] up to the cancellation. *)
Definition parameters_demo (others : nat -> CoreM unit) (seconds : nat) : CoreM (list (Z * bytes * Z)) :=
  let* _ := demo_declare in demo_loop others seconds 0.
End parameters_demo.

(* ------------------------------------------------------------------ *)
(** * From the talker to the listener *)

Section chatter_facts.
Context {W : Type} `{MessageLaws RclParameter} `{DdsWriterLaws W}.
Variable bits : Z.

Definition talker_messages (n : nat) : list RclParameter := map talker_message (seq 0 n).
Definition talker_line (count : nat) : bytes := lit "publishing: '" ++ c_str (Params.p_name (talker_message count)) ++ lit "'".
Definition heard_line (count : nat) : bytes := lit "I heard: [" ++ c_str (Params.p_name (talker_message count)) ++ lit "]".

(** The loop publishes the remaining messages in order, and stops where a
    publication throws. *)
Lemma talker_loop_spec max n : forall fuel count (w : W),
  0 < max -> count + n = max -> n < fuel ->
  talker_loop bits fuel max count w =
    (let (o, w') := st_iter (publish bits) (map talker_message (seq count n)) w in
     (let* _ := o in Ok (Some tt, map talker_line (seq count n)), w')).
Proof.
  induction n as [|n IH]; intros [|fuel] count w Hmax Hc Hf; try lia; cbn [talker_loop seq map st_iter].
  - rewrite (proj2 (Nat.eqb_neq max 0)), (proj2 (Nat.ltb_ge count max)) by lia. done.
  - rewrite (proj2 (Nat.ltb_lt count max)) by lia. rewrite orb_true_r. unfold mbind, stM_bind.
    destruct (publish bits (talker_message count) w) as [[[]|e|] w1]; [|done..].
    rewrite (IH fuel (S count) w1) by lia.
    by destruct (st_iter (publish bits) (map talker_message (seq (S count) n)) w1) as [[[]|e|] w2].
Qed.

Lemma publish_all_outcome (ms : list RclParameter) : forall w : W,
  exists w', st_iter (publish bits) ms w = (Ok tt, w') \/ st_iter (publish bits) ms w = (Throw InternalError, w').
Proof.
  induction ms as [|m ms IH]; intros w; [exists w; by left|]. cbn [st_iter]. unfold mbind, stM_bind.
  destruct (publish_defined bits m w) as [w1 [-> | ->]]; [apply IH|]. exists w1. by right.
Qed.

Lemma talker_forever fuel : forall count (w : W) o w', talker_loop bits fuel 0 count w = (Ok o, w') -> fst o = None.
Proof.
  induction fuel as [|fuel IH]; intros count w o w' Hr; cbn [talker_loop] in Hr; [by injection Hr as <- _|].
  apply st_bind_inv_Ok in Hr as (u & w1 & _ & Hr). apply st_bind_inv_Ok in Hr as (r & w2 & Hl & Hr).
  injection Hr as <- _. simpl. by eapply IH.
Qed.

Lemma listener_prints (ms : list RclParameter) : forall out,
  call_each listener_callback ms out = (Ok tt, out ++ map (fun m => lit "I heard: [" ++ c_str (Params.p_name m) ++ lit "]") ms).
Proof.
  induction ms as [|m ms IH]; intros out; [by rewrite app_nil_r|]. unfold call_each. cbn [st_iter map].
  unfold mbind, stM_bind, st_try at 1, listener_callback at 1, st_modify. fold (call_each listener_callback ms).
  rewrite IH. by rewrite <- app_assoc.
Qed.
End chatter_facts.

(** A talker with a positive count terminates after exactly that many messages,
    or at the first one CycloneDDS refuses; when it returns, a listener whose
    reader the transport brought its samples to prints the same texts, each once,
    in order.  With a count of zero it never returns. *)
Theorem chatter {W R} `{MessageLaws RclParameter} `{DdsWriterLaws W} `{DdsReaderLaws R} (bits : Z) (max fuel : nat) (w : W) :
  0 < max -> max < fuel -> Forall msg_valid (talker_messages max) -> Forall (payload_fits bits) (talker_messages max) ->
  (exists w', talker_loop bits fuel max 0 w = (Ok (Some tt, map talker_line (seq 0 max)), w') \/
     talker_loop bits fuel max 0 w = (Throw InternalError, w')) /\
  (forall o w' (r : R) out dispatch_fuel, talker_loop bits fuel max 0 w = (Ok o, w') ->
     reader_ok r -> pending r = map (fun d => (d, mk_info true)) (drop (length (written w)) (written w')) ->
     max / 16 < dispatch_fuel ->
     exists r', Subscription_dispatch listener_callback dispatch_fuel (mk_taking r out 0) =
       (Ok (Some (Z.of_nat max)), mk_taking r' (out ++ map heard_line (seq 0 max)) max) /\ pending r' = []) /\
  (forall f count o w', talker_loop bits f 0 count w = (Ok o, w') -> fst o = None).
Proof.
  intros Hmax Hf Hv Hfit. split; [|split; [|intros f count o w'; apply talker_forever]].
  - rewrite (talker_loop_spec bits max max fuel 0 w) by lia.
    destruct (publish_all_outcome bits (map talker_message (seq 0 max)) w) as [w' [-> | ->]]; exists w'; [by left|by right].
  - intros o w' r out df Hr Hok Hq Hdf. rewrite (talker_loop_spec bits max max fuel 0 w) in Hr by lia.
    fold (talker_messages max) in Hr. destruct (st_iter (publish bits) (talker_messages max) w) as [[[]|e|] w1] eqn:Ep; [|done..].
    injection Hr as _ <-. rewrite (publish_all_written _ _ _ _ Hfit Ep), drop_app_length, map_map in Hq.
    assert (Hlen : length (talker_messages max) = max) by by (unfold talker_messages; rewrite length_map, length_seq).
    destruct (dispatch_transported bits listener_callback (talker_messages max) r out df Hv Hfit) as (r' & u' & Hd & Hc & Hp);
      [intros m u; done|done|by rewrite Hlen|done|].
    rewrite Hlen in Hd. rewrite listener_prints in Hc. injection Hc as <-. exists r'. split; [|done].
    rewrite Hd. unfold talker_messages. by rewrite map_map.
Qed.

(** On the test double, with a codec for the name alone. *)
Definition name_codec : Message RclParameter := {|
  dds_name := lit "rcl_interfaces::msg::dds_::Parameter_";
  serialize m w := CdrWriter.write_string (Params.p_name m) w;
  deserialize := (let* s := CdrReader.read_string in mret (Some (Params.mk_parameter s Params.rcl_value_default)))
|}.

Definition name_laws : @MessageLaws RclParameter name_codec.
Proof.
  refine (@Build_MessageLaws RclParameter name_codec
    (fun m => string_fits (Params.p_name m) /\ Params.p_value m = Params.rcl_value_default) _).
  intros [name v] w [Hv Hd] Hh. simpl in *. subst v.
  apply (reads_map CdrReader.read_string (fun s => Some (Params.mk_parameter s Params.rcl_value_default))).
  by apply reads_string.
Defined.

Lemma chatter_witness :
  let w := mk_writer_state [] 1 0 in
  let w' := mk_writer_state (map (@serdata_of RclParameter name_codec) (talker_messages 2)) 1 0 in
  let r := mk_reader_state true (map payload (mock_written w')) (create_raw_sertype (lit "rcl_interfaces::msg::dds_::Parameter_")) in
  @talker_loop WriterState name_codec mock_writer 64 3 2 0 w =
    (Ok (Some tt, [lit "publishing: 'Hello, world! 0'"; lit "publishing: 'Hello, world! 1'"]), w') /\
  exists r', @Subscription_dispatch RclParameter ReaderState (list bytes) name_codec mock_reader listener_callback 1 (mk_taking r [] 0) =
    (Ok (Some 2%Z), mk_taking r' [lit "I heard: [Hello, world! 0]"; lit "I heard: [Hello, world! 1]"] 2) /\ pending r' = [].
Proof.
  intros w w' r.
  assert (Hrun : @talker_loop WriterState name_codec mock_writer 64 3 2 0 w =
    (Ok (Some tt, [lit "publishing: 'Hello, world! 0'"; lit "publishing: 'Hello, world! 1'"]), w')) by (vm_compute; reflexivity).
  split; [exact Hrun|].
  destruct (@chatter WriterState ReaderState name_codec name_laws mock_writer mock_writer_laws mock_reader mock_reader_laws 64 2 3 w)
    as (_ & Hd & _); [lia|lia|repeat constructor; simpl; lia|repeat constructor; simpl; lia|].
  destruct (Hd _ w' r [] 1 Hrun) as (r' & Hr & Hp); [reflexivity|vm_compute; reflexivity|vm_compute; lia|].
  exists r'. split; [exact Hr|exact Hp].
Defined.

(* ------------------------------------------------------------------ *)
(** * Server and client of GetParameters *)

Lemma client_loop_spec names : forall (values : list RclParameterValue) i,
  i <= length values ->
  client_loop names values i =
    if decide (i + length names <= length values) then Ok (zip_with client_line names (drop i values)) else Undefined.
Proof.
  induction names as [|name names IH]; intros values i Hi; cbn [client_loop length].
  - by rewrite decide_True by lia.
  - destruct (values !! i) as [v|] eqn:Hv.
    + pose proof (lookup_lt_Some _ _ _ Hv) as Hlt. rewrite IH by lia. rewrite (drop_S _ _ _ Hv).
      destruct (decide (S i + length names <= length values)); [by rewrite decide_True by lia|by rewrite decide_False by lia].
    + apply lookup_ge_None in Hv. by rewrite decide_False by lia.
Qed.

Lemma land_16_bits z : (0 <= Z.land z 0xFFFF < 65536)%Z.
Proof.
  change 0xFFFF%Z with (Z.ones 16). rewrite Z.land_ones by lia. apply (Z.mod_pos_bound z (2 ^ 16)). lia.
Qed.

(** The example server answers every name with an integer of sixteen bits that
    depends on the name alone, so the example client, which indexes the response
    by its own names, stays in bounds and prints one line a name; so it does with
    the parameter service of any rcllite node.  With a response that has fewer
    values than names the client reads out of bounds. *)
Theorem get_parameters_example {W} (hash : bytes -> Z) (names : list bytes) (c : Params.ParameterCore W) (values : list RclParameterValue) :
  client_print names (server_callback hash names) = Ok (map (fun name => client_line name (server_value hash name)) names) /\
  (forall name, Params.r_type (server_value hash name) = Params.Integer /\
     (0 <= Params.r_integer_value (server_value hash name) < 65536)%Z) /\
  (exists lines, client_print names (Params.handle_get names c) = Ok lines /\ length lines = length names) /\
  (client_print names values = Undefined <-> length values < length names).
Proof.
  unfold client_print. rewrite !client_loop_spec by lia. unfold server_callback, Params.handle_get.
  rewrite !length_map, !drop_0. rewrite !decide_True by lia. split_and!.
  - f_equal. induction names as [|name names IH]; simpl; [done|]. f_equal. exact IH.
  - intros name. split; [done|]. unfold server_value. cbn [Params.r_integer_value]. pose proof (land_16_bits (hash name)).
    unfold i64. rewrite swrap_small; [lia|lia|unfold in_s; lia].
  - eexists. split; [done|]. rewrite length_zip_with, length_map. lia.
  - case_decide; split; (done || lia).
Qed.

(* ------------------------------------------------------------------ *)
(** * The parameters demo *)

Section demo_facts.
Context {W : Type} `{Message Params.ParameterEvent} `{DdsWriter W}.
Variable bits : Z.
Variable node_name : bytes.
Variable clock : nat -> Z.
Implicit Types c : Params.ParameterCore W.
Notation declare := (Params.declare bits node_name clock).
Notation set := (Params.set bits node_name clock).

Definition demo_names : list bytes := [lit "my_int"; lit "my_string"; lit "my_double"].
Definition demo_declared c : Prop := forall name, name ∈ demo_names -> is_Some (Params.values_ c !! name).

(** [m] returns, or throws what publishing an event throws; when it returns, the
    parameters of the demo are still declared. *)
Definition keeps_declared {A} (m : stM (Params.ParameterCore W) A) : Prop := forall c, demo_declared c ->
  match m c with
  | (Ok _, c') => demo_declared c'
  | (Throw e, _) => e = InternalError
  | (Undefined, _) => False
  end.

Lemma keeps_declared_bind {A B} (m : stM (Params.ParameterCore W) A) (k : A -> stM (Params.ParameterCore W) B) :
  keeps_declared m -> (forall a, keeps_declared (k a)) -> keeps_declared (mbind k m).
Proof.
  intros Hm Hk c Hc. specialize (Hm c Hc). unfold mbind, stM_bind. destruct (m c) as [[a|e|] c1]; [|done..]. by apply Hk.
Qed.

Lemma keeps_declared_ret {A} (a : A) : keeps_declared (mret a).
Proof. by intros c Hc. Qed.

Lemma keeps_declared_get {T} (value_as : Params.ParameterValue -> T) name :
  name ∈ demo_names -> keeps_declared (demo_get value_as name).
Proof.
  intros Hn c Hc. unfold demo_get, Params.get_parameter, Params.get_or. destruct (Hc name Hn) as [v ->]. exact Hc.
Qed.

Lemma keeps_declared_set name value : keeps_declared (set name value).
Proof.
  intros c Hc. pose proof (Params.set_effect bits node_name clock name value c) as Hs.
  destruct (Params.values_ c !! name) eqn:Hv; [|by rewrite Hs].
  destruct Hs as (o & c' & -> & Hval & Ho). destruct Ho as [-> | [-> _]]; [|done].
  intros other Hin. rewrite Hval. destruct (decide (name = other)) as [->|Hne]; [rewrite lookup_insert_eq; eauto|].
  rewrite lookup_insert_ne by done. by apply Hc.
Qed.

Lemma demo_read_keeps others k : (forall k, keeps_declared (others k)) -> keeps_declared (demo_read others k).
Proof.
  intros Ho. unfold demo_read.
  repeat (apply keeps_declared_bind; [first [apply Ho|apply keeps_declared_get; set_solver]|intros ?]).
  apply keeps_declared_ret.
Qed.

Lemma demo_loop_keeps others n : (forall k, keeps_declared (others k)) -> forall i, keeps_declared (demo_loop bits node_name clock others n i).
Proof.
  intros Ho. induction n as [|n IH]; intros i; cbn [demo_loop]; [apply keeps_declared_ret|].
  apply keeps_declared_bind; [by apply demo_read_keeps|intros line].
  apply keeps_declared_bind; [apply Ho|intros _]. apply keeps_declared_bind; [apply keeps_declared_set|intros _].
  apply keeps_declared_bind; [apply IH|intros lines]. apply keeps_declared_ret.
Qed.

Lemma declare_new name value c :
  name <> [] -> Params.values_ c !! name = None ->
  exists o c', declare name value c = (o, c') /\ (o = Ok tt \/ o = Throw InternalError) /\
    Params.values_ c' = <[name := value]> (Params.values_ c).
Proof.
  intros Hn Hv. unfold Params.declare, st_get, st_modify, mbind, stM_bind. rewrite bool_decide_false, Hv by done.
  destruct (Params.type value =? Params.NotSet)%Z; simpl; [by eexists _, _; split_and!; [|left|]|].
  destruct (Params.publish_event_spec bits node_name clock name value true
    (Params.set_values (<[name := value]> (Params.values_ c)) c)) as (w & [-> | ->] & _); eexists _, _; split_and!; eauto.
Qed.

(** The values after the declarations, and after [i] changes of the integer. *)
Definition demo_values (values : gmap bytes Params.ParameterValue) (i : nat) : gmap bytes Params.ParameterValue :=
  <[lit "my_double" := Params.to_value_double pi_bits]>
    (<[lit "my_string" := Params.to_value_string (lit "hello")]>
      (<[lit "my_int" := Params.to_value_int64 (42 + Z.of_nat i)]> values)).

Lemma demo_values_set values i :
  <[lit "my_int" := Params.to_value_int64 (42 + Z.of_nat i + 1)]> (demo_values values i) = demo_values values (S i).
Proof.
  unfold demo_values. rewrite !(insert_insert_ne _ (lit "my_int")), insert_insert_eq by done.
  do 4 f_equal. lia.
Qed.

Lemma demo_declare_spec c :
  (forall name, name ∈ demo_names -> Params.values_ c !! name = None) ->
  match demo_declare bits node_name clock c with
  | (Ok _, c') => Params.values_ c' = demo_values (Params.values_ c) 0
  | (Throw e, _) => e = InternalError
  | (Undefined, _) => False
  end.
Proof.
  intros Hnone. unfold demo_declare, mbind, stM_bind.
  destruct (declare_new (lit "my_int") (Params.to_value_int64 42) c) as (o1 & c1 & -> & [-> | ->] & H1');
    [done|apply Hnone; set_solver| |done].
  destruct (declare_new (lit "my_string") (Params.to_value_string (lit "hello")) c1) as (o2 & c2 & -> & [-> | ->] & H2');
    [done|rewrite H1', lookup_insert_ne by done; apply Hnone; set_solver| |done].
  destruct (declare_new (lit "my_double") (Params.to_value_double pi_bits) c2) as (o3 & c3 & -> & [-> | ->] & H3');
    [done|rewrite H2', H1', !lookup_insert_ne by done; apply Hnone; set_solver| |done].
  by rewrite H3', H2', H1'.
Qed.

(** Nobody else touches the parameters. *)
Definition quiet (_ : nat) : stM (Params.ParameterCore W) unit := mret tt.

Lemma quiet_loop values n : forall i c,
  Params.values_ c = demo_values values i ->
  match demo_loop bits node_name clock quiet n i c with
  | (Ok lines, c') =>
      lines = map (fun j => ((42 + Z.of_nat j)%Z, lit "hello", pi_bits)) (seq i n) /\
      Params.values_ c' = demo_values values (i + n)
  | (Throw e, _) => e = InternalError
  | (Undefined, _) => False
  end.
Proof.
  induction n as [|n IH]; intros i c Hc; cbn [demo_loop seq map]; [by rewrite Nat.add_0_r|].
  assert (Hread : demo_read quiet (4 * i) c = (Ok ((42 + Z.of_nat i)%Z, lit "hello", pi_bits), c)).
  { unfold demo_read, quiet, demo_get, Params.get_parameter, Params.get_or, mbind, stM_bind, mret, stM_ret.
    rewrite Hc. unfold demo_values. rewrite !(lookup_insert_ne _ _ (lit "my_int")), !lookup_insert_eq by done.
    by rewrite (lookup_insert_ne _ _ (lit "my_string")), lookup_insert_eq by done. }
  rewrite (st_bind_Ok _ _ _ _ _ Hread). rewrite (st_bind_Ok (quiet (4 * i + 3)) _ c tt c) by done.
  pose proof (Params.set_effect bits node_name clock (lit "my_int") (Params.to_value_int64 (42 + Z.of_nat i + 1)) c) as Hs.
  destruct (Params.values_ c !! lit "my_int") eqn:Hv.
  2: { rewrite Hc in Hv. unfold demo_values in Hv. by rewrite !(lookup_insert_ne _ _ (lit "my_int")), lookup_insert_eq in Hv by done. }
  destruct Hs as (o & c1 & Hset & Hval & Ho). unfold mbind at 1, stM_bind at 1. rewrite Hset. destruct Ho as [-> | [-> _]]; [|done].
  specialize (IH (S i) c1). rewrite Hval, Hc, demo_values_set in IH. specialize (IH eq_refl).
  unfold mbind, stM_bind. destruct (demo_loop _ _ _ _ n (S i) c1) as [[lines|e|] c2]; [|done..].
  destruct IH as [-> Hc2]. cbn [mret stM_ret]. split; [done|]. by rewrite Nat.add_succ_r.
Qed.
End demo_facts.

(** The parameters demo on a node without these parameters: left alone, it
    prints one line a second with the integer counting up from 42, and leaves the
    last value it set; whatever else happens to the parameters between its
    accesses, as long as they stay declared, every access finds its parameter:
    the only exception is that of publishing an event. *)
Theorem parameters_demo_runs {W} `{Message Params.ParameterEvent} `{DdsWriter W} (bits : Z) (node_name : bytes)
    (clock : nat -> Z) (others : nat -> stM (Params.ParameterCore W) unit) (seconds : nat) (c : Params.ParameterCore W) :
  (forall name, name ∈ demo_names -> Params.values_ c !! name = None) ->
  match parameters_demo bits node_name clock quiet seconds c with
  | (Ok lines, c') =>
      lines = map (fun j => ((42 + Z.of_nat j)%Z, lit "hello", pi_bits)) (seq 0 seconds) /\
      Params.values_ c' = demo_values (Params.values_ c) seconds
  | (Throw e, _) => e = InternalError
  | (Undefined, _) => False
  end /\
  ((forall k, keeps_declared (others k)) ->
   match parameters_demo bits node_name clock others seconds c with
   | (Ok _, c') => demo_declared c'
   | (Throw e, _) => e = InternalError
   | (Undefined, _) => False
   end).
Proof.
  intros Hnone. pose proof (demo_declare_spec bits node_name clock c Hnone) as Hd. unfold parameters_demo, mbind, stM_bind.
  destruct (demo_declare bits node_name clock c) as [[[]|e|] c1]; [|done..]. split.
  - exact (quiet_loop bits node_name clock (Params.values_ c) seconds 0 c1 Hd).
  - intros Ho. apply (demo_loop_keeps bits node_name clock others seconds Ho 0 c1). intros name Hin. rewrite Hd. unfold demo_values.
    rewrite !lookup_insert. repeat (case_decide; [by eexists|]). exfalso. set_solver.
Qed.

Lemma parameters_demo_runs_witness :
  let c := Params.mk_core ∅ (mk_writer_state [] 1 0) 0 in
  let run := @parameters_demo WriterState Params.ParamDemo.event_codec mock_writer 64 (lit "/parameters_demo") (fun _ => 0%Z) quiet 2 c in
  fst run = Ok [(42%Z, lit "hello", pi_bits); (43%Z, lit "hello", pi_bits)] /\
  Params.values_ (snd run) = demo_values ∅ 2.
Proof.
  intros c run. assert (Hok : fst run = Ok [(42%Z, lit "hello", pi_bits); (43%Z, lit "hello", pi_bits)]) by (vm_compute; reflexivity).
  split; [exact Hok|].
  destruct (@parameters_demo_runs WriterState Params.ParamDemo.event_codec mock_writer 64 (lit "/parameters_demo") (fun _ => 0%Z)
    quiet 2 c ltac:(intros; apply lookup_empty)) as [Hq _].
  fold run in Hq. destruct run as [o c']. simpl in Hok. subst o. apply Hq.
Defined.
