(* ===== verification/AbcGraph.v ===== *)
(** The example pipeline (src/examples/graph/abc_graph.cpp): NodeA counts on
    /counter, NodeB publishes the running sum on /sum, NodeC collects, and [main]
    checks what they recorded after the executor was cancelled.

    The callbacks and the check are functions with the [int64_t] arithmetic of
    the code; the pipeline is a step relation in which the thread of NodeA, the
    executor's dispatches and discovery interleave. *)
From Stdlib Require Import ZArith Lia Strings.Byte.
From stdpp Require Import base tactics list numbers.
From S2P Require Import Prelude Bytes Message Qos.
From S2P Require Params.

(** [a + b] of [int64_t]: overflow is undefined; an atomic's own arithmetic wraps. *)
Definition add_i64 (a b : Z) : outcome Z := if decide (in_s 64 (a + b)) then Ok (a + b)%Z else Undefined.
Definition sub_i64 (a b : Z) : outcome Z := if decide (in_s 64 (a - b)) then Ok (a - b)%Z else Undefined.

Definition int_message (name : bytes) (value : Z) : Params.RclParameter :=
  Params.mk_parameter name (Params.to_rcl_value (Params.to_value_int64 value)).

Definition integer_of (m : Params.RclParameter) : Z := Params.r_integer_value (Params.p_value m).

(* ------------------------------------------------------------------ *)
(** * The nodes *)

(** The statics of NodeB. *)
Record NodeB := mk_b {
  sum_ : Z;
  inputs_ : Z;
  first_input_ : Z;
  last_input_ : Z;
  published_sums_ : list Z
}.

Definition b_start : NodeB := mk_b 0 0 0 0 [].

(** The callback of NodeB up to [push_back], and the sum it publishes. *)
Definition b_record (x : Z) (b : NodeB) : outcome (Z * NodeB) :=
  let* sum := add_i64 (sum_ b) x in
  let first := if (first_input_ b =? 0)%Z then x else first_input_ b in
  Ok (sum, mk_b (i64 (sum_ b + x)) (i64 (inputs_ b + 1)) first x (published_sums_ b ++ [sum])).

(** The whole callback; [publish] is [sum_pub_->publish] on a state of type [W]. *)
Definition b_callback {W : Type} (publish : Params.RclParameter -> stM W unit) (m : Params.RclParameter)
  : stM (NodeB * W) unit := fun s =>
  match b_record (integer_of m) (fst s) with
  | Ok (sum, b) =>
      let (o, w) := publish (int_message (lit "sum") sum) (snd s) in (o, (b, w))
  | Throw e => (Throw e, s)
  | Undefined => (Undefined, s)
  end.

(** The callback of NodeC, printing aside. *)
Definition c_callback (m : Params.RclParameter) : stM (list Z) unit :=
  st_modify (fun received => received ++ [integer_of m]).

(* ------------------------------------------------------------------ *)
(** * The check of [main] *)

Fixpoint suffix_loop (published received : list Z) (offset i n : nat) : outcome bool :=
  match n with
  | O => Ok true
  | S n =>
      match published !! (offset + i), received !! i with
      | Some p, Some r => if (p =? r)%Z then suffix_loop published received offset (S i) n else Ok false
      | _, _ => Undefined
      end
  end.

Definition received_is_suffix (published received : list Z) : outcome bool :=
  if (length published <? length received)%nat || bool_decide (received = []) then Ok false
  else suffix_loop published received (length published - length received) 0 (length received).

(** The loop over [x] from [first] to [last]; [None] when the fuel is used up.
    [static_cast<size_t>] of a negative index is out of range like a large one. *)
Fixpoint sums_loop (sums : list Z) (first last : Z) (fuel : nat) (x expect : Z) (ok : bool) : outcome (option bool) :=
  match fuel with
  | O => Ok None
  | S fuel =>
      if (x <=? last)%Z then
        let* expect := add_i64 expect x in
        let* d := sub_i64 x first in
        let idx := uwrap 64 d in
        let ok := ok && (idx <? Z.of_nat (length sums))%Z && bool_decide (sums !! Z.to_nat idx = Some expect) in
        let* x := add_i64 x 1 in
        sums_loop sums first last fuel x expect ok
      else Ok (Some ok)
  end.

(** The conditions in the order of the code; [true] prints PIPELINE OK. *)
Definition verdict (fuel : nat) (a_published : Z) (b : NodeB) (c_received : list Z) : outcome (option bool) :=
  let ok := (0 <? inputs_ b)%Z in
  let* d := sub_i64 (last_input_ b) (first_input_ b) in
  let* n := add_i64 d 1 in
  let ok := ok && (n =? inputs_ b)%Z in
  let ok := ok && ((1 <=? first_input_ b)%Z && (last_input_ b <=? a_published)%Z) in
  let* r := sums_loop (published_sums_ b) (first_input_ b) (last_input_ b) fuel (first_input_ b) 0 ok in
  match r with
  | None => Ok None
  | Some ok => let* s := received_is_suffix (published_sums_ b) c_received in Ok (Some (ok && s))
  end.

(** What [main] prints once the executor has stopped, and its exit code. *)
Definition summary_line (a_published : Z) (b : NodeB) (c_received : list Z) : bytes :=
  lit "A published 1.." ++ to_string a_published ++ lit " | B received " ++ to_string (inputs_ b) ++ lit " inputs (" ++
  to_string (first_input_ b) ++ lit ".." ++ to_string (last_input_ b) ++ lit ") | B published " ++
  to_string (Z.of_nat (length (published_sums_ b))) ++ lit " sums | C received " ++
  to_string (Z.of_nat (length c_received)).

Definition main_report (fuel : nat) (a_published : Z) (b : NodeB) (c_received : list Z) : outcome (option (list bytes * Z)) :=
  let* ok := verdict fuel a_published b c_received in
  match ok with
  | None => Ok None
  | Some ok => Ok (Some ([summary_line a_published b c_received; lit (if ok : bool then "PIPELINE OK" else "PIPELINE FAILED")],
                         if ok : bool then 0%Z else 1%Z))
  end.

(* ------------------------------------------------------------------ *)
(** * What NodeB records *)

Definition Zsum : list Z -> Z := foldr Z.add 0%Z.

(** The running sums of a list. *)
Fixpoint running_sums (acc : Z) (xs : list Z) : list Z :=
  match xs with
  | [] => []
  | x :: xs => (acc + x)%Z :: running_sums (acc + x) xs
  end.

(** The statics after the inputs [xs]. *)
Definition b_after (xs : list Z) : NodeB :=
  mk_b (Zsum xs) (Z.of_nat (length xs)) (default 0%Z (list.head xs)) (default 0%Z (list.last xs)) (running_sums 0 xs).

Lemma Zsum_app xs ys : Zsum (xs ++ ys) = (Zsum xs + Zsum ys)%Z.
Proof. induction xs as [|x xs IH]; simpl; [done|]. unfold Zsum in *. lia. Qed.

Lemma Zsum_snoc xs x : Zsum (xs ++ [x]) = (Zsum xs + x)%Z.
Proof. rewrite Zsum_app. unfold Zsum at 2. simpl. lia. Qed.

Lemma Zsum_positive xs : Forall (fun x => 1 <= x)%Z xs -> (Z.of_nat (length xs) <= Zsum xs)%Z.
Proof. induction 1 as [|x xs Hx _ IH]; simpl; [done|]. unfold Zsum in *. lia. Qed.

Lemma running_sums_snoc xs x acc : running_sums acc (xs ++ [x]) = running_sums acc xs ++ [(acc + Zsum xs + x)%Z].
Proof.
  revert acc. induction xs as [|y xs IH]; intros acc; simpl; [do 2 f_equal; lia|].
  rewrite IH. simpl. do 3 f_equal. unfold Zsum. simpl. lia.
Qed.

Lemma length_running_sums xs acc : length (running_sums acc xs) = length xs.
Proof. revert acc. induction xs as [|x xs IH]; intros acc; simpl; [done|]. by rewrite IH. Qed.

Lemma running_sums_lookup xs acc i :
  i < length xs -> running_sums acc xs !! i = Some (acc + Zsum (take (S i) xs))%Z.
Proof.
  revert acc i. induction xs as [|x xs IH]; intros acc i Hi; simpl in Hi; [lia|].
  destruct i as [|i]; simpl; [f_equal; lia|]. rewrite IH by lia. f_equal. unfold Zsum. simpl. lia.
Qed.

Lemma running_sums_inj xs ys acc : running_sums acc xs = running_sums acc ys -> xs = ys.
Proof.
  revert ys acc. induction xs as [|x xs IH]; intros [|y ys] acc; simpl; [done..|]. intros [= Hx Hr].
  assert (x = y) as -> by lia. f_equal. by eapply IH.
Qed.

(** The callback on one more positive input: overflow of the sum is the only
    undefined case. *)
Lemma b_record_after xs x :
  Forall (fun x => 1 <= x)%Z (xs ++ [x]) -> in_s 64 (Zsum xs) ->
  b_record x (b_after xs) =
    if decide (in_s 64 (Zsum (xs ++ [x]))) then Ok (Zsum (xs ++ [x]), b_after (xs ++ [x])) else Undefined.
Proof.
  intros [Hf Hx]%Forall_app Hs. inversion_clear Hx as [|? ? Hx1 _].
  pose proof (Zsum_positive xs Hf) as Hl.
  assert (Hsum : Zsum (xs ++ [x]) = (Zsum xs + x)%Z) by apply Zsum_snoc.
  unfold b_record, add_i64. cbn [sum_ b_after inputs_ first_input_ published_sums_]. rewrite Hsum.
  case_decide as Hd; [|done]. simpl. unfold b_after. rewrite Hsum, running_sums_snoc, last_snoc, length_app.
  unfold i64. rewrite (swrap_small 64 (Zsum xs + x)) by done.
  rewrite swrap_small; [|done|unfold in_s in *; lia].
  assert (Hhead : (if (default 0 (list.head xs) =? 0)%Z then x else default 0%Z (list.head xs)) = default 0%Z (list.head (xs ++ [x]))).
  { destruct xs as [|y ys]; simpl; [done|]. inversion_clear Hf. by destruct (Z.eqb_spec y 0); [lia|]. }
  rewrite Hhead. do 3 f_equal. simpl. lia.
Qed.

(* ------------------------------------------------------------------ *)
(** * What the check accepts *)

Lemma suffix_loop_spec published received offset n : forall i,
  i + n = length received -> offset + length received = length published ->
  suffix_loop published received offset i n = Ok (bool_decide (drop (offset + i) published = drop i received)).
Proof.
  induction n as [|n IH]; intros i Hi Ho; simpl.
  - rewrite !drop_ge by lia. by rewrite bool_decide_eq_true_2.
  - destruct (lookup_lt_is_Some_2 published (offset + i)) as [p Hp]; [lia|].
    destruct (lookup_lt_is_Some_2 received i) as [r Hr]; [lia|]. rewrite Hp, Hr.
    rewrite (drop_S _ _ _ Hp), (drop_S _ _ _ Hr). destruct (Z.eqb_spec p r) as [->|Hne].
    + rewrite IH by lia. replace (S (offset + i)) with (offset + S i) by lia. f_equal.
      apply bool_decide_ext. split; [by intros ->|by intros [= ->]].
    + rewrite bool_decide_eq_false_2; [done|]. by intros [= ? _].
Qed.

Lemma received_is_suffix_spec published received :
  received_is_suffix published received = Ok (bool_decide (received <> [] /\ received `suffix_of` published)).
Proof.
  unfold received_is_suffix. destruct (Nat.ltb_spec (length published) (length received)) as [Hl|Hl]; simpl.
  { rewrite bool_decide_eq_false_2; [done|]. intros [_ Hs%suffix_length]. lia. }
  case_bool_decide as Hn; [by rewrite bool_decide_eq_false_2 by naive_solver|].
  rewrite suffix_loop_spec by lia. f_equal. rewrite Nat.add_0_r, drop_0. apply bool_decide_ext. split.
  - intros Hd. split; [done|]. exists (take (length published - length received) published). etrans; [symmetry; apply (take_drop (length published - length received))|]. by rewrite Hd.
  - intros [_ [k ->]]. rewrite length_app. replace (length k + length received - length received)%nat with (length k) by lia.
    by rewrite drop_app_length.
Qed.

(** A positive stretch of NodeA's stream, none of it beyond [a_published], of
    which NodeC has the last sums. *)
Definition accepts (xs : list Z) (a_published : Z) (c_received : list Z) : Prop :=
  xs <> [] /\ xs = seqZ (default 0%Z (list.head xs)) (Z.of_nat (length xs)) /\ (1 <= default 0 (list.head xs))%Z /\
  (default 0 (list.last xs) <= a_published)%Z /\ c_received <> [] /\ c_received `suffix_of` running_sums 0 xs.

Lemma add_i64_ok a b : in_s 64 (a + b) -> add_i64 a b = Ok (a + b)%Z.
Proof. intros. unfold add_i64. by rewrite decide_True. Qed.

Lemma sub_i64_ok a b : in_s 64 (a - b) -> sub_i64 a b = Ok (a - b)%Z.
Proof. intros. unfold sub_i64. by rewrite decide_True. Qed.

Lemma add_i64_inv a b c : add_i64 a b = Ok c -> c = (a + b)%Z /\ in_s 64 c.
Proof. unfold add_i64. case_decide; [by intros [= <-]|done]. Qed.

Lemma sub_i64_inv a b c : sub_i64 a b = Ok c -> c = (a - b)%Z /\ in_s 64 c.
Proof. unfold sub_i64. case_decide; [by intros [= <-]|done]. Qed.

Lemma Zsum_take_le f n i :
  (0 <= f)%Z -> (i <= n)%nat -> (0 <= Zsum (seqZ f (Z.of_nat i)) <= Zsum (seqZ f (Z.of_nat n)))%Z.
Proof.
  intros Hf. induction 1 as [|n Hn IH].
  - split; [|done]. induction i as [|i IHi]; [done|]. rewrite seqZ_S, Zsum_snoc. lia.
  - rewrite (seqZ_S f n), Zsum_snoc. lia.
Qed.

Lemma seqZ_take f n i : (i <= n)%nat -> take i (seqZ f (Z.of_nat n)) = seqZ f (Z.of_nat i).
Proof.
  intros Hi. replace (Z.of_nat n) with (Z.of_nat i + Z.of_nat (n - i))%Z by lia.
  rewrite seqZ_app by lia. apply take_app_length'. rewrite length_seqZ. lia.
Qed.

(** The loop accepts sums that are the running sums of the stretch. *)
Lemma sums_loop_complete f n k ok : forall i fuel,
  (1 <= f)%Z -> i + k = n -> in_s 64 (Zsum (seqZ f (Z.of_nat n))) -> in_s 64 (f + Z.of_nat n) -> (k < fuel)%nat ->
  sums_loop (running_sums 0 (seqZ f (Z.of_nat n))) f (f + Z.of_nat n - 1) fuel (f + Z.of_nat i)
    (Zsum (seqZ f (Z.of_nat i))) ok = Ok (Some ok).
Proof.
  induction k as [|k IH]; intros i [|fuel] Hf Hi Hs Hn Hk; try lia; cbn [sums_loop].
  - destruct (Z.leb_spec (f + Z.of_nat i) (f + Z.of_nat n - 1)); [lia|done].
  - destruct (Z.leb_spec (f + Z.of_nat i) (f + Z.of_nat n - 1)); [|lia].
    assert (Hx : (Zsum (seqZ f (Z.of_nat i)) + (f + Z.of_nat i) = Zsum (seqZ f (Z.of_nat (S i))))%Z).
    { rewrite seqZ_S, Zsum_snoc. lia. }
    pose proof (Zsum_take_le f n (S i) ltac:(lia) ltac:(lia)) as Hle.
    rewrite (add_i64_ok (Zsum _)) by (rewrite Hx; unfold in_s in *; lia). cbn [mbind outcome_bind]. rewrite Hx.
    rewrite sub_i64_ok by (unfold in_s in *; lia). cbn [mbind outcome_bind]. replace (f + Z.of_nat i - f)%Z with (Z.of_nat i) by lia.
    rewrite uwrap_small by (unfold in_u, in_s in *; lia).
    rewrite length_running_sums, length_seqZ, Nat2Z.id.
    rewrite (proj2 (Z.ltb_lt _ _)) by lia. rewrite bool_decide_eq_true_2.
    2: { rewrite Nat2Z.id, running_sums_lookup, seqZ_take by (rewrite ?length_seqZ; lia). done. }
    rewrite !andb_true_r, add_i64_ok by (unfold in_s in *; lia). cbn [mbind outcome_bind].
    replace (f + Z.of_nat i + 1)%Z with (f + Z.of_nat (S i))%Z by lia. apply IH; first [done|lia].
Qed.

(** When the loop accepts, every element it visits is the expected sum. *)
Lemma sums_loop_sound sums f l : forall fuel i ok,
  sums_loop sums f l fuel (f + Z.of_nat i) (Zsum (seqZ f (Z.of_nat i))) ok = Ok (Some true) ->
  (0 <= f)%Z -> in_s 64 l ->
  ok = true /\ forall j, (i <= j)%nat -> (f + Z.of_nat j <= l)%Z -> sums !! j = Some (Zsum (seqZ f (Z.of_nat (S j)))).
Proof.
  induction fuel as [|fuel IH]; intros i ok Hs Hf Hl; [done|]. cbn [sums_loop] in Hs.
  destruct (Z.leb_spec (f + Z.of_nat i) l) as [Hle|Hgt]; [|injection Hs as ->; split; [done|intros; lia]].
  apply bind_Ok_inv in Hs as (e & [-> _]%add_i64_inv & Hs). apply bind_Ok_inv in Hs as (d & [-> _]%sub_i64_inv & Hs).
  apply bind_Ok_inv in Hs as (x & [-> _]%add_i64_inv & Hs).
  replace (f + Z.of_nat i - f)%Z with (Z.of_nat i) in Hs by lia.
  rewrite uwrap_small, Nat2Z.id in Hs by (unfold in_u, in_s in *; lia).
  assert (Hsum : (Zsum (seqZ f (Z.of_nat i)) + (f + Z.of_nat i) = Zsum (seqZ f (Z.of_nat (S i))))%Z).
  { rewrite seqZ_S, Zsum_snoc. lia. }
  rewrite Hsum in Hs. replace (f + Z.of_nat i + 1)%Z with (f + Z.of_nat (S i))%Z in Hs by lia.
  apply IH in Hs as [Hok Hrest]; [|done..]. rewrite !andb_true_iff, bool_decide_eq_true in Hok. destruct Hok as [[-> _] Hi].
  split; [done|]. intros j Hj Hlj. destruct (decide (j = i)) as [->|]; [done|]. apply Hrest; [lia|done].
Qed.

Lemma seqZ_last f n : list.last (seqZ f (Z.of_nat (S n))) = Some (f + Z.of_nat n)%Z.
Proof. by rewrite seqZ_S, last_snoc. Qed.

(** On consecutive inputs the check always comes to a verdict. *)
Lemma verdict_window fuel a xs c :
  xs <> [] -> xs = seqZ (default 0%Z (list.head xs)) (Z.of_nat (length xs)) -> (1 <= default 0 (list.head xs))%Z ->
  in_s 64 (Zsum xs) -> (default 0 (list.last xs) < 2 ^ 63 - 1)%Z -> (length xs < fuel)%nat ->
  verdict fuel a (b_after xs) c =
    Ok (Some ((default 0 (list.last xs) <=? a)%Z && bool_decide (c <> [] /\ c `suffix_of` running_sums 0 xs))).
Proof.
  intros Hne Hxs Hf Hs Hl Hfuel.
  set (f := default 0%Z (list.head xs)) in *. set (n := length xs) in *.
  destruct n as [|m] eqn:Hn; [by destruct xs|].
  assert (Hlast : default 0%Z (list.last xs) = (f + Z.of_nat m)%Z) by (rewrite Hxs, seqZ_last; done).
  pose proof (Zsum_take_le f (S m) 1 ltac:(lia) ltac:(lia)) as Hle. rewrite Hxs in Hs.
  unfold verdict, b_after. cbn [inputs_ last_input_ first_input_ published_sums_]. fold f n. rewrite Hlast in *. rewrite Hn.
  rewrite sub_i64_ok by (unfold in_s in *; lia). cbn [mbind outcome_bind].
  rewrite add_i64_ok by (unfold in_s in *; lia). cbn [mbind outcome_bind].
  replace (f + Z.of_nat m - f + 1 =? Z.of_nat (S m))%Z with true by (symmetry; apply Z.eqb_eq; lia).
  rewrite (proj2 (Z.ltb_lt 0 _)), (proj2 (Z.leb_le 1 _)) by lia. cbn [andb]. rewrite Hxs at 1.
  pose proof (sums_loop_complete f (S m) (S m) (f + Z.of_nat m <=? a)%Z 0 fuel ltac:(lia) eq_refl Hs ltac:(unfold in_s; lia) Hfuel) as Hloop.
  replace (f + Z.of_nat (S m) - 1)%Z with (f + Z.of_nat m)%Z in Hloop by lia.
  change (Zsum (seqZ f (Z.of_nat 0))) with 0%Z in Hloop. replace (f + Z.of_nat 0)%Z with f in Hloop by (simpl; lia).
  rewrite Hloop. cbn [mbind outcome_bind]. by rewrite received_is_suffix_spec.
Qed.

Lemma verdict_empty fuel a c : (1 < fuel)%nat -> verdict fuel a (b_after []) c = Ok (Some false).
Proof.
  intros Hf. destruct fuel as [|[|fuel]]; [lia..|]. unfold verdict. simpl. by rewrite received_is_suffix_spec.
Qed.

Lemma verdict_complete fuel a xs c :
  accepts xs a c -> in_s 64 (Zsum xs) -> (default 0 (list.last xs) < 2 ^ 63 - 1)%Z -> (length xs < fuel)%nat ->
  verdict fuel a (b_after xs) c = Ok (Some true).
Proof.
  intros (Hne & Hxs & Hf & Ha & Hc) Hs Hl Hfuel. rewrite verdict_window by done.
  by rewrite (proj2 (Z.leb_le _ a)), bool_decide_eq_true_2.
Qed.

Lemma verdict_sound fuel a xs c :
  Forall (fun x => 1 <= x)%Z xs -> in_s 64 (Zsum xs) ->
  verdict fuel a (b_after xs) c = Ok (Some true) -> accepts xs a c.
Proof.
  intros Hpos Hs Hv. unfold verdict, b_after in Hv. cbn [inputs_ last_input_ first_input_ published_sums_] in Hv.
  apply bind_Ok_inv in Hv as (d & [-> _]%sub_i64_inv & Hv). apply bind_Ok_inv in Hv as (n & [-> _]%add_i64_inv & Hv).
  apply bind_Ok_inv in Hv as ([ok|] & Hloop & Hv); [|done]. rewrite received_is_suffix_spec in Hv. injection Hv as Hv.
  apply andb_true_iff in Hv as [-> [Hc Hsuf]%bool_decide_eq_true].
  destruct (list.last xs) as [l|] eqn:El; [|apply last_None in El as ->; by apply suffix_nil_inv in Hsuf].
  assert (Hin : in_s 64 l /\ (1 <= l)%Z).
  { apply last_Some in El as [ys ->]. apply Forall_app in Hpos as [Hys Hl]. inversion_clear Hl.
    pose proof (Zsum_positive ys Hys). rewrite Zsum_snoc in Hs. unfold in_s in *. lia. }
  set (f := default 0%Z (list.head xs)) in *. simpl in Hloop.
  assert (Hf : (1 <= f)%Z).
  { unfold f. destruct Hpos as [|x xs Hx _]; [done|exact Hx]. }
  pose proof (sums_loop_sound (running_sums 0 xs) f l fuel 0) as Hsound. simpl in Hsound. rewrite Z.add_0_r in Hsound.
  apply Hsound in Hloop as [Hok Hall]; [|lia|apply Hin]. rewrite !andb_true_iff, Z.ltb_lt, Z.eqb_eq, !Z.leb_le in Hok.
  destruct Hok as [[Hlen Hn] [_ Ha]].
  assert (Hxs : xs = seqZ f (Z.of_nat (length xs))).
  { apply (running_sums_inj _ _ 0). apply list_eq. intros i. destruct (decide (i < length xs)%nat) as [Hi|Hi].
    - rewrite (Hall i) by lia. rewrite running_sums_lookup, seqZ_take by (rewrite ?length_seqZ; lia). done.
    - rewrite !lookup_ge_None_2; rewrite ?length_running_sums, ?length_seqZ; [done|lia..]. }
  split_and!; [by intros ->|exact Hxs|exact Hf|by rewrite El|exact Hc|exact Hsuf].
Qed.

(** NodeB on a list of inputs. *)
Fixpoint b_run (xs : list Z) (b : NodeB) : outcome NodeB :=
  match xs with
  | [] => Ok b
  | x :: xs => let* r := b_record x b in b_run xs (snd r)
  end.

Lemma b_run_after ys : forall xs b,
  Forall (fun x => 1 <= x)%Z (xs ++ ys) -> in_s 64 (Zsum xs) -> b_run ys (b_after xs) = Ok b ->
  b = b_after (xs ++ ys) /\ in_s 64 (Zsum (xs ++ ys)).
Proof.
  induction ys as [|y ys IH]; intros xs b Hf Hs Hr; [rewrite app_nil_r; by injection Hr as <-|]. cbn [b_run] in Hr.
  apply bind_Ok_inv in Hr as (r & Hb & Hr). replace (xs ++ y :: ys) with ((xs ++ [y]) ++ ys) in * by by rewrite <- app_assoc.
  rewrite b_record_after in Hb by (done || by apply Forall_app in Hf as [? _]). case_decide as Hd; [|done]. injection Hb as <-.
  by apply IH.
Qed.

(** The check of [main] is exactly right about what the nodes recorded: for any
    positive inputs NodeB processed without overflow, it prints PIPELINE OK if
    and only if they were consecutive numbers, none beyond what NodeA says it
    published, and NodeC has a nonempty suffix of the running sums.  The fuel is
    one more than the number of inputs. *)
Theorem check_exact (xs : list Z) (b : NodeB) (a_published : Z) (c_received : list Z) (fuel : nat) :
  Forall (fun x => 1 <= x < 2 ^ 63 - 1)%Z xs -> b_run xs b_start = Ok b -> (length xs < fuel)%nat ->
  (verdict fuel a_published b c_received = Ok (Some true) <-> accepts xs a_published c_received) /\
  (accepts xs a_published c_received -> exists first, (1 <= first)%Z /\ b =
     mk_b (Zsum (seqZ first (inputs_ b))) (inputs_ b) first (first + inputs_ b - 1) (running_sums 0 (seqZ first (inputs_ b)))).
Proof.
  intros Hf Hr Hfuel.
  assert (Hpos : Forall (fun x => 1 <= x)%Z xs) by (eapply Forall_impl; [|exact Hf]; simpl; lia).
  destruct (b_run_after xs [] b Hpos ltac:(unfold in_s; simpl; lia) Hr) as [-> Hs]. simpl app in *. split.
  - split; [by apply verdict_sound|]. intros Ha. apply verdict_complete; try done.
    destruct (list.last xs) as [l|] eqn:El; [|simpl; lia]. apply last_Some in El as [ys ->].
    apply Forall_app in Hf as [_ Hl]. inversion_clear Hl. simpl. lia.
  - intros (Hne & Hxs & Hh & _). exists (default 0%Z (list.head xs)). split; [done|].
    unfold b_after at 1. cbn [inputs_ b_after]. rewrite <- Hxs. f_equal.
    destruct (length xs) as [|m] eqn:Hn; [by destruct xs|].
    pose proof (seqZ_last (default 0%Z (list.head xs)) m) as Hl. rewrite <- Hxs in Hl. rewrite Hl. simpl. lia.
Qed.

(* ------------------------------------------------------------------ *)
(** * The pipeline *)

(** The thread of NodeA between its [publish] and its [store]; the samples the
    readers of NodeB and NodeC hold; which endpoints have discovered each other.
    [overrun]: a reader that held a full history got one more sample.  [seen],
    the inputs of NodeB so far, is not part of the program. *)
Record Pipe := mk_pipe {
  a_n : Z;
  a_storing : bool;
  a_published : Z;
  counter_q : list Z;
  b_state : NodeB;
  sum_q : list Z;
  c_received : list Z;
  ab_matched : bool;
  bc_matched : bool;
  overrun : bool;
  seen : list Z
}.

Definition pipe_start : Pipe := mk_pipe 0 false 0 [] b_start [] [] false false false [].

(** A keep-last reader: when its history is full the oldest sample goes. *)
Definition history : nat := Z.to_nat (depth Default).
Definition keep (x : Z) (q : list Z) : list Z * bool :=
  if (length q <? history)%nat then (q ++ [x], false) else (tail q ++ [x], true).

(** [NodeA::run], one round: [++n] and the publication, then the store. *)
Definition a_publish : stM Pipe unit := fun p =>
  match add_i64 (a_n p) 1 with
  | Ok n =>
      let m := int_message (lit "counter") n in
      let (q, lost) := if ab_matched p then keep (integer_of m) (counter_q p) else (counter_q p, false) in
      (Ok tt, mk_pipe n true (a_published p) q (b_state p) (sum_q p) (c_received p) (ab_matched p) (bc_matched p)
                (overrun p || lost) (seen p))
  | Throw e => (Throw e, p)
  | Undefined => (Undefined, p)
  end.

Definition a_store : stM Pipe unit :=
  st_modify (fun p => mk_pipe (a_n p) false (a_n p) (counter_q p) (b_state p) (sum_q p) (c_received p) (ab_matched p)
                        (bc_matched p) (overrun p) (seen p)).

(** [sum_pub_->publish] towards the reader of NodeC. *)
Definition send_sum (matched : bool) (m : Params.RclParameter) : stM (list Z * bool) unit :=
  st_modify (fun w => if matched then let (q, lost) := keep (integer_of m) (fst w) in (q, snd w || lost) else w).

(** One sample taken by NodeB's subscription, and by NodeC's. *)
Definition b_dispatch (x : Z) (q : list Z) : stM Pipe unit := fun p =>
  let (o, s) := b_callback (send_sum (bc_matched p)) (int_message (lit "counter") x) (b_state p, (sum_q p, overrun p)) in
  (o, mk_pipe (a_n p) (a_storing p) (a_published p) q (fst s) (fst (snd s)) (c_received p) (ab_matched p) (bc_matched p)
        (snd (snd s)) (seen p ++ [x])).

Definition c_dispatch (y : Z) (q : list Z) : stM Pipe unit := fun p =>
  let (o, r) := c_callback (int_message (lit "sum") y) (c_received p) in
  (o, mk_pipe (a_n p) (a_storing p) (a_published p) (counter_q p) (b_state p) q r (ab_matched p) (bc_matched p)
        (overrun p) (seen p)).

Definition match_ab (p : Pipe) : Pipe :=
  mk_pipe (a_n p) (a_storing p) (a_published p) (counter_q p) (b_state p) (sum_q p) (c_received p) true (bc_matched p)
    (overrun p) (seen p).
Definition match_bc (p : Pipe) : Pipe :=
  mk_pipe (a_n p) (a_storing p) (a_published p) (counter_q p) (b_state p) (sum_q p) (c_received p) (ab_matched p) true
    (overrun p) (seen p).

Inductive pipe_step : Pipe -> Pipe -> Prop :=
| step_match_ab p : pipe_step p (match_ab p)
| step_match_bc p : pipe_step p (match_bc p)
| step_publish p p' : a_storing p = false -> a_publish p = (Ok tt, p') -> pipe_step p p'
| step_store p p' : a_storing p = true -> a_store p = (Ok tt, p') -> pipe_step p p'
| step_b p p' x q : counter_q p = x :: q -> b_dispatch x q p = (Ok tt, p') -> pipe_step p p'
| step_c p p' y q : sum_q p = y :: q -> c_dispatch y q p = (Ok tt, p') -> pipe_step p p'.

(** While no reader was overrun: what NodeB has seen and holds is NodeA's stream
    from some point on, up to now; what NodeC has received and holds is the end
    of what NodeB published. *)
Record pipe_inv (p : Pipe) : Prop := {
  pi_n : (0 <= a_n p)%Z;
  pi_published : a_published p = (if a_storing p then a_n p - 1 else a_n p)%Z;
  pi_unmatched : ab_matched p = false -> seen p ++ counter_q p = [];
  pi_unmatched_c : bc_matched p = false -> c_received p ++ sum_q p = [];
  pi_window : exists k, (0 <= k <= a_n p)%Z /\ seen p ++ counter_q p = seqZ (k + 1) (a_n p - k);
  pi_b : b_state p = b_after (seen p);
  pi_sum : in_s 64 (Zsum (seen p));
  pi_c : (c_received p ++ sum_q p) `suffix_of` running_sums 0 (seen p)
}.

Lemma seqZ_positive k n : (0 <= k)%Z -> Forall (fun x => 1 <= x)%Z (seqZ (k + 1) n).
Proof. intros Hk. apply Forall_seqZ. lia. Qed.

Lemma pipe_start_inv : pipe_inv pipe_start.
Proof. split; simpl; try done. exists 0%Z. split; [lia|done]. Qed.

Lemma keep_kept x q q' : keep x q = (q', false) -> q' = q ++ [x].
Proof. unfold keep. case_match; [by intros [= <-]|done]. Qed.

Lemma publish_inv p p' : a_storing p = false -> pipe_inv p -> a_publish p = (Ok tt, p') -> overrun p' = false -> pipe_inv p'.
Proof.
  intros Hst [Hn Hp Hu Huc (k & Hk & Hw) Hb Hs Hc] Hpub Hov. unfold a_publish in Hpub. rewrite Hst in Hp.
  destruct (add_i64 (a_n p) 1) as [n|e|] eqn:Ea; [|done..]. apply add_i64_inv in Ea as [-> _].
  change (integer_of (int_message (lit "counter") (a_n p + 1))) with (a_n p + 1)%Z in Hpub.
  destruct (ab_matched p) eqn:Em.
  - destruct (keep (a_n p + 1) (counter_q p)) as [q lost] eqn:Eq. injection Hpub as <-. simpl in Hov.
    apply orb_false_iff in Hov as [_ ->]. apply keep_kept in Eq as ->.
    split; simpl; try done; [lia|lia|]. exists k. split; [lia|]. rewrite app_assoc, Hw.
    replace (a_n p + 1 - k)%Z with ((a_n p - k) + 1)%Z by lia. rewrite (seqZ_app _ (a_n p - k) 1) by lia. f_equal.
    rewrite seqZ_cons by lia. simpl. f_equal. lia.
  - injection Hpub as <-. split; simpl; try done; [lia|lia|]. exists (a_n p + 1)%Z. split; [lia|].
    rewrite Hu by done. by rewrite Z.sub_diag.
Qed.

Lemma b_dispatch_inv p p' x q :
  counter_q p = x :: q -> pipe_inv p -> b_dispatch x q p = (Ok tt, p') -> overrun p' = false -> pipe_inv p'.
Proof.
  intros Hq [Hn Hp Hu Huc (k & Hk & Hw) Hb Hs Hc] Hd Hov. unfold b_dispatch, b_callback in Hd. rewrite Hb in Hd.
  change (integer_of (int_message (lit "counter") x)) with x in Hd. cbn [fst snd] in Hd.
  assert (Hw' : (seen p ++ [x]) ++ q = seqZ (k + 1) (a_n p - k)) by (by rewrite <- Hw, Hq, <- app_assoc).
  assert (Hpos : Forall (fun x => 1 <= x)%Z (seen p ++ [x])).
  { pose proof (seqZ_positive k (a_n p - k) ltac:(lia)) as Hf. rewrite <- Hw' in Hf. by apply Forall_app in Hf as [? _]. }
  rewrite b_record_after in Hd by done. case_decide as Hin; [|done].
  change (integer_of (int_message (lit "sum") (Zsum (seen p ++ [x])))) with (Zsum (seen p ++ [x])) in Hd.
  assert (Hrs : running_sums 0 (seen p ++ [x]) = running_sums 0 (seen p) ++ [Zsum (seen p ++ [x])]).
  { rewrite running_sums_snoc, Zsum_snoc. do 2 f_equal. }
  unfold send_sum, st_modify in Hd. cbn [fst snd] in Hd. destruct (bc_matched p) eqn:Em.
  - destruct (keep _ (sum_q p)) as [q' lost] eqn:Eq. injection Hd as <-. simpl in Hov. apply orb_false_iff in Hov as [_ ->].
    change (integer_of (int_message (lit "sum") (Zsum (seen p ++ [x])))) with (Zsum (seen p ++ [x])) in Eq.
    apply keep_kept in Eq as ->. split; simpl; try done.
    + rewrite <- app_assoc. simpl. rewrite <- Hq. exact Hu.
    + by exists k.
    + destruct Hc as [pre Hpre]. exists pre. by rewrite Hrs, Hpre, <- !app_assoc.
  - injection Hd as <-. split; simpl; try done.
    + rewrite <- app_assoc. simpl. rewrite <- Hq. exact Hu.
    + by exists k.
    + rewrite Huc by done. apply suffix_nil.
Qed.

Lemma c_dispatch_inv p p' y q : sum_q p = y :: q -> pipe_inv p -> c_dispatch y q p = (Ok tt, p') -> pipe_inv p'.
Proof.
  intros Hq [Hn Hp Hu Huc Hw Hb Hs Hc] Hd. injection Hd as <-.
  assert (Happ : (c_received p ++ [y]) ++ q = c_received p ++ sum_q p) by (by rewrite Hq, <- app_assoc).
  change (integer_of (int_message (lit "sum") y)) with y. split; simpl; try done; by rewrite Happ.
Qed.

(** A reader that was overrun stays so. *)
Lemma overrun_stays p p' : pipe_step p p' -> overrun p' = false -> overrun p = false.
Proof.
  intros Hstep. destruct Hstep as [p|p|p p' _ Hd|p p' _ Hd|p p' x q _ Hd|p p' y q _ Hd]; try done.
  - unfold a_publish in Hd. destruct (add_i64 _ _); [|done..]. case_match. injection Hd as <-. simpl.
    by intros [? _]%orb_false_iff.
  - by injection Hd as <-.
  - unfold b_dispatch, b_callback in Hd. destruct (b_record _ _) as [[sum b]|e|]; [|done..]. unfold send_sum, st_modify in Hd.
    cbn [fst snd] in Hd. destruct (bc_matched p); [|by injection Hd as <-]. destruct (keep _ _).
    injection Hd as <-. simpl. by intros [? _]%orb_false_iff.
  - by injection Hd as <-.
Qed.

Lemma pipe_step_inv p p' : pipe_step p p' -> overrun p' = false -> pipe_inv p -> pipe_inv p'.
Proof.
  intros Hstep Hov Hi. destruct Hstep as [p|p|p p' Hst Hd|p p' Hst Hd|p p' x q Hq Hd|p p' y q Hq Hd].
  - destruct Hi. by split.
  - destruct Hi. by split.
  - by eapply publish_inv.
  - injection Hd as <-. destruct Hi as [Hn Hp Hu Huc Hw Hb Hs Hc]. by split.
  - by eapply b_dispatch_inv.
  - by eapply c_dispatch_inv.
Qed.

Lemma pipe_run_inv p : star pipe_step pipe_start p -> overrun p = false -> pipe_inv p.
Proof.
  intros Hrun. assert (Hstar : forall p0, star pipe_step p0 p -> (overrun p0 = false -> pipe_inv p0) -> overrun p = false -> pipe_inv p).
  { clear. intros p0 Hs. induction Hs as [p|p0 p1 p Hstep _ IH]; intros Hp Hov; [by apply Hp|]. apply IH; [|done].
    intros Hov1. eapply pipe_step_inv; [done..|]. apply Hp. by eapply overrun_stays. }
  apply (Hstar _ Hrun). intros _. apply pipe_start_inv.
Qed.

(** The running sums of positive numbers grow, so the end of what NodeB
    published is all received only when nothing is in flight. *)
Lemma running_sums_above xs acc : Forall (fun x => 1 <= x)%Z xs -> Forall (fun s => acc < s)%Z (running_sums acc xs).
Proof.
  intros Hf. revert acc. induction Hf as [|x xs Hx _ IH]; intros acc; simpl; constructor; [lia|].
  eapply Forall_impl; [|exact (IH (acc + x)%Z)]. simpl. lia.
Qed.

Lemma running_sums_NoDup xs acc : Forall (fun x => 1 <= x)%Z xs -> NoDup (running_sums acc xs).
Proof.
  intros Hf. revert acc. induction Hf as [|x xs Hx Hf IH]; intros acc; simpl; constructor; [|apply IH].
  intros Hin. pose proof (running_sums_above xs (acc + x) Hf) as Ha.
  pose proof (proj1 (list.Forall_forall _ _) Ha _ Hin) as Hlt. simpl in Hlt. lia.
Qed.

Lemma suffix_drained (c q l : list Z) :
  NoDup l -> c <> [] -> (c ++ q) `suffix_of` l -> (c `suffix_of` l <-> q = []).
Proof.
  intros Hnd Hne [pre ->]. split; [|intros ->; rewrite app_nil_r; by exists pre].
  intros [pre' Hpre]. destruct (decide (q = [])) as [|Hq]; [done|]. exfalso.
  destruct (exists_last Hne) as (c0 & y & ->). destruct (exists_last Hq) as (q0 & z & ->).
  rewrite !app_assoc in Hpre. apply app_inj_tail in Hpre as [_ ->].
  apply list.NoDup_app in Hnd as (_ & _ & Hnd). rewrite <- app_assoc in Hnd. apply list.NoDup_app in Hnd as (_ & _ & Hnd).
  apply list.NoDup_app in Hnd as (_ & Hd & _). apply (Hd y); [by left|]. apply elem_of_app. right. by left.
Qed.

(** The inputs of NodeB are the beginning of the window, and the last of them is
    as far from NodeA's number as there are samples waiting. *)
Lemma window_seen s q k n :
  (0 <= k <= n)%Z -> s ++ q = seqZ (k + 1) (n - k) -> s <> [] ->
  s = seqZ (default 0%Z (list.head s)) (Z.of_nat (length s)) /\ (1 <= default 0 (list.head s))%Z /\
  default 0%Z (list.last s) = (n - Z.of_nat (length q))%Z.
Proof.
  intros Hk Hw Hne. assert (Hlen : (Z.of_nat (length s) + Z.of_nat (length q) = n - k)%Z).
  { apply (f_equal length) in Hw. rewrite length_app, length_seqZ in Hw. lia. }
  assert (Hs : s = seqZ (k + 1) (Z.of_nat (length s))).
  { apply (f_equal (take (length s))) in Hw. rewrite take_app_length in Hw. rewrite Hw at 1.
    replace (n - k)%Z with (Z.of_nat (length s + length q)) by lia. apply seqZ_take. lia. }
  destruct (length s) as [|m] eqn:Hm; [by destruct s|].
  assert (Hh : default 0%Z (list.head s) = (k + 1)%Z) by (rewrite Hs, seqZ_cons by lia; done).
  split; [by rewrite Hh|]. split; [lia|]. rewrite Hs, seqZ_last. simpl. lia.
Qed.

(** A verdict is what [main] reports. *)
Lemma reported_verdict fuel a b c (P : bool -> Prop) :
  (exists ok, verdict fuel a b c = Ok (Some ok) /\ P ok) ->
  exists ok, verdict fuel a b c = Ok (Some ok) /\
    main_report fuel a b c =
      Ok (Some ([summary_line a b c; lit (if ok then "PIPELINE OK" else "PIPELINE FAILED")], if ok then 0%Z else 1%Z)) /\ P ok.
Proof. intros (ok & Hv & Hok). exists ok. unfold main_report. by rewrite Hv. Qed.

(** C40: for every interleaving of NodeA's thread, the executor's dispatches and
    discovery, in which no reader's history overflowed, the check comes to a
    verdict, and it prints PIPELINE OK and exits with 0 exactly when both nodes received something,
    no sum is still on its way to NodeC, and NodeA is not between publishing the
    number NodeB received last and recording it.  In particular samples lost
    before the endpoints matched never make it fail. *)
Theorem pipeline_verdict (p : Pipe) (fuel : nat) :
  star pipe_step pipe_start p -> overrun p = false -> (a_n p < 2 ^ 63 - 1)%Z -> (S (length (seen p)) < fuel)%nat ->
  exists ok, verdict fuel (a_published p) (b_state p) (c_received p) = Ok (Some ok) /\
    main_report fuel (a_published p) (b_state p) (c_received p) =
      Ok (Some ([summary_line (a_published p) (b_state p) (c_received p);
                 lit (if ok then "PIPELINE OK" else "PIPELINE FAILED")], if ok then 0%Z else 1%Z)) /\
    (ok = true <-> seen p <> [] /\ c_received p <> [] /\ sum_q p = [] /\ (a_storing p = true -> counter_q p <> [])).
Proof.
  intros Hrun Hov Hmax Hfuel. apply reported_verdict. destruct (pipe_run_inv p Hrun Hov) as [Hn Hp Hu Huc (k & Hk & Hw) -> Hs Hc].
  destruct (decide (seen p = [])) as [Hnil|Hne].
  { rewrite Hnil, verdict_empty by lia. exists false. split; [done|]. naive_solver. }
  destruct (window_seen _ _ _ _ Hk Hw Hne) as (Hseq & Hh & Hl).
  rewrite verdict_window by (done || lia). eexists. split; [done|]. rewrite Hl, andb_true_iff, Z.leb_le, bool_decide_eq_true.
  assert (Hpos : Forall (fun x => 1 <= x)%Z (seen p)).
  { pose proof (seqZ_positive k (a_n p - k) ltac:(lia)) as Hf. rewrite <- Hw in Hf. by apply Forall_app in Hf as [? _]. }
  assert (Ha : (a_n p - Z.of_nat (length (counter_q p)) <= a_published p)%Z <-> (a_storing p = true -> counter_q p <> [])).
  { rewrite Hp. destruct (a_storing p); [|split; [done|lia]]. destruct (counter_q p); simpl; split; try done; [lia| |lia].
    intros Hx. by specialize (Hx eq_refl). }
  rewrite Ha. split.
  - intros [Hst [Hcne Hsuf]]. split_and!; [done|done| |done]. by eapply suffix_drained; [apply running_sums_NoDup|..].
  - intros (_ & Hcne & Hq & Hst). split; [done|]. split; [done|]. rewrite Hq, app_nil_r in Hc. exact Hc.
Qed.

(* ------------------------------------------------------------------ *)
(** * Runs *)

(** A scheduler: the step of each kind, when it can be taken. *)
Inductive event := MatchAB | MatchBC | Publish | Store | TakeB | TakeC.

Definition fire (e : event) (p : Pipe) : option Pipe :=
  let run (m : stM Pipe unit) := match m p with (Ok _, p') => Some p' | _ => None end in
  match e with
  | MatchAB => Some (match_ab p)
  | MatchBC => Some (match_bc p)
  | Publish => if a_storing p then None else run a_publish
  | Store => if a_storing p then run a_store else None
  | TakeB => match counter_q p with x :: q => run (b_dispatch x q) | [] => None end
  | TakeC => match sum_q p with y :: q => run (c_dispatch y q) | [] => None end
  end.

Fixpoint fire_all (es : list event) (p : Pipe) : option Pipe :=
  match es with
  | [] => Some p
  | e :: es => match fire e p with Some p' => fire_all es p' | None => None end
  end.

Lemma fire_step e p p' : fire e p = Some p' -> pipe_step p p'.
Proof.
  destruct e; simpl.
  - intros [= <-]. constructor.
  - intros [= <-]. constructor.
  - destruct (a_storing p) eqn:Hst; [done|]. destruct (a_publish p) as [[[]|?|] p1] eqn:Hp; [|done..]. intros [= <-].
    by apply step_publish.
  - destruct (a_storing p) eqn:Hst; [|done]. intros [= <-]. by apply step_store.
  - destruct (counter_q p) as [|x q] eqn:Hq; [done|]. destruct (b_dispatch x q p) as [[[]|?|] p1] eqn:Hp; [|done..]. intros [= <-].
    by eapply step_b.
  - destruct (sum_q p) as [|y q] eqn:Hq; [done|]. destruct (c_dispatch y q p) as [[[]|?|] p1] eqn:Hp; [|done..]. intros [= <-].
    by eapply step_c.
Qed.

Lemma fire_all_run es : forall p p', fire_all es p = Some p' -> star pipe_step p p'.
Proof.
  induction es as [|e es IH]; intros p p' Hr; simpl in Hr; [injection Hr as <-; constructor|].
  destruct (fire e p) as [p1|] eqn:He; [|done]. eapply star_step; [by eapply fire_step|by apply IH].
Qed.

Definition after_run (es : list event) : Pipe := default pipe_start (fire_all es pipe_start).

Lemma after_run_reachable es : star pipe_step pipe_start (after_run es).
Proof. unfold after_run. destruct (fire_all es pipe_start) eqn:Hr; [by eapply fire_all_run|constructor]. Qed.

(** 1 is lost to discovery; 2 and 3 go all the way. *)
Definition complete_run : Pipe :=
  after_run [Publish; Store; MatchAB; MatchBC; Publish; Store; TakeB; TakeC; Publish; Store; TakeB; TakeC].

(** The executor is cancelled after NodeB's dispatch, before NodeC's. *)
Definition sum_in_flight : Pipe :=
  after_run [MatchAB; MatchBC; Publish; Store; TakeB; TakeC; Publish; Store; TakeB].

(** NodeA has published 2 and not yet stored it. *)
Definition store_pending : Pipe :=
  after_run [MatchAB; MatchBC; Publish; Store; TakeB; TakeC; Publish; TakeB; TakeC].

Lemma check_exact_witness :
  exists b, b_run [2; 3]%Z b_start = Ok b /\ verdict 3 3 b [5]%Z = Ok (Some true) /\ verdict 3 2 b [5]%Z <> Ok (Some true).
Proof.
  exists (b_after [2; 3]%Z). split; [vm_compute; reflexivity|].
  assert (Hf : Forall (fun x => 1 <= x < 2 ^ 63 - 1)%Z [2; 3]%Z) by (repeat constructor; lia).
  assert (Hr : b_run [2; 3]%Z b_start = Ok (b_after [2; 3]%Z)) by (vm_compute; reflexivity).
  split.
  - apply (check_exact [2; 3]%Z (b_after [2; 3]%Z) 3 [5]%Z 3 Hf Hr ltac:(simpl; lia)).
    split_and!; [done|reflexivity|simpl; lia|simpl; lia|done|]. by exists [2%Z].
  - intros Hv. apply (check_exact [2; 3]%Z (b_after [2; 3]%Z) 2 [5]%Z 3 Hf Hr ltac:(simpl; lia)) in Hv.
    destruct Hv as (_ & _ & _ & Ha & _). simpl in Ha. lia.
Defined.

(** Nothing was lost after discovery in any of the three runs, but only the
    first one passes. *)
Lemma pipeline_verdict_witness :
  seen complete_run = [2; 3]%Z /\
  verdict 5 (a_published complete_run) (b_state complete_run) (c_received complete_run) = Ok (Some true) /\
  (exists ok, verdict 5 (a_published sum_in_flight) (b_state sum_in_flight) (c_received sum_in_flight) = Ok (Some ok) /\ ok <> true) /\
  (exists ok, verdict 5 (a_published store_pending) (b_state store_pending) (c_received store_pending) = Ok (Some ok) /\ ok <> true).
Proof.
  split; [vm_compute; reflexivity|]. split; [|split].
  - destruct (pipeline_verdict complete_run 5) as (ok & Hv & _ & Hok); [apply after_run_reachable|vm_compute; reflexivity|vm_compute; reflexivity|apply Nat.ltb_lt; vm_compute; reflexivity|].
    rewrite Hv. do 2 f_equal. apply Hok. clear.
    split; [vm_compute; discriminate|]. split; [vm_compute; discriminate|]. split; [vm_compute; reflexivity|].
    vm_compute. discriminate.
  - destruct (pipeline_verdict sum_in_flight 5) as (ok & Hv & _ & Hok); [apply after_run_reachable|vm_compute; reflexivity|vm_compute; reflexivity|apply Nat.ltb_lt; vm_compute; reflexivity|].
    exists ok. split; [exact Hv|]. intros Ht. apply Hok in Ht as (_ & _ & Hq & _). vm_compute in Hq. discriminate Hq.
  - destruct (pipeline_verdict store_pending 5) as (ok & Hv & _ & Hok); [apply after_run_reachable|vm_compute; reflexivity|vm_compute; reflexivity|apply Nat.ltb_lt; vm_compute; reflexivity|].
    exists ok. split; [exact Hv|]. intros Ht. apply Hok in Ht as (_ & _ & _ & Hst). apply Hst; vm_compute; reflexivity.
Defined.
