(* ===== verification/AbcLaunch.v ===== *)
(** The node classes of the example pipeline (src/examples/graph/abc_graph.cpp):
    their constructors, their registration, and the topology that names them. *)
From Stdlib Require Import String.
From Stdlib Require Import ZArith Lia Strings.Byte.
From stdpp Require Import base tactics list numbers gmap.
From S2P Require Import Prelude Bytes Message Names Qos Dds MockDds NodeCtor NodeRegistry AbcGraph.
From S2P Require Executor ExecutorRun Graph Params Ffi.
From S2P Require Import Json GraphExecutor GraphExecutorFacts.

Section classes.
Context {F : Type} `{DdsFactory F} `{!DdsNodes F} `{Message Graph.ParticipantEntitiesInfo} `{Message Params.RclParameter}.
Variable iov_len_bits : Z.
Variable qos_created : bool.
Variable domain_id : Z.

(** What a constructor does on its node, which has no entity yet; when it
    throws, the base class is destroyed. *)
Definition on_new_node {A} (n : NodeObj) (m : stM (World F) A) : stM F (A * list Executor.Entity) :=
  cleanup (Ffi.Node_dtor n (mret tt)) (fun f =>
    let (o, w) := m (mk_world f (Executor.mk_node [] 0 (change_guard_ n))) in
    (let* a := o in Ok (a, Executor.entities_ (plumbing w)), fac w)).

Definition Parameter_type : bytes := dds_name Params.RclParameter.

(** [create_publisher<Parameter>("counter")]; then the thread starts. *)
Definition NodeA_ctor (name ns : bytes) : stM F (NodeObj * list Executor.Entity) :=
  let* n := Node_ctor iov_len_bits qos_created name ns domain_id in
  let* r := on_new_node n (create_publisher qos_created (ns_ n) (lit "counter") Parameter_type Default) in
  mret (n, snd r).

(** [self] is the identity of the subscription. *)
Definition NodeB_ctor (self : nat) (name ns : bytes) : stM F (NodeObj * list Executor.Entity) :=
  let* n := Node_ctor iov_len_bits qos_created name ns domain_id in
  let* r := on_new_node n
    (let* sum_pub_ := create_publisher qos_created (ns_ n) (lit "sum") Parameter_type Default in
     cleanup (on_fac (Writer_dtor sum_pub_))
       (create_subscription qos_created (ns_ n) (lit "counter") Parameter_type Default self)) in
  mret (n, snd r).

Definition NodeC_ctor (self : nat) (name ns : bytes) : stM F (NodeObj * list Executor.Entity) :=
  let* n := Node_ctor iov_len_bits qos_created name ns domain_id in
  let* r := on_new_node n (create_subscription qos_created (ns_ n) (lit "sum") Parameter_type Default self) in
  mret (n, snd r).

(** The three registrations. *)
Definition abc_classes : list (bytes * NodeFactory F) :=
  [(lit "NodeA", NodeA_ctor); (lit "NodeB", NodeB_ctor 0); (lit "NodeC", NodeC_ctor 1)].
End classes.

(** [kTopology], white space aside. *)
Definition kTopology : bytes :=
  let node name class :=
    lit "{" ++ quoted "name" ++ lit ":" ++ name ++ lit "," ++ quoted "class" ++ lit ":" ++ class ++ lit "}" in
  lit "{" ++ quoted "nodes" ++ lit ":[" ++ node (quoted "node_a") (quoted "NodeA") ++ lit "," ++
  node (quoted "node_b") (quoted "NodeB") ++ lit "," ++ node (quoted "node_c") (quoted "NodeC") ++ lit "]}".

(* ------------------------------------------------------------------ *)
(** * How the nodes are connected *)

Section wiring.
Context {F : Type} `{DdsNodesLaws F} `{Message Graph.ParticipantEntitiesInfo} `{Message Params.RclParameter}.
Variable bits : Z.
Variable qc : bool.
Variable dom : Z.

(** A constructor that succeeded created its node and then [plan] for the names
    expanded in its namespace. *)
Definition connects (ctor : bytes -> bytes -> stM F (NodeObj * list Executor.Entity)) (plan : bytes -> outcome (list dds_kind)) : Prop :=
  forall name ns f n es f', ctor name ns f = (Ok (n, es), f') ->
  exists f1 l, Node_ctor bits qc name ns dom f = (Ok n, f1) /\ plan (ns_ n) = Ok l /\ created f' = created f1 ++ l.

Lemma on_new_node_inv {A} n (m : stM (World F) A) f a es f' :
  on_new_node n m f = (Ok (a, es), f') ->
  exists w, m (mk_world f (Executor.mk_node [] 0 (change_guard_ n))) = (Ok a, w) /\ fac w = f' /\ Executor.entities_ (plumbing w) = es.
Proof.
  unfold on_new_node, cleanup, st_try. destruct (m _) as [[a'|e|] w]; simpl; [|intros [(? & ? & _ & ?)|[(? & _ & ?)|[_ ?]]]%st_bind_inv; discriminate|done].
  intros [= <- <- <-]. by exists w.
Qed.

Lemma publisher_created ns topic type q (w w' : World F) a :
  create_publisher qc ns topic type q w = (Ok a, w') ->
  exists fqn, expand_topic_name topic ns = Ok fqn /\ created (fac w') = created (fac w) ++ publisher_plan fqn.
Proof.
  unfold create_publisher. intros (fqn & w1 & Hn & Hp)%st_bind_inv_Ok. injection Hn as Hn <-. exists fqn. split; [done|].
  pose proof (Publisher_ctor_makes qc fqn type q (fac w)) as Hc. unfold on_fac in Hp.
  destruct (Publisher_ctor qc fqn type q false (fac w)) as [[b|e|] f]; [|done..]. injection Hp as _ <-. apply Hc.
Qed.

Lemma subscription_created ns topic type q self (w w' : World F) a :
  create_subscription qc ns topic type q self w = (Ok a, w') ->
  exists fqn, expand_topic_name topic ns = Ok fqn /\ created (fac w') = created (fac w) ++ subscription_plan fqn.
Proof.
  intros Hs. pose proof (creates_waitable topic ns (fun fqn => Subscription_ctor qc fqn type q) subscription_plan
    (fun s => Executor.mk_entity self (snd s)) w (fun fqn => Subscription_ctor_makes qc fqn type q)) as Hc.
  unfold creates in Hc. unfold create_subscription in Hs. rewrite Hs in Hc. destruct Hc as (fqn & ? & ? & _). by exists fqn.
Qed.

(** Whatever namespace the three nodes share, NodeB subscribes to exactly the
    topic NodeA publishes on, and NodeC to the one NodeB publishes on; nothing
    else is created by their constructors. *)
Theorem abc_wired (self : nat) :
  connects (NodeA_ctor bits qc dom) (fun ns => publisher_plan <$> expand_topic_name (lit "counter") ns) /\
  connects (NodeB_ctor bits qc dom self) (fun ns =>
    let* sum := expand_topic_name (lit "sum") ns in
    let* counter := expand_topic_name (lit "counter") ns in Ok (publisher_plan sum ++ subscription_plan counter)) /\
  connects (NodeC_ctor bits qc dom self) (fun ns => subscription_plan <$> expand_topic_name (lit "sum") ns).
Proof.
  split_and!; intros name ns f n es f' Hr; unfold NodeA_ctor, NodeB_ctor, NodeC_ctor in Hr;
    apply st_bind_inv_Ok in Hr as (n0 & f1 & Hn & Hr); apply st_bind_inv_Ok in Hr as ([a es'] & f2 & Hr & Hret);
    injection Hret as -> -> ->; apply on_new_node_inv in Hr as (w & Hr & <- & _).
  - apply publisher_created in Hr as (fqn & Hf & Hc). exists f1, (publisher_plan fqn). by rewrite Hf.
  - apply st_bind_inv_Ok in Hr as (pub & w1 & Hp & Hs). apply publisher_created in Hp as (sum & Hf & Hc).
    unfold cleanup, st_try in Hs. destruct (create_subscription _ _ _ _ _ _ w1) as [[b|e|] w2] eqn:Es;
      [|by apply st_bind_inv in Hs as [(? & ? & _ & ?)|[(? & _ & ?)|[_ ?]]]|done].
    injection Hs as -> ->. apply subscription_created in Es as (counter & Hf2 & Hc2).
    exists f1, (publisher_plan sum ++ subscription_plan counter). rewrite Hf, Hf2. split; [done|]. split; [done|].
    by rewrite Hc2, Hc, <- app_assoc.
  - apply subscription_created in Hr as (fqn & Hf & Hc). exists f1, (subscription_plan fqn). by rewrite Hf.
Qed.
End wiring.

(* ------------------------------------------------------------------ *)
(** * The example on the test double *)

Import NodeDemo LaunchDemo.
#[local] Existing Instance Params.ParamDemo.event_codec.
#[local] Existing Instance ExecutorRun.mock_waitset.
#[local] Existing Instance demo_doc.
#[local] Existing Instance demo_laws.

(** Only its name matters here. *)
Definition parameter_codec : Message Params.RclParameter := {|
  dds_name := lit "rcl_interfaces::msg::dds_::Parameter_";
  serialize m w := w;
  deserialize st := Ok (None, st)
|}.
#[local] Existing Instance parameter_codec.

Definition demo_classes : list (bytes * NodeRegistry.NodeFactory NodeDemo.NodeFactory) := abc_classes 64 true 0.
Definition demo_registry : list (bytes * NodeRegistry.NodeFactory NodeDemo.NodeFactory) := static_init demo_classes.

Definition abc_launch : outcome (list RawPublisher) * Impl NodeDemo.NodeFactory ExecutorRun.MockWaitset :=
  GraphExecutor_ctor 64 true 0 (fun _ => 0%Z) (fun _ => ([], [])) [] (CreateByName demo_registry) kTopology start.

(** The topics of the pipeline, in the order they are created; the executor has
    the entities of NodeB and NodeC. *)
Example abc_launched :
  fst abc_launch = Ok [] /\
  omap (fun k => match k with KTopic t => if bool_decide (t = lit "ros_discovery_info") then None else Some t | _ => None end)
    (nf_created (g_fac (snd abc_launch))) =
    [lit "rt/counter"; lit "rt/sum"; lit "rt/counter"; lit "rt/sum"] /\
  map (fun e => (ge_fq_name e, length (Executor.entities_ (Executor.heap (g_executor (snd abc_launch)) (ge_node e)))))
    (g_nodes (snd abc_launch)) = [(lit "/node_a", 0); (lit "/node_b", 1); (lit "/node_c", 1)].
Proof. split; [vm_compute; reflexivity|]. split; vm_compute; reflexivity. Qed.

(** A class of the pipeline by its qualified name, and one that is not linked in. *)
Lemma classes_by_name_witness :
  build_object 64 true 0 (CreateByName demo_registry) (obj [("class", s "::NodeA")]%string) (lit "n") (lit "/") start =
    on_gfac (NodeA_ctor 64 true 0 (lit "n") (lit "/")) start /\
  build_object 64 true 0 (CreateByName demo_registry) (obj [("class", s "NodeD")]%string) (lit "n") (lit "/") start =
    (Throw InvalidArguments, start).
Proof.
  assert (Hnd : NoDup (map (fun c => unqualified (fst c)) demo_classes)) by decide_closed. split.
  - destruct (classes_by_name (R := list (bytes * NodeRegistry.NodeFactory NodeDemo.NodeFactory)) 64 true 0 demo_classes demo_classes
      (obj [("class", s "::NodeA")]%string) (lit "::NodeA") (lit "n") (lit "/") start Hnd (Permutation_refl _)) as (Hc & _ & _);
      [vm_compute; reflexivity|vm_compute; reflexivity|].
    refine (Hc (lit "NodeA", NodeA_ctor 64 true 0) _ _); [by left|vm_compute; reflexivity].
  - destruct (classes_by_name (R := list (bytes * NodeRegistry.NodeFactory NodeDemo.NodeFactory)) 64 true 0 demo_classes demo_classes
      (obj [("class", s "NodeD")]%string) (lit "NodeD") (lit "n") (lit "/") start Hnd (Permutation_refl _)) as (_ & Hu & _);
      [vm_compute; reflexivity|vm_compute; reflexivity|].
    apply Hu. decide_closed.
Defined.
