(* ===== verification/ExampleMains.v ===== *)
(** The [main] functions of the example programs (src/examples/) up to where
    they spin or return: the node, its endpoint and the loop of the program, on
    one CycloneDDS.  The destruction of the node at the end of [main] is the one
    of GraphTeardown.v. *)
From Stdlib Require Import ZArith Lia Strings.Byte.
From stdpp Require Import base tactics list numbers sets.
From S2P Require Import Prelude Bytes Cdr Message Names Qos RawSerdata DdsConfig Dds MockDds Pubsub NodeCtor Examples.
From S2P Require Executor Graph Params.
Import Params (RclParameter, RclParameterValue).

(** The writer of a handle keeps the laws of [DdsWriter]. *)
Definition writer_at_laws {F} `{DdsNodesLaws F} (h : Z) : DdsWriterLaws F (H := writer_at h).
Proof.
  refine (@Build_DdsWriterLaws F (writer_at h) (fun f => written_on f h) _).
  intros d w rc w' E. by destruct (write_on_spec h d w rc w' E).
Defined.

Section mains.
Context {F : Type} `{DdsFactory F} `{!DdsNodes F} `{Message Graph.ParticipantEntitiesInfo} `{Message RclParameter}.
Variable iov_len_bits : Z.
Variable qos_created : bool.
(** [Context::instance().domain_id()]. *)
Variable domain_id : Z.

(** [std::make_shared<rcl::Node>(name)], in the root namespace; its entity list
    is empty. *)
Definition make_node (name : bytes) : stM F NodeObj := Node_ctor iov_len_bits qos_created name (lit "/") domain_id.

Definition on_node {A} (node : NodeObj) (m : stM (World F) A) : stM F (A * Executor.Node) := fun f =>
  let (o, w) := m (mk_world f (Executor.mk_node [] 0 (change_guard_ node))) in
  (let* a := o in Ok (a, plumbing w), fac w).

Definition with_node {A} (name : bytes) (body : NodeObj -> stM (World F) A) : stM F (A * Executor.Node) :=
  let* node := make_node name in on_node node (body node).

(** [argument] is [std::atoi(argv[1])]. *)
Definition talker_main (argument : option Z) (fuel : nat) : stM F ((option unit * list bytes) * Executor.Node) :=
  let max_count := match argument with Some v => talker_max_count v | None => 0 end in
  with_node (lit "talker") (fun node =>
    let* pub := create_publisher qos_created (ns_ node) (lit "chatter") (dds_name RclParameter) Default in
    on_fac (talker_loop (W := F) (H0 := writer_at pub) iov_len_bits fuel max_count 0)).

(** Up to [rcl::spin]: the reader and its condition. *)
Definition listener_main : stM F ((Z * Z) * Executor.Node) :=
  with_node (lit "listener") (fun node =>
    create_subscription qos_created (ns_ node) (lit "chatter") (dds_name RclParameter) Default 0).

(** [types]: the DDS names of the request and the response of GetParameters. *)
Definition service_server_main (types : bytes * bytes) : stM F ((((Z * Z) * Z) * list bytes) * Executor.Node) :=
  with_node (lit "get_parameters_server") (fun node =>
    let* srv := create_service qos_created (ns_ node) (lit "get_parameters") (fst types) (snd types) Services 0 in
    mret (srv, [lit "ready: ros2 service call /get_parameters rcl_interfaces/srv/GetParameters " ++
                [x22] ++ lit "{names: [hello]}" ++ [x22]])).

(** [available] is what [wait_for_service] returned; [call] is [Client::call]
    with the executor spinning on its own thread; the lines and the exit code. *)
Definition service_client_main (types : bytes * bytes) (available : Z * (Z * Z) -> outcome (option bool))
  (call : Z * (Z * Z) -> list bytes -> stM F (list RclParameterValue))
  : stM F (option (list bytes * Z) * Executor.Node) :=
  with_node (lit "get_parameters_client") (fun node =>
    let* client := create_client qos_created (ns_ node) (lit "get_parameters") (fst types) (snd types) Services 0 in
    let* ready := st_lift (available client) in
    match ready with
    | None => mret None
    | Some false => mret (Some ([lit "service not available"], 1%Z))
    | Some true =>
        let names := [lit "speed"; lit "name"] in
        let* values := on_fac (call client names) in
        let* lines := st_lift (client_print names values) in
        mret (Some (lines, 0%Z))
    end).
End mains.

(* ------------------------------------------------------------------ *)
(** * What the programs do *)

Section mains_facts.
Context {F : Type} `{DdsNodesLaws F} `{Message Graph.ParticipantEntitiesInfo} `{MessageLaws RclParameter}.
Variable bits : Z.
Variable c : bool.
Variable domain_id : Z.

Lemma make_node_ns name (f f' : F) n : make_node bits c domain_id name f = (Ok n, f') -> ns_ n = lit "/".
Proof.
  unfold make_node, Node_ctor. intros Hn.
  repeat (apply st_bind_inv_Ok in Hn as (? & ? & _ & Hn)). by injection Hn as <- _.
Qed.

Lemma with_node_inv {A} name (body : NodeObj -> stM (World F) A) (f f' : F) a node :
  with_node bits c domain_id name body f = (Ok (a, node), f') ->
  exists n f1 w, ns_ n = lit "/" /\ body n (mk_world f1 (Executor.mk_node [] 0 (change_guard_ n))) = (Ok a, w) /\
    plumbing w = node /\ fac w = f'.
Proof.
  intros Hw. apply st_bind_inv_Ok in Hw as (n & f1 & Hn & Hw). exists n, f1. unfold on_node in Hw.
  destruct (body n _) as [[b|e|] w]; [|done..]. injection Hw as <- <- <-. exists w.
  split; [by eapply make_node_ns|done].
Qed.

Lemma on_world_inv {A} (m : stM F A) (w w' : World F) a :
  on_fac m w = (Ok a, w') -> m (fac w) = (Ok a, fac w') /\ plumbing w' = plumbing w.
Proof. unfold on_fac. destruct (m (fac w)) as [o f]. by intros [= -> <-]. Qed.
End mains_facts.

(** The talker publishes on the topic rt/chatter: with a positive argument, when
    it returns it has created that topic and its writer, the writer has accepted
    exactly the messages of the loop, in order, and the lines say so; the node
    has nothing to wait for. *)
Theorem talker_main_runs {F} `{DdsNodesLaws F} `{Message Graph.ParticipantEntitiesInfo} `{MessageLaws RclParameter}
    (bits : Z) (c : bool) (domain_id v : Z) (fuel : nat) (f f' : F) (r : option unit * list bytes) (node : Executor.Node) :
  (0 < v < 2 ^ 31)%Z -> Z.to_nat v < fuel -> Forall (payload_fits bits) (talker_messages (Z.to_nat v)) ->
  talker_main bits c domain_id (Some v) fuel f = (Ok (r, node), f') ->
  r = (Some tt, map talker_line (seq 0 (Z.to_nat v))) /\ Executor.entities_ node = [] /\
  exists pub f1 before, created f1 = before ++ [KTopic (lit "rt/chatter"); KWriter] /\
    written_on f' pub = written_on f1 pub ++ map serdata_of (talker_messages (Z.to_nat v)).
Proof.
  intros Hv Hfuel Hfit Hrun. unfold talker_main in Hrun.
  apply with_node_inv in Hrun as (n & f1 & w & Hns & Hrun & <- & <-). rewrite Hns in Hrun.
  apply st_bind_inv_Ok in Hrun as (pub & w1 & Hpub & Hrun). apply on_world_inv in Hrun as [Hrun Hpl].
  unfold create_publisher in Hpub. change (expand_topic_name (lit "chatter") (lit "/")) with (Ok (lit "/chatter")) in Hpub.
  apply st_bind_inv_Ok in Hpub as (fqn & w0 & Hfqn & Hpub). injection Hfqn as <- <-.
  apply on_world_inv in Hpub as [Hpub Hpl1]. cbn [fac plumbing] in *.
  pose proof (Publisher_ctor_makes c (lit "/chatter") (dds_name RclParameter) Default f1) as Hm.
  rewrite Hpub in Hm. destruct Hm as [Hcr _].
  assert (Hu : talker_max_count v = Z.to_nat v) by (unfold talker_max_count, u64; rewrite uwrap_small; [done|unfold in_u; lia]).
  rewrite Hu in Hrun.
  rewrite (talker_loop_spec (H1 := writer_at pub) bits (Z.to_nat v) (Z.to_nat v) fuel 0 (fac w1)) in Hrun by lia.
  fold (talker_messages (Z.to_nat v)) in Hrun.
  destruct (st_iter _ (talker_messages (Z.to_nat v)) (fac w1)) as [[[]|e|] f2] eqn:Ep; [|done..].
  injection Hrun as <- <-. split; [done|]. split; [by rewrite Hpl, Hpl1|].
  exists pub, (fac w1), (created f1). split; [exact Hcr|].
  exact (publish_all_written (H1 := writer_at_laws pub) bits _ _ _ Hfit Ep).
Qed.

Definition asked_names : list bytes := [lit "speed"; lit "name"].

(** The service client waits with its own client object, registered with the node
    on the request and reply topics of the service server: without a server it says so
    and exits with 1, having sent nothing; otherwise it makes one call, prints a
    line for each of the two names and exits with 0, which takes a response
    with at least two values. *)
Theorem service_client_runs {F} `{DdsNodesLaws F} `{Message Graph.ParticipantEntitiesInfo}
    (bits : Z) (c : bool) (domain_id : Z) (types : bytes * bytes) (available : Z * (Z * Z) -> outcome (option bool))
    (call : Z * (Z * Z) -> list bytes -> stM F (list RclParameterValue))
    (f f' : F) (r : option (list bytes * Z)) (node : Executor.Node) :
  service_client_main bits c domain_id types available call f = (Ok (r, node), f') ->
  exists client f1 before, created f1 = before ++ client_plan (lit "/get_parameters") /\
    Executor.entities_ node = [Executor.mk_entity 0 (snd (snd client))] /\
    match available client with
    | Ok (Some false) => r = Some ([lit "service not available"], 1%Z) /\ f' = f1
    | Ok (Some true) => exists values lines, call client asked_names f1 = (Ok values, f') /\ 2 <= length values /\
        length lines = 2 /\ client_print asked_names values = Ok lines /\ r = Some (lines, 0%Z)
    | Ok None => r = None
    | _ => False
    end.
Proof.
  intros Hrun. apply with_node_inv in Hrun as (n & f1 & w & Hns & Hrun & <- & <-). rewrite Hns in Hrun.
  apply st_bind_inv_Ok in Hrun as (client & w1 & Hcli & Hrun).
  pose proof (creates_waitable (lit "get_parameters") (lit "/")
    (fun fqn => Client_ctor c fqn (fst types) (snd types) Services) client_plan
    (fun cli => Executor.mk_entity 0 (snd (snd cli))) (mk_world f1 (Executor.mk_node [] 0 (change_guard_ n)))
    (fun fqn => Client_ctor_makes c fqn _ _ _)) as Hcr.
  unfold creates in Hcr. unfold create_client in Hcli. rewrite Hcli in Hcr.
  destruct Hcr as (fqn & Hfqn & Hcr & _ & Hpl). injection Hfqn as <-. cbn [fac plumbing] in *.
  exists client, (fac w1), (created f1). split; [exact Hcr|].
  apply st_bind_inv_Ok in Hrun as (ready & w2 & Hr & Hrun). unfold st_lift in Hr. injection Hr as Hr ->. rewrite Hr.
  destruct ready as [[|]|].
  - apply st_bind_inv_Ok in Hrun as (values & w3 & Hcall & Hrun). apply on_world_inv in Hcall as [Hcall Hpl2].
    apply st_bind_inv_Ok in Hrun as (lines & w4 & Hlines & Hrun). unfold st_lift in Hlines. injection Hlines as Hlines ->.
    injection Hrun as <- <-. split; [by rewrite Hpl2, Hpl|]. exists values, lines. split; [exact Hcall|].
    pose proof Hlines as Hp. fold asked_names in Hp. unfold client_print in Hlines. rewrite client_loop_spec in Hlines by lia.
    case_decide as Hlen; [|done]. injection Hlines as Hl. split; [exact Hlen|]. split; [|done].
    destruct values as [|v1 [|v2 values]]; simpl in Hlen; [lia|lia|]. by rewrite <- Hl.
  - injection Hrun as <- <-. split; [by rewrite Hpl|done].
  - injection Hrun as <- <-. split; [by rewrite Hpl|done].
Qed.

(** The service server and the listener: one entity each, on the topics of the
    client and of the talker. *)
Theorem waiting_mains {F} `{DdsNodesLaws F} `{Message Graph.ParticipantEntitiesInfo} `{Message RclParameter}
    (bits : Z) (c : bool) (domain_id : Z) (types : bytes * bytes) (f f' : F) :
  (forall srv out node, service_server_main bits c domain_id types f = (Ok ((srv, out), node), f') ->
     Executor.entities_ node = [Executor.mk_entity 0 (snd (fst srv))] /\ length out = 1 /\
     exists before, created f' = before ++ service_plan (lit "/get_parameters")) /\
  (forall sub node, listener_main bits c domain_id f = (Ok (sub, node), f') ->
     Executor.entities_ node = [Executor.mk_entity 0 (snd sub)] /\
     exists before, created f' = before ++ [KTopic (lit "rt/chatter"); KReader; KReadCondition]) /\
  (forall t, KTopic t ∈ client_plan (lit "/get_parameters") <-> KTopic t ∈ service_plan (lit "/get_parameters")).
Proof.
  split_and!.
  - intros srv out node Hrun. apply with_node_inv in Hrun as (n & f1 & w & Hns & Hrun & <- & <-). rewrite Hns in Hrun.
    apply st_bind_inv_Ok in Hrun as (srv' & w1 & Hsrv & Hrun). injection Hrun as <- <- <-.
    pose proof (creates_waitable (lit "get_parameters") (lit "/")
      (fun fqn => Service_ctor c fqn (fst types) (snd types) Services) service_plan
      (fun s => Executor.mk_entity 0 (snd (fst s))) (mk_world f1 (Executor.mk_node [] 0 (change_guard_ n)))
      (fun fqn => Service_ctor_makes c fqn _ _ _)) as Hcr.
    unfold creates in Hcr. unfold create_service in Hsrv. rewrite Hsrv in Hcr.
    destruct Hcr as (fqn & Hfqn & Hcr & _ & Hpl). injection Hfqn as <-. cbn [fac plumbing] in *.
    rewrite Hpl. split; [done|]. split; [done|]. by exists (created f1).
  - intros sub node Hrun. apply with_node_inv in Hrun as (n & f1 & w & Hns & Hrun & <- & <-). rewrite Hns in Hrun.
    pose proof (creates_waitable (lit "chatter") (lit "/")
      (fun fqn => Subscription_ctor c fqn (dds_name RclParameter) Default) subscription_plan
      (fun s => Executor.mk_entity 0 (snd s)) (mk_world f1 (Executor.mk_node [] 0 (change_guard_ n)))
      (fun fqn => Subscription_ctor_makes c fqn _ _)) as Hcr.
    unfold creates in Hcr. unfold create_subscription in Hrun. rewrite Hrun in Hcr.
    destruct Hcr as (fqn & Hfqn & Hcr & _ & Hpl). injection Hfqn as <-. cbn [fac plumbing] in *.
    rewrite Hpl. split; [done|]. by exists (created f1).
  - intros t. unfold client_plan, service_plan. rewrite !elem_of_cons. naive_solver.
Qed.

(** On the test double: the talker with an argument of two, and a client that
    finds no server. *)
Section demo.
Import NodeDemo.

(** A codec that writes the name of a parameter. *)
Local Instance name_codec : Message RclParameter := {|
  dds_name := lit "rcl_interfaces::msg::dds_::Parameter_";
  serialize m := CdrWriter.write_string (Params.p_name m);
  deserialize st := Ok (None, st)
|}.

Example talker_prints_two :
  fst (talker_main (F := NodeFactory) 64 true 0 (Some 2%Z) 3 (fresh [] 0)) =
  Ok ((Some tt, [lit "publishing: 'Hello, world! 0'"; lit "publishing: 'Hello, world! 1'"]), Executor.mk_node [] 0 100).
Proof. vm_compute. reflexivity. Qed.

Example client_without_server :
  fst (service_client_main (F := NodeFactory) 64 true 0 (lit "Req", lit "Resp")
    (fun _ => Ok (Some false)) (fun _ _ => mret []) (fresh [] 0)) =
  Ok (Some ([lit "service not available"], 1%Z), Executor.mk_node [Executor.mk_entity 0 111] 1 100).
Proof. vm_compute. reflexivity. Qed.
End demo.
