(* ===== verification/EndToEnd.v ===== *)
(** Compositions across components: what one end of the library hands to
    CycloneDDS is what the other end makes of it.  The transport is a hypothesis
    on the queue of the reader: the samples the writer accepted, in order. *)
From Stdlib Require Import ZArith Lia Strings.Byte.
From stdpp Require Import base tactics list numbers gmap.
From S2P Require Import Prelude Bytes Message RawSerdata Dds MockDds NodeCtor.
From S2P Require Executor ExecutorRun Graph Ffi FfiFacts FfiThreads FfiSafety GraphExecutor GraphExecutorFacts.

(** A queue with the samples a writer accepted since it had accepted [old]. *)
Definition transported {R} `{DdsReader R} `{!DdsReaderLaws R} (old new : list RawSerdata) (r : R) : Prop :=
  reader_ok r /\ pending r = map (fun d => (d, mk_info true)) (drop (length old) new).

(* ------------------------------------------------------------------ *)
(** * From pub_publish to a callback *)

Section bindings.
Import Ffi FfiFacts FfiThreads FfiSafety.
Context {F E Cb : Type} `{DdsNodesLaws F} `{Executor.DdsWaitset E}.
Implicit Types s : Ffi F E Cb.
Variable bits : Z.
Variable order : gmap Z nat -> list (Z * nat).
Hypothesis order_perm : forall m, order m ≡ₚ map_to_list m.

Definition published_serdata (p : PubEntry) (payload : bytes) : RawSerdata :=
  mk_serdata (Some (create_raw_sertype (pub_type p))) (padded payload).

Lemma publish_accepted h p payload s s' :
  ffi_inv s -> handles_ok s -> publisher s h p -> in_u bits (Z.of_nat (length payload)) ->
  PubPublish_ bits order h payload s = (Ok tt, s') ->
  exists f, s' = set_fac f s /\
    written_on f (pub_writer p) = written_on (fac s) (pub_writer p) ++ [published_serdata p payload].
Proof.
  intros Hi Hk (n & a & e & Hn & He & Hp) Hl Hpub.
  destruct (PubPublish_spec order order_perm bits h payload s Hi) as [[Hno _]|(p' & (n' & a' & e' & Hn' & He' & Hp') & Hr)].
  { by rewrite (Hno n a e Hn He) in Hp. }
  assert (SPub a = SPub a') as [= <-] by (apply (handle_unique s Hk h); simpl; eauto 6).
  rewrite He in He'. injection He' as <-. rewrite Hp in Hp'. injection Hp' as <-. rewrite Hr in Hpub.
  destruct (check_cdr_payload payload) as [u|x|]; [|done|done].
  apply st_bind_inv_Ok in Hpub as (sent & s1 & Hw & Hs). apply on_fac_inv in Hw as (f & Hw & ->).
  rewrite (Writer_write_run bits (pub_writer p) (pub_type p) payload (fac s) Hl) in Hw.
  fold (published_serdata p payload) in Hw.
  destruct (write_on (pub_writer p) (published_serdata p payload) (fac s)) as [rc f'] eqn:Ew. injection Hw as <- <-.
  destruct (write_on_spec _ _ _ _ _ Ew) as [_ Hwr]. destruct (rc =? 0)%Z; [|done]. injection Hs as <-. by exists f'.
Qed.

Lemma publisher_set_fac f s h p : publisher s h p -> publisher (set_fac f s) h p.
Proof. done. Qed.

Lemma publish_all_accepted h p payloads : forall s s',
  ffi_inv s -> handles_ok s -> publisher s h p -> Forall (fun x => in_u bits (Z.of_nat (length x))) payloads ->
  st_iter (PubPublish_ bits order h) payloads s = (Ok tt, s') ->
  written_on (fac s') (pub_writer p) = written_on (fac s) (pub_writer p) ++ map (published_serdata p) payloads.
Proof.
  induction payloads as [|x payloads IH]; intros s s' Hi Hk Hp Hl Hpub.
  - injection Hpub as <-. by rewrite app_nil_r.
  - inversion_clear Hl as [|? ? Hx Hl']. cbn [st_iter] in Hpub. apply st_bind_inv_Ok in Hpub as ([] & s1 & Hone & Hpub).
    destruct (publish_accepted h p x s s1 Hi Hk Hp Hx Hone) as (f & -> & Hw).
    assert (Hk1 : handles_ok (set_fac f s)) by (destruct Hk; split; done).
    rewrite (IH _ _ (inv_fac f s Hi) Hk1 (publisher_set_fac f s h p Hp) Hl' Hpub). simpl. by rewrite Hw, <- app_assoc.
Qed.
End bindings.

(** C26: what Python publishes is what Python receives: a sequence of pub_publish
    calls that return, on one publisher in any reachable state of the bindings,
    hands to CycloneDDS samples which, brought in order to the queue of an open
    raw subscription, are given to its callback: each payload once, in the order
    of publication, followed by at most three zero bytes, until the callback
    closes the subscription; the queue is drained. *)
Theorem raw_publish_reaches_callback {F E Cb R U} `{DdsNodesLaws F} `{Executor.DdsWaitset E} `{DdsReaderLaws R}
    `{Message Graph.ParticipantEntitiesInfo} (bits : Z) (qc : bool) (dom : Z) (nw : Z -> E)
    (order : gmap Z nat -> list (Z * nat)) (f : F) (hs : list Z) (s s' : Ffi.Ffi F E Cb) (h : Z) (p : Ffi.PubEntry)
    (payloads : list bytes) (is_closed : U -> bool) (callback : bytes -> stM U unit) (r : R) (u : U) (fuel : nat) :
  (forall m, order m ≡ₚ map_to_list m) ->
  Ffi.ffi_run bits qc dom nw order (Ffi.ffi_init f) hs s -> FfiFacts.publisher s h p ->
  Forall (fun x => in_u bits (Z.of_nat (length x))) payloads ->
  st_iter (Ffi.PubPublish_ bits order h) payloads s = (Ok tt, s') ->
  transported (written_on (Ffi.fac s) (Ffi.pub_writer p)) (written_on (Ffi.fac s') (Ffi.pub_writer p)) r ->
  length payloads / 16 < fuel -> (forall x u, defined (fst (callback x u))) -> is_closed u = false ->
  exists r', Ffi.SubEntry_dispatch is_closed callback fuel (mk_taking r u 0) =
      (Ok (Some (Z.of_nat (length payloads))),
       mk_taking r' (FfiSafety.call_while_open is_closed callback (map padded payloads) u) (length payloads)) /\
    pending r' = [] /\
    Forall (fun x => exists k, k <= 3 /\ padded x = x ++ replicate k x00) payloads.
Proof.
  intros Ho Hrun Hp Hl Hpub [Hr Hq] Hf Hd Hc.
  destruct (FfiThreads.ffi_run_ok order Ho bits qc dom nw _ _ _ (FfiFacts.inv_init f) (FfiThreads.handles_init f) Hrun) as (Hi & Hk & _).
  rewrite (publish_all_accepted bits order Ho h p payloads s s' Hi Hk Hp Hl Hpub), drop_app_length, map_map in Hq.
  assert (Hlen : length (pending r) = length payloads) by by rewrite Hq, length_map.
  assert (Hv : FfiSafety.valid_payloads (pending r) = map padded payloads).
  { rewrite Hq. clear. induction payloads as [|x l IH]; [done|]. simpl. by rewrite IH. }
  unfold Ffi.SubEntry_dispatch. rewrite (st_bind_Ok st_get _ _ _ _ eq_refl). cbn [user]. rewrite Hc.
  destruct (Reader_take_all (Ffi.SubEntry_on_sample is_closed callback) fuel 0 (mk_taking r u 0) _ Hr ltac:(simpl; by rewrite Hlen)
              (FfiSafety.deliver_raw is_closed callback _ _ Hd)) as (r' & Et & Hp' & _).
  exists r'. simpl in Et. rewrite Hlen, Hv in Et. split; [exact Et|]. split; [exact Hp'|].
  apply Forall_forall. intros x _. unfold padded. eexists. split; [|done].
  pose proof (Z.mod_pos_bound (- Z.of_nat (length x)) 4 ltac:(lia)). lia.
Qed.

(* ------------------------------------------------------------------ *)
(** * From a launched publisher to a launched subscription *)

Section launcher.
Import GraphExecutor GraphExecutorFacts.
Context {R : Type} `{DdsReaderLaws R}.

Lemma deliver_counts (q : list sample) : forall n : Z, in_u 64 n ->
  st_iter (deliver count_received) q n =
    (Ok tt, u64 (n + Z.of_nat (length (filter (fun x => valid_data (snd x) = true) q)))).
Proof.
  induction q as [|[d i] q IH]; intros n Hn.
  - simpl. f_equal. rewrite Z.add_0_r. symmetry. by apply uwrap_small.
  - cbn [st_iter]. rewrite filter_cons.
    assert (Hone : deliver count_received (d, i) n = (Ok tt, if valid_data i then u64 (n + 1) else n)).
    { unfold deliver, count_received. simpl. by destruct (valid_data i). }
    rewrite (st_bind_Ok _ _ _ _ _ Hone). simpl snd. destruct (valid_data i); [rewrite decide_True by done|rewrite decide_False by done].
    + rewrite IH by (by apply uwrap_range). f_equal. simpl length.
      unfold u64, uwrap. rewrite Zplus_mod_idemp_l. f_equal. by rewrite Nat2Z.inj_succ, <- Z.add_1_l, Z.add_assoc.
    + by apply IH.
Qed.

Lemma all_valid (ds : list RawSerdata) :
  filter (fun x : sample => valid_data (snd x) = true) (map (fun d => (d, mk_info true)) ds) = map (fun d => (d, mk_info true)) ds.
Proof. induction ds as [|d ds IH]; [done|]. cbn [map]. rewrite filter_cons, decide_True by done. f_equal. exact IH. Qed.

Lemma raw_subscription_counts fuel (r : R) (n : Z) :
  in_u 64 n -> reader_ok r -> length (pending r) / 16 < fuel ->
  exists r', RawSubscription_dispatch fuel (mk_taking r n 0) =
      (Ok (Some (Z.of_nat (length (pending r)))),
       mk_taking r' (u64 (n + Z.of_nat (length (filter (fun x => valid_data (snd x) = true) (pending r))))) (length (pending r))) /\
    pending r' = [].
Proof.
  intros Hn Hr Hf. unfold RawSubscription_dispatch.
  destruct (Reader_take_all count_received fuel 0 (mk_taking r n 0) _ Hr Hf (deliver_counts (pending r) n Hn)) as (r' & E & Hp & _).
  exists r'. simpl in E. by split.
Qed.
End launcher.

(** C28: a launched publisher and a launched subscription agree: whatever a
    periodic publisher's thread counts in [published] until it is stopped, a raw
    subscription that the transport brought these samples to counts in [received],
    one round of dispatch included, and drains its queue; both counters are
    64 bits wide and wrap alike. *)
Theorem published_is_received {F R} `{DdsNodesLaws F} `{DdsReaderLaws R} (bits : Z) (running : nat -> bool) (n fuel : nat)
    (p : GraphExecutor.RawPublisher) (f : F) :
  in_u bits (Z.of_nat (length (GraphExecutor.rp_payload p))) -> GraphExecutor.published p = 0%Z ->
  (forall j, j < n -> running j = true) -> running n = false -> n < fuel ->
  exists p' f', GraphExecutor.publisher_thread bits running fuel 0 p f = (Ok (Some p'), f') /\
    forall (r : R) (take_fuel : nat),
      transported (written_on f (GraphExecutor.rp_writer p)) (written_on f' (GraphExecutor.rp_writer p)) r ->
      n / 16 < take_fuel ->
      exists r' k, GraphExecutor.RawSubscription_dispatch take_fuel (mk_taking r 0%Z 0) =
          (Ok (Some (Z.of_nat k)), mk_taking r' (GraphExecutor.published p') k) /\ pending r' = [].
Proof.
  intros Hl H0' Hrun Hstop Hf.
  destruct (GraphExecutorFacts.publisher_thread_spec bits running n fuel 0 p f Hl ltac:(by rewrite H0') ltac:(intros; apply Hrun; lia)
              Hstop Hf) as (k & p' & f' & Hk & Ht & _ & Hpub & Hw).
  exists p', f'. split; [exact Ht|]. intros r tf [Hr Hq] Htf. rewrite Hw, drop_app_length in Hq.
  assert (Hlen : length (pending r) = k) by (by rewrite Hq, length_map, length_replicate).
  destruct (raw_subscription_counts tf r 0 ltac:(done) Hr) as (r' & E & Hp).
  { rewrite Hlen. eapply Nat.le_lt_trans; [|exact Htf]. by apply Nat.Div0.div_le_mono. }
  exists r', k. split; [|exact Hp]. rewrite E, Hlen, Hpub, H0'. do 3 f_equal.
  rewrite Hq, all_valid, length_map, length_replicate. done.
Qed.

(* ------------------------------------------------------------------ *)
(** * On the test double *)

Module EndDemo.
Import Ffi FfiFacts FfiThreads FfiSafety.FfiDemo NodeCtor.NodeDemo.
#[export] Existing Instance ExecutorRun.mock_waitset.

(** The talker of FfiSafety.v publishes twice on its publisher, handle 2. *)
Definition chatter : PubEntry :=
  match pubs (talker after_setup) !! 2%Z with Some p => p | None => mk_pub [] [] 0 end.
Definition payloads : list bytes := [[x00; x01; x00; x00; x2a]; [x00; x01; x00; x00]].
Definition publishing : outcome unit * Process := st_iter (PubPublish_ 64 hash_order 2) payloads after_setup.
Definition queue : ReaderState := mk_reader_state true (map padded payloads) (create_raw_sertype (pub_type chatter)).

Lemma chatter_publisher : publisher after_setup 2 chatter.
Proof.
  exists 1%Z, 0, (talker after_setup).
  assert (Hp : bool_decide (is_Some (pubs (talker after_setup) !! 2%Z)) = true) by (vm_compute; reflexivity).
  apply bool_decide_eq_true in Hp as [p Hp].
  split; [vm_compute; reflexivity|]. split; [apply talker_entry; vm_compute; reflexivity|]. unfold chatter. by rewrite Hp.
Qed.

Lemma queue_transported :
  transported (written_on (fac after_setup) (pub_writer chatter)) (written_on (fac (snd publishing)) (pub_writer chatter)) queue.
Proof. split; vm_compute; reflexivity. Qed.

Definition log (p : bytes) : stM (list bytes) unit := st_modify (fun u => u ++ [p]).

(** A publisher of the launcher with a writer that accepts, and what a reader
    gets of three rounds. *)
Definition periodic : GraphExecutor.RawPublisher :=
  GraphExecutor.mk_raw_publisher (lit "/chatter") (lit "T") 101 GraphExecutor.default_payload 1 0.
Definition rounds : nat -> bool := fun i => (i <? 3)%nat.
Definition counted_queue : ReaderState :=
  mk_reader_state true (replicate 3 GraphExecutor.default_payload) (create_raw_sertype (lit "T")).
End EndDemo.
Import NodeCtor.NodeDemo EndDemo.

Lemma raw_publish_reaches_callback_witness :
  exists r', Ffi.SubEntry_dispatch (fun _ => false) log 1 (mk_taking queue [] 0) =
    (Ok (Some 2%Z), mk_taking r' [[x00; x01; x00; x00; x2a; x00; x00; x00]; [x00; x01; x00; x00]] 2) /\ pending r' = [].
Proof.
  assert (Hs : publishing = (Ok tt, snd publishing)) by (apply pair_eq; vm_compute; reflexivity).
  destruct (raw_publish_reaches_callback 64 true 0 FfiSafety.FfiDemo.new_waitset FfiSafety.FfiDemo.hash_order
              (NodeDemo.fresh [] 0) [1; 2; 3; 4]%Z FfiSafety.FfiDemo.after_setup (snd publishing) 2 chatter payloads
              (fun _ => false) log queue [] 1) as (r' & E & Hp & _).
  - exact FfiSafety.FfiDemo.hash_order_perm.
  - exact FfiSafety.FfiDemo.setup_run.
  - exact chatter_publisher.
  - repeat constructor; simpl; lia.
  - exact Hs.
  - exact queue_transported.
  - vm_compute. lia.
  - intros x u. discriminate.
  - reflexivity.
  - exists r'. split; [exact E|exact Hp].
Defined.

Lemma published_is_received_witness :
  exists p' f', GraphExecutor.publisher_thread 64 rounds 4 0 periodic (NodeDemo.fresh [] 0) = (Ok (Some p'), f') /\
    GraphExecutor.published p' = 3%Z /\
    exists r' k, GraphExecutor.RawSubscription_dispatch 1 (mk_taking counted_queue 0%Z 0) =
      (Ok (Some (Z.of_nat k)), mk_taking r' (GraphExecutor.published p') k).
Proof.
  destruct (published_is_received (R := ReaderState) 64 rounds 3 4 periodic (NodeDemo.fresh [] 0)) as (p' & f' & E & Hr).
  - split; vm_compute; done.
  - reflexivity.
  - intros j Hj. by apply Nat.ltb_lt.
  - reflexivity.
  - lia.
  - exists p', f'. split; [exact E|]. vm_compute in E. injection E as <- <-. split; [reflexivity|].
    destruct (Hr counted_queue 1) as (r' & k & Ed & _); [split; vm_compute; reflexivity|vm_compute; lia|].
    exists r', k. exact Ed.
Defined.
