(* ===== verification/DebugRaw.v ===== *)
(** The debug tool (src/tools/debug_raw.cpp): it takes from a raw reader every
    200 ms until its deadline and dumps the payloads. *)
From Stdlib Require Import ZArith Lia Strings.Byte.
From stdpp Require Import base tactics list numbers.
From S2P Require Import Prelude Bytes Cdr Message Qos RawSerdata DdsConfig Dds MockDds Json.

(** [printf(" %02x", b)]. *)
Definition hex_byte (b : byte) : bytes :=
  lit " " ++ [hex_digit (Z.shiftr (Z_of_byte b) 4); hex_digit (Z.land (Z_of_byte b) 0xf)].

(** The loop over [p[i]] for [i < n && i < 160]. *)
Fixpoint dump_bytes (p : bytes) (i : nat) (fuel : nat) : bytes :=
  match fuel with
  | O => []
  | S fuel =>
      match p !! i with
      | Some b => hex_byte b ++ dump_bytes p (S i) fuel
      | None => []
      end
  end.

(** [count] and the lines printed. *)
Definition dump_state : Type := nat * list bytes.

Definition sample_line (count : nat) (p : bytes) : bytes :=
  lit "sample " ++ to_string (Z.of_nat count) ++ lit " (" ++ to_string (Z.of_nat (length p)) ++ lit " bytes):" ++
  dump_bytes p 0 160.

(** The handler passed to [take]. *)
Definition dump_sample (p : bytes) (_ : dds_sample_info) : stM dump_state unit :=
  st_modify (fun s => (S (fst s), snd s ++ [sample_line (fst s) p])).

(** The arguments: the seconds to run, or the line printed before exit code 1;
    [atoi] is [std::atoi(argv[3])]. *)
Definition arguments (argv0 : bytes) (argc atoi : Z) : Z + bytes :=
  if (argc <? 3)%Z then inr (lit "usage: " ++ argv0 ++ lit " <topic> <dds-type> [seconds]")
  else inl (if (3 <? argc)%Z then atoi else 10%Z).

Section dump.
Context {R : Type} `{DdsReader R}.
(** The successive readings of the steady clock in nanoseconds, and what arrives
    while the program sleeps after its [k]th round. *)
Variable clock : nat -> Z.
Variable arrive : nat -> R -> R.

(** The loop; [take_fuel] bounds the batches of one [take]; [None] when the
    fuel is used up. *)
Fixpoint dump_loop (take_fuel fuel : nat) (deadline : Z) (k : nat) : stM (taking R dump_state) (option unit) :=
  match fuel with
  | O => mret None
  | S fuel =>
      if (clock k <? deadline)%Z then
        let* _ := Reader_take dump_sample take_fuel 0 in
        let* _ := st_modify (fun w => mk_taking (arrive k (rd_ w)) (user w) (unrefs w)) in
        dump_loop take_fuel fuel deadline (S k)
      else mret (Some tt)
  end.

(** [main] from where its reader is open; the exit code. *)
Definition dump_main (seconds : Z) (take_fuel fuel : nat) : stM (taking R dump_state) (option Z) :=
  let deadline := (clock 0 + seconds * 1000000000)%Z in
  let* r := dump_loop take_fuel fuel deadline 1 in
  match r with
  | None => mret None
  | Some _ =>
      let* _ := st_modify (fun w => mk_taking (rd_ w)
                  (fst (user w), snd (user w) ++ [lit "total " ++ to_string (Z.of_nat (fst (user w))) ++ lit " samples"]) (unrefs w)) in
      mret (Some 0%Z)
  end.
End dump.

(* ------------------------------------------------------------------ *)
(** * What is printed *)

Lemma dump_bytes_spec p fuel : forall i, dump_bytes p i fuel = concat (map hex_byte (take fuel (drop i p))).
Proof.
  induction fuel as [|fuel IH]; intros i; simpl; [done|]. destruct (p !! i) as [b|] eqn:E.
  - by rewrite (drop_S _ _ _ E), IH.
  - apply lookup_ge_None in E. by rewrite drop_ge.
Qed.

(** The payloads of the valid samples. *)
Definition dumped (q : list sample) : list bytes :=
  map (fun x => raw_serdata_payload (fst x)) (List.filter (fun x => valid_data (snd x)) q).

(** The lines of [ps] when [n] have been printed before. *)
Definition dump_lines (n : nat) (ps : list bytes) : list bytes := imap (fun i p => sample_line (n + i) p) ps.

Lemma dump_lines_app n ps qs : dump_lines n (ps ++ qs) = dump_lines n ps ++ dump_lines (n + length ps) qs.
Proof.
  unfold dump_lines. rewrite imap_app. f_equal. apply imap_ext. intros i p _. simpl. f_equal. lia.
Qed.

Lemma dump_delivers q : forall s,
  st_iter (deliver dump_sample) q s =
  (Ok tt, (fst s + length (dumped q), snd s ++ dump_lines (fst s) (dumped q))).
Proof.
  induction q as [|x q IH]; intros [n out]; simpl.
  { unfold dump_lines. simpl. by rewrite app_nil_r, Nat.add_0_r. }
  assert (Hd : deliver dump_sample x (n, out) =
    if valid_data (snd x) then (Ok tt, (S n, out ++ [sample_line n (raw_serdata_payload (fst x))])) else (Ok tt, (n, out))).
  { unfold deliver. by destruct (valid_data (snd x)). }
  unfold dumped. simpl. fold (dumped q). destruct (valid_data (snd x)); rewrite (st_bind_Ok _ _ _ _ _ Hd), IH; [|done].
  simpl. fold (dumped q). rewrite <- app_assoc. do 2 f_equal; [lia|]. f_equal.
  unfold dump_lines. simpl. f_equal; [by rewrite Nat.add_0_r|]. apply imap_ext. intros i p _. simpl. f_equal. lia.
Qed.

Section dump_facts.
Context {R : Type} `{DdsReaderLaws R}.
Variable clock : nat -> Z.
Variable arrive : nat -> R -> R.
(** The payloads that arrive after the [k]th round, which left the reader empty. *)
Variable arrived : nat -> list bytes.
Variable take_fuel : nat.
Hypothesis arrive_spec : forall k r, reader_ok r -> pending r = [] ->
  reader_ok (arrive k r) /\ dumped (pending (arrive k r)) = arrived k /\
  length (pending (arrive k r)) / 16 < take_fuel.

(** The payloads of [n] rounds from the [k]th on, of which the first finds [ps]. *)
Fixpoint round_payloads (ps : list bytes) (k n : nat) : list bytes :=
  match n with
  | O => []
  | S n => ps ++ round_payloads (arrived k) (S k) n
  end.

Lemma dump_loop_spec deadline n : forall k fuel (r : R) c out u,
  reader_ok r -> length (pending r) / 16 < take_fuel -> n < fuel ->
  (forall j, k <= j < k + n -> (clock j < deadline)%Z) -> (deadline <= clock (k + n))%Z ->
  let ps := round_payloads (dumped (pending r)) k n in
  exists r' u', dump_loop clock arrive take_fuel fuel deadline k (mk_taking r (c, out) u) =
    (Ok (Some tt), mk_taking r' (c + length ps, out ++ dump_lines c ps) u').
Proof.
  induction n as [|n IH]; intros k [|fuel] r c out u Hr Hq Hf Hc Hd ps; try lia; cbn [dump_loop].
  - rewrite Nat.add_0_r in Hd. rewrite (proj2 (Z.ltb_ge _ _)) by done. exists r, u.
    unfold ps, dump_lines. simpl. by rewrite Nat.add_0_r, app_nil_r.
  - rewrite (proj2 (Z.ltb_lt _ _)) by (apply Hc; lia).
    destruct (Reader_take_all dump_sample take_fuel 0 (mk_taking r (c, out) u)
                (c + length (dumped (pending r)), out ++ dump_lines c (dumped (pending r))) Hr Hq
                (dump_delivers (pending r) (c, out))) as (r1 & E1 & Hp1 & Hr1).
    rewrite (st_bind_Ok _ _ _ _ _ E1). destruct (arrive_spec k r1 Hr1 Hp1) as (Hr2 & Hp2 & Hf2).
    destruct (IH (S k) fuel (arrive k r1) (c + length (dumped (pending r))) (out ++ dump_lines c (dumped (pending r)))
                (u + length (pending r)) Hr2 Hf2) as (r' & u' & E2).
    + lia.
    + intros j Hj. apply Hc. lia.
    + by replace (S k + n) with (k + S n) by lia.
    + exists r', u'. etrans; [exact E2|]. rewrite Hp2. unfold ps. simpl.
      by rewrite length_app, dump_lines_app, <- app_assoc, Nat.add_assoc.
Qed.

(** The tool prints one line for every valid sample that its rounds find, in
    order and numbered from 0 on, with at most 160 bytes of its payload, and the
    number of lines at the end; what arrives after the last round before the
    deadline is not dumped. *)
Theorem debug_raw_dumps seconds n fuel (r : R) :
  reader_ok r -> length (pending r) / 16 < take_fuel -> n < fuel ->
  let deadline := (clock 0 + seconds * 1000000000)%Z in
  (forall j, 1 <= j < 1 + n -> (clock j < deadline)%Z) -> (deadline <= clock (1 + n))%Z ->
  let ps := round_payloads (dumped (pending r)) 1 n in
  exists w', dump_main clock arrive seconds take_fuel fuel (mk_taking r (0, []) 0) = (Ok (Some 0%Z), w') /\
    user w' = (length ps,
      imap (fun i p => lit "sample " ++ to_string (Z.of_nat i) ++ lit " (" ++ to_string (Z.of_nat (length p)) ++
                       lit " bytes):" ++ concat (map hex_byte (take 160 p))) ps ++
      [lit "total " ++ to_string (Z.of_nat (length ps)) ++ lit " samples"]).
Proof.
  intros Hr Hq Hf deadline Hc Hd ps. unfold dump_main.
  destruct (dump_loop_spec deadline n 1 fuel r 0 [] 0 Hr Hq Hf Hc Hd) as (r' & u' & E).
  fold deadline. rewrite (st_bind_Ok _ _ _ _ _ E). erewrite st_bind_Ok by reflexivity.
  eexists. split; [done|]. simpl. fold ps. do 2 f_equal. unfold dump_lines, sample_line.
  apply imap_ext. intros i p _. by rewrite Nat.add_0_l, dump_bytes_spec.
Qed.
End dump_facts.

(** Three samples, one of them while the program sleeps, one too late. *)
Lemma debug_raw_dumps_witness :
  let r := mk_reader_state true [[x00; x01]] (mk_sertype (lit "T")) in
  let more := fun (k : nat) (r : ReaderState) => mk_reader_state (known r) (queue r ++ [[xff]]) (mk_sertype (lit "T")) in
  exists w', dump_main (fun k => Z.of_nat k * 400000000)%Z more 1 1 5 (mk_taking r (0, []) 0) = (Ok (Some 0%Z), w') /\
    user w' = (2, [lit "sample 0 (2 bytes): 00 01"; lit "sample 1 (1 bytes): ff"; lit "total 2 samples"]).
Proof.
  intros r more.
  destruct (debug_raw_dumps (fun k => Z.of_nat k * 400000000)%Z more (fun _ => [[xff]]) 1) with
    (seconds := 1%Z) (n := 2) (fuel := 5) (r := r) as (w' & E & Hu).
  - intros k [kn q t] Hq Hp. simpl in Hp. apply map_eq_nil in Hp. subst q. by split_and!; [|vm_compute..].
  - done.
  - vm_compute. lia.
  - lia.
  - intros j Hj. lia.
  - lia.
  - exists w'. split; [exact E|]. rewrite Hu. vm_compute. reflexivity.
Defined.
